(** * AIVault: a shallow embedding of the vault core and its verified properties

    The development follows the JavaScript sources of the extension:
    - [Str], [JS], [Json], [Hex]  strings, values, exceptions, [JSON.parse] and
                                [JSON.stringify], [parseInt] and [toString(radix)]
    - [EncryptionModule]       the encryption module: key derivation, [encrypt], [decrypt],
                               the verification token; the cryptographic
                               primitives of the platform are parameters
    - [Reference]              an instance of those primitives
    - [App]                    src/js/app.js: [unlockVault], [lockVault],
                               [savePassword], [deletePassword], [deleteTOTP]
    - [PasswordSharingModule]  src/js/passwordSharing.js
    - [Sha1]                   SHA-1 and HMAC as the standards define them
    - [Md5], [Aes], [CryptoJS] the passphrase cipher of the CryptoJS library, on
                               which the sharing module relies
    - [TOTPModule]             the TOTP module, with RFC 4226 and RFC 6238 beside it
    - [Background]             src/js/background.js: [findCredentialsForUrl],
                               [isDomainMatch], [checkExpiringPasswords]
    - [PasswordGenerator]      the password generator: [generatePassword],
                               [validatePassword], [evaluateStrength]
    - [Generators]             [generateRandomPassword] of the encryption module and
                               [generateStrongPassword] of the content script
    - [Setup]                  src/js/app.js: [createVault]
    - [TotpDialog]             src/js/app.js: [saveTOTP]
    - [StorageModule]          the storage module on [localStorage]: the vault data and
                               its chunks, [clearAllData]

    Definitions come first; the statements proved about them follow in the
    second half of the file. *)

From Stdlib Require Import ZArith NArith List String Ascii Bool Lia Arith.
From Stdlib Require Permutation.
From Stdlib Require Import DecimalString.
From Stdlib Require DecimalPos DecimalFacts.
From Stdlib.Strings Require Import Byte.
Import ListNotations.
Set Warnings "-register-all".
Open Scope list_scope.
Open Scope string_scope.

(* ===================================================================== *)
(** * Part I: the embedding                                               *)
(* ===================================================================== *)

(** ** JavaScript string primitives

    A JavaScript string is modelled as a [string] whose characters are the
    code units U+0000 to U+00FF. *)
Module Str.

Definition code (c : ascii) : N := N_of_ascii c.

(** [String.prototype.toLowerCase] on one code unit of the Latin-1 range:
    A-Z and the accented capitals U+00C0..U+00DE (except the multiplication
    sign U+00D7) move 32 places up. *)
Definition lower_ascii (c : ascii) : ascii :=
  let n := code c in
  if ((65 <=? n) && (n <=? 90) || (192 <=? n) && (n <=? 222) && negb (n =? 215))%N
  then ascii_of_N (n + 32) else c.

Fixpoint toLowerCase (s : string) : string :=
  match s with
  | EmptyString => EmptyString
  | String c s' => String (lower_ascii c) (toLowerCase s')
  end.

(** [s.includes(sub)]: [sub] occurs in [s] at some position. *)
Fixpoint includes (s sub : string) : bool :=
  prefix sub s ||
  match s with
  | EmptyString => false
  | String _ s' => includes s' sub
  end.

(** [s.split(sep)] for a one-character separator; never the empty list. *)
Fixpoint split (sep : ascii) (s : string) : list string :=
  match s with
  | EmptyString => [EmptyString]
  | String c s' =>
      if Ascii.eqb c sep then EmptyString :: split sep s'
      else match split sep s' with
           | h :: t => String c h :: t
           | [] => [String c EmptyString]
           end
  end.

(** [parts.join(sep)] *)
Definition join (sep : string) (parts : list string) : string := concat sep parts.

(** Prop-level substring relation, used to state what [includes] decides. *)
Definition Substring (sub s : string) : Prop :=
  exists before after, s = before ++ sub ++ after.

Fixpoint contains_char (c : ascii) (s : string) : bool :=
  match s with
  | EmptyString => false
  | String d s' => Ascii.eqb d c || contains_char c s'
  end.

End Str.

(** ** JavaScript values, exceptions and coercions *)
Module JS.
Import Str.

(** Values as [JSON.parse] produces them and as the modelled code builds
    them.  A number [VNum m e] is the decimal [m / 10^e], kept in lowest
    terms ([e = 0] or [m] not divisible by ten); objects list their own
    properties in insertion order, each name once. *)
Inductive value :=
| VUndefined
| VNull
| VBool (b : bool)
| VNum (m : Z) (e : nat)
| VStr (s : string)
| VArr (items : list value)
| VObj (props : list (string * value)).

Definition VInt (n : Z) : value := VNum n 0.

(** Thrown values.  The modelled code only ever looks at [message]. *)
Inductive exn :=
| TypeError (message : string)
| SyntaxError (message : string)
| DOMException (message : string)
| Error (message : string).

Definition message (e : exn) : string :=
  match e with
  | TypeError m | SyntaxError m | DOMException m | Error m => m
  end.

Inductive result (A : Type) :=
| Ok (a : A)
| Throw (e : exn).
Arguments Ok {A} a.
Arguments Throw {A} e.

Definition bind {A B} (c : result A) (k : A -> result B) : result B :=
  match c with
  | Ok a => k a
  | Throw e => Throw e
  end.

(** [try { c } catch (error) { h error }] *)
Definition try_catch {A} (c : result A) (h : exn -> result A) : result A :=
  match c with
  | Ok a => Ok a
  | Throw e => h e
  end.

Definition is_empty (s : string) : bool :=
  match s with EmptyString => true | _ => false end.

(** ToBoolean *)
Definition truthy (v : value) : bool :=
  match v with
  | VUndefined | VNull => false
  | VBool b => b
  | VNum m _ => negb (m =? 0)%Z
  | VStr s => negb (is_empty s)
  | VArr _ | VObj _ => true
  end.

Fixpoint lookup (k : string) (props : list (string * value)) : option value :=
  match props with
  | [] => None
  | (k', v) :: rest => if String.eqb k k' then Some v else lookup k rest
  end.

Fixpoint update (k : string) (v : value) (props : list (string * value))
  : list (string * value) :=
  match props with
  | [] => [(k, v)]
  | (k', v') :: rest =>
      if String.eqb k k' then (k, v) :: rest else (k', v') :: update k v rest
  end.

(** The property read [v.k], for the data properties the modelled code names
    (none of which lives on a built-in prototype). *)
Definition get_prop (v : value) (k : string) : result value :=
  match v with
  | VUndefined | VNull => Throw (TypeError "Cannot read properties of null or undefined")
  | VObj props => Ok (match lookup k props with Some x => x | None => VUndefined end)
  | _ => Ok VUndefined
  end.

(** The assignment [v.k = x] in strict-mode code (class bodies are strict):
    it fails on primitives; an array accepts it but keeps no named
    properties in this model. *)
Definition set_prop (v : value) (k : string) (x : value) : result value :=
  match v with
  | VObj props => Ok (VObj (update k x props))
  | VArr items => Ok (VArr items)
  | VUndefined | VNull => Throw (TypeError "Cannot set properties of null or undefined")
  | _ => Throw (TypeError "Cannot create property on a primitive")
  end.

(** [a === b].  Objects and arrays compare by identity; values decoded from
    storage or built by separate literals are never the same object, so the
    comparison of two of them is [false]. *)
Definition strict_eq (a b : value) : bool :=
  match a, b with
  | VUndefined, VUndefined => true
  | VNull, VNull => true
  | VBool x, VBool y => Bool.eqb x y
  | VNum m e, VNum m' e' => (m =? m')%Z && (e =? e')%nat
  | VStr x, VStr y => String.eqb x y
  | _, _ => false
  end.

(** [s.padStart(n, c)] *)
Fixpoint repeat_char (c : ascii) (n : nat) : string :=
  match n with
  | O => EmptyString
  | S k => String c (repeat_char c k)
  end.

Definition padStart (n : nat) (c : ascii) (s : string) : string :=
  repeat_char c (n - String.length s) ++ s.

(** Decimal rendering of an integer, as [Number.prototype.toString()] gives
    it for integers. *)
Definition dec (z : Z) : string := DecimalString.NilZero.string_of_int (Z.to_int z).

(** Rendering of a number: integers in full, other decimals as integer part,
    point and fraction. *)
Definition num_to_string (m : Z) (e : nat) : string :=
  match e with
  | O => dec m
  | _ =>
      let a := Z.abs m in
      let p := (10 ^ Z.of_nat e)%Z in
      (if (m <? 0)%Z then "-" else "") ++ dec (a / p) ++ "."
        ++ padStart e "0"%char (dec (a mod p))
  end.

(** [Array.prototype.join] with the default separator, [f] rendering one
    element; [null] and [undefined] elements render as the empty string. *)
Fixpoint join_items (f : value -> result string) (l : list value) : result string :=
  match l with
  | [] => Ok ""
  | x :: rest =>
      bind (match x with
            | VUndefined | VNull => Ok ""
            | _ => f x
            end)
        (fun sx =>
           match rest with
           | [] => Ok sx
           | _ => bind (join_items f rest) (fun sr => Ok (sx ++ "," ++ sr))
           end)
  end.

(** ToString.  A plain object renders as [[object Object]] unless it has an
    own [toString] property: values decoded from JSON are never callable, so
    the conversion then finds no usable method and throws. *)
Fixpoint ToString (v : value) : result string :=
  match v with
  | VUndefined => Ok "undefined"
  | VNull => Ok "null"
  | VBool true => Ok "true"
  | VBool false => Ok "false"
  | VNum m e => Ok (num_to_string m e)
  | VStr s => Ok s
  | VArr items => join_items ToString items
  | VObj props =>
      match lookup "toString" props with
      | Some _ => Throw (TypeError "Cannot convert object to primitive value")
      | None => Ok "[object Object]"
      end
  end.

(** [Array.isArray] *)
Definition isArray (v : value) : bool :=
  match v with VArr _ => true | _ => false end.

(** The value of a decimal numeral read after [acc], most significant digit
    first. *)
Fixpoint uint_value (d : Decimal.uint) (acc : Z) : Z :=
  match d with
  | Decimal.Nil => acc
  | Decimal.D0 r => uint_value r (acc * 10)
  | Decimal.D1 r => uint_value r (acc * 10 + 1)
  | Decimal.D2 r => uint_value r (acc * 10 + 2)
  | Decimal.D3 r => uint_value r (acc * 10 + 3)
  | Decimal.D4 r => uint_value r (acc * 10 + 4)
  | Decimal.D5 r => uint_value r (acc * 10 + 5)
  | Decimal.D6 r => uint_value r (acc * 10 + 6)
  | Decimal.D7 r => uint_value r (acc * 10 + 7)
  | Decimal.D8 r => uint_value r (acc * 10 + 8)
  | Decimal.D9 r => uint_value r (acc * 10 + 9)
  end.

End JS.

(** ** JSON.parse and JSON.stringify *)
Module Json.
Import Str JS.

Definition dquote : ascii := "034"%char.
Definition backslash : ascii := "092"%char.

Definition is_ws (c : ascii) : bool :=
  let n := code c in ((n =? 32) || (n =? 9) || (n =? 10) || (n =? 13))%N.

Fixpoint skip_ws (s : string) : string :=
  match s with
  | EmptyString => EmptyString
  | String c s' => if is_ws c then skip_ws s' else s
  end.

Definition digit_of (c : ascii) : option Z :=
  let n := code c in
  if ((48 <=? n) && (n <=? 57))%N then Some (Z.of_N n - 48)%Z else None.

Definition hex_val (c : ascii) : option N :=
  let n := code c in
  if ((48 <=? n) && (n <=? 57))%N then Some (n - 48)%N
  else if ((97 <=? n) && (n <=? 102))%N then Some (n - 87)%N
  else if ((65 <=? n) && (n <=? 70))%N then Some (n - 55)%N
  else None.

(** Reads a run of decimal digits, accumulating its value and its length. *)
Fixpoint take_digits (s : string) (acc : Z) (count : nat) : Z * nat * string :=
  match s with
  | EmptyString => (acc, count, s)
  | String c s' =>
      match digit_of c with
      | Some d => take_digits s' (acc * 10 + d)%Z (S count)
      | None => (acc, count, s)
      end
  end.

Fixpoint normalize (m : Z) (scale : nat) : value :=
  match scale with
  | O => VNum m 0
  | S k => if (m mod 10 =? 0)%Z then normalize (m / 10)%Z k else VNum m scale
  end.

(** The number [m * 10^e10]. *)
Definition mk_num (m e10 : Z) : value :=
  if (0 <=? e10)%Z then VNum (m * 10 ^ e10)%Z 0 else normalize m (Z.to_nat (- e10)).

(** JSON number: [-]? int frac? exp?  The value is the decimal as written;
    [JSON.parse] rounds it to the nearest number of the double precision
    format, which is the same number exactly when [exact_number] holds
    (below).  The sign of zero is not kept. *)
Definition parse_number (s : string) : option (value * string) :=
  let '(neg, s1) :=
    match s with
    | String c r => if Ascii.eqb c "-"%char then (true, r) else (false, s)
    | EmptyString => (false, s)
    end in
  match s1 with
  | EmptyString => None
  | String c r =>
      match digit_of c with
      | None => None
      | Some d =>
          let '(ip, _, s2) := if (d =? 0)%Z then (0%Z, 1%nat, r) else take_digits r d 1 in
          let frac :=
            match s2 with
            | String c2 r2 =>
                if Ascii.eqb c2 "."%char
                then let '(m, n, s3) := take_digits r2 ip 0 in
                     if (n =? 0)%nat then None else Some (m, n, s3)
                else Some (ip, 0%nat, s2)
            | EmptyString => Some (ip, 0%nat, s2)
            end in
          match frac with
          | None => None
          | Some (m, fn, s3) =>
              let exp :=
                match s3 with
                | String c3 r3 =>
                    if Ascii.eqb c3 "e"%char || Ascii.eqb c3 "E"%char
                    then
                      let '(eneg, r4) :=
                        match r3 with
                        | String c4 r' =>
                            if Ascii.eqb c4 "-"%char then (true, r')
                            else if Ascii.eqb c4 "+"%char then (false, r')
                            else (false, r3)
                        | EmptyString => (false, r3)
                        end in
                      let '(ev, en, s5) := take_digits r4 0%Z 0 in
                      if (en =? 0)%nat then None
                      else Some ((if eneg then - ev else ev)%Z, s5)
                    else Some (0%Z, s3)
                | EmptyString => Some (0%Z, s3)
                end in
              match exp with
              | None => None
              | Some (ev, s5) =>
                  Some (mk_num (if neg then - m else m)%Z (ev - Z.of_nat fn)%Z, s5)
              end
          end
      end
  end.

Definition simple_escape (c : ascii) : option ascii :=
  let n := code c in
  if (n =? 34)%N then Some dquote
  else if (n =? 92)%N then Some backslash
  else if (n =? 47)%N then Some "/"%char
  else if (n =? 98)%N then Some "008"%char
  else if (n =? 102)%N then Some "012"%char
  else if (n =? 110)%N then Some "010"%char
  else if (n =? 114)%N then Some "013"%char
  else if (n =? 116)%N then Some "009"%char
  else None.

Definition hex4 (a b c d : ascii) : option N :=
  match hex_val a, hex_val b, hex_val c, hex_val d with
  | Some x, Some y, Some z, Some w => Some (((x * 16 + y) * 16 + z) * 16 + w)%N
  | _, _, _, _ => None
  end.

Definition cons_char (c : ascii) (r : option (string * string)) : option (string * string) :=
  match r with
  | Some (str, rest) => Some (String c str, rest)
  | None => None
  end.

(** The characters of a string literal after its opening quote, up to and
    including the closing quote.  Strings hold code units up to U+00FF: an
    escape [\uXXXX] above that, which [JSON.parse] decodes, has no string
    here and gives [None]; [scan_string_body] below accepts it, and
    [is_json] tells such a text from one that is not JSON. *)
Fixpoint parse_string_body (s : string) : option (string * string) :=
  match s with
  | EmptyString => None
  | String c s' =>
      if Ascii.eqb c dquote then Some (EmptyString, s')
      else if Ascii.eqb c backslash then
        match s' with
        | EmptyString => None
        | String e s'' =>
            match simple_escape e with
            | Some d => cons_char d (parse_string_body s'')
            | None =>
                if Ascii.eqb e "u"%char then
                  match s'' with
                  | String h1 (String h2 (String h3 (String h4 r))) =>
                      match hex4 h1 h2 h3 h4 with
                      | Some n =>
                          if (n <? 256)%N then cons_char (ascii_of_N n) (parse_string_body r)
                          else None
                      | None => None
                      end
                  | _ => None
                  end
                else None
            end
        end
      else if (code c <? 32)%N then None
      else cons_char c (parse_string_body s')
  end.

(** [expect lit s]: [s] without its prefix [lit]. *)
Fixpoint expect (lit s : string) : option string :=
  match lit with
  | EmptyString => Some s
  | String c lit' =>
      match s with
      | String d s' => if Ascii.eqb c d then expect lit' s' else None
      | EmptyString => None
      end
  end.

(** The elements of an array after the first bracket, [pv] parsing one value. *)
Fixpoint parse_elements (pv : string -> option (value * string)) (fuel : nat) (s : string)
  : option (list value * string) :=
  match fuel with
  | O => None
  | S f =>
      match pv s with
      | None => None
      | Some (v, r) =>
          match skip_ws r with
          | EmptyString => None
          | String c r' =>
              if Ascii.eqb c ","%char then
                match parse_elements pv f r' with
                | Some (vs, r'') => Some (v :: vs, r'')
                | None => None
                end
              else if Ascii.eqb c "]"%char then Some ([v], r')
              else None
          end
      end
  end.

(** The members of an object after the first brace, in the order of the
    text; a repeated name keeps its first position and takes the last value.
    JavaScript lists the names that are integer indices before the others:
    the order is that of the text when no name is [index_like] (below). *)
Fixpoint parse_members (pv : string -> option (value * string)) (fuel : nat) (s : string)
  : option (list (string * value) * string) :=
  match fuel with
  | O => None
  | S f =>
      match skip_ws s with
      | EmptyString => None
      | String q r0 =>
          if negb (Ascii.eqb q dquote) then None else
          match parse_string_body r0 with
          | None => None
          | Some (k, r1) =>
              match skip_ws r1 with
              | EmptyString => None
              | String colon r2 =>
                  if negb (Ascii.eqb colon ":"%char) then None else
                  match pv r2 with
                  | None => None
                  | Some (v, r3) =>
                      match skip_ws r3 with
                      | EmptyString => None
                      | String c r4 =>
                          if Ascii.eqb c ","%char then
                            match parse_members pv f r4 with
                            | Some (ms, r5) =>
                                Some ((k, match lookup k ms with Some v' => v' | None => v end)
                                        :: filter (fun kv => negb (String.eqb k (fst kv))) ms, r5)
                            | None => None
                            end
                          else if Ascii.eqb c "}"%char then Some ([(k, v)], r4)
                          else None
                      end
                  end
              end
          end
      end
  end.

(** One JSON value, preceded by optional white space; [fuel] bounds the
    nesting depth. *)
Fixpoint parse_value (fuel : nat) (s : string) : option (value * string) :=
  match fuel with
  | O => None
  | S f =>
      match skip_ws s with
      | EmptyString => None
      | String c r =>
          if Ascii.eqb c dquote then
            match parse_string_body r with
            | Some (str, r') => Some (VStr str, r')
            | None => None
            end
          else if Ascii.eqb c "["%char then
            match skip_ws r with
            | String c' r' =>
                if Ascii.eqb c' "]"%char then Some (VArr [], r')
                else match parse_elements (parse_value f) (S (String.length r)) r with
                     | Some (vs, r'') => Some (VArr vs, r'')
                     | None => None
                     end
            | EmptyString => None
            end
          else if Ascii.eqb c "{"%char then
            match skip_ws r with
            | String c' r' =>
                if Ascii.eqb c' "}"%char then Some (VObj [], r')
                else match parse_members (parse_value f) (S (String.length r)) r with
                     | Some (ms, r'') => Some (VObj ms, r'')
                     | None => None
                     end
            | EmptyString => None
            end
          else if Ascii.eqb c "t"%char then
            match expect "rue" r with Some r' => Some (VBool true, r') | None => None end
          else if Ascii.eqb c "f"%char then
            match expect "alse" r with Some r' => Some (VBool false, r') | None => None end
          else if Ascii.eqb c "n"%char then
            match expect "ull" r with Some r' => Some (VNull, r') | None => None end
          else parse_number (String c r)
      end
  end.

(** A complete JSON text: one value and nothing but white space after it.
    [None] on a text that is not JSON and on a JSON text with an escape above
    U+00FF; the result is what [JSON.parse] returns on the texts that are
    [modelled] (below). *)
Definition parse (s : string) : option value :=
  match parse_value (S (String.length s)) s with
  | Some (v, r) => if is_empty (skip_ws r) then Some v else None
  | None => None
  end.

(** [JSON.parse(text)]: the argument is converted to a string first. *)
Definition JSON_parse (text : value) : result value :=
  bind (ToString text) (fun s =>
    match parse s with
    | Some v => Ok v
    | None => Throw (SyntaxError "Unexpected token in JSON")
    end).

Definition hex_digit (n : N) : ascii :=
  if (n <? 10)%N then ascii_of_N (48 + n) else ascii_of_N (87 + n).

(** QuoteJSONString, one character. *)
Definition quote_char (c : ascii) : string :=
  let n := code c in
  if (n =? 34)%N then String backslash (String dquote EmptyString)
  else if (n =? 92)%N then String backslash (String backslash EmptyString)
  else if (n =? 8)%N then String backslash "b"
  else if (n =? 9)%N then String backslash "t"
  else if (n =? 10)%N then String backslash "n"
  else if (n =? 12)%N then String backslash "f"
  else if (n =? 13)%N then String backslash "r"
  else if (n <? 32)%N then
    String backslash (String "u" (String "0" (String "0"
      (String (hex_digit (n / 16)) (String (hex_digit (n mod 16)) EmptyString)))))
  else String c EmptyString.

Fixpoint quote_body (s : string) : string :=
  match s with
  | EmptyString => EmptyString
  | String c r => quote_char c ++ quote_body r
  end.

Definition quote (s : string) : string :=
  String dquote (quote_body s ++ String dquote EmptyString).

(** [JSON.stringify(v)]; [None] is the result [undefined]. *)
Fixpoint stringify (v : value) : option string :=
  match v with
  | VUndefined => None
  | VNull => Some "null"
  | VBool true => Some "true"
  | VBool false => Some "false"
  | VNum m e => Some (num_to_string m e)
  | VStr s => Some (quote s)
  | VArr items =>
      Some ("[" ++ join ","
              (map (fun x => match stringify x with Some t => t | None => "null" end) items)
            ++ "]")
  | VObj props =>
      Some ("{" ++ join ","
              ((fix members (l : list (string * value)) : list string :=
                  match l with
                  | [] => []
                  | (k, x) :: rest =>
                      match stringify x with
                      | Some t => (quote k ++ ":" ++ t) :: members rest
                      | None => members rest
                      end
                  end) props)
            ++ "}")
  end.

(** [JSON.stringify] of an object literal, which is always a string. *)
Definition stringify_object (props : list (string * value)) : string :=
  match stringify (VObj props) with
  | Some s => s
  | None => EmptyString
  end.

(** *** Notions the proofs use *)

Fixpoint distinct (keys : list string) : bool :=
  match keys with
  | [] => true
  | k :: rest => negb (existsb (String.eqb k) rest) && distinct rest
  end.

(** Values that [JSON.stringify] writes in full: no [undefined] anywhere,
    whole numbers only, and the names of an object all different. *)
Fixpoint plain (v : value) : bool :=
  match v with
  | VUndefined => false
  | VNull | VBool _ | VStr _ => true
  | VNum _ e => (e =? 0)%nat
  | VArr items => forallb plain items
  | VObj props => distinct (map fst props) && forallb (fun kv => plain (snd kv)) props
  end.

(** The text of a value inside an array. *)
Definition text (v : value) : string :=
  match stringify v with Some t => t | None => "null" end.

(** The text of one member of an object. *)
Definition member_text (kv : string * value) : string :=
  quote (fst kv) ++ ":" ++ text (snd kv).

(** What may follow a value inside a JSON text. *)
Definition delimited (rest : string) : bool :=
  match rest with
  | EmptyString => true
  | String c _ => Ascii.eqb c ","%char || Ascii.eqb c "]"%char || Ascii.eqb c "}"%char
  end.

(** *** The whole of the JSON grammar

    [parse] yields [None] on a text that is not JSON, and also on a JSON
    text that the values above cannot hold (an escape above U+00FF).  The
    recogniser below accepts the whole grammar of [JSON.parse]; it tells the
    two apart. *)

(** What follows a string literal's body: any four hexadecimal digits are
    an escape. *)
Fixpoint scan_string_body (s : string) : option string :=
  match s with
  | EmptyString => None
  | String c s' =>
      if Ascii.eqb c dquote then Some s'
      else if Ascii.eqb c backslash then
        match s' with
        | EmptyString => None
        | String e s'' =>
            match simple_escape e with
            | Some _ => scan_string_body s''
            | None =>
                if Ascii.eqb e "u"%char then
                  match s'' with
                  | String h1 (String h2 (String h3 (String h4 r))) =>
                      match hex4 h1 h2 h3 h4 with
                      | Some _ => scan_string_body r
                      | None => None
                      end
                  | _ => None
                  end
                else None
            end
        end
      else if (code c <? 32)%N then None
      else scan_string_body s'
  end.

Fixpoint scan_elements (sv : string -> option string) (fuel : nat) (s : string)
  : option string :=
  match fuel with
  | O => None
  | S f =>
      match sv s with
      | None => None
      | Some r =>
          match skip_ws r with
          | EmptyString => None
          | String c r' =>
              if Ascii.eqb c ","%char then scan_elements sv f r'
              else if Ascii.eqb c "]"%char then Some r'
              else None
          end
      end
  end.

Fixpoint scan_members (sv : string -> option string) (fuel : nat) (s : string)
  : option string :=
  match fuel with
  | O => None
  | S f =>
      match skip_ws s with
      | EmptyString => None
      | String q r0 =>
          if negb (Ascii.eqb q dquote) then None else
          match scan_string_body r0 with
          | None => None
          | Some r1 =>
              match skip_ws r1 with
              | EmptyString => None
              | String colon r2 =>
                  if negb (Ascii.eqb colon ":"%char) then None else
                  match sv r2 with
                  | None => None
                  | Some r3 =>
                      match skip_ws r3 with
                      | EmptyString => None
                      | String c r4 =>
                          if Ascii.eqb c ","%char then scan_members sv f r4
                          else if Ascii.eqb c "}"%char then Some r4
                          else None
                      end
                  end
              end
          end
      end
  end.

Fixpoint scan_value (fuel : nat) (s : string) : option string :=
  match fuel with
  | O => None
  | S f =>
      match skip_ws s with
      | EmptyString => None
      | String c r =>
          if Ascii.eqb c dquote then scan_string_body r
          else if Ascii.eqb c "["%char then
            match skip_ws r with
            | String c' r' =>
                if Ascii.eqb c' "]"%char then Some r'
                else scan_elements (scan_value f) (S (String.length r)) r
            | EmptyString => None
            end
          else if Ascii.eqb c "{"%char then
            match skip_ws r with
            | String c' r' =>
                if Ascii.eqb c' "}"%char then Some r'
                else scan_members (scan_value f) (S (String.length r)) r
            | EmptyString => None
            end
          else if Ascii.eqb c "t"%char then expect "rue" r
          else if Ascii.eqb c "f"%char then expect "alse" r
          else if Ascii.eqb c "n"%char then expect "ull" r
          else match parse_number (String c r) with
               | Some (_, r') => Some r'
               | None => None
               end
      end
  end.

(** [text] is a JSON text: [JSON.parse(text)] does not throw. *)
Definition is_json (s : string) : bool :=
  match scan_value (S (String.length s)) s with
  | Some r => is_empty (skip_ws r)
  | None => false
  end.

(** A decimal that is a number of the double precision format: a whole
    number up to 2^53 in size, or such a number divided by a power of two. *)
Definition exact_number (m : Z) (e : nat) : bool :=
  let p := (5 ^ Z.of_nat e)%Z in
  (Z.abs m mod p =? 0)%Z && (Z.abs m / p <=? 2 ^ 53)%Z && (e <=? 1074)%nat.

Fixpoint all_digits (s : string) : bool :=
  match s with
  | EmptyString => true
  | String c r =>
      match digit_of c with Some _ => all_digits r | None => false end
  end.

(** A property name that JavaScript treats as an integer index (such
    properties are listed before the others, in numeric order). *)
Definition index_like (k : string) : bool := negb (is_empty k) && all_digits k.

(** The values that stand for what [JSON.parse] returns as it is: every
    number is one of the double precision format, and no object has a name
    that is an integer index, so that the order of the members is the order
    of the text. *)
Fixpoint exact (v : value) : bool :=
  match v with
  | VUndefined => false
  | VNull | VBool _ | VStr _ => true
  | VNum m e => exact_number m e
  | VArr items => forallb exact items
  | VObj props =>
      forallb (fun kv => negb (index_like (fst kv)) && exact (snd kv)) props
  end.

(** The texts on which [parse] is [JSON.parse]: those that are not JSON, and
    the JSON texts whose value is [exact]. *)
Definition modelled (s : string) : bool :=
  match parse s with
  | Some v => exact v
  | None => negb (is_json s)
  end.


End Json.

(** ** Numbers in a radix, hexadecimal strings and byte arrays *)
Module Hex.
Import Str JS.

(** The digit characters 0-9a-z of [Number.prototype.toString(radix)]. *)
Definition digit_char (d : N) : ascii :=
  if (d <? 10)%N then ascii_of_N (48 + d) else ascii_of_N (87 + d).

Fixpoint toString_radix_aux (fuel : nat) (radix n : N) (acc : string) : string :=
  match fuel with
  | O => acc
  | S f =>
      let acc' := String (digit_char (n mod radix)) acc in
      if (n / radix =? 0)%N then acc' else toString_radix_aux f radix (n / radix) acc'
  end.

(** [n.toString(radix)] for a non-negative integer [n]. *)
Definition toString_radix (radix n : N) : string :=
  toString_radix_aux (S (N.to_nat (N.log2 n))) radix n EmptyString.

Definition digit_val (c : ascii) : option N :=
  let n := code c in
  if ((48 <=? n) && (n <=? 57))%N then Some (n - 48)%N
  else if ((97 <=? n) && (n <=? 122))%N then Some (n - 87)%N
  else if ((65 <=? n) && (n <=? 90))%N then Some (n - 55)%N
  else None.

(** White space that [parseInt] skips at the start of its argument. *)
Definition is_js_space (c : ascii) : bool :=
  let n := code c in
  ((9 <=? n) && (n <=? 13) || (n =? 32) || (n =? 160))%N.

Fixpoint trim_start (s : string) : string :=
  match s with
  | EmptyString => EmptyString
  | String c s' => if is_js_space c then trim_start s' else s
  end.

Fixpoint trim_end (s : string) : string :=
  match s with
  | EmptyString => EmptyString
  | String c r =>
      let r' := trim_end r in
      if is_js_space c && is_empty r' then EmptyString else String c r'
  end.

(** [s.trim()] *)
Definition trim (s : string) : string := trim_end (trim_start s).

(** The longest prefix of digits of the radix: its value, if it is not empty. *)
Fixpoint read_digits (radix : N) (s : string) (acc : option N) : option N :=
  match s with
  | EmptyString => acc
  | String c s' =>
      match digit_val c with
      | Some d =>
          if (d <? radix)%N
          then read_digits radix s' (Some (match acc with Some a => a * radix + d | None => d end)%N)
          else acc
      | None => acc
      end
  end.

Definition strip_0x (s : string) : string :=
  match s with
  | String z (String x r) =>
      if Ascii.eqb z "0"%char && (Ascii.eqb x "x"%char || Ascii.eqb x "X"%char) then r else s
  | _ => s
  end.

(** [parseInt(s, radix)] for radix 2..36; [None] is NaN. *)
Definition parseInt (radix : N) (s : string) : option Z :=
  let s0 := trim_start s in
  let '(neg, s1) :=
    match s0 with
    | String c r =>
        if Ascii.eqb c "-"%char then (true, r)
        else if Ascii.eqb c "+"%char then (false, r)
        else (false, s0)
    | EmptyString => (false, s0)
    end in
  let s2 := if (radix =? 16)%N then strip_0x s1 else s1 in
  match read_digits radix s2 None with
  | Some n => Some (if neg then - Z.of_N n else Z.of_N n)%Z
  | None => None
  end.

(** Storing a number into a [Uint8Array]: NaN becomes 0, integers wrap. *)
Definition ToUint8 (n : option Z) : byte :=
  match n with
  | Some z => match Byte.of_N (Z.to_N (z mod 256)) with Some b => b | None => x00 end
  | None => x00
  end.

(** [b.toString(16).padStart(2, '0')] *)
Definition byte_hex (b : byte) : string :=
  padStart 2 "0"%char (toString_radix 16 (Byte.to_N b)).

(** [Array.from(bytes).map(b => b.toString(16).padStart(2, '0')).join('')] *)
Definition hex_of_bytes (bs : list byte) : string :=
  join "" (map byte_hex bs).

Definition is_line_terminator (c : ascii) : bool :=
  let n := code c in ((n =? 10) || (n =? 13))%N.

(** [s.match(/.{1,2}/g)]: greedy groups of one or two characters other than
    line terminators; the empty list stands for the result [null]. *)
Fixpoint match_chunks (s : string) : list string :=
  match s with
  | EmptyString => []
  | String c s' =>
      if is_line_terminator c then match_chunks s'
      else
        match s' with
        | EmptyString => [String c EmptyString]
        | String d s'' =>
            if is_line_terminator d then String c EmptyString :: match_chunks s''
            else String c (String d EmptyString) :: match_chunks s''
        end
  end.

(** [new Uint8Array(v.match(/.{1,2}/g).map(byte => parseInt(byte, 16)))] *)
Definition bytes_of_hex (v : value) : result (list byte) :=
  match v with
  | VStr s =>
      match match_chunks s with
      | [] => Throw (TypeError "Cannot read properties of null (reading 'map')")
      | chunks => Ok (map (fun chunk => ToUint8 (parseInt 16 chunk)) chunks)
      end
  | VUndefined | VNull => Throw (TypeError "Cannot read properties of undefined (reading 'match')")
  | _ => Throw (TypeError "match is not a function")
  end.

End Hex.

(** ** EncryptionModule *)
Module EncryptionModule.
Import Str JS Json Hex.

(** What [masterKey.key] can hold: a WebCrypto [CryptoKey] or a CryptoJS
    [WordArray]; both are represented by their raw bytes. *)
Inductive KeyObject :=
| CryptoKey (raw : list byte)
| WordArray (bytes : list byte).

Record MasterKey := mkMasterKey {
  key : KeyObject;
  useWebCrypto : bool
}.

(** The primitives the module calls on the platform and on CryptoJS.  Each
    field stands for the call sequence named in its comment. *)
Record Platform := mkPlatform {
  (* window.crypto && window.crypto.subtle *)
  has_subtle : bool;
  (* new TextEncoder().encode(s) *)
  TextEncoder_encode : string -> list byte;
  (* new TextDecoder().decode(buffer) *)
  TextDecoder_decode : list byte -> string;
  (* importKey('raw', password, PBKDF2) then deriveKey(PBKDF2 with the salt,
     100000 iterations, SHA-256, AES-GCM 256) then exportKey('raw') *)
  subtle_deriveKey : list byte -> list byte -> result (list byte);
  (* crypto.subtle.encrypt({name: 'AES-GCM', iv, tagLength: 128}, key, data) *)
  subtle_encrypt : KeyObject -> list byte -> list byte -> result (list byte);
  (* crypto.subtle.decrypt({name: 'AES-GCM', iv, tagLength: 128}, key, data) *)
  subtle_decrypt : KeyObject -> list byte -> list byte -> result (list byte);
  (* CryptoJS.PBKDF2(password, salt, {keySize: 8, iterations: 100000, SHA256}) *)
  CryptoJS_PBKDF2 : string -> string -> list byte;
  (* CryptoJS.AES.encrypt(text, key, {iv, Pkcs7, CBC}).toString() *)
  CryptoJS_AES_encrypt : string -> KeyObject -> list byte -> result string;
  (* CryptoJS.AES.decrypt(data, key, {iv: CryptoJS.enc.Hex.parse(iv), Pkcs7, CBC})
       .toString(CryptoJS.enc.Utf8) *)
  CryptoJS_AES_decrypt : value -> KeyObject -> value -> result string
}.

(** The random values one call of [encrypt] may draw: the 12 bytes of
    [getRandomValues], the 16 bytes of [WordArray.random] on the CryptoJS
    path, and the 16 bytes drawn again when the [catch] block runs. *)
Record Entropy := mkEntropy {
  iv12 : list byte;
  iv16 : list byte;
  iv16_retry : list byte
}.

Definition salt : string := "AIVault-Static-Salt-For-Consistency".
Definition marker : string := "AIVault-Verification-".

Definition cryptojs_key (P : Platform) (masterPassword : string) : MasterKey :=
  {| key := WordArray (CryptoJS_PBKDF2 P masterPassword salt); useWebCrypto := false |}.

(** [deriveMasterKey(masterPassword)] (the fields [keyBytes] and [keyString]
    of the result are never read and are left out). *)
Definition deriveMasterKey (P : Platform) (masterPassword : string) : MasterKey :=
  if has_subtle P then
    match subtle_deriveKey P (TextEncoder_encode P masterPassword) (TextEncoder_encode P salt) with
    | Ok raw => {| key := CryptoKey raw; useWebCrypto := true |}
    | Throw _ => cryptojs_key P masterPassword
    end
  else cryptojs_key P masterPassword.

(** The envelope [{iv, data, version: 1}] after [JSON.stringify]. *)
Definition envelope (iv data : string) : string :=
  stringify_object [("iv", VStr iv); ("data", VStr data); ("version", VInt 1)].

(** The text of the envelope after its opening brace, written out. *)
Definition members_text (iv data : string) : string :=
  String dquote (quote_body "iv" ++ String dquote (String ":" (String dquote (quote_body iv ++
    String dquote (String "," (String dquote (quote_body "data" ++ String dquote (String ":"
    (String dquote (quote_body data ++
    String dquote (String "," (String dquote ("version" ++ String dquote (String ":" "1}")))))))))))))).

Definition encrypt_cryptojs (P : Platform) (dataString : string) (k : KeyObject)
    (iv : list byte) : result string :=
  bind (CryptoJS_AES_encrypt P dataString k iv) (fun encrypted =>
    Ok (envelope (hex_of_bytes iv) encrypted)).

(** [encrypt(data, masterKey)].  When [JSON.stringify(data)] is [undefined]
    both back ends encrypt the empty message. *)
Definition encrypt (P : Platform) (data : value) (masterKey : MasterKey) (rnd : Entropy)
  : result string :=
  let dataString :=
    match data with
    | VStr s => s
    | _ => match stringify data with Some s => s | None => EmptyString end
    end in
  try_catch
    (if useWebCrypto masterKey then
       bind (subtle_encrypt P (key masterKey) (iv12 rnd) (TextEncoder_encode P dataString))
         (fun encryptedBuffer =>
            Ok (envelope (hex_of_bytes (iv12 rnd)) (hex_of_bytes encryptedBuffer)))
     else encrypt_cryptojs P dataString (key masterKey) (iv16 rnd))
    (fun _ => encrypt_cryptojs P dataString (key masterKey) (iv16_retry rnd)).

(** [try { return JSON.parse(text) } catch { return text }] *)
Definition parse_or_text (text : string) : value :=
  match parse text with
  | Some v => v
  | None => VStr text
  end.

(** [decrypt(encryptedData, masterKey)] *)
Definition decrypt (P : Platform) (encryptedData : value) (masterKey : MasterKey)
  : result value :=
  try_catch
    (bind (JSON_parse encryptedData) (fun encryptedObj =>
     bind (get_prop encryptedObj "iv") (fun iv =>
     bind (get_prop encryptedObj "data") (fun data =>
     bind (get_prop encryptedObj "version") (fun _ =>
       if useWebCrypto masterKey then
         bind (bytes_of_hex iv) (fun ivArray =>
         bind (bytes_of_hex data) (fun encryptedArray =>
         bind (subtle_decrypt P (key masterKey) ivArray encryptedArray) (fun decryptedBuffer =>
           Ok (parse_or_text (TextDecoder_decode P decryptedBuffer)))))
       else
         bind (CryptoJS_AES_decrypt P data (key masterKey) iv) (fun decryptedString =>
           Ok (parse_or_text decryptedString)))))))
    (fun _ => Throw (Error "Failed to decrypt data. Possible incorrect password or corrupted data.")).

(** [createVerificationString(masterPassword)], [now] being [Date.now()]. *)
Definition createVerificationString (P : Platform) (masterPassword : string) (now : Z)
    (rnd : Entropy) : result string :=
  encrypt P (VStr (marker ++ dec now)) (deriveMasterKey P masterPassword) rnd.

(** The call [decrypted.startsWith(prefix)] on a truthy value: only strings
    have the method. *)
Definition call_startsWith (v : value) (p : string) : result value :=
  match v with
  | VStr s => Ok (VBool (prefix p s))
  | _ => Throw (TypeError "decrypted.startsWith is not a function")
  end.

(** [verifyMasterPassword(masterPassword, verificationString)] *)
Definition verifyMasterPassword (P : Platform) (masterPassword : string)
    (verificationString : value) : result value :=
  try_catch
    (bind (decrypt P verificationString (deriveMasterKey P masterPassword)) (fun decrypted =>
       if truthy decrypted then call_startsWith decrypted marker else Ok decrypted))
    (fun _ => Ok (VBool false)).

(** What the module assumes of its primitives: text encoding round-trips, and
    each cipher decrypts what it encrypted under the same key and IV (an
    AES-GCM ciphertext carries its tag, so it is never empty) and accepts IVs
    of its length. *)
Record PlatformOK (P : Platform) : Prop := {
  utf8_roundtrip : forall s, TextDecoder_decode P (TextEncoder_encode P s) = s;
  gcm_runs : forall k iv m, List.length iv = 12%nat ->
    exists c, subtle_encrypt P (CryptoKey k) iv m = Ok c;
  gcm_correct : forall k iv m c, subtle_encrypt P (CryptoKey k) iv m = Ok c ->
    c <> [] /\ subtle_decrypt P (CryptoKey k) iv c = Ok m;
  cbc_runs : forall k iv m, List.length iv = 16%nat ->
    exists c, CryptoJS_AES_encrypt P m (WordArray k) iv = Ok c;
  cbc_correct : forall k iv m c, CryptoJS_AES_encrypt P m (WordArray k) iv = Ok c ->
    CryptoJS_AES_decrypt P (VStr c) (WordArray k) (VStr (hex_of_bytes iv)) = Ok m
}.

(** A master key as [deriveMasterKey] builds them. *)
Definition well_formed (masterKey : MasterKey) : bool :=
  match key masterKey with
  | CryptoKey _ => useWebCrypto masterKey
  | WordArray _ => negb (useWebCrypto masterKey)
  end.

End EncryptionModule.

(** ** A platform to run the model on

    A transparent stand-in for the cryptographic primitives (no real AES or
    PBKDF2): a ciphertext is the message with a 16-byte tag built from the key
    and the IV, and decryption checks the tag.  It satisfies [PlatformOK] and
    lets the model be evaluated on concrete inputs. *)
Module Reference.
Import Str JS Json Hex EncryptionModule.

Fixpoint bytes_eqb (a b : list byte) : bool :=
  match a, b with
  | [], [] => true
  | x :: a', y :: b' => Byte.eqb x y && bytes_eqb a' b'
  | _, _ => false
  end.

Fixpoint drop (n : nat) (s : string) : string :=
  match n, s with
  | S k, String _ s' => drop k s'
  | _, _ => s
  end.

Definition tag (k iv : list byte) : list byte :=
  firstn 16 (k ++ iv ++ repeat x00 16)%list.

Definition kdf (password saltBytes : list byte) : list byte :=
  firstn 32 (password ++ saltBytes ++ repeat x00 32)%list.

Definition gcm_encrypt (k : KeyObject) (iv m : list byte) : result (list byte) :=
  match k with
  | CryptoKey raw =>
      if (List.length iv =? 12)%nat then Ok (m ++ tag raw iv)%list
      else Throw (DOMException "OperationError")
  | WordArray _ => Throw (TypeError "parameter 2 is not of type 'CryptoKey'")
  end.

Definition gcm_decrypt (k : KeyObject) (iv c : list byte) : result (list byte) :=
  match k with
  | CryptoKey raw =>
      let n := (List.length c - 16)%nat in
      if (16 <=? List.length c)%nat && bytes_eqb (skipn n c) (tag raw iv)
      then Ok (firstn n c)
      else Throw (DOMException "OperationError")
  | WordArray _ => Throw (TypeError "parameter 2 is not of type 'CryptoKey'")
  end.

Definition cbc_encrypt (m : string) (k : KeyObject) (iv : list byte) : result string :=
  match k with
  | WordArray raw =>
      if (List.length iv =? 16)%nat then Ok (hex_of_bytes (tag raw iv) ++ m)
      else Throw (Error "invalid IV")
  | CryptoKey _ => Throw (TypeError "key is not a WordArray")
  end.

Definition cbc_decrypt (data : value) (k : KeyObject) (iv : value) : result string :=
  match data, k with
  | VStr c, WordArray raw =>
      bind (bytes_of_hex iv) (fun ivBytes =>
        let t := hex_of_bytes (tag raw ivBytes) in
        if prefix t c then Ok (drop (String.length t) c)
        else Throw (Error "Malformed UTF-8 data"))
  | _, _ => Throw (TypeError "invalid ciphertext or key")
  end.

Definition platform (subtle : bool) : Platform :=
  {| has_subtle := subtle;
     TextEncoder_encode := list_byte_of_string;
     TextDecoder_decode := string_of_list_byte;
     subtle_deriveKey := fun password saltBytes => Ok (kdf password saltBytes);
     subtle_encrypt := gcm_encrypt;
     subtle_decrypt := gcm_decrypt;
     CryptoJS_PBKDF2 := fun password saltText =>
       kdf (list_byte_of_string password) (list_byte_of_string saltText);
     CryptoJS_AES_encrypt := cbc_encrypt;
     CryptoJS_AES_decrypt := cbc_decrypt |}.

Definition entropy : Entropy :=
  {| iv12 := [x01; x02; x03; x04; x05; x06; x07; x08; x09; x0a; x0b; x0c];
     iv16 := [x10; x11; x12; x13; x14; x15; x16; x17; x18; x19; x1a; x1b; x1c; x1d; x1e; x1f];
     iv16_retry := [x20; x21; x22; x23; x24; x25; x26; x27; x28; x29; x2a; x2b; x2c; x2d; x2e; x2f] |}.

(** What [saveVaultData] stores for a collection: the envelope of its JSON
    text under the key derived from the master password ([null] if
    encryption fails). *)
Definition stored_collection (P : Platform) (masterPassword : string) (items : list value)
  : value :=
  match stringify (VArr items) with
  | Some text =>
      match encrypt P (VStr text) (deriveMasterKey P masterPassword) entropy with
      | Ok blob => VStr blob
      | Throw _ => VNull
      end
  | None => VNull
  end.

Definition stored_verification (P : Platform) (masterPassword : string) (now : Z) : value :=
  match createVerificationString P masterPassword now entropy with
  | Ok token => VStr token
  | Throw _ => VNull
  end.

End Reference.

(** ** app.js: the vault session *)
Module App.
Import Str JS Json Hex EncryptionModule.

(** The fields of the [App] object that the vault operations use.  The three
    collections are JavaScript arrays of decoded values. *)
Record state := mkState {
  passwords : list value;
  masterPassword : option string;
  isVaultUnlocked : bool;
  totpSecrets : list value;
  sharedPasswords : list value;
  selectedPassword : option value
}.

(** What an operation does to its collaborators (storage, the background
    script, the user interface), in the order it happens. *)
Inductive event :=
| PersistVault (passwords totpSecrets sharedPasswords : list value)
| SendMessage (action : string) (passwords : list value)
| RenderPasswordList (passwords : list value)
| RenderTOTPCodes
| CheckExpiringPasswords
| ShowTOTPModal
| CloseModal (name : string)
| ShowScreen (name : string)
| ShowMessage (text : string)
| Alert (text : string).

(** Operations thread the [App] object, log their effects and may throw. *)
Definition M (A : Type) : Type := state -> state * list event * result A.

Definition ret {A} (a : A) : M A := fun s => (s, [], Ok a).

Definition bindM {A B} (c : M A) (k : A -> M B) : M B :=
  fun s =>
    match c s with
    | (s1, ev1, Ok a) =>
        match k a s1 with
        | (s2, ev2, r) => (s2, (ev1 ++ ev2)%list, r)
        end
    | (s1, ev1, Throw e) => (s1, ev1, Throw e)
    end.

Definition catch {A} (c : M A) (h : exn -> M A) : M A :=
  fun s =>
    match c s with
    | (s1, ev1, Ok a) => (s1, ev1, Ok a)
    | (s1, ev1, Throw e) =>
        match h e s1 with
        | (s2, ev2, r) => (s2, (ev1 ++ ev2)%list, r)
        end
    end.

Definition lift {A} (r : result A) : M A := fun s => (s, [], r).
Definition emit (e : event) : M unit := fun s => (s, [e], Ok tt).
Definition get : M state := fun s => (s, [], Ok s).
Definition put (s' : state) : M unit := fun _ => (s', [], Ok tt).

Notation "x <- c ;; k" := (bindM c (fun x => k))
  (at level 61, c at next level, right associativity).
Notation "c ;;; k" := (bindM c (fun _ => k))
  (at level 61, right associativity).

Definition set_passwords (l : list value) : M unit :=
  fun s => (mkState l (masterPassword s) (isVaultUnlocked s) (totpSecrets s)
              (sharedPasswords s) (selectedPassword s), [], Ok tt).

Definition set_totpSecrets (l : list value) : M unit :=
  fun s => (mkState (passwords s) (masterPassword s) (isVaultUnlocked s) l
              (sharedPasswords s) (selectedPassword s), [], Ok tt).

Definition set_sharedPasswords (l : list value) : M unit :=
  fun s => (mkState (passwords s) (masterPassword s) (isVaultUnlocked s) (totpSecrets s)
              l (selectedPassword s), [], Ok tt).

Definition set_selectedPassword (v : option value) : M unit :=
  fun s => (mkState (passwords s) (masterPassword s) (isVaultUnlocked s) (totpSecrets s)
              (sharedPasswords s) v, [], Ok tt).

Definition set_session (pw : option string) (unlocked : bool) : M unit :=
  fun s => (mkState (passwords s) pw unlocked (totpSecrets s)
              (sharedPasswords s) (selectedPassword s), [], Ok tt).

(** [array.splice(index, 1)] for an index inside the array *)
Definition remove_at (index : nat) (l : list value) : list value :=
  (firstn index l ++ skipn (S index) l)%list.

(** [array[index] = v] for an index inside the array *)
Definition replace_at (index : nat) (v : value) (l : list value) : list value :=
  (firstn index l ++ v :: skipn (S index) l)%list.

(** [array[i] = v]: inside the array the element is replaced, beyond its end
    the array grows (the skipped places read as [undefined]); a negative or
    NaN index leaves the elements alone. *)
Definition array_set (l : list value) (i : option Z) (v : value) : list value :=
  match i with
  | Some z =>
      if (z <? 0)%Z then l
      else let n := Z.to_nat z in
           if (n <? List.length l)%nat then replace_at n v l
           else (l ++ repeat VUndefined (n - List.length l) ++ [v])%list
  | None => l
  end.

(** [array.findIndex(p)], [p] possibly throwing *)
Fixpoint findIndex (p : value -> result bool) (l : list value) (i : nat)
  : result (option nat) :=
  match l with
  | [] => Ok None
  | x :: rest =>
      bind (p x) (fun b => if b then Ok (Some i) else findIndex p rest (S i))
  end.

(** [a.website === b.website && a.username === b.username] *)
Definition same_account (a b : value) : result bool :=
  bind (get_prop a "website") (fun aw =>
  bind (get_prop b "website") (fun bw =>
    if strict_eq aw bw then
      bind (get_prop a "username") (fun au =>
      bind (get_prop b "username") (fun bu => Ok (strict_eq au bu)))
    else Ok false)).

(** [parseInt(s)] without a radix: 16 after a [0x] prefix, 10 otherwise. *)
Definition parseInt_default (s : string) : option Z :=
  let s0 := trim_start s in
  let s1 := match s0 with
            | String c r =>
                if Ascii.eqb c "-"%char || Ascii.eqb c "+"%char then r else s0
            | EmptyString => s0
            end in
  match s1 with
  | String z (String x _) =>
      if Ascii.eqb z "0"%char && (Ascii.eqb x "x"%char || Ascii.eqb x "X"%char)
      then parseInt 16 s else parseInt 10 s
  | _ => parseInt 10 s
  end.

(** [saveVaultData()]: nothing without an unlocked session and a master
    password; otherwise the three collections are encrypted and stored. *)
Definition saveVaultData : M unit :=
  s <- get ;;
  if negb (isVaultUnlocked s)
     || negb (match masterPassword s with Some pw => negb (is_empty pw) | None => false end)
  then ret tt
  else emit (PersistVault (passwords s) (totpSecrets s) (sharedPasswords s)).

(** [showTOTPModal()] *)
Definition showTOTPModal : M unit :=
  s <- get ;;
  if negb (isVaultUnlocked s) then ret tt else emit ShowTOTPModal.

(** The inputs of the password dialog that [savePassword] reads. *)
Record PasswordForm := mkPasswordForm {
  websiteInput : string;
  usernameInput : string;
  passwordInput : string;
  setupTOTP : bool;
  dataset_editing : option string;
  dataset_editIndex : option string
}.

(** [savePassword()], [now] being [Date.now()]. *)
Definition savePassword (form : PasswordForm) (now : Z) : M unit :=
  s <- get ;;
  if negb (isVaultUnlocked s) then ret tt else
  let website := trim (websiteInput form) in
  let username := trim (usernameInput form) in
  let password := passwordInput form in
  if is_empty website || is_empty username || is_empty password
  then emit (Alert "Please fill in all fields.")
  else
    let passwordObj :=
      VObj [("website", VStr website); ("username", VStr username);
            ("password", VStr password); ("lastUpdated", VInt now);
            ("hasTOTP", VBool (setupTOTP form))] in
    let isEditing :=
      match dataset_editing form with Some t => String.eqb t "true" | None => false end in
    let editIndex :=
      parseInt_default (match dataset_editIndex form with Some t => t | None => "undefined" end) in
    set_passwords (if isEditing then array_set (passwords s) editIndex passwordObj
                   else (passwords s ++ [passwordObj])%list) ;;;
    saveVaultData ;;;
    s1 <- get ;;
    emit (SendMessage "updatePasswords" (passwords s1)) ;;;
    emit (RenderPasswordList (passwords s1)) ;;;
    (if setupTOTP form
     then set_selectedPassword (Some passwordObj) ;;; showTOTPModal
     else ret tt) ;;;
    emit (CloseModal "passwordModal").

(** [deletePassword(index)] *)
Definition deletePassword (index : Z) : M unit :=
  s <- get ;;
  if negb (isVaultUnlocked s) || (index <? 0)%Z
     || (Z.of_nat (List.length (passwords s)) <=? index)%Z
  then ret tt
  else
    let i := Z.to_nat index in
    let password := nth i (passwords s) VUndefined in
    set_passwords (remove_at i (passwords s)) ;;;
    hasTOTP <- lift (get_prop password "hasTOTP") ;;
    (if truthy hasTOTP then
       totpIndex <- lift (findIndex (fun totp => same_account totp password) (totpSecrets s) 0) ;;
       match totpIndex with
       | Some j => set_totpSecrets (remove_at j (totpSecrets s))
       | None => ret tt
       end
     else ret tt) ;;;
    saveVaultData ;;;
    s1 <- get ;;
    emit (SendMessage "updatePasswords" (passwords s1)) ;;;
    emit (RenderPasswordList (passwords s1)).

(** [deleteTOTP(index)] *)
Definition deleteTOTP (index : Z) : M unit :=
  s <- get ;;
  if negb (isVaultUnlocked s) || (index <? 0)%Z
     || (Z.of_nat (List.length (totpSecrets s)) <=? index)%Z
  then ret tt
  else
    let i := Z.to_nat index in
    let totp := nth i (totpSecrets s) VUndefined in
    set_totpSecrets (remove_at i (totpSecrets s)) ;;;
    website <- lift (get_prop totp "website") ;;
    linked <- (if truthy website
               then username <- lift (get_prop totp "username") ;; ret (truthy username)
               else ret false) ;;
    (if linked : bool then
       passwordIndex <- lift (findIndex (fun p => same_account p totp) (passwords s) 0) ;;
       match passwordIndex with
       | Some j =>
           updated <- lift (set_prop (nth j (passwords s) VUndefined) "hasTOTP" (VBool false)) ;;
           set_passwords (replace_at j updated (passwords s))
       | None => ret tt
       end
     else ret tt) ;;;
    saveVaultData ;;;
    emit RenderTOTPCodes.

(** What [unlockVault] reads from the page and from [StorageModule]; a stored
    item is a string, or [null] when absent. *)
Record UnlockInput := mkUnlockInput {
  masterPasswordInput : string;
  getVerificationString : value;
  getVaultData : value;
  getTOTPSecrets : value;
  getSharedPasswords : value
}.

(** [x = JSON.parse(decrypted); if (!Array.isArray(x)) x = []], with the
    [catch] around it, [onError] being what the handler reports. *)
Definition parse_collection (decrypted : value) (onError : list event)
  : list value * list event :=
  match JSON_parse decrypted with
  | Ok (VArr items) => (items, [])
  | Ok _ => ([], [])
  | Throw _ => ([], onError)
  end.

(** One collection: decrypt, then [parse_collection]; a decryption failure
    empties the collection. *)
Definition load_collection (P : Platform) (blob : value) (masterKey : MasterKey)
    (onDecryptError onParseError : list event) : list value * list event :=
  match decrypt P blob masterKey with
  | Ok decrypted => parse_collection decrypted onParseError
  | Throw _ => ([], onDecryptError)
  end.

(** [passwords.map(password => { if (!password.lastUpdated)
    password.lastUpdated = Date.now(); return password })]: the array as the
    callback leaves it, and the new array unless the callback threw. *)
Fixpoint backfill_lastUpdated (now : Z) (l : list value) : list value * result (list value) :=
  match l with
  | [] => ([], Ok [])
  | x :: rest =>
      match bind (get_prop x "lastUpdated") (fun t =>
              if truthy t then Ok x else set_prop x "lastUpdated" (VInt now)) with
      | Ok x' =>
          match backfill_lastUpdated now rest with
          | (rest', Ok mapped) => (x' :: rest', Ok (x' :: mapped))
          | (rest', Throw e) => (x' :: rest', Throw e)
          end
      | Throw e => (l, Throw e)
      end
  end.

(** [unlockVault()], [now] being [Date.now()]. *)
Definition unlockVault (P : Platform) (input : UnlockInput) (now : Z) : M unit :=
  let password := masterPasswordInput input in
  if is_empty password then emit (ShowMessage "Please enter your master password.") else
  catch
    (isValid <- lift (verifyMasterPassword P password (getVerificationString input)) ;;
     if negb (truthy isValid) then emit (ShowMessage "Incorrect master password.") else
     let masterKey := deriveMasterKey P password in
     let encryptedData := getVaultData input in
     (if negb (truthy encryptedData) then set_passwords []
      else
        match load_collection P encryptedData masterKey
                [ShowMessage "Error decrypting vault data. Creating a new empty vault."]
                [ShowMessage "Your vault data appears to be corrupted. Creating a new empty vault."]
        with
        | (items, evs) => (fun s => (s, evs, Ok tt)) ;;; set_passwords items
        end) ;;;
     s <- get ;;
     (match backfill_lastUpdated now (passwords s) with
      | (_, Ok mapped) => set_passwords mapped
      | (touched, Throw e) => set_passwords touched ;;; lift (Throw e)
      end) ;;;
     (if truthy (getTOTPSecrets input)
      then set_totpSecrets (fst (load_collection P (getTOTPSecrets input) masterKey [] []))
      else set_totpSecrets []) ;;;
     (if truthy (getSharedPasswords input)
      then set_sharedPasswords (fst (load_collection P (getSharedPasswords input) masterKey [] []))
      else set_sharedPasswords []) ;;;
     set_session (Some password) true ;;;
     (if strict_eq encryptedData VNull then saveVaultData else ret tt) ;;;
     s1 <- get ;;
     emit (SendMessage "unlockVault" (passwords s1)) ;;;
     emit CheckExpiringPasswords ;;;
     emit (RenderPasswordList (passwords s1)) ;;;
     emit (ShowScreen "vaultScreen"))
    (fun error => emit (ShowMessage ("Error unlocking vault: " ++ message error))).

(** [lockVault()]: the master password and the three collections are
    cleared; [selectedPassword] is not touched. *)
Definition lockVault : M unit :=
  emit (SendMessage "lockVault" []) ;;;
  s <- get ;;
  put (mkState [] None false [] [] (selectedPassword s)) ;;;
  emit (ShowScreen "loginScreen").

(** A credential record and a TOTP entry as the dialogs build them. *)
Definition credential (website username password : string) (lastUpdated : Z)
    (hasTOTP : bool) : value :=
  VObj [("website", VStr website); ("username", VStr username);
        ("password", VStr password); ("lastUpdated", VInt lastUpdated);
        ("hasTOTP", VBool hasTOTP)].

Definition totp_entry (account secret issuer : string) (timestamp : Z)
    (website username : string) : value :=
  VObj [("account", VStr account); ("secret", VStr secret); ("issuer", VStr issuer);
        ("timestamp", VInt timestamp); ("website", VStr website);
        ("username", VStr username)].

Definition is_object (v : value) : bool :=
  match v with VObj _ => true | _ => false end.

(** The entry [e] and the record [r] carry strictly equal [website] and
    strictly equal [username] properties. *)
Definition accounts_equal (e r : value) : bool :=
  match same_account e r with Ok b => b | Throw _ => false end.

End App.

(** ** passwordSharing.js *)
Module PasswordSharingModule.
Import Str JS Json Hex.

(** *** ToNumber and the comparison with [Date.now()] *)

(** Numbers with the special values; finite numbers are exact decimals
    [m / 10^e] (the rounding of IEEE doubles is not modelled). *)
Inductive number :=
| NaN
| PosInfinity
| NegInfinity
| Finite (m : Z) (e : nat).

Fixpoint all_digits (radix : N) (s : string) : bool :=
  match s with
  | EmptyString => true
  | String c r =>
      match digit_val c with
      | Some d => (d <? radix)%N && all_digits radix r
      | None => false
      end
  end.

Definition radix_literal (radix : N) (digits : string) : number :=
  if is_empty digits || negb (all_digits radix digits) then NaN
  else match read_digits radix digits None with
       | Some n => Finite (Z.of_N n) 0
       | None => NaN
       end.

(** StrUnsignedDecimalLiteral without Infinity: digits with an optional
    fraction, or a fraction alone, and an optional exponent; the whole string
    must be consumed. *)
Definition decimal_literal (neg : bool) (s : string) : number :=
  let '(ip, ilen, s1) := take_digits s 0%Z 0 in
  let '(m, flen, s2) :=
    match s1 with
    | String c r =>
        if Ascii.eqb c "."%char
        then let '(m, n, r') := take_digits r ip 0 in (m, n, r')
        else (ip, 0%nat, s1)
    | EmptyString => (ip, 0%nat, s1)
    end in
  if ((ilen =? 0) && (flen =? 0))%nat then NaN else
  let finish (ev : Z) :=
    match mk_num (if neg then - m else m)%Z (ev - Z.of_nat flen)%Z with
    | VNum m' e' => Finite m' e'
    | _ => NaN
    end in
  match s2 with
  | EmptyString => finish 0%Z
  | String c r =>
      if Ascii.eqb c "e"%char || Ascii.eqb c "E"%char then
        let '(eneg, r1) :=
          match r with
          | String c1 r' =>
              if Ascii.eqb c1 "-"%char then (true, r')
              else if Ascii.eqb c1 "+"%char then (false, r')
              else (false, r)
          | EmptyString => (false, r)
          end in
        let '(ev, elen, r2) := take_digits r1 0%Z 0 in
        if (elen =? 0)%nat || negb (is_empty r2) then NaN
        else finish (if eneg then - ev else ev)%Z
      else NaN
  end.

(** StringToNumber *)
Definition StringToNumber (s : string) : number :=
  let t := trim s in
  match t with
  | EmptyString => Finite 0 0
  | String c r =>
      match r with
      | String x digits =>
          if Ascii.eqb c "0"%char && (Ascii.eqb x "x"%char || Ascii.eqb x "X"%char)
          then radix_literal 16 digits
          else if Ascii.eqb c "0"%char && (Ascii.eqb x "o"%char || Ascii.eqb x "O"%char)
          then radix_literal 8 digits
          else if Ascii.eqb c "0"%char && (Ascii.eqb x "b"%char || Ascii.eqb x "B"%char)
          then radix_literal 2 digits
          else if Ascii.eqb c "-"%char
          then if String.eqb r "Infinity" then NegInfinity else decimal_literal true r
          else if Ascii.eqb c "+"%char
          then if String.eqb r "Infinity" then PosInfinity else decimal_literal false r
          else if String.eqb t "Infinity" then PosInfinity
          else decimal_literal false t
      | EmptyString => decimal_literal false t
      end
  end.

(** ToNumber; objects and arrays go through their string form. *)
Definition ToNumber (v : value) : result number :=
  match v with
  | VUndefined => Ok NaN
  | VNull => Ok (Finite 0 0)
  | VBool true => Ok (Finite 1 0)
  | VBool false => Ok (Finite 0 0)
  | VNum m e => Ok (Finite m e)
  | VStr s => Ok (StringToNumber s)
  | _ => bind (ToString v) (fun s => Ok (StringToNumber s))
  end.

(** [v < now] for the integer [now]. *)
Definition less_than (v : value) (now : Z) : result bool :=
  bind (ToNumber v) (fun n =>
    Ok (match n with
        | NaN | PosInfinity => false
        | NegInfinity => true
        | Finite m e => (m <? now * 10 ^ Z.of_nat e)%Z
        end)).

(** *** Base64: [atob] and [btoa] *)

Definition b64_val (c : ascii) : option N :=
  let n := code c in
  if ((65 <=? n) && (n <=? 90))%N then Some (n - 65)%N
  else if ((97 <=? n) && (n <=? 122))%N then Some (n - 71)%N
  else if ((48 <=? n) && (n <=? 57))%N then Some (n + 4)%N
  else if (n =? 43)%N then Some 62%N
  else if (n =? 47)%N then Some 63%N
  else None.

Definition b64_char (v : N) : ascii :=
  if (v <? 26)%N then ascii_of_N (v + 65)
  else if (v <? 52)%N then ascii_of_N (v + 71)
  else if (v <? 62)%N then ascii_of_N (v - 4)
  else if (v =? 62)%N then "+"%char else "/"%char.

Definition is_ascii_ws (c : ascii) : bool :=
  let n := code c in ((n =? 9) || (n =? 10) || (n =? 12) || (n =? 13) || (n =? 32))%N.

Fixpoint remove_ascii_ws (s : string) : string :=
  match s with
  | EmptyString => EmptyString
  | String c r => if is_ascii_ws c then remove_ascii_ws r else String c (remove_ascii_ws r)
  end.

(** The string without its last character when that is [=]. *)
Fixpoint strip_one_pad (s : string) : string :=
  match s with
  | EmptyString => EmptyString
  | String c r =>
      match r with
      | EmptyString => if Ascii.eqb c "="%char then EmptyString else s
      | _ => String c (strip_one_pad r)
      end
  end.

Fixpoint sextets (s : string) : option (list N) :=
  match s with
  | EmptyString => Some []
  | String c r =>
      match b64_val c, sextets r with
      | Some v, Some l => Some (v :: l)
      | _, _ => None
      end
  end.

Fixpoint decode_sextets (l : list N) : string :=
  match l with
  | a :: b :: c :: d :: rest =>
      String (ascii_of_N (a * 4 + b / 16))
        (String (ascii_of_N ((b mod 16) * 16 + c / 4))
           (String (ascii_of_N ((c mod 4) * 64 + d)) (decode_sextets rest)))
  | [a; b; c] =>
      String (ascii_of_N (a * 4 + b / 16))
        (String (ascii_of_N ((b mod 16) * 16 + c / 4)) EmptyString)
  | [a; b] => String (ascii_of_N (a * 4 + b / 16)) EmptyString
  | _ => EmptyString
  end.

(** [atob(data)]: forgiving base64 decoding. *)
Definition atob (data : string) : result string :=
  let s := remove_ascii_ws data in
  let s1 :=
    if (String.length s mod 4 =? 0)%nat then strip_one_pad (strip_one_pad s) else s in
  if (String.length s1 mod 4 =? 1)%nat
  then Throw (DOMException "The string to be decoded is not correctly encoded.")
  else match sextets s1 with
       | Some l => Ok (decode_sextets l)
       | None => Throw (DOMException "The string to be decoded is not correctly encoded.")
       end.

(** [btoa(data)] *)
Fixpoint btoa (data : string) : string :=
  match data with
  | EmptyString => EmptyString
  | String a r =>
      let x := code a in
      match r with
      | EmptyString =>
          String (b64_char (x / 4)) (String (b64_char ((x mod 4) * 16)) "==")
      | String b r' =>
          let y := code b in
          match r' with
          | EmptyString =>
              String (b64_char (x / 4))
                (String (b64_char ((x mod 4) * 16 + y / 16))
                   (String (b64_char ((y mod 16) * 4)) "="))
          | String c rest =>
              let z := code c in
              String (b64_char (x / 4))
                (String (b64_char ((x mod 4) * 16 + y / 16))
                   (String (b64_char ((y mod 16) * 4 + z / 64))
                      (String (b64_char (z mod 64)) (btoa rest))))
          end
      end
  end.

(** *** The module *)

(** CryptoJS with a passphrase, as the module calls it. *)
Record Cipher := mkCipher {
  (* CryptoJS.AES.encrypt(text, key).toString(), with the random salt drawn *)
  AES_encrypt : value -> string -> list byte -> result string;
  (* CryptoJS.AES.decrypt(ciphertext, key).toString(CryptoJS.enc.Utf8) *)
  AES_decrypt : value -> string -> result string
}.

(** Decrypting with the key used for encryption gives the text back. *)
Definition CipherOK (C : Cipher) : Prop :=
  forall text key saltBytes c,
    AES_encrypt C (VStr text) key saltBytes = Ok c ->
    AES_decrypt C (VStr c) key = Ok text.

Definition chars : string :=
  "ABCDEFGHIJKLMNOPQRSTUVWXYZabcdefghijklmnopqrstuvwxyz0123456789".

(** [generateRandomKey(length)], [randomValues] being the bytes drawn. *)
Fixpoint generateRandomKey (randomValues : list byte) : string :=
  match randomValues with
  | [] => EmptyString
  | v :: rest =>
      match get (N.to_nat (Byte.to_N v mod 62)) chars with
      | Some c => String c (generateRandomKey rest)
      | None => generateRandomKey rest
      end
  end.

Definition week : Z := 7 * 24 * 60 * 60 * 1000.

(** [createShareablePassword(passwordData, recipientEmail)]; the two calls
    of [Date.now()] return [created] and [now]. *)
Definition createShareablePassword (C : Cipher) (passwordData recipientEmail : value)
    (created now : Z) (randomValues saltBytes : list byte) : result (value * string) :=
  let key := generateRandomKey randomValues in
  bind (get_prop passwordData "website") (fun website =>
  bind (get_prop passwordData "username") (fun username =>
  bind (get_prop passwordData "password") (fun password =>
  bind (AES_encrypt C password key saltBytes) (fun encryptedPassword =>
    Ok (VObj [("website", website); ("username", username);
              ("encryptedPassword", VStr encryptedPassword);
              ("created", VInt created); ("expires", VInt (now + week));
              ("recipientEmail", recipientEmail)], key))))).

(** [generateShareURL(packageObj, key)] *)
Definition generateShareURL (packageObj : value) (key : string) : string :=
  "https://aivault.app/share#"
  ++ btoa (match stringify packageObj with Some t => t | None => "undefined" end).

(** The first half of [decodeShareURL]: fragment, [atob], [JSON.parse]. *)
Definition read_package (shareURL : string) : result value :=
  match nth_error (split "#"%char shareURL) 1 with
  | Some (String c r) =>
      bind (atob (String c r)) (fun packageData => JSON_parse (VStr packageData))
  | _ => Throw (Error "Invalid share URL")
  end.

(** The second half: expiry check, then decryption.  The first component
    lists the calls made to the cipher. *)
Definition open_package (C : Cipher) (packageObj : value) (key : string) (now : Z)
  : list (value * string) * result value :=
  match bind (get_prop packageObj "expires") (fun expires => less_than expires now) with
  | Throw e => ([], Throw e)
  | Ok true => ([], Throw (Error "This shared password has expired"))
  | Ok false =>
      match get_prop packageObj "encryptedPassword" with
      | Throw e => ([], Throw e)
      | Ok encryptedPassword =>
          ([(encryptedPassword, key)],
           bind (AES_decrypt C encryptedPassword key) (fun decryptedPassword =>
             if is_empty decryptedPassword then Throw (Error "Invalid decryption key")
             else
               bind (get_prop packageObj "website") (fun website =>
               bind (get_prop packageObj "username") (fun username =>
                 Ok (VObj [("website", website); ("username", username);
                           ("password", VStr decryptedPassword)])))))
      end
  end.

Definition failure_prefix : string := "Failed to decode shared password: ".

(** [decodeShareURL(shareURL, key)], [now] being [Date.now()]. *)
Definition decodeShareURL (C : Cipher) (shareURL key : string) (now : Z)
  : list (value * string) * result value :=
  let '(calls, outcome) :=
    match read_package shareURL with
    | Ok packageObj => open_package C packageObj key now
    | Throw e => ([], Throw e)
    end in
  (calls, try_catch outcome (fun error => Throw (Error (failure_prefix ++ message error)))).

(** The own properties of a package other than [recipientEmail]. *)
Definition without_recipient (props : list (string * value)) : list (string * value) :=
  filter (fun kv => negb (String.eqb (fst kv) "recipientEmail")) props.

(** A transparent stand-in cipher, to run the module on: the ciphertext
    names its key, and decryption under another key raises an error.  It
    meets [CipherOK]; it is not the library, whose cipher ([CryptoJS.cipher]
    below) uses the salt and, under another key, mostly returns the empty
    text. *)
Definition reference_cipher : Cipher :=
  {| AES_encrypt := fun text key _ =>
       match text with
       | VStr t => Ok (hex_of_bytes (list_byte_of_string key) ++ ":" ++ t)
       | _ => Throw (TypeError "text is not a string")
       end;
     AES_decrypt := fun ciphertext key =>
       match ciphertext with
       | VStr c =>
           let t := hex_of_bytes (list_byte_of_string key) ++ ":" in
           if prefix t c then Ok (Reference.drop (String.length t) c)
           else Throw (Error "Malformed UTF-8 data")
       | _ => Throw (TypeError "ciphertext is not a string")
       end |}.

(** A share to run the model on: the package and key that
    [createShareablePassword] builds at time 1000 for a recipient, and its
    URL. *)
Definition example_share (recipientEmail : value) : value * string :=
  match createShareablePassword reference_cipher
          (VObj [("website", VStr "example.com"); ("username", VStr "alice");
                 ("password", VStr "s3cret")])
          recipientEmail 1000 1000
          [x00; x3e; x3f; xff; x10; x20; x30; x40; x50; x60; x70; x80] [] with
  | Ok r => r
  | Throw _ => (VUndefined, EmptyString)
  end.

Definition example_url (recipientEmail : value) : string :=
  generateShareURL (fst (example_share recipientEmail)) (snd (example_share recipientEmail)).

(** *** Notions the proofs use *)

(** The groups of six bits that [btoa] writes, and the padding it adds. *)
Fixpoint encode_sextets (data : string) : list N :=
  match data with
  | EmptyString => []
  | String a r =>
      let x := code a in
      match r with
      | EmptyString => [x / 4; (x mod 4) * 16]%N
      | String b r' =>
          let y := code b in
          match r' with
          | EmptyString => [x / 4; (x mod 4) * 16 + y / 16; (y mod 16) * 4]%N
          | String c rest =>
              let z := code c in
              (x / 4 :: (x mod 4) * 16 + y / 16 :: (y mod 16) * 4 + z / 64 :: z mod 64
                 :: encode_sextets rest)%N
          end
      end
  end.

Fixpoint b64_string (l : list N) : string :=
  match l with
  | [] => EmptyString
  | v :: rest => String (b64_char v) (b64_string rest)
  end.

Fixpoint padding (data : string) : string :=
  match data with
  | EmptyString => EmptyString
  | String _ EmptyString => "=="
  | String _ (String _ EmptyString) => "="
  | String _ (String _ (String _ rest)) => padding rest
  end.

Fixpoint all_in (alphabet s : string) : bool :=
  match s with
  | EmptyString => true
  | String c r => contains_char c alphabet && all_in alphabet r
  end.

End PasswordSharingModule.

(** ** HMAC-SHA1 (RFC 3174, RFC 2104)

    [CryptoJS.HmacSHA1] is a dependency of the extension, not part of it; the
    TOTP module below takes the MAC as a parameter.  This executable
    definition of the standard function instantiates it. *)
Module Sha1.

Definition mask32 (x : N) : N := N.land x 4294967295.
Definition add32 (x y : N) : N := mask32 (x + y).
Definition rotl (n x : N) : N :=
  mask32 (N.lor (N.shiftl x n) (N.shiftr x (32 - n))).
Definition not32 (x : N) : N := N.lxor x 4294967295.

Definition word_of_bytes (a b c d : byte) : N :=
  ((Byte.to_N a * 256 + Byte.to_N b) * 256 + Byte.to_N c) * 256 + Byte.to_N d.

Definition byte_of_N (n : N) : byte :=
  match Byte.of_N (n mod 256) with Some b => b | None => x00 end.

Definition bytes_of_word (w : N) : list byte :=
  [byte_of_N (w / 16777216); byte_of_N (w / 65536); byte_of_N (w / 256); byte_of_N w].

Fixpoint words_of_bytes (l : list byte) : list N :=
  match l with
  | a :: b :: c :: d :: rest => word_of_bytes a b c d :: words_of_bytes rest
  | _ => []
  end.

(** The message followed by the bit 1, zeros, and its length in bits on 64
    bits, a multiple of 64 bytes in all. *)
Definition pad (msg : list byte) : list byte :=
  let len := List.length msg in
  let zeros := ((119 - len mod 64) mod 64)%nat in
  let bits := (N.of_nat len * 8)%N in
  (msg ++ x80 :: repeat x00 zeros
       ++ bytes_of_word (bits / 4294967296) ++ bytes_of_word bits)%list.

(** The message schedule: [w] holds the words computed so far, newest first. *)
Fixpoint schedule (n : nat) (w : list N) : list N :=
  match n with
  | O => w
  | S k =>
      let x := N.lxor (N.lxor (nth 2 w 0%N) (nth 7 w 0%N))
                      (N.lxor (nth 13 w 0%N) (nth 15 w 0%N)) in
      schedule k (rotl 1 x :: w)
  end.

Definition round_f (t : nat) (b c d : N) : N :=
  if (t <? 20)%nat then N.lor (N.land b c) (N.land (not32 b) d)
  else if (t <? 40)%nat then N.lxor (N.lxor b c) d
  else if (t <? 60)%nat then N.lor (N.lor (N.land b c) (N.land b d)) (N.land c d)
  else N.lxor (N.lxor b c) d.

Definition round_k (t : nat) : N :=
  if (t <? 20)%nat then 1518500249
  else if (t <? 40)%nat then 1859775393
  else if (t <? 60)%nat then 2400959708
  else 3395469782.

Definition state : Type := N * N * N * N * N.

Fixpoint rounds (t : nat) (ws : list N) (st : state) : state :=
  match ws with
  | [] => st
  | w :: rest =>
      let '(a, b, c, d, e) := st in
      let temp := add32 (add32 (add32 (add32 (rotl 5 a) (round_f t b c d)) e) w) (round_k t) in
      rounds (S t) rest (temp, a, rotl 30 b, c, d)
  end.

Definition compress (st : state) (block : list byte) : state :=
  let w := rev (schedule 64 (rev (words_of_bytes block))) in
  let '(a, b, c, d, e) := rounds 0 w st in
  let '(h0, h1, h2, h3, h4) := st in
  (add32 h0 a, add32 h1 b, add32 h2 c, add32 h3 d, add32 h4 e).

Fixpoint blocks (n : nat) (l : list byte) (st : state) : state :=
  match n with
  | O => st
  | S k => blocks k (skipn 64 l) (compress st (firstn 64 l))
  end.

Definition initial : state :=
  (1732584193, 4023233417, 2562383102, 271733878, 3285377520)%N.

Definition digest_bytes (st : state) : list byte :=
  let '(h0, h1, h2, h3, h4) := st in
  (bytes_of_word h0 ++ bytes_of_word h1 ++ bytes_of_word h2
     ++ bytes_of_word h3 ++ bytes_of_word h4)%list.

Definition sha1 (msg : list byte) : list byte :=
  let p := pad msg in
  digest_bytes (blocks (List.length p / 64) p initial).

Definition xor_byte (c : N) (b : byte) : byte := byte_of_N (N.lxor (Byte.to_N b) c).

(** HMAC with SHA-1: long keys are hashed, the key is padded with zeros to
    the block of 64 bytes. *)
Definition hmac_sha1 (key msg : list byte) : list byte :=
  let k0 := if (64 <? List.length key)%nat then sha1 key else key in
  let k := (k0 ++ repeat x00 (64 - List.length k0))%list in
  sha1 (map (xor_byte 92) k ++ sha1 (map (xor_byte 54) k ++ msg))%list.

End Sha1.

(** ** MD5 (RFC 1321) *)
Module Md5.

Definition K : list N :=
  [3614090360; 3905402710; 606105819; 3250441966; 4118548399; 1200080426; 2821735955;
   4249261313; 1770035416; 2336552879; 4294925233; 2304563134; 1804603682; 4254626195;
   2792965006; 1236535329; 4129170786; 3225465664; 643717713; 3921069994; 3593408605;
   38016083; 3634488961; 3889429448; 568446438; 3275163606; 4107603335; 1163531501;
   2850285829; 4243563512; 1735328473; 2368359562; 4294588738; 2272392833; 1839030562;
   4259657740; 2763975236; 1272893353; 4139469664; 3200236656; 681279174; 3936430074;
   3572445317; 76029189; 3654602809; 3873151461; 530742520; 3299628645; 4096336452;
   1126891415; 2878612391; 4237533241; 1700485571; 2399980690; 4293915773; 2240044497;
   1873313359; 4264355552; 2734768916; 1309151649; 4149444226; 3174756917; 718787259;
   3951481745]%N.

Definition shifts : list N :=
  [7; 12; 17; 22; 7; 12; 17; 22; 7; 12; 17; 22; 7; 12; 17; 22;
   5; 9; 14; 20; 5; 9; 14; 20; 5; 9; 14; 20; 5; 9; 14; 20;
   4; 11; 16; 23; 4; 11; 16; 23; 4; 11; 16; 23; 4; 11; 16; 23;
   6; 10; 15; 21; 6; 10; 15; 21; 6; 10; 15; 21; 6; 10; 15; 21]%N.

(** Words are read and written least significant byte first. *)
Definition word_of_bytes (a b c d : byte) : N := Sha1.word_of_bytes d c b a.

Definition bytes_of_word (w : N) : list byte := rev (Sha1.bytes_of_word w).

Fixpoint words_of_bytes (l : list byte) : list N :=
  match l with
  | a :: b :: c :: d :: rest => word_of_bytes a b c d :: words_of_bytes rest
  | _ => []
  end.

Definition pad (msg : list byte) : list byte :=
  let len := List.length msg in
  let zeros := ((119 - len mod 64) mod 64)%nat in
  let bits := (N.of_nat len * 8)%N in
  (msg ++ x80 :: repeat x00 zeros
       ++ bytes_of_word (Sha1.mask32 bits) ++ bytes_of_word (bits / 4294967296))%list.

Definition state : Type := N * N * N * N.

Definition round_f (i : nat) (b c d : N) : N :=
  if (i <? 16)%nat then N.lor (N.land b c) (N.land (Sha1.not32 b) d)
  else if (i <? 32)%nat then N.lor (N.land d b) (N.land (Sha1.not32 d) c)
  else if (i <? 48)%nat then N.lxor (N.lxor b c) d
  else N.lxor c (N.lor b (Sha1.not32 d)).

Definition round_g (i : nat) : nat :=
  if (i <? 16)%nat then i
  else if (i <? 32)%nat then ((5 * i + 1) mod 16)%nat
  else if (i <? 48)%nat then ((3 * i + 5) mod 16)%nat
  else ((7 * i) mod 16)%nat.

Definition step (m : list N) (st : state) (i : nat) : state :=
  let '(a, b, c, d) := st in
  let f := Sha1.add32 (Sha1.add32 (Sha1.add32 (round_f i b c d) a) (nth i K 0%N))
                      (nth (round_g i) m 0%N) in
  (d, Sha1.add32 b (Sha1.rotl (nth i shifts 0%N) f), b, c).

Definition compress (st : state) (block : list byte) : state :=
  let '(a, b, c, d) := fold_left (step (words_of_bytes block)) (seq 0 64) st in
  let '(a0, b0, c0, d0) := st in
  (Sha1.add32 a0 a, Sha1.add32 b0 b, Sha1.add32 c0 c, Sha1.add32 d0 d).

Fixpoint blocks (n : nat) (l : list byte) (st : state) : state :=
  match n with
  | O => st
  | S k => blocks k (skipn 64 l) (compress st (firstn 64 l))
  end.

Definition initial : state := (1732584193, 4023233417, 2562383102, 271733878)%N.

Definition md5 (msg : list byte) : list byte :=
  let p := pad msg in
  let '(a, b, c, d) := blocks (List.length p / 64) p initial in
  (bytes_of_word a ++ bytes_of_word b ++ bytes_of_word c ++ bytes_of_word d)%list.

End Md5.


(** ** AES with a key of 256 bits (FIPS 197), in CBC mode *)
Module Aes.

(** Multiplication by x in GF(2^8), modulo x^8 + x^4 + x^3 + x + 1. *)
Definition xtime (a : N) : N :=
  N.land (N.lxor (a * 2) (if (128 <=? a)%N then 27 else 0)) 255.

Fixpoint gmul_loop (n : nat) (a b acc : N) : N :=
  match n with
  | O => acc
  | S k => gmul_loop k (xtime a) (b / 2) (if N.odd b then N.lxor acc a else acc)
  end.

Definition gmul (a b : N) : N := gmul_loop 8 a b 0.

Fixpoint gpow (a : N) (n : nat) : N :=
  match n with
  | O => 1%N
  | S k => gmul a (gpow a k)
  end.

Definition rotl8 (a n : N) : N :=
  N.land (N.lor (N.shiftl a n) (N.shiftr a (8 - n))) 255.

(** The S-box: the inverse in the field (0 for 0), then the affine map. *)
Definition sub_byte (a : N) : N :=
  let b := gpow a 254 in
  N.lxor (N.lxor (N.lxor (N.lxor (N.lxor b (rotl8 b 1)) (rotl8 b 2)) (rotl8 b 3)) (rotl8 b 4)) 99.

Definition sbox : list N := Eval vm_compute in map (fun i => sub_byte (N.of_nat i)) (seq 0 256).

Fixpoint index_of (x : N) (l : list N) (i : N) : N :=
  match l with
  | [] => 0%N
  | y :: rest => if (x =? y)%N then i else index_of x rest (i + 1)%N
  end.

Definition inv_sbox : list N :=
  Eval vm_compute in map (fun i => index_of (N.of_nat i) sbox 0) (seq 0 256).

Definition sub (a : N) : N := nth (N.to_nat a) sbox 0%N.
Definition inv_sub (a : N) : N := nth (N.to_nat a) inv_sbox 0%N.

(** The key schedule for a key of eight words: sixty words of four bytes. *)
Definition word : Type := list N.

Definition xor_word (a b : word) : word := map (fun p => N.lxor (fst p) (snd p)) (combine a b).

Definition rot_word (w : word) : word :=
  match w with
  | a :: rest => (rest ++ [a])%list
  | [] => []
  end.

Fixpoint key_words (n : nat) (i : nat) (rcon : N) (ws : list word) : list word :=
  match n with
  | O => rev ws
  | S k =>
      let prev := nth 0 ws [] in
      let back := nth 7 ws [] in
      if (i mod 8 =? 0)%nat then
        let t := xor_word (map sub (rot_word prev)) [rcon; 0; 0; 0]%N in
        key_words k (S i) (xtime rcon) (xor_word back t :: ws)
      else if (i mod 8 =? 4)%nat then
        key_words k (S i) rcon (xor_word back (map sub prev) :: ws)
      else key_words k (S i) rcon (xor_word back prev :: ws)
  end.

Fixpoint chunks4 (l : list N) : list word :=
  match l with
  | a :: b :: c :: d :: rest => [a; b; c; d] :: chunks4 rest
  | _ => []
  end.

(** The fifteen round keys of sixteen bytes. *)
Definition round_keys (key : list N) : list (list N) :=
  let ws := key_words 52 8 1 (rev (chunks4 key)) in
  map (fun r => List.concat (firstn 4 (skipn (4 * r) ws))) (seq 0 15).

(** The state is sixteen bytes, column after column. *)
Definition add_round_key (st rk : list N) : list N := xor_word st rk.

Definition at_ (st : list N) (i : nat) : N := nth i st 0%N.

Definition shift_rows (st : list N) : list N :=
  map (fun i => at_ st ((i + 4 * (i mod 4)) mod 16)) (seq 0 16).

Definition inv_shift_rows (st : list N) : list N :=
  map (fun i => at_ st ((i + 16 - 4 * (i mod 4)) mod 16)) (seq 0 16).

Definition mix_column (c : word) (m0 m1 m2 m3 : N) : word :=
  let a := at_ c 0 in let b := at_ c 1 in let d := at_ c 2 in let e := at_ c 3 in
  [N.lxor (N.lxor (gmul m0 a) (gmul m1 b)) (N.lxor (gmul m2 d) (gmul m3 e));
   N.lxor (N.lxor (gmul m3 a) (gmul m0 b)) (N.lxor (gmul m1 d) (gmul m2 e));
   N.lxor (N.lxor (gmul m2 a) (gmul m3 b)) (N.lxor (gmul m0 d) (gmul m1 e));
   N.lxor (N.lxor (gmul m1 a) (gmul m2 b)) (N.lxor (gmul m3 d) (gmul m0 e))].

Definition mix_columns (st : list N) : list N :=
  List.concat (map (fun c => mix_column c 2 3 1 1) (chunks4 st)).

Definition inv_mix_columns (st : list N) : list N :=
  List.concat (map (fun c => mix_column c 14 11 13 9) (chunks4 st)).

Definition encrypt_block (rks : list (list N)) (block : list N) : list N :=
  let st := add_round_key block (nth 0 rks []) in
  let st := fold_left (fun st r =>
                         add_round_key (mix_columns (shift_rows (map sub st))) (nth r rks []))
                      (seq 1 13) st in
  add_round_key (shift_rows (map sub st)) (nth 14 rks []).

Definition decrypt_block (rks : list (list N)) (block : list N) : list N :=
  let st := add_round_key block (nth 14 rks []) in
  let st := fold_left (fun st r =>
                         inv_mix_columns
                           (add_round_key (map inv_sub (inv_shift_rows st)) (nth r rks [])))
                      (rev (seq 1 13)) st in
  add_round_key (map inv_sub (inv_shift_rows st)) (nth 0 rks []).

Fixpoint chunks16 (n : nat) (l : list N) : list (list N) :=
  match n with
  | O => []
  | S k => firstn 16 l :: chunks16 k (skipn 16 l)
  end.

Fixpoint cbc_encrypt_blocks (rks : list (list N)) (prev : list N) (bs : list (list N))
  : list N :=
  match bs with
  | [] => []
  | b :: rest =>
      let c := encrypt_block rks (xor_word b prev) in
      (c ++ cbc_encrypt_blocks rks c rest)%list
  end.

Fixpoint cbc_decrypt_blocks (rks : list (list N)) (prev : list N) (bs : list (list N))
  : list N :=
  match bs with
  | [] => []
  | b :: rest => (xor_word (decrypt_block rks b) prev ++ cbc_decrypt_blocks rks b rest)%list
  end.

(** Whole blocks only. *)
Definition cbc_encrypt (key iv data : list byte) : list byte :=
  let rks := round_keys (map Byte.to_N key) in
  map Sha1.byte_of_N
    (cbc_encrypt_blocks rks (map Byte.to_N iv)
       (chunks16 (List.length data / 16) (map Byte.to_N data))).

Definition cbc_decrypt (key iv data : list byte) : list byte :=
  let rks := round_keys (map Byte.to_N key) in
  map Sha1.byte_of_N
    (cbc_decrypt_blocks rks (map Byte.to_N iv)
       (chunks16 (List.length data / 16) (map Byte.to_N data))).

End Aes.


(** ** CryptoJS.AES with a passphrase

    The library is loaded by the extension and is not part of the
    repository.  This is what [CryptoJS.AES.encrypt(text, passphrase)] and
    [CryptoJS.AES.decrypt(ciphertext, passphrase).toString(CryptoJS.enc.Utf8)]
    compute (cipher-core.js, evpkdf.js, enc-base64.js, core.js): the key of
    256 bits and the IV are derived from the passphrase and a salt of eight
    bytes by MD5 (one iteration), the text is encrypted in CBC mode with
    PKCS#7 padding, and the ciphertext is the base64 text of [Salted__], the
    salt and the blocks. *)
Module CryptoJS.
Import Str JS Hex PasswordSharingModule.

(** [Utf8.parse(s)]: a code unit from U+0080 takes two bytes. *)
Fixpoint Utf8_parse (s : string) : list byte :=
  match s with
  | EmptyString => []
  | String c r =>
      let n := code c in
      if (n <? 128)%N then Sha1.byte_of_N n :: Utf8_parse r
      else Sha1.byte_of_N (192 + n / 64) :: Sha1.byte_of_N (128 + n mod 64) :: Utf8_parse r
  end.

(** The outcome of [Utf8.stringify]: a string, the error of the library
    when the bytes are not UTF-8, or a string with a code unit above U+00FF,
    which the strings of this development do not hold. *)
Inductive decoded :=
| Text (s : string)
| Malformed
| Wide.

Definition add_code_point (cp : N) (rest : decoded) : decoded :=
  match rest with
  | Text t => if (cp <? 256)%N then Text (String (ascii_of_N cp) t) else Wide
  | Malformed => Malformed
  | Wide => Wide
  end.

Definition continuation (b : byte) : bool :=
  let n := Byte.to_N b in ((128 <=? n) && (n <=? 191))%N.

Definition between (lo hi : N) (b : byte) : bool :=
  let n := Byte.to_N b in ((lo <=? n) && (n <=? hi))%N.

(** [decodeURIComponent(escape(latin1))]: the well-formed sequences of
    UTF-8 only (shortest form, no surrogates, up to U+10FFFF). *)
Fixpoint Utf8_stringify (l : list byte) : decoded :=
  match l with
  | [] => Text EmptyString
  | b0 :: rest =>
      let n0 := Byte.to_N b0 in
      if (n0 <? 128)%N then add_code_point n0 (Utf8_stringify rest)
      else if between 194 223 b0 then
        match rest with
        | b1 :: rest1 =>
            if continuation b1
            then add_code_point ((n0 mod 32) * 64 + Byte.to_N b1 mod 64) (Utf8_stringify rest1)
            else Malformed
        | _ => Malformed
        end
      else if between 224 239 b0 then
        match rest with
        | b1 :: b2 :: rest2 =>
            if (if (n0 =? 224)%N then between 160 191 b1
                else if (n0 =? 237)%N then between 128 159 b1
                else continuation b1) && continuation b2
            then add_code_point 2048 (Utf8_stringify rest2)
            else Malformed
        | _ => Malformed
        end
      else if between 240 244 b0 then
        match rest with
        | b1 :: b2 :: b3 :: rest3 =>
            if (if (n0 =? 240)%N then between 144 191 b1
                else if (n0 =? 244)%N then between 128 143 b1
                else continuation b1) && continuation b2 && continuation b3
            then add_code_point 65536 (Utf8_stringify rest3)
            else Malformed
        | _ => Malformed
        end
      else Malformed
  end.

(** The OpenSSL key derivation with MD5: 48 bytes, the key then the IV. *)
Definition EvpKDF (password salt : list byte) : list byte * list byte :=
  let d1 := Md5.md5 (password ++ salt) in
  let d2 := Md5.md5 (d1 ++ password ++ salt) in
  let d3 := Md5.md5 (d2 ++ password ++ salt) in
  ((d1 ++ d2)%list, d3).

Definition Pkcs7_pad (data : list byte) : list byte :=
  let n := (16 - List.length data mod 16)%nat in
  (data ++ repeat (Sha1.byte_of_N (N.of_nat n)) n)%list.

(** [Pkcs7.unpad]: the last byte is taken off [sigBytes] without a check;
    nothing is left when it is not smaller than the data. *)
Definition Pkcs7_unpad (data : list byte) : list byte :=
  firstn (List.length data - N.to_nat (Byte.to_N (last data x00))) data.

Definition salted : list byte := list_byte_of_string "Salted__".

(** [CryptoJS.AES.encrypt(text, passphrase).toString()], [salt] being the
    eight bytes drawn. *)
Definition encrypt (text passphrase : string) (salt : list byte) : string :=
  let '(key, iv) := EvpKDF (Utf8_parse passphrase) salt in
  btoa (string_of_list_byte
          (salted ++ salt ++ Aes.cbc_encrypt key iv (Pkcs7_pad (Utf8_parse text))))%list.

(** The bytes of a base64 text in the usual form. *)
Definition Base64_parse (s : string) : option (list byte) :=
  if (String.length s mod 4 =? 0)%nat then
    match sextets (strip_one_pad (strip_one_pad s)) with
    | Some l => Some (list_byte_of_string (decode_sextets l))
    | None => None
    end
  else None.

(** [CryptoJS.AES.decrypt(ciphertext, passphrase).toString(CryptoJS.enc.Utf8)]
    on a ciphertext of the form above, one block or more; [None] on another
    string, and when the text has a code unit above U+00FF. *)
Definition decrypt (ciphertext passphrase : string) : option (result string) :=
  match Base64_parse ciphertext with
  | None => None
  | Some bytes =>
      let blocks := skipn 16 bytes in
      if Reference.bytes_eqb (firstn 8 bytes) salted
         && (16 <=? List.length blocks)%nat && (List.length blocks mod 16 =? 0)%nat
      then
        let '(key, iv) := EvpKDF (Utf8_parse passphrase) (firstn 8 (skipn 8 bytes)) in
        match Utf8_stringify (Pkcs7_unpad (Aes.cbc_decrypt key iv blocks)) with
        | Text t => Some (Ok t)
        | Malformed => Some (Throw (Error "Malformed UTF-8 data"))
        | Wide => None
        end
      else None
  end.

(** The library as a [Cipher].  Outside the cases above (a text or a
    ciphertext that is not a string, a salt that is not of eight bytes, and
    the cases where [decrypt] is [None]) the fields raise an error of their
    own, which is not what the library does. *)
Definition cipher : Cipher :=
  {| AES_encrypt := fun text passphrase salt =>
       match text with
       | VStr t =>
           if (List.length salt =? 8)%nat then Ok (encrypt t passphrase salt)
           else Throw (Error "not modelled: the salt is of eight bytes")
       | _ => Throw (Error "not modelled: the text is a string")
       end;
     AES_decrypt := fun ciphertext passphrase =>
       match ciphertext with
       | VStr c =>
           match decrypt c passphrase with
           | Some r => r
           | None => Throw (Error "not modelled")
           end
       | _ => Throw (Error "not modelled: the ciphertext is a string")
       end |}.

(** A share to run the library on: the package and key that
    [createShareablePassword] builds on the first day of the year 2100. *)
Definition example_share : value * string :=
  match createShareablePassword cipher
          (VObj [("website", VStr "example.com"); ("username", VStr "alice");
                 ("password", VStr "s3cret")])
          VNull 4102444800000 4102444800000
          [x0a; x2a; x3b; x19; x29; x0b; x36; x26; x17; x30; x3d; x11]
          [x01; x02; x03; x04; x05; x06; x07; x08] with
  | Ok r => r
  | Throw _ => (VUndefined, EmptyString)
  end.

Definition example_url : string :=
  generateShareURL (fst example_share) (snd example_share).

End CryptoJS.

(** ** The TOTP module *)
Module TOTPModule.
Import Str JS Hex.

(** [String.prototype.toUpperCase] on the modelled alphabet.  The sharp s
    becomes SS; the two letters whose capitals lie outside the alphabet
    (micro sign, y with diaeresis) are left as they are: neither they nor
    their capitals are Base32 symbols. *)
Definition upper_char (c : ascii) : string :=
  let n := code c in
  if ((97 <=? n) && (n <=? 122) || (224 <=? n) && (n <=? 254) && negb (n =? 247))%N
  then String (ascii_of_N (n - 32)) EmptyString
  else if (n =? 223)%N then "SS"
  else String c EmptyString.

Fixpoint toUpperCase (s : string) : string :=
  match s with
  | EmptyString => EmptyString
  | String c r => upper_char c ++ toUpperCase r
  end.

(** [s.replace(/\s+/g, '')] *)
Fixpoint remove_whitespace (s : string) : string :=
  match s with
  | EmptyString => EmptyString
  | String c r => if is_js_space c then remove_whitespace r else String c (remove_whitespace r)
  end.

Definition base32Chars : string := "ABCDEFGHIJKLMNOPQRSTUVWXYZ234567".

(** [s.indexOf(c)] for a character *)
Fixpoint indexOf (c : ascii) (s : string) : option nat :=
  match s with
  | EmptyString => None
  | String d r =>
      if Ascii.eqb d c then Some O
      else match indexOf c r with Some i => Some (S i) | None => None end
  end.

(** The first loop of [base32ToHex]: five bits per symbol, other characters
    skipped. *)
Fixpoint base32_bits (base32 : string) : string :=
  match base32 with
  | EmptyString => EmptyString
  | String c r =>
      match indexOf c base32Chars with
      | Some val => padStart 5 "0"%char (toString_radix 2 (N.of_nat val)) ++ base32_bits r
      | None => base32_bits r
      end
  end.

(** The second loop: one hexadecimal digit per complete group of four bits. *)
Fixpoint bits_to_hex (bits : string) : string :=
  match bits with
  | String a (String b (String c (String d rest))) =>
      let chunk := String a (String b (String c (String d EmptyString))) in
      match parseInt 2 chunk with
      | Some z => toString_radix 16 (Z.to_N z)
      | None => "NaN"
      end ++ bits_to_hex rest
  | _ => EmptyString
  end.

(** [base32ToHex(base32)] *)
Definition base32ToHex (base32 : string) : string := bits_to_hex (base32_bits base32).

(** [intToHex(num)] *)
Definition intToHex (num : N) : string :=
  let hex := padStart 16 "0"%char (toString_radix 16 num) in
  fold_left (fun result i => result ++ substring (i * 2) 2 hex) (seq 0 8) EmptyString.

(** A CryptoJS word array as [enc.Hex.parse] builds it from a string of
    hexadecimal digits: [parseInt(hexStr.substr(i, 2), 16)] for every second
    [i], so one byte per pair of digits and a byte of its own for a last
    digit without a partner; [sigBytes] is half the number of digits, which
    is not a whole number when that number is odd. *)
Record WordArray : Type := { wa_bytes : list byte; wa_digits : nat }.

Fixpoint Hex_parse_bytes (hexStr : string) : list byte :=
  match hexStr with
  | EmptyString => []
  | String a EmptyString => [ToUint8 (parseInt 16 (String a EmptyString))]
  | String a (String b rest) =>
      ToUint8 (parseInt 16 (String a (String b EmptyString))) :: Hex_parse_bytes rest
  end.

Definition Hex_parse (hexStr : string) : WordArray :=
  {| wa_bytes := Hex_parse_bytes hexStr; wa_digits := String.length hexStr |}.

(** The word array of a sequence of whole bytes. *)
Definition whole (l : list byte) : WordArray :=
  {| wa_bytes := l; wa_digits := 2 * List.length l |}.

(** A sequence of whole bytes followed by half a byte. *)
Definition with_half (l : list byte) (d : byte) : WordArray :=
  {| wa_bytes := l ++ [d]; wa_digits := 2 * List.length l + 1 |}.

(** [CryptoJS.HmacSHA1(message, key)] is a dependency; the module takes it as
    a function from the two word arrays to the 20 bytes of the MAC.  What is
    relied on: on whole bytes it is HMAC-SHA1, and a key that fits the block
    of the hash loses a trailing half byte (the MAC clamps the key to its
    significant bytes and fills the block with zeros). *)
Definition HmacSHA1_OK (HmacSHA1 : WordArray -> WordArray -> list byte) : Prop :=
  (forall message key,
     HmacSHA1 (whole message) (whole key) = Sha1.hmac_sha1 key message) /\
  (forall message key d,
     (List.length key < 64)%nat -> (Byte.to_N d < 16)%N ->
     HmacSHA1 (whole message) (with_half key d) = Sha1.hmac_sha1 key message).

(** An instance: the MAC of the whole bytes of both arrays. *)
Definition significant (w : WordArray) : list byte :=
  firstn (wa_digits w / 2) (wa_bytes w).

Definition reference_HmacSHA1 (message key : WordArray) : list byte :=
  Sha1.hmac_sha1 (significant key) (significant message).

(** *** The MAC as the CryptoJS library computes it

    [CryptoJS.HmacSHA1] is not part of the repository; this is its algorithm
    (core.js, sha1.js, hmac.js) on word arrays as [enc.Hex.parse] builds
    them, half bytes included. *)

(** [WordArray.clamp()]: with [sigBytes] ending in a half, the high four
    bits of the byte after the whole bytes are kept. *)
Definition clamp (w : WordArray) : list byte :=
  let n := (wa_digits w / 2)%nat in
  (firstn n (wa_bytes w)
     ++ (if Nat.even (wa_digits w) then []
         else [Sha1.byte_of_N (N.land (Byte.to_N (nth n (wa_bytes w) x00)) 240)]))%list.

(** The data of a hasher at the end of [_doFinalize]: the bytes [processed]
    before, the array [w] appended, the padding bit and the length in bits.
    For whole bytes this is the padding of the standard.  With half a byte
    pending, [nBitsLeft] is four more than a multiple of eight: the bit
    [0x80 << (24 - nBitsLeft % 32)] falls on bit 3 of the pending byte, or
    out of the word when that byte is the last of its word (the shift count
    is negative), and the length written is [8 * sigBytes], four bits more
    than the whole bytes. *)
Definition finalized (processed : list byte) (w : WordArray) : list byte :=
  let n := (wa_digits w / 2)%nat in
  let body := (processed ++ firstn n (wa_bytes w))%list in
  if Nat.even (wa_digits w) then Sha1.pad body
  else
    let len := List.length body in
    let pending := nth n (wa_bytes w) x00 in
    let marked := if (len mod 4 =? 3)%nat then pending
                  else Sha1.byte_of_N (N.lor (Byte.to_N pending) 8) in
    let bits := (N.of_nat len * 8 + 4)%N in
    let zeros := (64 * ((8 * len + 68) / 512 + 1) - 9 - len)%nat in
    (body ++ marked :: repeat x00 zeros
          ++ Sha1.bytes_of_word (bits / 4294967296) ++ Sha1.bytes_of_word bits)%list.

(** [hasher.finalize(w)] after [processed] went through [hasher.update]. *)
Definition SHA1_finalize (processed : list byte) (w : WordArray) : list byte :=
  let p := finalized processed w in
  Sha1.digest_bytes (Sha1.blocks (List.length p / 64) p Sha1.initial).

(** [CryptoJS.HmacSHA1(message, key)]: a key of more than 64 significant
    bytes ([key.sigBytes > 64], so 64 bytes and a half too) is replaced by
    its hash, another key is clamped. *)
Definition CryptoJS_HmacSHA1 (message key : WordArray) : list byte :=
  let k0 := if (128 <? wa_digits key)%nat then SHA1_finalize [] key else clamp key in
  let k := (k0 ++ repeat x00 (64 - List.length k0))%list in
  Sha1.sha1 (map (Sha1.xor_byte 92) k ++ SHA1_finalize (map (Sha1.xor_byte 54) k) message)%list.

(** The jsSHA shim: [setHMACKey(key, "HEX")], [update(message)],
    [getHMAC("HEX")], that is
    [CryptoJS.HmacSHA1(Hex.parse(message), Hex.parse(key)).toString(Hex)]. *)
Definition getHMAC (HmacSHA1 : WordArray -> WordArray -> list byte)
    (message key : string) : string :=
  hex_of_bytes (HmacSHA1 (Hex_parse message) (Hex_parse key)).

(** [generateTOTP(secret, period, digits)], [now_ms] being [Date.now()].
    The period is a positive whole number of seconds.  Nothing in the body
    throws on a string, so the [catch] branch is not reached. *)
Definition generateTOTP (HmacSHA1 : WordArray -> WordArray -> list byte) (now_ms : N)
    (secret : string) (period : positive) (digits : nat) : string :=
  let secret := toUpperCase (remove_whitespace secret) in
  let now := (now_ms / 1000)%N in
  let counter := (now / Npos period)%N in
  let hexSecret := base32ToHex secret in
  let counterHex := intToHex counter in
  let hmac := getHMAC HmacSHA1 counterHex hexSecret in
  let offset := parseInt 16 (substring (String.length hmac - 1) 1 hmac) in
  let start := match offset with Some o => Z.to_nat (o * 2) | None => O end in
  let binary :=
    Z.land (match parseInt 16 (substring start 8 hmac) with Some z => z | None => 0%Z end)
           2147483647 in
  let otp := Z.rem binary (10 ^ Z.of_nat digits) in
  padStart digits "0"%char (dec otp).

(** [getRemainingTime(period)] *)
Definition getRemainingTime (now_ms : N) (period : positive) : N :=
  (Npos period - (now_ms / 1000) mod Npos period)%N.

(** *** The algorithm as RFC 4648, RFC 4226 and RFC 6238 state it *)

Definition bits5 (v : N) : list bool :=
  [N.testbit v 4; N.testbit v 3; N.testbit v 2; N.testbit v 1; N.testbit v 0].

(** Base32 symbols to bits; [None] if a character is not in the alphabet. *)
Fixpoint rfc_base32_bits (s : string) : option (list bool) :=
  match s with
  | EmptyString => Some []
  | String c r =>
      match indexOf c base32Chars, rfc_base32_bits r with
      | Some v, Some l => Some (bits5 (N.of_nat v) ++ l)%list
      | _, _ => None
      end
  end.

Definition bit (b : bool) : N := if b then 1%N else 0%N.

Definition byte_of_bits (b7 b6 b5 b4 b3 b2 b1 b0 : bool) : byte :=
  Sha1.byte_of_N (((((((bit b7 * 2 + bit b6) * 2 + bit b5) * 2 + bit b4) * 2
                       + bit b3) * 2 + bit b2) * 2 + bit b1) * 2 + bit b0).

(** Whole bytes of a bit string, most significant bit first; bits that do
    not fill a byte are dropped. *)
Fixpoint bytes_of_bits (l : list bool) : list byte :=
  match l with
  | b7 :: b6 :: b5 :: b4 :: b3 :: b2 :: b1 :: b0 :: rest =>
      byte_of_bits b7 b6 b5 b4 b3 b2 b1 b0 :: bytes_of_bits rest
  | _ => []
  end.

(** The padding of RFC 4648, section 6: [=] signs at the end. *)
Fixpoint strip_padding (s : string) : string :=
  match s with
  | EmptyString => EmptyString
  | String c r =>
      match strip_padding r with
      | EmptyString => if Ascii.eqb c "="%char then EmptyString else String c EmptyString
      | r' => String c r'
      end
  end.

Definition rfc_base32_decode (s : string) : option (list byte) :=
  match rfc_base32_bits (strip_padding s) with
  | Some l => Some (bytes_of_bits l)
  | None => None
  end.

(** The counter as 8 bytes, most significant first. *)
Definition big_endian_8 (counter : N) : list byte :=
  map (fun i => Sha1.byte_of_N (counter / 256 ^ N.of_nat (7 - i))) (seq 0 8).

Definition byte_at (h : list byte) (i : nat) : Z := Z.of_N (Byte.to_N (nth i h x00)).

(** Dynamic truncation (RFC 4226, section 5.3). *)
Definition dynamic_truncation (h : list byte) : Z :=
  let offset := Z.to_nat (Z.land (byte_at h (List.length h - 1)) 15) in
  Z.lor (Z.lor (Z.lor (Z.shiftl (Z.land (byte_at h offset) 127) 24)
                      (Z.shiftl (byte_at h (offset + 1)) 16))
               (Z.shiftl (byte_at h (offset + 2)) 8))
        (byte_at h (offset + 3)).

Definition rfc_hotp (HmacSHA1 : list byte -> list byte -> list byte) (key : list byte)
    (counter : N) (digits : nat) : string :=
  let code := (dynamic_truncation (HmacSHA1 key (big_endian_8 counter))
               mod 10 ^ Z.of_nat digits)%Z in
  padStart digits "0"%char (dec code).

Definition rfc_totp (HmacSHA1 : list byte -> list byte -> list byte) (key : list byte)
    (unixTimeSeconds : N) (period : positive) (digits : nat) : string :=
  rfc_hotp HmacSHA1 key (unixTimeSeconds / Npos period) digits.

(** [/^[A-Z2-7]+$/.test(secret)] *)
Definition is_base32_symbol (c : ascii) : bool :=
  let n := code c in ((65 <=? n) && (n <=? 90) || (50 <=? n) && (n <=? 55))%N.

Fixpoint all_base32 (s : string) : bool :=
  match s with
  | EmptyString => true
  | String c r => is_base32_symbol c && all_base32 r
  end.

Definition base32Regex_test (s : string) : bool := negb (is_empty s) && all_base32 s.

(** [validateSecret(secret)]; the code is generated with the default period
    and number of digits.  Nothing in the body throws on a string. *)
Definition validateSecret (HmacSHA1 : WordArray -> WordArray -> list byte) (now_ms : N)
    (secret : string) : bool :=
  let secret := toUpperCase (remove_whitespace secret) in
  if negb (base32Regex_test secret) then false
  else if (String.length secret <? 16)%nat then false
  else
    let code := generateTOTP HmacSHA1 now_ms secret 30 6 in
    (0 <? String.length code)%nat.

(** The counter [Math.floor(Math.floor(Date.now() / 1000) / period)] of
    [generateTOTP]. *)
Definition counter_at (now_ms : N) (period : positive) : N :=
  (now_ms / 1000 / Npos period)%N.

(** The characters of a string that are Base32 symbols. *)
Fixpoint keep_symbols (s : string) : string :=
  match s with
  | EmptyString => EmptyString
  | String c r =>
      match indexOf c base32Chars with
      | Some _ => String c (keep_symbols r)
      | None => keep_symbols r
      end
  end.

Definition is_decimal_digit (c : ascii) : bool :=
  let n := code c in ((48 <=? n) && (n <=? 57))%N.

Fixpoint all_decimal (s : string) : bool :=
  match s with
  | EmptyString => true
  | String c r => is_decimal_digit c && all_decimal r
  end.

(** *** Notions the proofs use *)

Definition bit_char (b : bool) : ascii := if b then "1"%char else "0"%char.

Fixpoint bits_string (l : list bool) : string :=
  match l with
  | [] => EmptyString
  | b :: rest => String (bit_char b) (bits_string rest)
  end.

Definition nibble (a b c d : bool) : N := ((bit a * 2 + bit b) * 2 + bit c) * 2 + bit d.

Definition nibble_char (a b c d : bool) : ascii := digit_char (nibble a b c d).

(** [k] hexadecimal digits of [n], most significant first. *)
Fixpoint hexstr (k : nat) (n : N) : string :=
  match k with
  | O => EmptyString
  | S j => hexstr j (n / 16) ++ String (digit_char (n mod 16)) EmptyString
  end.

Definition high_nibble (b : byte) : N := (Byte.to_N b / 16)%N.
Definition low_nibble (b : byte) : N := (Byte.to_N b mod 16)%N.

(** The secret of the usual example, as bytes. *)
Definition example_key : list byte :=
  [x48; x65; x6c; x6c; x6f; x21; xde; xad; xbe; xef].

(** A secret of 105 symbols, the usual example repeated: 131 hexadecimal
    digits, 65 bytes and a half. *)
Definition long_secret : string :=
  "JBSWY3DPEHPK3PXPJBSWY3DPEHPK3PXPJBSWY3DPEHPK3PXPJBSWY3DPEHPK3PXPJBSWY3DPEHPK3PXPJBSWY3DPEHPK3PXPJBSWY3DPE".

(** A key of 77 bytes and its Base32 encoding without padding (RFC 4648):
    124 symbols, the last four bits zero, 155 hexadecimal digits. *)
Definition long_key : list byte :=
  list_byte_of_string
    "12345678901234567890123456789012345678901234567890123456789012345678901234567".

Definition long_key_secret : string :=
  "GEZDGNBVGY3TQOJQGEZDGNBVGY3TQOJQGEZDGNBVGY3TQOJQGEZDGNBVGY3TQOJQGEZDGNBVGY3TQOJQGEZDGNBVGY3TQOJQGEZDGNBVGY3TQOJQGEZDGNBVGY3Q".

End TOTPModule.

(** ** background.js: credential matching *)
Module Background.
Import Str.

(** The entries of the background script's [passwords] array.  A field that
    is missing on the JavaScript object ([undefined]) is [None]. *)
Record Credential := mkCredential {
  id : option string;
  website : option string;
  username : option string;
  password : string
}.

(** How a template literal renders a field. *)
Definition template (f : option string) : string :=
  match f with Some s => s | None => "undefined" end.

(** [!entry.id] *)
Definition id_missing (e : Credential) : bool :=
  match id e with
  | None => true
  | Some s => match s with EmptyString => true | _ => false end
  end.

Definition is_alnum (c : ascii) : bool :=
  let n := code c in
  ((48 <=? n) && (n <=? 57) || (65 <=? n) && (n <=? 90) || (97 <=? n) && (n <=? 122))%N.

(** [.replace(/[^a-z0-9]/gi, '-')] *)
Fixpoint sanitize (s : string) : string :=
  match s with
  | EmptyString => EmptyString
  | String c s' => String (if is_alnum c then c else "-"%char) (sanitize s')
  end.

(** The id backfill performed on every visited entry. *)
Definition ensure_id (e : Credential) : Credential :=
  if id_missing e
  then {| id := Some (sanitize (template (website e) ++ "-" ++ template (username e)));
          website := website e; username := username e; password := password e |}
  else e.

(** [(entry.website || '').toLowerCase()] *)
Definition normalized_website (e : Credential) : string :=
  toLowerCase (match website e with Some w => w | None => "" end).

(** The loop [for (i = 0; i < domainParts.length - 1; i++)
    possibleDomains.push(domainParts.slice(i).join('.'))]. *)
Definition possibleDomains (hostname : string) : list string :=
  let domainParts := split "."%char hostname in
  map (fun i => join "." (skipn i domainParts)) (seq 0 (List.length domainParts - 1)).

(** The predicate of [passwords.filter], after the id backfill. *)
Definition entry_matches (hostname : string) (entry : Credential) : bool :=
  let website := normalized_website entry in
  existsb (fun domain => includes website domain || includes domain website)
          (possibleDomains hostname).

(** [findCredentialsForUrl(url)].  [URL_hostname] stands for the platform's
    [new URL(url).hostname], [None] when the constructor throws.  The result
    is the [passwords] array after the call (ids backfilled in place) and
    the returned array. *)
Definition findCredentialsForUrl (URL_hostname : string -> option string)
    (passwords : list Credential) (url : string)
    : list Credential * list Credential :=
  match passwords with
  | [] => (passwords, [])
  | _ =>
      match URL_hostname url with
      | None => (passwords, [])
      | Some h =>
          let hostname := toLowerCase h in
          let passwords' := map ensure_id passwords in
          (passwords', filter (entry_matches hostname) passwords')
      end
  end.

(** A hostname extractor for plain [scheme://host/path] URLs, used to run
    the model on concrete addresses. *)
Fixpoint until_slash (s : string) : string :=
  match s with
  | EmptyString => EmptyString
  | String c s' => if Ascii.eqb c "/"%char then EmptyString else String c (until_slash s')
  end.

Definition plain_URL_hostname (url : string) : option string :=
  match index 0 "://" url with
  | Some i => Some (until_slash (substring (i + 3) (String.length url) url))
  | None => None
  end.

(** The suffix chain as the specification describes it: the suffixes of the
    hostname that start at a label and keep at least two labels. *)
Fixpoint suffix_chain_of (labels : list string) : list string :=
  match labels with
  | [] => []
  | l :: rest =>
      match rest with
      | [] => []
      | _ :: _ => join "." labels :: suffix_chain_of rest
      end
  end.

Definition suffix_chain (hostname : string) : list string :=
  suffix_chain_of (split "."%char hostname).

(** [!domain] for a string or a missing value *)
Definition no_domain (d : option string) : bool :=
  match d with
  | None => true
  | Some EmptyString => true
  | Some _ => false
  end.

(** [parts.slice(-2).join('.')] *)
Definition last_two (parts : list string) : string :=
  join "." (skipn (List.length parts - 2) parts).

(** [isDomainMatch(savedDomain, currentDomain)] *)
Definition isDomainMatch (savedDomain currentDomain : option string) : bool :=
  if no_domain savedDomain || no_domain currentDomain then false
  else
    let savedDomain := toLowerCase (template savedDomain) in
    let currentDomain := toLowerCase (template currentDomain) in
    if String.eqb savedDomain currentDomain then true
    else if includes savedDomain currentDomain || includes currentDomain savedDomain then true
    else
      let savedParts := split "."%char savedDomain in
      let currentParts := split "."%char currentDomain in
      if (2 <=? List.length savedParts)%nat && (2 <=? List.length currentParts)%nat
      then String.eqb (last_two savedParts) (last_two currentParts)
      else false.

(** [findCredentialsForDomain(domain)] *)
Definition findCredentialsForDomain (passwords : list Credential) (domain : option string)
  : list Credential :=
  match passwords with
  | [] => []
  | _ => filter (fun entry => isDomainMatch (website entry) domain) passwords
  end.

(** *** Expiry *)

Definition day : Z := 24 * 60 * 60 * 1000.

(** [Math.ceil(a / b)] for whole numbers [a] and [b > 0]. *)
Definition ceil_div (a b : Z) : Z := (- ((- a) / b))%Z.

(** The property [lastUpdated] of an entry: a whole number of milliseconds,
    or nothing. *)
Definition stamp : Type := option Z.

(** [if (entry.lastUpdated)] *)
Definition has_stamp (t : stamp) : bool :=
  match t with
  | Some z => negb (z =? 0)%Z
  | None => false
  end.

(** The predicate of [passwords.filter] in [checkExpiringPasswords], for the
    setting [passwordExpiryDays] a whole number. *)
Definition expiring (now passwordExpiryDays : Z) (lastUpdated : stamp) : bool :=
  let notificationThreshold := (30 * day)%Z in
  let expiryThreshold := (passwordExpiryDays * day)%Z in
  match lastUpdated with
  | Some t =>
      if has_stamp lastUpdated then
        let passwordAge := (now - t)%Z in
        let daysUntilExpiry := ceil_div (expiryThreshold - passwordAge) day in
        (expiryThreshold <=? passwordAge + notificationThreshold)%Z && (0 <? daysUntilExpiry)%Z
      else false
  | None => false
  end.

(** [checkExpiringPasswords()]: the entries kept, each with the
    [daysUntilExpiry] added by [map]. *)
Definition checkExpiringPasswords {A : Type} (lastUpdated : A -> stamp)
    (now passwordExpiryDays : Z) (passwords : list A) : list (A * Z) :=
  map (fun entry =>
         (entry,
          ceil_div (passwordExpiryDays * day
                    - (now - match lastUpdated entry with Some t => t | None => 0 end)) day))
      (filter (fun entry => expiring now passwordExpiryDays (lastUpdated entry)) passwords).

(** The predicate of [this.passwords.filter] in the popup's
    [checkExpiringPasswords], [expiryDays] being
    [settings.passwordExpiryDays || 90]. *)
Definition popup_expiring (now expiryDays : Z) (lastUpdated : stamp) : bool :=
  let expiryThreshold := (expiryDays * day)%Z in
  let warningThreshold := (14 * day)%Z in
  match lastUpdated with
  | Some t =>
      if has_stamp lastUpdated then
        let passwordAge := (now - t)%Z in
        (expiryThreshold - warningThreshold <? passwordAge)%Z
        && (passwordAge <? expiryThreshold)%Z
      else false
  | None => false
  end.

End Background.

(** ** The password generator *)
Module PasswordGenerator.
Import Str JS.

Definition UPPERCASE : string := "ABCDEFGHIJKLMNOPQRSTUVWXYZ".
Definition LOWERCASE : string := "abcdefghijklmnopqrstuvwxyz".
Definition NUMBERS : string := "0123456789".
Definition SYMBOLS : string := "!@#$%^&*()_+{}[]|:;" ++ String Json.dquote "<>,.?/~`-=".

(** The character classes of the regular expressions. *)
Definition is_upper (c : ascii) : bool := let n := code c in ((65 <=? n) && (n <=? 90))%N.
Definition is_lower (c : ascii) : bool := let n := code c in ((97 <=? n) && (n <=? 122))%N.
Definition is_digit (c : ascii) : bool := let n := code c in ((48 <=? n) && (n <=? 57))%N.
(** [[!@#$%^&*()_+{}[\]|:;...<>,.?/~`\-=]] *)
Definition is_symbol (c : ascii) : bool := contains_char c SYMBOLS.
(** [[^A-Za-z0-9]] *)
Definition is_other (c : ascii) : bool := negb (is_upper c || is_lower c || is_digit c).
(** What [.] does not match. *)
Definition is_line_terminator (c : ascii) : bool :=
  let n := code c in ((n =? 10) || (n =? 13))%N.

(** [/[class]/.test(s)] *)
Fixpoint has (class : ascii -> bool) (s : string) : bool :=
  match s with
  | EmptyString => false
  | String c r => class c || has class r
  end.

(** From a position, [.*[class]]: a character of the class before any line
    terminator that is not itself of the class. *)
Fixpoint reaches (class : ascii -> bool) (s : string) : bool :=
  match s with
  | EmptyString => false
  | String c r => if class c then true else if is_line_terminator c then false else reaches class r
  end.

(** [/[class].*[class]/.test(s)] *)
Fixpoint has_two (class : ascii -> bool) (s : string) : bool :=
  match s with
  | EmptyString => false
  | String c r => (class c && reaches class r) || has_two class r
  end.

(** [/(.)\1\1/.test(s)] *)
Fixpoint has_triple (s : string) : bool :=
  match s with
  | String a ((String b (String c _)) as r) =>
      (negb (is_line_terminator a) && Ascii.eqb a b && Ascii.eqb b c) || has_triple r
  | _ => false
  end.

(** Matching without regard to case, as the flag [i] does on this alphabet:
    only the letters A-Z and a-z have a partner. *)
Definition fold_case (c : ascii) : ascii :=
  if is_upper c then ascii_of_N (code c + 32) else c.

Fixpoint fold (s : string) : string :=
  match s with
  | EmptyString => EmptyString
  | String c r => String (fold_case c) (fold r)
  end.

Definition letter_runs : list string :=
  ["abc"; "bcd"; "cde"; "def"; "efg"; "fgh"; "ghi"; "hij"; "ijk"; "jkl"; "klm"; "lmn";
   "mno"; "nop"; "opq"; "pqr"; "qrs"; "rst"; "stu"; "tuv"; "uvw"; "vwx"; "wxy"; "xyz"].

Definition digit_runs : list string :=
  ["012"; "123"; "234"; "345"; "456"; "567"; "678"; "789"].

(** The options as the callers build them: a whole number and flags, each
    possibly missing. *)
Record Options := mkOptions {
  length : option Z;
  uppercase : option bool;
  lowercase : option bool;
  numbers : option bool;
  symbols : option bool
}.

Definition flag (f : option bool) : bool :=
  match f with Some b => b | None => false end.

(** [validatePassword(password, options)] *)
Definition validatePassword (password : string) (options : Options) : bool :=
  let hasUppercase := if flag (uppercase options) then has is_upper password else true in
  let hasLowercase := if flag (lowercase options) then has is_lower password else true in
  let hasNumbers := if flag (numbers options) then has is_digit password else true in
  let hasSymbols := if flag (symbols options) then has is_symbol password else true in
  hasUppercase && hasLowercase && hasNumbers && hasSymbols.

Record Strength := mkStrength { score : Z; label : string }.

Definition bonus (b : bool) (points : Z) : Z := if b then points else 0%Z.

(** The score of [evaluateStrength] before it is brought into 0..10. *)
Definition raw_score (password : string) : Z :=
  (Z.min (Z.of_nat (String.length password) / 4) 5
   + bonus (has is_upper password) 1
   + bonus (has is_lower password) 1
   + bonus (has is_digit password) 1
   + bonus (has is_other password) 2
   + bonus (has_two is_upper password) 1
   + bonus (has_two is_lower password) 1
   + bonus (has_two is_digit password) 1
   + bonus (has_two is_other password) 1
   - bonus (has_triple password) 1
   - bonus (existsb (includes (fold password)) letter_runs) 1
   - bonus (existsb (includes password) digit_runs) 1)%Z.

(** [evaluateStrength(password)] *)
Definition evaluateStrength (password : string) : Strength :=
  if is_empty password then {| score := 0; label := "None" |}
  else
    let score := Z.max 0 (Z.min 10 (raw_score password)) in
    let normalizedScore := (score * 10)%Z in
    {| score := normalizedScore;
       label := if (80 <=? normalizedScore)%Z then "Strong"
                else if (50 <=? normalizedScore)%Z then "Medium"
                else "Weak" |}.

(** A result of [Math.random()]: the fraction [num / den], which is below 1
    (the rounding of doubles is not modelled). *)
Record fraction := mkFraction {
  num : N;
  den : positive;
  below_one : (num <? Npos den)%N = true
}.

(** [Math.floor(r * n)] *)
Definition floor_times (r : fraction) (n : nat) : nat :=
  N.to_nat ((num r * N.of_nat n) / Npos (den r)).

(** [s.charAt(i)] *)
Definition charAt (s : string) (i : nat) : string :=
  match get i s with Some c => String c EmptyString | None => EmptyString end.

(** The loop [for (i = 0; i < n; i++) password += charSet.charAt(
    Math.floor(Math.random() * charSet.length))], the draws being
    [random k], [random (k + 1)], ... *)
Fixpoint draw (random : nat -> fraction) (k : nat) (charSet : string) (n : nat) : string :=
  match n with
  | O => EmptyString
  | S m => charAt charSet (floor_times (random k) (String.length charSet))
           ++ draw random (S k) charSet m
  end.

(** The [config] object that [generatePassword] builds from its options. *)
Definition config_of (options : Options) : Options :=
  let len := match length options with
             | Some n => if (n =? 0)%Z then 16%Z else n
             | None => 16%Z
             end in
  let default (f : option bool) := match f with Some b => b | None => true end in
  let u := default (uppercase options) in
  let l := default (lowercase options) in
  let n := default (numbers options) in
  let s := default (symbols options) in
  {| length := Some len;
     uppercase := Some u;
     lowercase := Some (if negb u && negb l && negb n && negb s then true else l);
     numbers := Some n;
     symbols := Some s |}.

Definition charSet_of (config : Options) : string :=
  (if flag (uppercase config) then UPPERCASE else "")
  ++ (if flag (lowercase config) then LOWERCASE else "")
  ++ (if flag (numbers config) then NUMBERS else "")
  ++ (if flag (symbols config) then SYMBOLS else "").

Definition length_of (config : Options) : nat :=
  match length config with Some n => Z.to_nat n | None => O end.

(** [generatePassword(options)]: [fuel] bounds the number of attempts, the
    function calling itself on [config] until a password passes
    [validatePassword]; [None] when the attempts allowed are used up.  The
    draws start at [random k]. *)
Fixpoint generatePassword (fuel : nat) (random : nat -> fraction) (k : nat)
    (options : Options) : option string :=
  match fuel with
  | O => None
  | S f =>
      let config := config_of options in
      let password := draw random k (charSet_of config) (length_of config) in
      if validatePassword password config then Some password
      else generatePassword f random (k + length_of config) config
  end.

(** The number of character types a configuration asks for. *)
Definition types_of (config : Options) : nat :=
  (if flag (uppercase config) then 1 else 0) + (if flag (lowercase config) then 1 else 0)
  + (if flag (numbers config) then 1 else 0) + (if flag (symbols config) then 1 else 0).

Fixpoint count (class : ascii -> bool) (s : string) : nat :=
  match s with
  | EmptyString => O
  | String c r => (if class c then 1 else 0) + count class r
  end.

Fixpoint all_of (class : ascii -> bool) (s : string) : bool :=
  match s with
  | EmptyString => true
  | String c r => class c && all_of class r
  end.

Fixpoint count_list (class : ascii -> bool) (l : list ascii) : nat :=
  match l with
  | [] => O
  | c :: r => (if class c then 1 else 0) + count_list class r
  end.

(** The characters of a set, as a class. *)
Definition from (set : string) (c : ascii) : bool := contains_char c set.

Definition is_letter (c : ascii) : bool := is_upper c || is_lower c.

Definition one_line (c : ascii) : bool := negb (is_line_terminator c).

(** No option given. *)
Definition defaults : Options := mkOptions None None None None None.

End PasswordGenerator.

(** ** The other two generators

    [EncryptionModule.generateRandomPassword] and the content script's
    [generateStrongPassword] draw one character of each type, fill up from
    the whole set and shuffle with [sort(() => 0.5 - Math.random())].  The
    order a sort leaves under such a comparison is up to the engine: the
    shuffle is a parameter. *)
Module Generators.
Import Str JS PasswordGenerator.

Definition symbols_set : string := "!@#$%^&*()-_=+[]{}|;:,.<>?".

(** [options.flag !== false] *)
Definition unless_false (f : option bool) : bool :=
  match f with Some b => b | None => true end.

(** One character of [set], when the type is selected. *)
Definition one_of (selected : bool) (random : nat -> fraction) (k : nat) (set : string)
  : string :=
  if selected then charAt set (floor_times (random k) (String.length set)) else EmptyString.

Definition next (selected : bool) (k : nat) : nat := if selected then S k else k.

(** [generateRandomPassword(options)] of the encryption module. *)
Definition generateRandomPassword (shuffle : string -> string) (random : nat -> fraction)
    (options : Options) : string :=
  let len := match length options with
             | Some n => if (n =? 0)%Z then 16%Z else n
             | None => 16%Z
             end in
  let u := unless_false (uppercase options) in
  let l := unless_false (lowercase options) in
  let n := unless_false (numbers options) in
  let s := unless_false (symbols options) in
  let charSet :=
    (if u then UPPERCASE else "") ++ (if l then LOWERCASE else "")
    ++ (if n then NUMBERS else "") ++ (if s then symbols_set else "") in
  let charSet := if is_empty charSet then LOWERCASE else charSet in
  let k1 := next u 0 in
  let k2 := next l k1 in
  let k3 := next n k2 in
  let k4 := next s k3 in
  let password :=
    one_of u random 0 UPPERCASE ++ one_of l random k1 LOWERCASE
    ++ one_of n random k2 NUMBERS ++ one_of s random k3 symbols_set in
  let password :=
    password ++ draw random k4 charSet (Z.to_nat len - String.length password) in
  shuffle password.

(** [generateStrongPassword()] of the content script. *)
Definition generateStrongPassword (shuffle : string -> string) (random : nat -> fraction)
  : string :=
  let allChars := UPPERCASE ++ LOWERCASE ++ NUMBERS ++ symbols_set in
  let password :=
    charAt UPPERCASE (floor_times (random 0%nat) (String.length UPPERCASE))
    ++ charAt LOWERCASE (floor_times (random 1%nat) (String.length LOWERCASE))
    ++ charAt NUMBERS (floor_times (random 2%nat) (String.length NUMBERS))
    ++ charAt symbols_set (floor_times (random 3%nat) (String.length symbols_set)) in
  shuffle (password ++ draw random 4 allChars 12).

(** A shuffle rearranges the characters it is given. *)
Definition rearranges (shuffle : string -> string) : Prop :=
  forall s, Permutation.Permutation (list_ascii_of_string (shuffle s)) (list_ascii_of_string s).

(** An instance: the characters in reverse order. *)
Definition reverse (s : string) : string := string_of_list_ascii (rev (list_ascii_of_string s)).

(** A source of draws to run the generators on. *)
Definition hundredths : list fraction :=
  [mkFraction 11 100 eq_refl; mkFraction 48 100 eq_refl; mkFraction 85 100 eq_refl;
   mkFraction 22 100 eq_refl; mkFraction 59 100 eq_refl; mkFraction 96 100 eq_refl;
   mkFraction 33 100 eq_refl; mkFraction 70 100 eq_refl; mkFraction 7 100 eq_refl;
   mkFraction 44 100 eq_refl; mkFraction 81 100 eq_refl; mkFraction 18 100 eq_refl;
   mkFraction 55 100 eq_refl; mkFraction 92 100 eq_refl; mkFraction 29 100 eq_refl;
   mkFraction 66 100 eq_refl; mkFraction 3 100 eq_refl; mkFraction 40 100 eq_refl;
   mkFraction 77 100 eq_refl; mkFraction 14 100 eq_refl].

Definition example_random (k : nat) : fraction :=
  nth (k mod 20) hundredths (mkFraction 0 1 eq_refl).

End Generators.

(** ** app.js: creating the vault *)
Module Setup.
Import Str JS Json Hex EncryptionModule.

(** What [createVault] asks of the storage module and of the user
    interface, in order. *)
Inductive effect :=
| SaveVerificationString (verificationString : string)
| SaveVaultData (encryptedData : string)
| SaveTOTPSecrets (encryptedData : string)
| SaveSharedPasswords (encryptedData : string)
| ShowMessage (text kind : string)
| ShowLoginScreenLater (milliseconds : Z).

Definition failed (error : exn) : list effect :=
  [ShowMessage ("Error creating vault: " ++ message error) "error"].

(** [createVault()]: the two inputs of the form, [now] being [Date.now()]
    and the four calls of [encrypt] drawing [rnd1] to [rnd4]. *)
Definition createVault (P : Platform) (newPassword confirmPassword : string) (now : Z)
    (rnd1 rnd2 rnd3 rnd4 : Entropy) : list effect :=
  if is_empty newPassword then [ShowMessage "Please enter a master password." "error"]
  else if negb (String.eqb newPassword confirmPassword)
  then [ShowMessage "Passwords do not match." "error"]
  else if (PasswordGenerator.score (PasswordGenerator.evaluateStrength newPassword) <? 50)%Z
  then [ShowMessage "Please use a stronger master password." "error"]
  else
    match createVerificationString P newPassword now rnd1 with
    | Throw e => failed e
    | Ok verificationString =>
        SaveVerificationString verificationString ::
        let masterKey := deriveMasterKey P newPassword in
        let emptyVault := match stringify (VArr []) with Some t => t | None => "" end in
        match encrypt P (VStr emptyVault) masterKey rnd2 with
        | Throw e => failed e
        | Ok encryptedVault =>
            SaveVaultData encryptedVault ::
            match encrypt P (VStr emptyVault) masterKey rnd3 with
            | Throw e => failed e
            | Ok encryptedTOTP =>
                SaveTOTPSecrets encryptedTOTP ::
                match encrypt P (VStr emptyVault) masterKey rnd4 with
                | Throw e => failed e
                | Ok encryptedShared =>
                    [SaveSharedPasswords encryptedShared;
                     ShowMessage "Vault created successfully!" "success";
                     ShowLoginScreenLater 1500]
                end
            end
        end
    end.

Definition is_save (e : effect) : bool :=
  match e with
  | ShowMessage _ _ | ShowLoginScreenLater _ => false
  | _ => true
  end.

End Setup.

(** ** app.js: the TOTP dialog *)
Module TotpDialog.
Import Str JS Json Hex App.

(** The inputs of the TOTP dialog that [saveTOTP] reads, and whether the
    TOTP tab is hidden. *)
Record TOTPForm := mkTOTPForm {
  totpAccount : string;
  totpSecret : string;
  totpTab_hidden : bool
}.

(** [saveTOTP()], [now_ms] being [Date.now()] when the trial code is computed
    and [now] when the entry is built. *)
Definition saveTOTP (HmacSHA1 : TOTPModule.WordArray -> TOTPModule.WordArray -> list byte)
    (form : TOTPForm) (now_ms : N) (now : Z) : M unit :=
  s <- get ;;
  if negb (isVaultUnlocked s) then ret tt else
  let account := trim (totpAccount form) in
  let secret := TOTPModule.remove_whitespace (trim (totpSecret form)) in
  if is_empty account || is_empty secret then emit (Alert "Please fill in all fields.")
  else
    let testCode := TOTPModule.generateTOTP HmacSHA1 now_ms secret 30 6 in
    if is_empty testCode
    then emit (Alert "Invalid TOTP secret key. Please check and try again.")
    else
      let totpEntry :=
        [("account", VStr account); ("secret", VStr secret);
         ("issuer", VStr (hd EmptyString (split " " account))); ("timestamp", VInt now)] in
      totpEntry <-
        match selectedPassword s with
        | Some selected =>
            if truthy selected then
              website <- lift (get_prop selected "website") ;;
              username <- lift (get_prop selected "username") ;;
              passwordIndex <-
                lift (findIndex (fun p => same_account p selected) (passwords s) 0) ;;
              match passwordIndex with
              | Some j =>
                  updated <-
                    lift (set_prop (nth j (passwords s) VUndefined) "hasTOTP" (VBool true)) ;;
                  set_passwords (replace_at j updated (passwords s))
              | None => ret tt
              end ;;;
              set_selectedPassword None ;;;
              ret (totpEntry ++ [("website", website); ("username", username)])%list
            else ret totpEntry
        | None => ret totpEntry
        end ;;
      s1 <- get ;;
      set_totpSecrets (totpSecrets s1 ++ [VObj totpEntry])%list ;;;
      saveVaultData ;;;
      (if totpTab_hidden form then ret tt else emit RenderTOTPCodes) ;;;
      emit (CloseModal "totpModal").

End TotpDialog.

(** ** The storage module: localStorage *)
Module StorageModule.
Import Str JS Json Hex.

Definition VERIFICATION_KEY : string := "aivault_verification".
Definition VAULT_DATA_KEY : string := "aivault_vault_data".
Definition SETTINGS_KEY : string := "aivault_settings".
Definition TOTP_SECRETS_KEY : string := "aivault_totp_secrets".
Definition SHARED_PASSWORDS_KEY : string := "aivault_shared_passwords".

(** The items of [localStorage], one for each key. *)
Definition Store := list (string * string).

(** [localStorage.getItem(k)]; [None] is [null]. *)
Fixpoint getItem (store : Store) (k : string) : option string :=
  match store with
  | [] => None
  | (k', v) :: rest => if String.eqb k k' then Some v else getItem rest k
  end.

(** The store after an accepted [setItem(k, v)]. *)
Fixpoint put (k v : string) (store : Store) : Store :=
  match store with
  | [] => [(k, v)]
  | (k', v') :: rest =>
      if String.eqb k k' then (k, v) :: rest else (k', v') :: put k v rest
  end.

(** [localStorage.removeItem(k)] *)
Fixpoint removeItem (k : string) (store : Store) : Store :=
  match store with
  | [] => []
  | (k', v') :: rest =>
      if String.eqb k k' then removeItem k rest else (k', v') :: removeItem k rest
  end.

(** What [setItem] throws when the browser refuses the write; the code looks
    at [error.name] only. *)
Inductive refusal :=
| QuotaExceededError
| OtherError.

(** The answer of the browser to [setItem(k, v)] on a store: [None] when it
    accepts. *)
Definition Browser := Store -> string -> string -> option refusal.

Definition setItem (B : Browser) (store : Store) (k v : string) : Store + refusal :=
  match B store k v with
  | None => inl (put k v store)
  | Some e => inr e
  end.

Definition maxChunkSize : N := 2 * 1024 * 1024.

(** The keys of the chunk count and of chunk [i]. *)
Definition chunks_key : string := VAULT_DATA_KEY ++ "_chunks".
Definition chunk_key (i : nat) : string := VAULT_DATA_KEY ++ "_" ++ dec (Z.of_nat i).

(** The loop that pushes [encryptedData.slice(i, i + size)] for
    [i = 0, size, 2 * size, ...] below the length. *)
Definition chunks_of (size : nat) (encryptedData : string) : list string :=
  map (fun j => substring (j * size) size encryptedData)
      (seq 0 ((String.length encryptedData + size - 1) / size)).

(** The loop that stores chunk after chunk, from index [i]; a refused write
    ends it, what was written before staying in the store. *)
Fixpoint store_chunks (B : Browser) (store : Store) (i : nat) (chunks : list string)
  : Store * bool :=
  match chunks with
  | [] => (store, true)
  | chunk :: rest =>
      match setItem B store (chunk_key i) chunk with
      | inl store' => store_chunks B store' (S i) rest
      | inr _ => (store, false)
      end
  end.

(** [saveVaultData(encryptedData)]: the store afterwards and the result. *)
Definition saveVaultData (B : Browser) (store : Store) (encryptedData : string)
  : Store * bool :=
  match setItem B store VAULT_DATA_KEY encryptedData with
  | inl store' => (store', true)
  | inr QuotaExceededError =>
      if (maxChunkSize <? N.of_nat (String.length encryptedData))%N then
        let chunks := chunks_of (N.to_nat maxChunkSize) encryptedData in
        match setItem B store chunks_key (dec (Z.of_nat (List.length chunks))) with
        | inl store' => store_chunks B store' 0 chunks
        | inr _ => (store, false)
        end
      else (store, false)
  | inr OtherError => (store, false)
  end.

(** The loop that puts the chunks [i, i + 1, ...] together, [count] of them;
    [None] when one is missing or empty. *)
Fixpoint read_chunks (store : Store) (i count : nat) (fullData : string) : option string :=
  match count with
  | O => Some fullData
  | S count' =>
      match getItem store (chunk_key i) with
      | Some chunk =>
          if is_empty chunk then None
          else read_chunks store (S i) count' (fullData ++ chunk)
      | None => None
      end
  end.

(** [data || null] *)
Definition or_null (data : option string) : option string :=
  match data with
  | Some s => if is_empty s then None else Some s
  | None => None
  end.

(** [getVaultData()]; [None] is [null]. *)
Definition getVaultData (store : Store) : option string :=
  match or_null (getItem store chunks_key) with
  | Some chunksStr =>
      match parseInt 10 chunksStr with
      | None => None
      | Some numChunks =>
          if (numChunks <=? 0)%Z then None
          else or_null (read_chunks store 0 (Z.to_nat numChunks) EmptyString)
      end
  | None => or_null (getItem store VAULT_DATA_KEY)
  end.

(** [saveVerificationString], [saveTOTPSecrets] and [saveSharedPasswords]
    differ by their key only. *)
Definition save (key : string) (B : Browser) (store : Store) (data : string)
  : Store * bool :=
  match setItem B store key data with
  | inl store' => (store', true)
  | inr _ => (store, false)
  end.

Definition saveVerificationString := save VERIFICATION_KEY.
Definition saveTOTPSecrets := save TOTP_SECRETS_KEY.
Definition saveSharedPasswords := save SHARED_PASSWORDS_KEY.

Definition getVerificationString (store : Store) : option string :=
  getItem store VERIFICATION_KEY.
Definition getTOTPSecrets (store : Store) : option string := getItem store TOTP_SECRETS_KEY.
Definition getSharedPasswords (store : Store) : option string :=
  getItem store SHARED_PASSWORDS_KEY.

(** [vaultExists()] *)
Definition vaultExists (store : Store) : bool :=
  match or_null (getVerificationString store) with Some _ => true | None => false end.

(** [getSettings()] *)
Definition getSettings (store : Store) : value :=
  match or_null (getItem store SETTINGS_KEY) with
  | Some settingsString =>
      match parse settingsString with
      | Some settings => settings
      | None => VObj []
      end
  | None => VObj []
  end.

(** [saveSettings(settings)] *)
Definition saveSettings (B : Browser) (store : Store) (settings : value) : Store * bool :=
  save SETTINGS_KEY B store
    (match stringify settings with Some t => t | None => "undefined" end).

(** The loop of [clearAllData] that removes the chunks [i, i + 1, ...]. *)
Fixpoint remove_chunks (store : Store) (i count : nat) : Store :=
  match count with
  | O => store
  | S count' => remove_chunks (removeItem (chunk_key i) store) (S i) count'
  end.

(** [clearAllData()], what it does to [localStorage] (the part on IndexedDB
    that follows does not touch it). *)
Definition clearAllData (B : Browser) (store : Store) : Store :=
  let store := removeItem VERIFICATION_KEY store in
  let store := removeItem VAULT_DATA_KEY store in
  let store := removeItem TOTP_SECRETS_KEY store in
  let store := removeItem SHARED_PASSWORDS_KEY store in
  let store :=
    match or_null (getItem store chunks_key) with
    | Some chunksStr =>
        let store :=
          match parseInt 10 chunksStr with
          | Some numChunks => remove_chunks store 0 (Z.to_nat numChunks)
          | None => store
          end in
        removeItem chunks_key store
    | None => store
    end in
  let settings := getSettings store in
  if truthy settings then
    let settings :=
      match settings with
      | VObj props =>
          match lookup "cloudSync" props with
          | Some cloudSync =>
              if truthy cloudSync then VObj (update "cloudSync" (VBool false) props)
              else settings
          | None => settings
          end
      | _ => settings
      end in
    fst (saveSettings B store settings)
  else store.

(** A browser that takes any item of at most [limit] characters. *)
Definition item_limit (limit : N) : Browser :=
  fun _ _ v => if (N.of_nat (String.length v) <=? limit)%N then None
               else Some QuotaExceededError.

(** A browser with no room for the vault data nor for a first chunk. *)
Definition refuses_first_chunk : Browser :=
  fun _ k _ =>
    if String.eqb k VAULT_DATA_KEY || String.eqb k (chunk_key 0)
    then Some QuotaExceededError else None.

(** No vault is left in a store. *)
Definition cleared (store : Store) : Prop :=
  (forall k, In k [VERIFICATION_KEY; VAULT_DATA_KEY; TOTP_SECRETS_KEY; SHARED_PASSWORDS_KEY] ->
             getItem store k = None) /\
  or_null (getItem store chunks_key) = None.

(** A text one character longer than a chunk. *)
Definition long_text : string := repeat_char "a" (N.to_nat (maxChunkSize + 1)).

End StorageModule.

(* ===================================================================== *)
(** * Part II: properties                                                 *)
(* ===================================================================== *)

(** ** Strings *)
Section StrFacts.
Import Str.

Lemma prefix_app (p s : string) : prefix p (p ++ s) = true.
Proof.
  induction p as [|c p IH]; simpl.
  - destruct s; reflexivity.
  - destruct (ascii_dec c c); [exact IH | congruence].
Qed.

Lemma prefix_split (p s : string) : prefix p s = true -> exists r, s = p ++ r.
Proof.
  revert s; induction p as [|c p IH]; intros s H.
  - exists s; reflexivity.
  - destruct s as [|d s]; simpl in H; [discriminate|].
    destruct (ascii_dec c d) as [->|]; [|discriminate].
    destruct (IH _ H) as [r ->]. exists r; reflexivity.
Qed.

Lemma str_app_assoc (a b c : string) : (a ++ b) ++ c = a ++ (b ++ c).
Proof. induction a as [|x a IH]; [reflexivity|]. simpl. rewrite IH. reflexivity. Qed.

Lemma str_app_nil_r (a : string) : a ++ "" = a.
Proof. induction a as [|x a IH]; [reflexivity|]. simpl. rewrite IH. reflexivity. Qed.

Lemma str_length_app (a b : string) :
  String.length (a ++ b) = (String.length a + String.length b)%nat.
Proof. induction a as [|x a IH]; [reflexivity|]. simpl. rewrite IH. reflexivity. Qed.

Lemma includes_nil (sub : string) : includes "" sub = prefix sub "".
Proof. unfold includes. apply orb_false_r. Qed.

Lemma includes_cons (c : ascii) (s sub : string) :
  includes (String c s) sub = prefix sub (String c s) || includes s sub.
Proof. reflexivity. Qed.

Lemma includes_Substring (s sub : string) :
  includes s sub = true <-> Substring sub s.
Proof.
  split.
  - induction s as [|c s IH]; intros H.
    + rewrite includes_nil in H. destruct (prefix_split _ _ H) as [r Hr].
      exists "", r. exact Hr.
    + rewrite includes_cons in H. apply orb_true_iff in H as [H|H].
      * destruct (prefix_split _ _ H) as [r Hr]. exists "", r. exact Hr.
      * destruct (IH H) as (b & a & ->). exists (String c b), a. reflexivity.
  - intros (b & a & ->). induction b as [|c b IH].
    + change ("" ++ sub ++ a) with (sub ++ a).
      destruct (sub ++ a) as [|d r] eqn:E.
      * rewrite includes_nil, <- E. apply prefix_app.
      * rewrite includes_cons, <- E, prefix_app. reflexivity.
    + change (String c b ++ sub ++ a) with (String c (b ++ sub ++ a)).
      rewrite includes_cons, IH. apply orb_true_r.
Qed.

Lemma split_nonempty (sep : ascii) (s : string) : split sep s <> [].
Proof.
  destruct s as [|c s]; simpl; [discriminate|].
  destruct (Ascii.eqb c sep); [discriminate|].
  destruct (split sep s); discriminate.
Qed.

Lemma split_no_sep (sep : ascii) (s : string) :
  contains_char sep s = false -> split sep s = [s].
Proof.
  induction s as [|c s IH]; simpl; intros H; [reflexivity|].
  apply orb_false_iff in H as [H1 H2].
  rewrite H1, (IH H2). reflexivity.
Qed.

End StrFacts.

(** ** Credential matching *)
Section MatcherFacts.
Import Str Background.

Lemma slices_suffix_chain (labels : list string) :
  map (fun i => join "." (skipn i labels)) (seq 0 (List.length labels - 1))
  = suffix_chain_of labels.
Proof.
  induction labels as [|l rest IH]; [reflexivity|].
  destruct rest as [|l' rest']; [reflexivity|].
  change (suffix_chain_of (l :: l' :: rest'))
    with (join "." (l :: l' :: rest') :: suffix_chain_of (l' :: rest')).
  rewrite <- IH.
  replace (List.length (l :: l' :: rest') - 1)
    with (S (List.length (l' :: rest') - 1)) by (simpl; lia).
  rewrite <- cons_seq, <- seq_shift, map_cons, map_map. reflexivity.
Qed.

Lemma possibleDomains_suffix_chain (hostname : string) :
  possibleDomains hostname = suffix_chain hostname.
Proof. apply slices_suffix_chain. Qed.

End MatcherFacts.

Section MatcherTheorems.
Import Str Background.

Lemma lower_ascii_dot (c : ascii) :
  Ascii.eqb (lower_ascii c) "."%char = Ascii.eqb c "."%char.
Proof. destruct c as [[] [] [] [] [] [] [] []]; reflexivity. Qed.

Lemma contains_dot_toLowerCase (s : string) :
  contains_char "."%char (toLowerCase s) = contains_char "."%char s.
Proof.
  induction s as [|c s IH]; [reflexivity|].
  simpl. rewrite lower_ascii_dot, IH. reflexivity.
Qed.

Lemma snd_findCredentialsForUrl URL_hostname passwords url h :
  URL_hostname url = Some h ->
  snd (findCredentialsForUrl URL_hostname passwords url)
  = filter (entry_matches (toLowerCase h)) (map ensure_id passwords).
Proof.
  intros Hh. unfold findCredentialsForUrl. rewrite Hh.
  destruct passwords; reflexivity.
Qed.

Lemma entry_matches_spec (hostname : string) (r : Credential) :
  entry_matches hostname r = true <->
  exists d, In d (suffix_chain hostname) /\
            (Substring d (normalized_website r) \/ Substring (normalized_website r) d).
Proof.
  unfold entry_matches. rewrite possibleDomains_suffix_chain, existsb_exists.
  split; intros (d & Hd & H); exists d; (split; [exact Hd|]).
  - apply orb_true_iff in H. rewrite !includes_Substring in H. exact H.
  - apply orb_true_iff. rewrite !includes_Substring. exact H.
Qed.

End MatcherTheorems.

(** C4: for a URL whose hostname lowercases to H, [findCredentialsForUrl]
    returns, in stored order, exactly the stored records whose website, put in
    lower case (the empty string when the field is missing), contains, or is
    contained in, an element of H's suffix chain; the chain of
    a.b.example.com is a.b.example.com, b.example.com, example.com; a record
    for example.com is returned for login.example.com and a record for
    notexample.org is not returned for example.com; a record stored as
    Example.COM is returned for login.example.com, and a record for
    example.com is returned for the address written LOGIN.Example.Com. *)
Theorem C4_match_by_suffix_chain :
  forall (URL_hostname : string -> option string)
         (passwords : list Background.Credential) (url h : string),
    URL_hostname url = Some h ->
    let H := Str.toLowerCase h in
    let stored := map Background.ensure_id passwords in
    let found := snd (Background.findCredentialsForUrl URL_hostname passwords url) in
    let site := fun r : Background.Credential =>
                  Str.toLowerCase (match Background.website r with
                                   | Some w => w
                                   | None => ""
                                   end) in
    Background.possibleDomains H = Background.suffix_chain H /\
    found = filter (fun r =>
                      existsb (fun d => Str.includes (site r) d || Str.includes d (site r))
                              (Background.suffix_chain H)) stored /\
    (forall r, In r found <->
               In r stored /\
               exists d, In d (Background.suffix_chain H) /\
                         (Str.Substring d (site r) \/ Str.Substring (site r) d)) /\
    Background.suffix_chain "a.b.example.com"
      = ["a.b.example.com"; "b.example.com"; "example.com"] /\
    snd (Background.findCredentialsForUrl Background.plain_URL_hostname
           [Background.mkCredential None (Some "example.com") (Some "alice") "pw"]
           "https://login.example.com/")
      = [Background.mkCredential (Some "example-com-alice") (Some "example.com")
           (Some "alice") "pw"] /\
    snd (Background.findCredentialsForUrl Background.plain_URL_hostname
           [Background.mkCredential None (Some "notexample.org") (Some "alice") "pw"]
           "https://example.com/")
      = [] /\
    snd (Background.findCredentialsForUrl Background.plain_URL_hostname
           [Background.mkCredential (Some "1") (Some "Example.COM") (Some "alice") "pw"]
           "https://login.example.com/")
      = [Background.mkCredential (Some "1") (Some "Example.COM") (Some "alice") "pw"] /\
    snd (Background.findCredentialsForUrl Background.plain_URL_hostname
           [Background.mkCredential (Some "1") (Some "example.com") (Some "alice") "pw"]
           "https://LOGIN.Example.Com/")
      = [Background.mkCredential (Some "1") (Some "example.com") (Some "alice") "pw"] /\
    Str.toLowerCase "Login.Example-1.COM" = "login.example-1.com".
Proof.
  intros URL_hostname passwords url h Hh H stored found site.
  assert (Hfound : found = filter (Background.entry_matches H) stored)
    by (apply snd_findCredentialsForUrl; exact Hh).
  split; [apply possibleDomains_suffix_chain|].
  split.
  { rewrite Hfound. apply filter_ext. intros r.
    unfold Background.entry_matches. rewrite possibleDomains_suffix_chain. reflexivity. }
  split.
  { intros r. rewrite Hfound, filter_In, entry_matches_spec. reflexivity. }
  repeat split; reflexivity.
Qed.

Lemma C4_match_by_suffix_chain_witness :
  Background.plain_URL_hostname "https://Login.Example.com/account" = Some "Login.Example.com" /\
  snd (Background.findCredentialsForUrl Background.plain_URL_hostname
         [Background.mkCredential None (Some "Example.com") (Some "alice") "pw";
          Background.mkCredential (Some "7") (Some "other.net") (Some "bob") "pw2";
          Background.mkCredential (Some "8") (Some "https://ACCOUNTS.EXAMPLE.COM/login")
            (Some "carol") "pw3"]
         "https://Login.Example.com/account")
  = [Background.mkCredential (Some "Example-com-alice") (Some "Example.com") (Some "alice") "pw";
     Background.mkCredential (Some "8") (Some "https://ACCOUNTS.EXAMPLE.COM/login")
       (Some "carol") "pw3"].
Proof.
  split; [reflexivity|].
  refine (eq_trans (proj1 (proj2 (C4_match_by_suffix_chain Background.plain_URL_hostname
           [Background.mkCredential None (Some "Example.com") (Some "alice") "pw";
            Background.mkCredential (Some "7") (Some "other.net") (Some "bob") "pw2";
            Background.mkCredential (Some "8") (Some "https://ACCOUNTS.EXAMPLE.COM/login")
              (Some "carol") "pw3"]
           "https://Login.Example.com/account" "Login.Example.com" eq_refl))) _).
  reflexivity.
Defined.

(** C9: when the hostname is a single label without a dot (such as
    localhost) the generated list of domains is empty and
    [findCredentialsForUrl] returns the empty list whatever is stored, a
    record for that very hostname included. *)
Theorem C9_single_label_host_matches_nothing :
  forall (URL_hostname : string -> option string)
         (passwords : list Background.Credential) (url h : string),
    URL_hostname url = Some h ->
    Str.contains_char "."%char h = false ->
    Background.possibleDomains (Str.toLowerCase h) = [] /\
    snd (Background.findCredentialsForUrl URL_hostname passwords url) = [].
Proof.
  intros URL_hostname passwords url h Hh Hdot.
  assert (Hchain : Background.possibleDomains (Str.toLowerCase h) = []).
  { unfold Background.possibleDomains.
    rewrite split_no_sep by (rewrite contains_dot_toLowerCase; exact Hdot).
    reflexivity. }
  split; [exact Hchain|].
  rewrite (snd_findCredentialsForUrl _ _ _ _ Hh).
  induction (map Background.ensure_id passwords) as [|r l IH]; [reflexivity|].
  simpl. unfold Background.entry_matches at 1. rewrite Hchain. exact IH.
Qed.

Lemma C9_single_label_host_matches_nothing_witness :
  Background.plain_URL_hostname "http://localhost/login" = Some "localhost" /\
  Str.contains_char "."%char "localhost" = false /\
  snd (Background.findCredentialsForUrl Background.plain_URL_hostname
         [Background.mkCredential None (Some "localhost") (Some "root") "pw"]
         "http://localhost/login") = [].
Proof.
  split; [reflexivity|]. split; [reflexivity|].
  exact (proj2 (C9_single_label_host_matches_nothing Background.plain_URL_hostname
           [Background.mkCredential None (Some "localhost") (Some "root") "pw"]
           "http://localhost/login" "localhost" eq_refl eq_refl)).
Defined.

(** ** JSON texts written by the code parse back *)
Section JsonFacts.
Import Str JS Json.

Lemma parse_quote_char (c : ascii) (t : string) :
  parse_string_body (quote_char c ++ t) = cons_char c (parse_string_body t).
Proof. destruct c as [[] [] [] [] [] [] [] []]; reflexivity. Qed.

Lemma parse_quote_body (s rest : string) :
  parse_string_body (quote_body s ++ String dquote rest) = Some (s, rest).
Proof.
  induction s as [|c s IH]; [reflexivity|].
  cbn [quote_body]. rewrite str_app_assoc, parse_quote_char, IH. reflexivity.
Qed.

Lemma quote_unfold (s rest : string) :
  quote s ++ rest = String dquote (quote_body s ++ String dquote rest).
Proof. unfold quote. cbn [append]. rewrite str_app_assoc. reflexivity. Qed.

Lemma parse_marker_text (s : string) : parse (String "A" s) = None.
Proof. reflexivity. Qed.

End JsonFacts.

(** ** The JSON recogniser *)
Section ScanFacts.
Import Str JS Json.

Lemma scan_string_body_parse (s str r : string) :
  parse_string_body s = Some (str, r) -> scan_string_body s = Some r.
Proof.
  remember (String.length s) as n eqn:Hn.
  revert s str r Hn. induction n as [n IH] using lt_wf_ind. intros s str r Hn.
  destruct s as [|c s']; [discriminate|].
  cbn [parse_string_body scan_string_body].
  destruct (Ascii.eqb c dquote).
  { intros H. injection H as _ <-. reflexivity. }
  destruct (Ascii.eqb c backslash).
  { destruct s' as [|e s'']; [discriminate|].
    destruct (simple_escape e).
    - destruct (parse_string_body s'') as [[str' r']|] eqn:E; [|discriminate].
      cbn [cons_char]. intros H. injection H as _ <-.
      apply (IH (String.length s'')) with (str := str'); [subst n; cbn; lia|reflexivity|exact E].
    - destruct (Ascii.eqb e "u"); [|discriminate].
      destruct s'' as [|h1 [|h2 [|h3 [|h4 t]]]]; try discriminate.
      destruct (hex4 h1 h2 h3 h4) as [k|]; [|discriminate].
      destruct (k <? 256)%N; [|discriminate].
      destruct (parse_string_body t) as [[str' r']|] eqn:E; [|discriminate].
      cbn [cons_char]. intros H. injection H as _ <-.
      apply (IH (String.length t)) with (str := str'); [subst n; cbn; lia|reflexivity|exact E]. }
  destruct (code c <? 32)%N; [discriminate|].
  destruct (parse_string_body s') as [[str' r']|] eqn:E; [|discriminate].
  cbn [cons_char]. intros H. injection H as _ <-.
  apply (IH (String.length s')) with (str := str'); [subst n; cbn; lia|reflexivity|exact E].
Qed.

Lemma scan_elements_parse pv sv :
  (forall s v r, pv s = Some (v, r) -> sv s = Some r) ->
  forall fuel s vs r, parse_elements pv fuel s = Some (vs, r) ->
                      scan_elements sv fuel s = Some r.
Proof.
  intros Hpv. induction fuel as [|f IH]; intros s vs r; [discriminate|].
  cbn [parse_elements scan_elements].
  destruct (pv s) as [[v r0]|] eqn:E; [|discriminate]. rewrite (Hpv _ _ _ E).
  destruct (skip_ws r0) as [|c r']; [discriminate|].
  destruct (Ascii.eqb c ",").
  - destruct (parse_elements pv f r') as [[vs' r'']|] eqn:E2; [|discriminate].
    intros H. injection H as _ <-. exact (IH _ _ _ E2).
  - destruct (Ascii.eqb c "]"); [|discriminate]. intros H. injection H as _ <-. reflexivity.
Qed.

Lemma scan_members_parse pv sv :
  (forall s v r, pv s = Some (v, r) -> sv s = Some r) ->
  forall fuel s ms r, parse_members pv fuel s = Some (ms, r) ->
                      scan_members sv fuel s = Some r.
Proof.
  intros Hpv. induction fuel as [|f IH]; intros s ms r; [discriminate|].
  cbn [parse_members scan_members].
  destruct (skip_ws s) as [|q r0]; [discriminate|].
  destruct (negb (Ascii.eqb q dquote)); [discriminate|].
  destruct (parse_string_body r0) as [[k r1]|] eqn:Ek; [|discriminate].
  rewrite (scan_string_body_parse _ _ _ Ek).
  destruct (skip_ws r1) as [|colon r2]; [discriminate|].
  destruct (negb (Ascii.eqb colon ":")); [discriminate|].
  destruct (pv r2) as [[v r3]|] eqn:E; [|discriminate]. rewrite (Hpv _ _ _ E).
  destruct (skip_ws r3) as [|c r4]; [discriminate|].
  destruct (Ascii.eqb c ",").
  - destruct (parse_members pv f r4) as [[ms' r5]|] eqn:E2; [|discriminate].
    intros H. injection H as _ <-. exact (IH _ _ _ E2).
  - destruct (Ascii.eqb c "}"); [|discriminate]. intros H. injection H as _ <-. reflexivity.
Qed.

Lemma scan_value_parse :
  forall fuel s v r, parse_value fuel s = Some (v, r) -> scan_value fuel s = Some r.
Proof.
  induction fuel as [|f IH]; intros s v r; [discriminate|].
  cbn [parse_value scan_value].
  destruct (skip_ws s) as [|c t]; [discriminate|].
  destruct (Ascii.eqb c dquote).
  { destruct (parse_string_body t) as [[str r']|] eqn:E; [|discriminate].
    intros H. injection H as _ <-. exact (scan_string_body_parse _ _ _ E). }
  destruct (Ascii.eqb c "[").
  { destruct (skip_ws t) as [|c' r']; [discriminate|].
    destruct (Ascii.eqb c' "]"); [intros H; injection H as _ <-; reflexivity|].
    destruct (parse_elements (parse_value f) (S (String.length t)) t) as [[vs r'']|] eqn:E;
      [|discriminate].
    intros H. injection H as _ <-. exact (scan_elements_parse _ _ IH _ _ _ _ E). }
  destruct (Ascii.eqb c "{").
  { destruct (skip_ws t) as [|c' r']; [discriminate|].
    destruct (Ascii.eqb c' "}"); [intros H; injection H as _ <-; reflexivity|].
    destruct (parse_members (parse_value f) (S (String.length t)) t) as [[ms r'']|] eqn:E;
      [|discriminate].
    intros H. injection H as _ <-. exact (scan_members_parse _ _ IH _ _ _ _ E). }
  destruct (Ascii.eqb c "t").
  { destruct (expect "rue" t); [|discriminate]. intros H. injection H as _ <-. reflexivity. }
  destruct (Ascii.eqb c "f").
  { destruct (expect "alse" t); [|discriminate]. intros H. injection H as _ <-. reflexivity. }
  destruct (Ascii.eqb c "n").
  { destruct (expect "ull" t); [|discriminate]. intros H. injection H as _ <-. reflexivity. }
  intros H. rewrite H. reflexivity.
Qed.

Lemma parse_is_json (s : string) (v : value) : parse s = Some v -> is_json s = true.
Proof.
  unfold parse, is_json.
  destruct (parse_value (S (String.length s)) s) as [[v' r]|] eqn:E; [|discriminate].
  rewrite (scan_value_parse _ _ _ _ E).
  destruct (is_empty (skip_ws r)); [reflexivity|discriminate].
Qed.

Lemma not_json_parse (s : string) : is_json s = false -> parse s = None.
Proof.
  intros H. destruct (parse s) as [v|] eqn:E; [|reflexivity].
  rewrite (parse_is_json s v E) in H. discriminate H.
Qed.

End ScanFacts.

Section NotItself.
Import Str JS Json.








End NotItself.

Section JsonEnvelope.
Import Str JS Json Hex EncryptionModule.

Lemma parse_value_string f r :
  parse_value (S f) (String dquote r)
  = match parse_string_body r with
    | Some (str, r') => Some (VStr str, r')
    | None => None
    end.
Proof. reflexivity. Qed.

Lemma parse_value_object f r :
  parse_value (S f) (String "{" (String dquote r))
  = match parse_members (parse_value f) (S (String.length (String dquote r))) (String dquote r) with
    | Some (ms, r'') => Some (VObj ms, r'')
    | None => None
    end.
Proof. reflexivity. Qed.

Lemma pv_string f s rest :
  parse_value (S f) (String dquote (quote_body s ++ String dquote rest)) = Some (VStr s, rest).
Proof. rewrite parse_value_string, parse_quote_body. reflexivity. Qed.

Lemma members_more pv fuel k s rest :
  (forall t X, pv (String dquote (quote_body t ++ String dquote X)) = Some (VStr t, X)) ->
  parse_members pv (S fuel)
    (String dquote (quote_body k ++ String dquote (String ":"
       (String dquote (quote_body s ++ String dquote (String "," rest))))))
  = match parse_members pv fuel rest with
    | Some (ms, r5) =>
        Some ((k, match lookup k ms with Some v' => v' | None => VStr s end)
                :: filter (fun kv => negb (String.eqb k (fst kv))) ms, r5)
    | None => None
    end.
Proof.
  intros Hpv.
  cbn [parse_members skip_ws].
  change (is_ws dquote) with false. cbv iota.
  change (Ascii.eqb dquote dquote) with true. cbn [negb].
  rewrite parse_quote_body.
  cbn [skip_ws]. change (is_ws ":") with false. cbv iota.
  change (Ascii.eqb ":" ":") with true. cbn [negb].
  rewrite Hpv.
  cbn [skip_ws]. change (is_ws ",") with false. cbv iota.
  change (Ascii.eqb "," ",") with true. cbv iota.
  reflexivity.
Qed.

Lemma members_version f fuel :
  parse_members (parse_value (S f)) (S fuel)
    (String dquote ("version" ++ String dquote (String ":" "1}")))
  = Some ([("version", VInt 1)], "").
Proof. reflexivity. Qed.

Lemma envelope_text iv data : envelope iv data = String "{" (members_text iv data).
Proof.
  unfold envelope, stringify_object, quote, members_text. cbn -[quote_body].
  repeat (rewrite !str_app_assoc; cbn -[quote_body]). reflexivity.
Qed.

Lemma members_envelope f fuel iv data :
  parse_members (parse_value (S f)) (S (S (S fuel))) (members_text iv data)
  = Some ([("iv", VStr iv); ("data", VStr data); ("version", VInt 1)], "").
Proof.
  unfold members_text.
  rewrite (members_more _ _ "iv" iv) by (intros; apply pv_string).
  rewrite (members_more _ _ "data" data) by (intros; apply pv_string).
  rewrite members_version. reflexivity.
Qed.

Lemma members_text_length iv data :
  exists n, String.length (members_text iv data) = S (S n).
Proof.
  unfold members_text. change (quote_body "iv") with "iv".
  cbn [append String.length]. eexists; reflexivity.
Qed.

(** The envelope written by [encrypt] parses back to its three fields,
    whatever characters the two strings hold. *)
Lemma parse_envelope iv data :
  parse (envelope iv data)
  = Some (VObj [("iv", VStr iv); ("data", VStr data); ("version", VInt 1)]).
Proof.
  rewrite envelope_text. unfold parse. cbn [String.length].
  assert (H : forall f, parse_value (S (S f)) (String "{" (members_text iv data))
              = Some (VObj [("iv", VStr iv); ("data", VStr data); ("version", VInt 1)], "")).
  { intros f. unfold members_text at 1. rewrite parse_value_object.
    fold (members_text iv data).
    destruct (members_text_length iv data) as [n Hn]. rewrite Hn.
    rewrite members_envelope. reflexivity. }
  destruct (members_text_length iv data) as [n Hn]. rewrite Hn.
  rewrite H. reflexivity.
Qed.

Lemma hex_of_bytes_cons b bs : hex_of_bytes (b :: bs) = byte_hex b ++ hex_of_bytes bs.
Proof.
  unfold hex_of_bytes, join. destruct bs as [|b' bs]; cbn [map concat].
  - rewrite str_app_nil_r. reflexivity.
  - reflexivity.
Qed.

Lemma match_chunks_byte_hex b t :
  match_chunks (byte_hex b ++ t) = byte_hex b :: match_chunks t.
Proof. destruct b; reflexivity. Qed.

Lemma parseInt_byte_hex b : ToUint8 (parseInt 16 (byte_hex b)) = b.
Proof. destruct b; reflexivity. Qed.

Lemma match_chunks_hex bs : match_chunks (hex_of_bytes bs) = map byte_hex bs.
Proof.
  induction bs as [|b bs IH]; [reflexivity|].
  rewrite hex_of_bytes_cons, match_chunks_byte_hex, IH. reflexivity.
Qed.

(** Hexadecimal encoding and the decoding by [match] and [parseInt] are
    inverse on non-empty byte arrays. *)
Lemma bytes_of_hex_of_bytes bs :
  bs <> [] -> bytes_of_hex (VStr (hex_of_bytes bs)) = Ok bs.
Proof.
  intros Hne. unfold bytes_of_hex. rewrite match_chunks_hex.
  destruct bs as [|b bs]; [contradiction|].
  cbn [map]. f_equal. rewrite parseInt_byte_hex. f_equal.
  rewrite map_map. rewrite <- (map_id bs) at 2. apply map_ext. apply parseInt_byte_hex.
Qed.

End JsonEnvelope.

(** ** EncryptionModule: encryption, decryption and verification *)
Section EncryptionFacts.
Import Str JS Json Hex EncryptionModule.

Lemma nonempty_of_length {A} (l : list A) (n : nat) : List.length l = S n -> l <> [].
Proof. destruct l; [discriminate | discriminate]. Qed.

Lemma deriveMasterKey_well_formed P masterPassword :
  well_formed (deriveMasterKey P masterPassword) = true.
Proof.
  unfold deriveMasterKey. destruct (has_subtle P); [|reflexivity].
  destruct (subtle_deriveKey P _ _); reflexivity.
Qed.

Lemma decrypt_envelope_webcrypto P raw iv c :
  iv <> [] -> c <> [] ->
  decrypt P (VStr (envelope (hex_of_bytes iv) (hex_of_bytes c)))
          {| key := CryptoKey raw; useWebCrypto := true |}
  = match subtle_decrypt P (CryptoKey raw) iv c with
    | Ok buf => Ok (parse_or_text (TextDecoder_decode P buf))
    | Throw _ => Throw (Error "Failed to decrypt data. Possible incorrect password or corrupted data.")
    end.
Proof.
  intros Hiv Hc. unfold decrypt, JSON_parse.
  cbn [ToString bind]. rewrite parse_envelope.
  cbn [bind get_prop lookup String.eqb Ascii.eqb Bool.eqb useWebCrypto key].
  rewrite (bytes_of_hex_of_bytes iv Hiv). cbn [bind].
  rewrite (bytes_of_hex_of_bytes c Hc). cbn [bind].
  destruct (subtle_decrypt P (CryptoKey raw) iv c); reflexivity.
Qed.

Lemma decrypt_envelope_cryptojs P raw ivhex data :
  decrypt P (VStr (envelope ivhex data)) {| key := WordArray raw; useWebCrypto := false |}
  = match CryptoJS_AES_decrypt P (VStr data) (WordArray raw) (VStr ivhex) with
    | Ok text => Ok (parse_or_text text)
    | Throw _ => Throw (Error "Failed to decrypt data. Possible incorrect password or corrupted data.")
    end.
Proof.
  unfold decrypt, JSON_parse.
  cbn [ToString bind]. rewrite parse_envelope.
  cbn [bind get_prop lookup String.eqb Ascii.eqb Bool.eqb useWebCrypto key].
  destruct (CryptoJS_AES_decrypt P (VStr data) (WordArray raw) (VStr ivhex)); reflexivity.
Qed.

(** What [decrypt] returns on what [encrypt] wrote, on a platform whose
    primitives are correct. *)
Lemma decrypt_encrypt P (HP : PlatformOK P) masterKey rnd S :
  well_formed masterKey = true ->
  List.length (iv12 rnd) = 12%nat ->
  List.length (iv16 rnd) = 16%nat ->
  exists token,
    encrypt P (VStr S) masterKey rnd = Ok token /\
    decrypt P (VStr token) masterKey = Ok (parse_or_text S).
Proof.
  intros Hwf H12 H16. destruct masterKey as [[raw|raw] [|]]; try discriminate Hwf.
  - destruct (gcm_runs P HP raw (iv12 rnd) (TextEncoder_encode P S) H12) as [c Hc].
    destruct (gcm_correct P HP _ _ _ _ Hc) as [Hne Hdec].
    exists (envelope (hex_of_bytes (iv12 rnd)) (hex_of_bytes c)). split.
    + unfold encrypt. cbn [useWebCrypto key]. rewrite Hc. reflexivity.
    + rewrite decrypt_envelope_webcrypto by
        (try exact Hne; eapply nonempty_of_length; exact H12).
      rewrite Hdec, (utf8_roundtrip P HP). reflexivity.
  - destruct (cbc_runs P HP raw (iv16 rnd) S H16) as [c Hc].
    exists (envelope (hex_of_bytes (iv16 rnd)) c). split.
    + unfold encrypt, encrypt_cryptojs. cbn [useWebCrypto key]. rewrite Hc. reflexivity.
    + rewrite decrypt_envelope_cryptojs, (cbc_correct P HP _ _ _ _ Hc). reflexivity.
Qed.

Lemma parse_or_text_marker (x : string) :
  parse_or_text (marker ++ x) = VStr (marker ++ x).
Proof. reflexivity. Qed.

Lemma verifyMasterPassword_cases P masterPassword token :
  verifyMasterPassword P masterPassword token
  = match decrypt P token (deriveMasterKey P masterPassword) with
    | Throw _ => Ok (VBool false)
    | Ok decrypted =>
        if truthy decrypted
        then match decrypted with
             | VStr s => Ok (VBool (prefix marker s))
             | _ => Ok (VBool false)
             end
        else Ok decrypted
    end.
Proof.
  unfold verifyMasterPassword.
  destruct (decrypt P token (deriveMasterKey P masterPassword)) as [d|e]; [|reflexivity].
  cbn [bind]. destruct (truthy d); [|reflexivity].
  destruct d; reflexivity.
Qed.

End EncryptionFacts.

Section ReferenceFacts.
Import Str JS Json Hex EncryptionModule Reference.

Lemma bytes_eqb_refl l : bytes_eqb l l = true.
Proof.
  induction l as [|b l IH]; [reflexivity|].
  cbn [bytes_eqb]. rewrite IH, (Byte.byte_dec_lb eq_refl). reflexivity.
Qed.

Lemma tag_length k iv : List.length (tag k iv) = 16%nat.
Proof.
  unfold tag. rewrite length_firstn, !length_app, repeat_length. lia.
Qed.

Lemma drop_app (t m : string) : drop (String.length t) (t ++ m) = m.
Proof. induction t as [|c t IH]; [destruct m; reflexivity|exact IH]. Qed.

Lemma reference_platform_ok subtle : PlatformOK (platform subtle).
Proof.
  constructor; cbn [platform TextEncoder_encode TextDecoder_decode subtle_encrypt
                    subtle_decrypt CryptoJS_AES_encrypt CryptoJS_AES_decrypt].
  - apply string_of_list_byte_of_string.
  - intros k iv m Hiv. unfold gcm_encrypt. rewrite Hiv. eexists; reflexivity.
  - intros k iv m c H. unfold gcm_encrypt in H.
    destruct (List.length iv =? 12)%nat; [|discriminate]. injection H as <-.
    pose proof (tag_length k iv) as Ht. split.
    + intros E. apply (f_equal (@List.length byte)) in E.
      rewrite length_app, Ht in E. cbn in E. lia.
    + unfold gcm_decrypt. rewrite length_app, Ht.
      replace (List.length m + 16 - 16)%nat with (List.length m + 0)%nat by lia.
      rewrite skipn_app, firstn_app, Nat.add_0_r, Nat.sub_diag.
      rewrite skipn_all, firstn_all. cbn [skipn firstn app].
      rewrite app_nil_r, bytes_eqb_refl.
      replace (16 <=? List.length m + 16)%nat with true
        by (symmetry; apply Nat.leb_le; lia).
      reflexivity.
  - intros k iv m Hiv. unfold cbc_encrypt. rewrite Hiv. eexists; reflexivity.
  - intros k iv m c H. unfold cbc_encrypt in H.
    destruct (List.length iv =? 16)%nat eqn:E; [|discriminate]. injection H as <-.
    unfold cbc_decrypt. apply Nat.eqb_eq in E.
    rewrite bytes_of_hex_of_bytes by (eapply nonempty_of_length; exact E).
    cbn [bind]. rewrite prefix_app, drop_app. reflexivity.
Qed.

End ReferenceFacts.




(** C1: on a platform whose ciphers are correct, verifying a passphrase
    against the token created from it returns true; verification never
    throws; it returns false when decryption fails (for a token on which the
    model reads JSON as [JSON.parse] does); it returns false when the
    decrypted plaintext is not empty, is not a JSON text and does not start
    with the marker.  Where the claim fails: when the plaintext is empty the
    result is the empty string, not false; and a plaintext that is a JSON
    text is judged on its decoded value, which is itself the result when it
    is falsy (the number 0, null, the empty string), and which is accepted
    when it is a string starting with the marker. *)
Theorem C1_verify_master_password :
  forall (P : EncryptionModule.Platform) (masterPassword : string)
         (rnd : EncryptionModule.Entropy),
    EncryptionModule.PlatformOK P ->
    List.length (EncryptionModule.iv12 rnd) = 12%nat ->
    List.length (EncryptionModule.iv16 rnd) = 16%nat ->
    (forall now, exists token,
        EncryptionModule.createVerificationString P masterPassword now rnd = JS.Ok token /\
        EncryptionModule.verifyMasterPassword P masterPassword (JS.VStr token)
        = JS.Ok (JS.VBool true)) /\
    (forall token, exists v,
        EncryptionModule.verifyMasterPassword P masterPassword token = JS.Ok v) /\
    (forall token e,
        Json.modelled token = true ->
        EncryptionModule.decrypt P (JS.VStr token)
          (EncryptionModule.deriveMasterKey P masterPassword) = JS.Throw e ->
        EncryptionModule.verifyMasterPassword P masterPassword (JS.VStr token)
        = JS.Ok (JS.VBool false)) /\
    (forall text token,
        EncryptionModule.encrypt P (JS.VStr text)
          (EncryptionModule.deriveMasterKey P masterPassword) rnd = JS.Ok token ->
        Json.is_json text = false ->
        prefix EncryptionModule.marker text = false ->
        text <> "" ->
        EncryptionModule.verifyMasterPassword P masterPassword (JS.VStr token)
        = JS.Ok (JS.VBool false)) /\
    (forall token,
        EncryptionModule.encrypt P (JS.VStr "")
          (EncryptionModule.deriveMasterKey P masterPassword) rnd = JS.Ok token ->
        EncryptionModule.verifyMasterPassword P masterPassword (JS.VStr token)
        = JS.Ok (JS.VStr "")) /\
    (forall text v token,
        EncryptionModule.encrypt P (JS.VStr text)
          (EncryptionModule.deriveMasterKey P masterPassword) rnd = JS.Ok token ->
        Json.parse text = Some v ->
        Json.exact v = true ->
        EncryptionModule.verifyMasterPassword P masterPassword (JS.VStr token)
        = JS.Ok (if JS.truthy v
                 then JS.VBool (match v with
                                | JS.VStr s => prefix EncryptionModule.marker s
                                | _ => false
                                end)
                 else v)).
Proof.
  intros P masterPassword rnd HP H12 H16.
  pose proof (deriveMasterKey_well_formed P masterPassword) as Hwf.
  assert (Hround : forall text token,
             EncryptionModule.encrypt P (JS.VStr text)
               (EncryptionModule.deriveMasterKey P masterPassword) rnd = JS.Ok token ->
             EncryptionModule.decrypt P (JS.VStr token)
               (EncryptionModule.deriveMasterKey P masterPassword)
             = JS.Ok (EncryptionModule.parse_or_text text)).
  { intros text token Henc.
    destruct (decrypt_encrypt P HP _ rnd text Hwf H12 H16) as (token' & Henc' & Hdec).
    rewrite Henc in Henc'. injection Henc' as <-. exact Hdec. }
  repeat split.
  - intros now. unfold EncryptionModule.createVerificationString.
    destruct (decrypt_encrypt P HP _ rnd
                (EncryptionModule.marker ++ JS.dec now) Hwf H12 H16)
      as (token & Henc & Hdec).
    exists token. split; [exact Henc|].
    rewrite verifyMasterPassword_cases, Hdec, parse_or_text_marker.
    change (JS.truthy (JS.VStr (EncryptionModule.marker ++ JS.dec now))) with true.
    cbv iota. rewrite prefix_app. reflexivity.
  - intros token. rewrite verifyMasterPassword_cases.
    destruct (EncryptionModule.decrypt P token _) as [d|e]; [|eexists; reflexivity].
    destruct (JS.truthy d); [|eexists; reflexivity].
    destruct d; eexists; reflexivity.
  - intros token e _ He. rewrite verifyMasterPassword_cases, He. reflexivity.
  - intros text token Henc Hparse Hprefix Hne.
    rewrite verifyMasterPassword_cases, (Hround _ _ Henc).
    unfold EncryptionModule.parse_or_text. rewrite (not_json_parse text Hparse).
    destruct text as [|c text]; [contradiction Hne; reflexivity|].
    cbn [JS.truthy JS.is_empty negb]. rewrite Hprefix. reflexivity.
  - intros token Henc.
    rewrite verifyMasterPassword_cases, (Hround _ _ Henc). reflexivity.
  - intros text v token Henc Hparse _.
    rewrite verifyMasterPassword_cases, (Hround _ _ Henc).
    unfold EncryptionModule.parse_or_text. rewrite Hparse.
    destruct (JS.truthy v) eqn:Ht; [|reflexivity].
    destruct v; reflexivity.
Qed.

Lemma C1_verify_master_password_witness :
  exists token,
    EncryptionModule.encrypt (Reference.platform true) (JS.VStr "")
      (EncryptionModule.deriveMasterKey (Reference.platform true) "hunter2")
      Reference.entropy = JS.Ok token /\
    EncryptionModule.verifyMasterPassword (Reference.platform true) "hunter2" (JS.VStr token)
    = JS.Ok (JS.VStr "").
Proof.
  eexists. split; [vm_compute; reflexivity|].
  apply (proj1 (proj2 (proj2 (proj2 (proj2
           (C1_verify_master_password (Reference.platform true) "hunter2"
              Reference.entropy (reference_platform_ok true) eq_refl eq_refl)))))).
  vm_compute. reflexivity.
Defined.

(** A plaintext that is the JSON string literal of the marker starts with a
    double quote, not with the marker, yet verification returns true because
    [decrypt] hands back the decoded string. *)
Lemma quoted_marker_is_accepted :
  ~ (forall (P : EncryptionModule.Platform) (masterPassword text token : string)
            (rnd : EncryptionModule.Entropy),
       EncryptionModule.PlatformOK P ->
       EncryptionModule.encrypt P (JS.VStr text)
         (EncryptionModule.deriveMasterKey P masterPassword) rnd = JS.Ok token ->
       prefix EncryptionModule.marker text = false ->
       EncryptionModule.verifyMasterPassword P masterPassword (JS.VStr token)
       = JS.Ok (JS.VBool false)).
Proof.
  intros H.
  specialize (H (Reference.platform true) "hunter2" (Json.quote EncryptionModule.marker) _
                Reference.entropy (reference_platform_ok true) eq_refl eq_refl).
  vm_compute in H. discriminate H.
Qed.

(** ** app.js: vault operations *)
Section AppFacts.
Import Str JS Json Hex EncryptionModule App.

Lemma same_account_objects a b :
  is_object a = true -> is_object b = true -> same_account a b = Ok (accounts_equal a b).
Proof.
  destruct a; try discriminate. destruct b; try discriminate. intros _ _.
  unfold accounts_equal, same_account. cbn [get_prop bind].
  destruct (strict_eq _ _); reflexivity.
Qed.

Lemma findIndex_first p before x after k :
  Forall (fun e => p e = Ok false) before -> p x = Ok true ->
  findIndex p (before ++ x :: after)%list k = Ok (Some (k + List.length before)%nat).
Proof.
  intros Hb Hx. revert k. induction Hb as [|e l He Hl IH]; intros k.
  - cbn [app findIndex List.length]. rewrite Hx. cbn [bind]. rewrite Nat.add_0_r. reflexivity.
  - cbn [app findIndex List.length]. rewrite He. cbn [bind]. rewrite IH. f_equal. f_equal. lia.
Qed.

Lemma findIndex_objects (x rec : value) before after :
  is_object rec = true -> is_object x = true -> accounts_equal x rec = true ->
  Forall (fun e => is_object e = true /\ accounts_equal e rec = false) before ->
  findIndex (fun e => same_account e rec) (before ++ x :: after)%list 0
  = Ok (Some (List.length before)).
Proof.
  intros Hrec Hx Heq Hb.
  rewrite (findIndex_first (fun e => same_account e rec) before x after 0).
  - reflexivity.
  - eapply Forall_impl; [|exact Hb]. cbv beta. intros e [Ho Hne].
    rewrite same_account_objects by assumption. rewrite Hne. reflexivity.
  - rewrite same_account_objects by assumption. rewrite Heq. reflexivity.
Qed.

Lemma remove_at_middle (before after : list value) x :
  remove_at (List.length before) (before ++ x :: after)%list = (before ++ after)%list.
Proof.
  unfold remove_at. induction before as [|a before IH]; [reflexivity|].
  cbn [List.length app firstn skipn]. cbn [skipn] in IH. rewrite IH. reflexivity.
Qed.

Lemma replace_at_middle (before after : list value) x v :
  replace_at (List.length before) v (before ++ x :: after)%list = (before ++ v :: after)%list.
Proof.
  unfold replace_at. induction before as [|a before IH]; [reflexivity|].
  cbn [List.length app firstn skipn]. cbn [skipn] in IH. rewrite IH. reflexivity.
Qed.

Lemma lookup_update_eq k v props : lookup k (update k v props) = Some v.
Proof.
  induction props as [|[k' v'] props IH]; cbn [update lookup].
  - rewrite String.eqb_refl. reflexivity.
  - destruct (String.eqb k k') eqn:E; cbn [lookup]; rewrite ?String.eqb_refl, ?E; auto.
Qed.

Lemma master_password_cases (mp : option string) :
  mp = None \/ mp = Some "" \/ exists c r, mp = Some (String c r).
Proof. destruct mp as [[|c r]|]; eauto. Qed.

Lemma index_in_range (before after : list value) x :
  (Z.of_nat (List.length before) <? 0)%Z = false /\
  (Z.of_nat (List.length (before ++ x :: after)) <=? Z.of_nat (List.length before))%Z = false.
Proof.
  split; [apply Z.ltb_ge; lia|].
  apply Z.leb_gt. rewrite length_app. cbn [List.length]. lia.
Qed.

Lemma deletePassword_linked pb rec pa mp tb entry ta sh sel h :
  get_prop rec "hasTOTP" = Ok h -> truthy h = true ->
  is_object rec = true ->
  Forall (fun e => is_object e = true /\ accounts_equal e rec = false) tb ->
  is_object entry = true -> accounts_equal entry rec = true ->
  exists events,
    deletePassword (Z.of_nat (List.length pb))
      (mkState (pb ++ rec :: pa) mp true (tb ++ entry :: ta) sh sel)
    = (mkState (pb ++ pa) mp true (tb ++ ta) sh sel, events, Ok tt).
Proof.
  intros Hh Ht Hrec Htb Hentry Heq. unfold deletePassword.
  unfold bindM at 1. cbn [get isVaultUnlocked passwords negb orb].
  destruct (index_in_range pb pa rec) as [-> ->].
  cbn [orb totpSecrets]. rewrite Nat2Z.id, nth_middle, remove_at_middle, Hh.
  rewrite (findIndex_objects entry rec tb ta Hrec Hentry Heq Htb).
  destruct (master_password_cases mp) as [->|[->|(c & r & ->)]];
    cbn -[remove_at]; rewrite Ht; cbn -[remove_at]; rewrite remove_at_middle;
    eexists; reflexivity.
Qed.

Lemma deleteTOTP_linked pb props pa mp tb totp ta sh sel w u :
  get_prop totp "website" = Ok w -> truthy w = true ->
  get_prop totp "username" = Ok u -> truthy u = true ->
  is_object totp = true ->
  Forall (fun p => is_object p = true /\ accounts_equal p totp = false) pb ->
  accounts_equal (VObj props) totp = true ->
  exists events,
    deleteTOTP (Z.of_nat (List.length tb))
      (mkState (pb ++ VObj props :: pa) mp true (tb ++ totp :: ta) sh sel)
    = (mkState (pb ++ VObj (update "hasTOTP" (VBool false) props) :: pa) mp true
         (tb ++ ta) sh sel, events, Ok tt).
Proof.
  intros Hw Htw Hu Htu Htotp Hpb Heq. unfold deleteTOTP.
  unfold bindM at 1. cbn [get isVaultUnlocked totpSecrets negb orb].
  destruct (index_in_range tb ta totp) as [-> ->].
  cbn [orb passwords]. rewrite Nat2Z.id, nth_middle, remove_at_middle, Hw, Hu.
  rewrite (findIndex_objects (VObj props) totp pb pa Htotp eq_refl Heq Hpb).
  destruct (master_password_cases mp) as [->|[->|(c & r & ->)]];
    cbn -[replace_at nth update]; rewrite Htw; cbn -[replace_at nth update];
    rewrite Htu; unfold bindM, lift; cbn -[replace_at nth update];
    rewrite nth_middle; cbn -[replace_at update];
    rewrite replace_at_middle; eexists; reflexivity.
Qed.

End AppFacts.

(** Strict equality of the website and username fields, for entries that
    carry them as strings. *)
Section AccountFacts.
Import Str JS Json Hex EncryptionModule App.

Lemma strict_eq_string (a : value) (s : string) :
  strict_eq a (VStr s) = true <-> a = VStr s.
Proof.
  destruct a; cbn [strict_eq]; try (split; discriminate).
  rewrite String.eqb_eq. split; [intros ->; reflexivity|intros E; injection E; auto].
Qed.

Lemma field_is_object (v x : value) (k : string) :
  get_prop v k = Ok x -> x <> VUndefined -> is_object v = true.
Proof.
  destruct v; cbn [get_prop is_object]; intros E Hx; try discriminate E;
    try reflexivity; injection E as <-; contradiction Hx; reflexivity.
Qed.

Lemma string_field_is_object (v : value) (k s : string) :
  get_prop v k = Ok (VStr s) -> is_object v = true.
Proof. intros E. apply (field_is_object v (VStr s) k E). discriminate. Qed.

Lemma accounts_equal_fields (e rec : value) (w u : string) :
  is_object e = true ->
  get_prop rec "website" = Ok (VStr w) -> get_prop rec "username" = Ok (VStr u) ->
  accounts_equal e rec = true <->
  (get_prop e "website" = Ok (VStr w) /\ get_prop e "username" = Ok (VStr u)).
Proof.
  intros He Hw Hu. unfold accounts_equal, same_account. rewrite Hw, Hu.
  destruct e as [| | | | | |props]; try discriminate He.
  cbn [get_prop bind].
  destruct (strict_eq _ (VStr w)) eqn:E1.
  - apply strict_eq_string in E1. rewrite E1. cbn [bind].
    destruct (strict_eq _ (VStr u)) eqn:E2.
    + apply strict_eq_string in E2. rewrite E2. split; auto.
    + split; [discriminate|]. intros [_ E]. injection E as E.
      apply strict_eq_string in E. congruence.
  - split; [discriminate|]. intros [E _]. injection E as E.
    apply strict_eq_string in E. congruence.
Qed.

Lemma other_accounts (l : list value) (rec : value) (w u : string) :
  get_prop rec "website" = Ok (VStr w) -> get_prop rec "username" = Ok (VStr u) ->
  Forall (fun e => is_object e = true /\
                   ~ (get_prop e "website" = Ok (VStr w) /\
                      get_prop e "username" = Ok (VStr u))) l ->
  Forall (fun e => is_object e = true /\ accounts_equal e rec = false) l.
Proof.
  intros Hw Hu H. eapply Forall_impl; [|exact H]. cbv beta. intros e [Ho Hne].
  split; [exact Ho|]. apply not_true_is_false. intros E. apply Hne.
  apply (accounts_equal_fields e rec w u Ho Hw Hu). exact E.
Qed.

End AccountFacts.

(** C5 (as amended): while the vault is locked, [savePassword],
    [deletePassword] and [deleteTOTP] return at once: no field of the session
    changes, nothing is stored, sent or shown, and no error is raised (there
    is no VaultLockedError in the program; the call completes normally). *)
Theorem C5_locked_operations_do_nothing :
  forall (st : App.state) (form : App.PasswordForm) (now index : Z),
    App.isVaultUnlocked st = false ->
    App.savePassword form now st = (st, [], JS.Ok tt) /\
    App.deletePassword index st = (st, [], JS.Ok tt) /\
    App.deleteTOTP index st = (st, [], JS.Ok tt).
Proof.
  intros st form now index Hlocked.
  unfold App.savePassword, App.deletePassword, App.deleteTOTP, App.bindM, App.get.
  rewrite Hlocked. repeat split.
Qed.

Lemma C5_locked_operations_do_nothing_witness :
  App.deletePassword 0
    (App.mkState [App.credential "example.com" "alice" "s3cret" 1700000000000 false]
                 None false [] [] None)
  = (App.mkState [App.credential "example.com" "alice" "s3cret" 1700000000000 false]
                 None false [] [] None, [], JS.Ok tt).
Proof.
  exact (proj1 (proj2 (C5_locked_operations_do_nothing
           (App.mkState [App.credential "example.com" "alice" "s3cret" 1700000000000 false]
                        None false [] [] None)
           (App.mkPasswordForm "a.com" "bob" "pw" false None None) 0 0 eq_refl))).
Defined.

(** C5 as stated fails: on a locked vault the operations do not end in an
    error, they return normally. *)
Lemma C5_locked_operation_returns_normally :
  ~ (forall (st : App.state) (index : Z),
       App.isVaultUnlocked st = false ->
       exists e, snd (App.deletePassword index st) = JS.Throw e).
Proof.
  intros H.
  destruct (H (App.mkState [] None false [] [] None) 0%Z eq_refl) as [e He].
  discriminate He.
Qed.

(** C7: in an unlocked vault, deleting the credential record at an index,
    when its hasTOTP flag is truthy and its website and username are the
    strings w and u, also removes the first TOTP entry whose website is w and
    whose username is u, and no other entry: entries before it that differ in
    the website or in the username (one of the two may be the same) stay; and
    deleting a TOTP entry with non-empty website w and username u sets
    hasTOTP to false on the first credential record whose website is w and
    whose username is u, and on no other record. *)
Theorem C7_delete_keeps_cross_reference :
  (forall pb rec pa mp tb entry ta sh sel h w u,
      JS.get_prop rec "hasTOTP" = JS.Ok h -> JS.truthy h = true ->
      JS.get_prop rec "website" = JS.Ok (JS.VStr w) ->
      JS.get_prop rec "username" = JS.Ok (JS.VStr u) ->
      Forall (fun e => App.is_object e = true /\
                       ~ (JS.get_prop e "website" = JS.Ok (JS.VStr w) /\
                          JS.get_prop e "username" = JS.Ok (JS.VStr u))) tb ->
      JS.get_prop entry "website" = JS.Ok (JS.VStr w) ->
      JS.get_prop entry "username" = JS.Ok (JS.VStr u) ->
      exists events,
        App.deletePassword (Z.of_nat (List.length pb))
          (App.mkState (pb ++ rec :: pa) mp true (tb ++ entry :: ta) sh sel)
        = (App.mkState (pb ++ pa) mp true (tb ++ ta) sh sel, events, JS.Ok tt)) /\
  (forall pb props pa mp tb totp ta sh sel w u,
      JS.get_prop totp "website" = JS.Ok (JS.VStr w) -> w <> "" ->
      JS.get_prop totp "username" = JS.Ok (JS.VStr u) -> u <> "" ->
      Forall (fun p => App.is_object p = true /\
                       ~ (JS.get_prop p "website" = JS.Ok (JS.VStr w) /\
                          JS.get_prop p "username" = JS.Ok (JS.VStr u))) pb ->
      JS.get_prop (JS.VObj props) "website" = JS.Ok (JS.VStr w) ->
      JS.get_prop (JS.VObj props) "username" = JS.Ok (JS.VStr u) ->
      JS.get_prop (JS.VObj (JS.update "hasTOTP" (JS.VBool false) props)) "hasTOTP"
        = JS.Ok (JS.VBool false) /\
      exists events,
        App.deleteTOTP (Z.of_nat (List.length tb))
          (App.mkState (pb ++ JS.VObj props :: pa) mp true (tb ++ totp :: ta) sh sel)
        = (App.mkState (pb ++ JS.VObj (JS.update "hasTOTP" (JS.VBool false) props) :: pa)
             mp true (tb ++ ta) sh sel, events, JS.Ok tt)).
Proof.
  split.
  - intros pb rec pa mp tb entry ta sh sel h w u Hh Ht Hw Hu Htb Hew Heu.
    pose proof (string_field_is_object _ _ _ Hw) as Hrec.
    pose proof (string_field_is_object _ _ _ Hew) as Hentry.
    apply (deletePassword_linked pb rec pa mp tb entry ta sh sel h Hh Ht Hrec).
    + exact (other_accounts tb rec w u Hw Hu Htb).
    + exact Hentry.
    + apply (accounts_equal_fields entry rec w u Hentry Hw Hu). split; assumption.
  - intros pb props pa mp tb totp ta sh sel w u Hw Hwe Hu Hue Hpb Hpw Hpu. split.
    + cbn [JS.get_prop]. rewrite lookup_update_eq. reflexivity.
    + pose proof (string_field_is_object _ _ _ Hw) as Htotp.
      apply (deleteTOTP_linked pb props pa mp tb totp ta sh sel (JS.VStr w) (JS.VStr u)
               Hw).
      * destruct w; [contradiction Hwe; reflexivity|reflexivity].
      * exact Hu.
      * destruct u; [contradiction Hue; reflexivity|reflexivity].
      * exact Htotp.
      * exact (other_accounts pb totp w u Hw Hu Hpb).
      * apply (accounts_equal_fields (JS.VObj props) totp w u eq_refl Hw Hu).
        split; assumption.
Qed.

Lemma C7_delete_keeps_cross_reference_witness :
  (exists events,
     App.deletePassword 2
       (App.mkState
          [App.credential "other.org" "alice" "pw" 1 false;
           App.credential "example.com" "bob" "pw" 1 true;
           App.credential "example.com" "alice" "s3cret" 2 true]
          (Some "hunter2") true
          [App.totp_entry "bob" "JBSWY3DPEHPK3PXP" "example" 3 "example.com" "bob";
           App.totp_entry "other" "JBSWY3DPEHPK3PXP" "other" 3 "other.org" "alice";
           App.totp_entry "example" "JBSWY3DPEHPK3PXP" "example" 4 "example.com" "alice"]
          [] None)
     = (App.mkState [App.credential "other.org" "alice" "pw" 1 false;
                     App.credential "example.com" "bob" "pw" 1 true] (Some "hunter2") true
          [App.totp_entry "bob" "JBSWY3DPEHPK3PXP" "example" 3 "example.com" "bob";
           App.totp_entry "other" "JBSWY3DPEHPK3PXP" "other" 3 "other.org" "alice"]
          [] None, events, JS.Ok tt)) /\
  (exists events,
     App.deleteTOTP 1
       (App.mkState
          [App.credential "example.com" "bob" "pw" 1 true;
           App.credential "other.org" "alice" "pw" 1 true;
           App.credential "example.com" "alice" "s3cret" 2 true]
          (Some "hunter2") true
          [App.totp_entry "bob" "JBSWY3DPEHPK3PXP" "example" 3 "example.com" "bob";
           App.totp_entry "example" "JBSWY3DPEHPK3PXP" "example" 4 "example.com" "alice"]
          [] None)
     = (App.mkState
          [App.credential "example.com" "bob" "pw" 1 true;
           App.credential "other.org" "alice" "pw" 1 true;
           App.credential "example.com" "alice" "s3cret" 2 false]
          (Some "hunter2") true
          [App.totp_entry "bob" "JBSWY3DPEHPK3PXP" "example" 3 "example.com" "bob"]
          [] None, events, JS.Ok tt)).
Proof.
  split.
  - refine (proj1 C7_delete_keeps_cross_reference
              [App.credential "other.org" "alice" "pw" 1 false;
               App.credential "example.com" "bob" "pw" 1 true]
              (App.credential "example.com" "alice" "s3cret" 2 true) []
              (Some "hunter2")
              [App.totp_entry "bob" "JBSWY3DPEHPK3PXP" "example" 3 "example.com" "bob";
               App.totp_entry "other" "JBSWY3DPEHPK3PXP" "other" 3 "other.org" "alice"]
              (App.totp_entry "example" "JBSWY3DPEHPK3PXP" "example" 4 "example.com" "alice")
              [] [] None (JS.VBool true) "example.com" "alice"
              eq_refl eq_refl eq_refl eq_refl _ eq_refl eq_refl).
    repeat constructor; intros [E1 E2]; first [discriminate E1 | discriminate E2].
  - refine (proj2 (proj2 C7_delete_keeps_cross_reference
              [App.credential "example.com" "bob" "pw" 1 true;
               App.credential "other.org" "alice" "pw" 1 true]
              [("website", JS.VStr "example.com"); ("username", JS.VStr "alice");
               ("password", JS.VStr "s3cret"); ("lastUpdated", JS.VInt 2);
               ("hasTOTP", JS.VBool true)] []
              (Some "hunter2")
              [App.totp_entry "bob" "JBSWY3DPEHPK3PXP" "example" 3 "example.com" "bob"]
              (App.totp_entry "example" "JBSWY3DPEHPK3PXP" "example" 4 "example.com" "alice")
              [] [] None "example.com" "alice"
              eq_refl _ eq_refl _ _ eq_refl eq_refl)); try discriminate.
    repeat constructor; intros [E1 E2]; first [discriminate E1 | discriminate E2].
Defined.

(** ** app.js: unlocking *)
Section UnlockFacts.
Import Str JS Json Hex EncryptionModule App.

Lemma JSON_parse_array_of_object props rest :
  exists e, JSON_parse (VArr (VObj props :: rest)) = Throw e.
Proof.
  unfold JSON_parse. cbn [ToString join_items].
  destruct (lookup "toString" props); [eexists; reflexivity|].
  cbn [bind]. destruct rest as [|x rest]; [eexists; reflexivity|].
  destruct (join_items ToString (x :: rest)) as [sr|e]; eexists; reflexivity.
Qed.

Lemma load_collection_objects P blob k e1 e2 props rest :
  decrypt P blob k = Ok (VArr (VObj props :: rest)) ->
  load_collection P blob k e1 e2 = ([], e2).
Proof.
  intros H. unfold load_collection, parse_collection. rewrite H.
  destruct (JSON_parse_array_of_object props rest) as [e ->]. reflexivity.
Qed.

Lemma load_collection_throw P blob k e1 e2 e :
  decrypt P blob k = Throw e -> load_collection P blob k e1 e2 = ([], e1).
Proof. intros H. unfold load_collection. rewrite H. reflexivity. Qed.

Lemma truthy_not_null v : truthy v = true -> strict_eq v VNull = false.
Proof. destruct v; try reflexivity; discriminate. Qed.

End UnlockFacts.

(** C6 (the program's behaviour at the failing input): when the passphrase
    verifies, the credentials blob decrypts to an array of record objects and
    only the TOTP blob fails to decrypt, [unlockVault] completes and unlocks
    the vault with an empty TOTP collection, but the credentials collection
    is empty as well: [decrypt] has already decoded the JSON text, and the
    second [JSON.parse] in [unlockVault] is applied to the array, whose
    string form is not JSON. *)
Theorem C6_unlock_empties_intact_credentials :
  forall (P : EncryptionModule.Platform) (input : App.UnlockInput) (now : Z)
         (st : App.state) (v : JS.value) (props : list (string * JS.value))
         (rest : list JS.value) (e : JS.exn),
    JS.is_empty (App.masterPasswordInput input) = false ->
    EncryptionModule.verifyMasterPassword P (App.masterPasswordInput input)
      (App.getVerificationString input) = JS.Ok v ->
    JS.truthy v = true ->
    JS.truthy (App.getVaultData input) = true ->
    EncryptionModule.decrypt P (App.getVaultData input)
      (EncryptionModule.deriveMasterKey P (App.masterPasswordInput input))
      = JS.Ok (JS.VArr (JS.VObj props :: rest)) ->
    JS.truthy (App.getTOTPSecrets input) = true ->
    EncryptionModule.decrypt P (App.getTOTPSecrets input)
      (EncryptionModule.deriveMasterKey P (App.masterPasswordInput input)) = JS.Throw e ->
    exists shared events,
      App.unlockVault P input now st
      = (App.mkState [] (Some (App.masterPasswordInput input)) true [] shared
           (App.selectedPassword st), events, JS.Ok tt).
Proof.
  intros P input now st v props rest e Hpw Hv Htv Hvault Hdec Htotp Hdect.
  unfold App.unlockVault. rewrite Hpw.
  unfold App.catch, App.bindM, App.lift. rewrite Hv, Htv, Hvault. cbn [negb].
  rewrite (load_collection_objects _ _ _ _ _ _ _ Hdec).
  rewrite Htotp, (load_collection_throw _ _ _ _ _ _ Hdect).
  rewrite (truthy_not_null _ Hvault).
  destruct (JS.truthy (App.getSharedPasswords input)); cbn; eexists; eexists; reflexivity.
Qed.

Lemma C6_unlock_empties_intact_credentials_witness :
  exists shared events,
    App.unlockVault (Reference.platform true)
      (App.mkUnlockInput "hunter2"
         (Reference.stored_verification (Reference.platform true) "hunter2" 1700000000000)
         (Reference.stored_collection (Reference.platform true) "hunter2"
            [App.credential "example.com" "alice" "s3cret" 1700000000000 true])
         (JS.VStr "corrupted")
         (Reference.stored_collection (Reference.platform true) "hunter2" []))
      1700000000005
      (App.mkState [] None false [] [] None)
    = (App.mkState [] (Some "hunter2") true [] shared None, events, JS.Ok tt).
Proof.
  eapply (C6_unlock_empties_intact_credentials (Reference.platform true)
            (App.mkUnlockInput "hunter2"
               (Reference.stored_verification (Reference.platform true) "hunter2" 1700000000000)
               (Reference.stored_collection (Reference.platform true) "hunter2"
                  [App.credential "example.com" "alice" "s3cret" 1700000000000 true])
               (JS.VStr "corrupted")
               (Reference.stored_collection (Reference.platform true) "hunter2" []))
            1700000000005 (App.mkState [] None false [] [] None));
    vm_compute; reflexivity.
Defined.

(** ** passwordSharing.js *)
Section SharingFacts.
Import Str JS Json Hex PasswordSharingModule.

Lemma reference_cipher_ok : CipherOK reference_cipher.
Proof.
  intros text key saltBytes c H.
  unfold reference_cipher in *. cbn [AES_encrypt AES_decrypt] in *.
  injection H as <-.
  assert (E : forall h, h ++ String ":" text = (h ++ ":") ++ text)
    by (intros h; rewrite str_app_assoc; reflexivity).
  change (":" ++ text) with (String ":" text). rewrite E.
  rewrite prefix_app, drop_app. reflexivity.
Qed.

Lemma lookup_filter_other (r k : string) (props : list (string * value)) :
  String.eqb k r = false ->
  lookup k (filter (fun kv => negb (String.eqb (fst kv) r)) props) = lookup k props.
Proof.
  intros Hk. induction props as [|[k' v] props IH]; [reflexivity|].
  cbn [filter fst lookup].
  destruct (String.eqb k' r) eqn:E; cbn [negb lookup].
  - apply String.eqb_eq in E. subst k'. rewrite Hk. exact IH.
  - rewrite IH. reflexivity.
Qed.

Lemma get_prop_without_recipient (props : list (string * value)) (k : string) :
  String.eqb k "recipientEmail" = false ->
  get_prop (VObj props) k = get_prop (VObj (without_recipient props)) k.
Proof.
  intros Hk. unfold get_prop, without_recipient.
  rewrite lookup_filter_other by exact Hk. reflexivity.
Qed.

Lemma open_package_without_recipient C props key now :
  open_package C (VObj props) key now
  = open_package C (VObj (without_recipient props)) key now.
Proof.
  unfold open_package.
  rewrite <- !(get_prop_without_recipient props) by reflexivity. reflexivity.
Qed.

Lemma decodeShareURL_read C shareURL key now packageObj :
  read_package shareURL = Ok packageObj ->
  decodeShareURL C shareURL key now
  = (fst (open_package C packageObj key now),
     try_catch (snd (open_package C packageObj key now))
       (fun error => Throw (Error (failure_prefix ++ message error)))).
Proof.
  intros H. unfold decodeShareURL. rewrite H.
  destruct (open_package C packageObj key now); reflexivity.
Qed.

End SharingFacts.

(** C8: for a share package whose expires timestamp is before the current
    time, [decodeShareURL] fails with the message ending in "This shared
    password has expired" and never calls the cipher, whatever the key; for
    a package that has not expired the cipher is called once, and then:
    empty decrypted text is reported as "Invalid decryption key", an error
    raised by the cipher is reported with its own message, and non-empty
    text is returned as the password.  All failures are plain errors with
    the same prefix; the expiry and the invalid-key messages differ.  So a
    wrong key is told only when the cipher returns the empty text: with the
    library's cipher, on the share of the password s3cret under the key
    Kq7ZpL2mXw9R, the key decoy-wrong-key gives "Invalid decryption key",
    but the key Kq7ZpL2mXAAB gives "Malformed UTF-8 data", and the key
    Kq7ZpL2mXACl gives no error at all: the two characters it decrypts to are
    returned as the password. *)
Theorem C8_share_expiry_and_key_errors :
  (forall (C : PasswordSharingModule.Cipher) (shareURL key : string) (now t : Z)
          (packageObj encryptedPassword : JS.value),
    PasswordSharingModule.read_package shareURL = JS.Ok packageObj ->
    JS.get_prop packageObj "expires" = JS.Ok (JS.VInt t) ->
    JS.get_prop packageObj "encryptedPassword" = JS.Ok encryptedPassword ->
    ((t < now)%Z ->
     PasswordSharingModule.decodeShareURL C shareURL key now
     = ([], JS.Throw (JS.Error (PasswordSharingModule.failure_prefix
                                  ++ "This shared password has expired")))) /\
    ((now <= t)%Z ->
     fst (PasswordSharingModule.decodeShareURL C shareURL key now)
       = [(encryptedPassword, key)] /\
     (PasswordSharingModule.AES_decrypt C encryptedPassword key = JS.Ok EmptyString ->
      snd (PasswordSharingModule.decodeShareURL C shareURL key now)
      = JS.Throw (JS.Error (PasswordSharingModule.failure_prefix
                              ++ "Invalid decryption key"))) /\
     (forall e, PasswordSharingModule.AES_decrypt C encryptedPassword key = JS.Throw e ->
      snd (PasswordSharingModule.decodeShareURL C shareURL key now)
      = JS.Throw (JS.Error (PasswordSharingModule.failure_prefix ++ JS.message e))) /\
     (forall c r, PasswordSharingModule.AES_decrypt C encryptedPassword key
                  = JS.Ok (String c r) ->
      exists website username,
        snd (PasswordSharingModule.decodeShareURL C shareURL key now)
        = JS.Ok (JS.VObj [("website", website); ("username", username);
                          ("password", JS.VStr (String c r))]))) /\
    PasswordSharingModule.failure_prefix ++ "This shared password has expired"
      <> PasswordSharingModule.failure_prefix ++ "Invalid decryption key") /\
  CryptoJS.example_share
  = (JS.VObj [("website", JS.VStr "example.com"); ("username", JS.VStr "alice");
              ("encryptedPassword", JS.VStr "U2FsdGVkX18BAgMEBQYHCLveVRKBE86K8rzZMbZHrfc=");
              ("created", JS.VInt 4102444800000); ("expires", JS.VInt 4103049600000);
              ("recipientEmail", JS.VNull)],
     "Kq7ZpL2mXw9R") /\
  snd (PasswordSharingModule.decodeShareURL CryptoJS.cipher CryptoJS.example_url
         "Kq7ZpL2mXw9R" 4102444800001)
  = JS.Ok (JS.VObj [("website", JS.VStr "example.com"); ("username", JS.VStr "alice");
                    ("password", JS.VStr "s3cret")]) /\
  snd (PasswordSharingModule.decodeShareURL CryptoJS.cipher CryptoJS.example_url
         "decoy-wrong-key" 4102444800001)
  = JS.Throw (JS.Error "Failed to decode shared password: Invalid decryption key") /\
  snd (PasswordSharingModule.decodeShareURL CryptoJS.cipher CryptoJS.example_url
         "Kq7ZpL2mXAAB" 4102444800001)
  = JS.Throw (JS.Error "Failed to decode shared password: Malformed UTF-8 data") /\
  snd (PasswordSharingModule.decodeShareURL CryptoJS.cipher CryptoJS.example_url
         "Kq7ZpL2mXACl" 4102444800001)
  = JS.Ok (JS.VObj [("website", JS.VStr "example.com"); ("username", JS.VStr "alice");
                    ("password", JS.VStr "{d")]).
Proof.
  split; [|repeat split; vm_compute; reflexivity].
  intros C shareURL key now t packageObj encryptedPassword Hread Hexp Henc.
  rewrite (decodeShareURL_read C shareURL key now packageObj Hread).
  unfold PasswordSharingModule.open_package. rewrite Hexp, Henc.
  cbn [JS.bind PasswordSharingModule.less_than PasswordSharingModule.ToNumber JS.VInt].
  change (10 ^ Z.of_nat 0)%Z with 1%Z. rewrite Z.mul_1_r.
  split; [|split; [|discriminate]].
  - intros Hlt. apply Z.ltb_lt in Hlt. rewrite Hlt. reflexivity.
  - intros Hle. apply Z.ltb_ge in Hle. rewrite Hle. cbn [fst snd].
    split; [reflexivity|]. split; [|split].
    + intros ->. reflexivity.
    + intros e ->. reflexivity.
    + intros c r ->. cbn [JS.bind JS.is_empty].
      destruct packageObj; try discriminate Hexp; cbn; eexists; eexists; reflexivity.
Qed.

Lemma C8_share_expiry_and_key_errors_witness :
  PasswordSharingModule.decodeShareURL CryptoJS.cipher CryptoJS.example_url
    "Kq7ZpL2mXAAB" 4103049600001
  = ([], JS.Throw (JS.Error (PasswordSharingModule.failure_prefix
                               ++ "This shared password has expired"))).
Proof.
  refine (proj1 (proj1 C8_share_expiry_and_key_errors CryptoJS.cipher
                   CryptoJS.example_url "Kq7ZpL2mXAAB"
                   4103049600001%Z 4103049600000%Z
                   (fst CryptoJS.example_share)
                   (JS.VStr "U2FsdGVkX18BAgMEBQYHCLveVRKBE86K8rzZMbZHrfc=") _ _ _) _);
    vm_compute; reflexivity.
Defined.

(** C10: [decodeShareURL] never looks at recipientEmail: two share URLs whose
    packages have the same properties apart from recipientEmail give, for
    the same key and the same time, the same cipher calls and the same
    outcome (the same credential or the same error). *)
Theorem C10_recipient_is_never_checked :
  forall (C : PasswordSharingModule.Cipher) (url1 url2 key : string) (now : Z)
         (props1 props2 : list (string * JS.value)),
    PasswordSharingModule.read_package url1 = JS.Ok (JS.VObj props1) ->
    PasswordSharingModule.read_package url2 = JS.Ok (JS.VObj props2) ->
    PasswordSharingModule.without_recipient props1
      = PasswordSharingModule.without_recipient props2 ->
    PasswordSharingModule.decodeShareURL C url1 key now
    = PasswordSharingModule.decodeShareURL C url2 key now.
Proof.
  intros C url1 url2 key now props1 props2 H1 H2 Hsame.
  rewrite (decodeShareURL_read C url1 key now _ H1),
          (decodeShareURL_read C url2 key now _ H2).
  rewrite (open_package_without_recipient C props1),
          (open_package_without_recipient C props2), Hsame.
  reflexivity.
Qed.

Lemma C10_recipient_is_never_checked_witness :
  PasswordSharingModule.example_url JS.VNull
    <> PasswordSharingModule.example_url (JS.VStr "bob@example.com") /\
  PasswordSharingModule.decodeShareURL PasswordSharingModule.reference_cipher
    (PasswordSharingModule.example_url JS.VNull) "AABHQgwCSiyE" 2000
  = PasswordSharingModule.decodeShareURL PasswordSharingModule.reference_cipher
      (PasswordSharingModule.example_url (JS.VStr "bob@example.com")) "AABHQgwCSiyE" 2000.
Proof.
  split.
  - intros E. vm_compute in E. discriminate E.
  - eapply (C10_recipient_is_never_checked PasswordSharingModule.reference_cipher
              (PasswordSharingModule.example_url JS.VNull)
              (PasswordSharingModule.example_url (JS.VStr "bob@example.com"))
              "AABHQgwCSiyE" 2000);
      vm_compute; reflexivity.
Defined.

(** ** One-time passwords *)

Section Base32Facts.
Import Str JS Hex TOTPModule.

Lemma bits_string_app l1 l2 :
  bits_string (l1 ++ l2)%list = bits_string l1 ++ bits_string l2.
Proof. induction l1 as [|b l1 IH]; [reflexivity|]. cbn. rewrite IH. reflexivity. Qed.

Lemma symbol_bits c v :
  indexOf c base32Chars = Some v ->
  padStart 5 "0"%char (toString_radix 2 (N.of_nat v)) = bits_string (bits5 (N.of_nat v)).
Proof.
  destruct c as [[] [] [] [] [] [] [] []]; intros H; vm_compute in H;
    try discriminate H; injection H as <-; reflexivity.
Qed.

Lemma base32_bits_valid s l :
  rfc_base32_bits s = Some l -> base32_bits s = bits_string l.
Proof.
  revert l. induction s as [|c s IH]; intros l H; cbn [rfc_base32_bits] in H.
  - injection H as <-. reflexivity.
  - cbn [base32_bits].
    destruct (indexOf c base32Chars) as [v|] eqn:Hv; [|discriminate H].
    destruct (rfc_base32_bits s) as [l'|]; [|discriminate H]. injection H as <-.
    rewrite (symbol_bits c v Hv), (IH l' eq_refl).
    exact (eq_sym (bits_string_app (bits5 (N.of_nat v)) l')).
Qed.

Lemma rfc_base32_bits_length s l :
  rfc_base32_bits s = Some l -> List.length l = (5 * String.length s)%nat.
Proof.
  revert l. induction s as [|c s IH]; intros l H; cbn [rfc_base32_bits] in H.
  - injection H as <-. reflexivity.
  - destruct (indexOf c base32Chars) as [v|]; [|discriminate H].
    destruct (rfc_base32_bits s) as [l'|]; [|discriminate H]. injection H as <-.
    cbn [bits5 app List.length String.length]. rewrite (IH l' eq_refl). lia.
Qed.

(** Padding is skipped by the first loop like any character that is not a
    symbol. *)
Lemma base32_bits_strip s : base32_bits (strip_padding s) = base32_bits s.
Proof.
  induction s as [|c s IH]; [reflexivity|].
  cbn [strip_padding]. destruct (strip_padding s) as [|a r].
  - destruct (Ascii.eqb c "="%char) eqn:E.
    + apply Ascii.eqb_eq in E. subst c. cbn [base32_bits] in IH |- *.
      change (indexOf "="%char base32Chars) with (@None nat). exact IH.
    + cbn [base32_bits] in IH |- *. rewrite <- IH. reflexivity.
  - cbn [base32_bits] in IH |- *. rewrite <- IH. reflexivity.
Qed.

Lemma bits_to_hex_step a b c d rest :
  bits_to_hex (bits_string (a :: b :: c :: d :: rest))
  = String (nibble_char a b c d) (bits_to_hex (bits_string rest)).
Proof. destruct a, b, c, d; reflexivity. Qed.

Lemma Hex_parse_bytes_step a b c d e f g h X :
  Hex_parse_bytes (String (nibble_char a b c d) (String (nibble_char e f g h) X))
  = byte_of_bits a b c d e f g h :: Hex_parse_bytes X.
Proof. destruct a, b, c, d, e, f, g, h; reflexivity. Qed.

Lemma Hex_parse_bytes_half a b c d :
  exists x, (Byte.to_N x < 16)%N /\
    Hex_parse_bytes (String (nibble_char a b c d) EmptyString) = [x].
Proof. destruct a, b, c, d; eexists; (split; [|reflexivity]); vm_compute; reflexivity. Qed.

(** The two loops of [base32ToHex] and [Hex.parse] on a string of bits: the
    whole bytes of the bits, then half a byte if four bits or more remain. *)
Lemma Hex_parse_bits_bounded n : forall l,
  (List.length l <= n)%nat ->
  let hex := bits_to_hex (bits_string l) in
  String.length hex = (List.length l / 4)%nat /\
  List.length (bytes_of_bits l) = (List.length l / 8)%nat /\
  ((List.length l mod 8 < 4)%nat -> Hex_parse_bytes hex = bytes_of_bits l) /\
  ((4 <= List.length l mod 8)%nat ->
   exists x, (Byte.to_N x < 16)%N /\ Hex_parse_bytes hex = (bytes_of_bits l ++ [x])%list).
Proof.
  induction n as [|n IH]; intros l Hl.
  - destruct l; [|cbn in Hl; lia]. cbn. repeat split; trivial. intros H. lia.
  - destruct l as [|b7 [|b6 [|b5 [|b4 [|b3 [|b2 [|b1 [|b0 rest]]]]]]]].
    1-4: cbn; repeat split; trivial; intros H; lia.
    1-4: cbv zeta; rewrite bits_to_hex_step;
      (split; [reflexivity|]); (split; [reflexivity|]);
      (split; [intros H; cbn in H; lia|]); intros _;
      apply Hex_parse_bytes_half.
    cbv zeta. rewrite bits_to_hex_step, bits_to_hex_step.
    assert (Hr : (List.length rest <= n)%nat) by (cbn [List.length] in Hl; lia).
    destruct (IH rest Hr) as (H1 & H2 & H3 & H4).
    cbn [List.length String.length bytes_of_bits].
    rewrite Hex_parse_bytes_step, H1, H2.
    set (k := List.length rest) in *. clearbody k.
    replace (S (S (S (S (S (S (S (S k)))))))) with (k + 1 * 8)%nat by lia.
    rewrite Nat.Div0.mod_add, Nat.div_add by lia.
    replace (k + 1 * 8)%nat with (k + 2 * 4)%nat by lia.
    rewrite Nat.div_add by lia.
    repeat split; try lia.
    + intros H. rewrite (H3 H). reflexivity.
    + intros H. destruct (H4 H) as (x & Hx & E). exists x. split; [exact Hx|].
      rewrite E. reflexivity.
Qed.

Lemma div_4_8_whole (n : nat) : (n mod 8 < 4 -> n / 4 = 2 * (n / 8))%nat.
Proof.
  intros H.
  pose proof (Nat.div_mod_eq n 8). pose proof (Nat.mod_upper_bound n 8 ltac:(lia)).
  pose proof (Nat.div_mod_eq n 4). pose proof (Nat.mod_upper_bound n 4 ltac:(lia)).
  lia.
Qed.

Lemma div_4_8_half (n : nat) : (4 <= n mod 8 -> n / 4 = 2 * (n / 8) + 1)%nat.
Proof.
  intros H.
  pose proof (Nat.div_mod_eq n 8). pose proof (Nat.mod_upper_bound n 8 ltac:(lia)).
  pose proof (Nat.div_mod_eq n 4). pose proof (Nat.mod_upper_bound n 4 ltac:(lia)).
  lia.
Qed.

(** The key [Hex.parse] hands to the MAC for a string of Base32 symbols. *)
Lemma Hex_parse_base32ToHex s key :
  rfc_base32_decode s = Some key ->
  ((5 * String.length (strip_padding s)) mod 8 < 4)%nat /\
  Hex_parse (base32ToHex s) = whole key
  \/ (4 <= (5 * String.length (strip_padding s)) mod 8)%nat /\
     exists x, (Byte.to_N x < 16)%N /\ Hex_parse (base32ToHex s) = with_half key x.
Proof.
  unfold rfc_base32_decode, base32ToHex.
  destruct (rfc_base32_bits (strip_padding s)) as [l|] eqn:Hl; [|discriminate].
  intros H. injection H as <-.
  rewrite <- (base32_bits_strip s), (base32_bits_valid _ l Hl).
  rewrite <- (rfc_base32_bits_length _ l Hl).
  destruct (Hex_parse_bits_bounded (List.length l) l (le_n _)) as (H1 & H2 & H3 & H4).
  unfold Hex_parse, whole, with_half. rewrite H1, H2.
  destruct (Nat.lt_ge_cases (List.length l mod 8) 4) as [Hlt|Hge].
  - left. split; [exact Hlt|]. rewrite (H3 Hlt), (div_4_8_whole _ Hlt). reflexivity.
  - right. split; [exact Hge|]. destruct (H4 Hge) as (x & Hx & E). exists x.
    split; [exact Hx|]. rewrite E, (div_4_8_half _ Hge). reflexivity.
Qed.

End Base32Facts.

Section CounterFacts.
Import Str JS Hex TOTPModule.

Lemma toString_aux_unfold f n acc :
  toString_radix_aux (S f) 16 n acc
  = if (n / 16 =? 0)%N then String (digit_char (n mod 16)) acc
    else toString_radix_aux f 16 (n / 16) (String (digit_char (n mod 16)) acc).
Proof. reflexivity. Qed.

Lemma toString_aux_hexstr fuel : forall n acc,
  (n < 16 ^ N.of_nat (S fuel))%N ->
  exists j, (1 <= j <= S fuel)%nat /\ (n < 16 ^ N.of_nat j)%N /\
            (16 ^ N.of_nat (j - 1) <= n \/ j = 1%nat)%N /\
            toString_radix_aux (S fuel) 16 n acc = hexstr j n ++ acc.
Proof.
  induction fuel as [|f IH]; intros n acc Hn; rewrite toString_aux_unfold;
    destruct (n / 16 =? 0)%N eqn:E.
  - apply N.eqb_eq in E. exists 1%nat. split; [lia|]. split; [exact Hn|].
    split; [right; reflexivity|]. reflexivity.
  - apply N.eqb_neq in E. exfalso. apply E. apply N.div_small. exact Hn.
  - apply N.eqb_eq in E. exists 1%nat. split; [lia|]. split.
    + apply N.div_small_iff in E; [|lia]. exact E.
    + split; [right; reflexivity|]. reflexivity.
  - apply N.eqb_neq in E.
    assert (Hq : (n / 16 < 16 ^ N.of_nat (S f))%N).
    { apply N.Div0.div_lt_upper_bound.
      replace (N.of_nat (S (S f))) with (N.succ (N.of_nat (S f))) in Hn by lia.
      rewrite N.pow_succ_r' in Hn. exact Hn. }
    destruct (IH (n / 16)%N (String (digit_char (n mod 16)) acc) Hq)
      as (j & Hj & Hlt & Hmin & Heq).
    pose proof (N.div_mod n 16 ltac:(lia)) as Hdm.
    pose proof (N.mod_lt n 16 ltac:(lia)) as Hml.
    exists (S j). split; [lia|]. split; [|split].
    + replace (N.of_nat (S j)) with (N.succ (N.of_nat j)) by lia.
      rewrite N.pow_succ_r'. clear - Hlt Hdm Hml.
      set (p := (16 ^ N.of_nat j)%N) in *. clearbody p.
      generalize dependent (n / 16)%N. generalize dependent (n mod 16)%N. intros; lia.
    + left. replace (S j - 1)%nat with j by lia.
      destruct Hmin as [Hmin| ->].
      * replace (N.of_nat j) with (N.succ (N.of_nat (j - 1))) by lia.
        rewrite N.pow_succ_r'. clear - Hmin Hdm Hml.
        set (p := (16 ^ N.of_nat (j - 1))%N) in *. clearbody p.
        generalize dependent (n / 16)%N. generalize dependent (n mod 16)%N. intros; lia.
      * change (16 ^ N.of_nat 1)%N with 16%N. clear - E Hdm Hml.
        generalize dependent (n / 16)%N. generalize dependent (n mod 16)%N. intros; lia.
    + rewrite Heq. cbn [hexstr]. rewrite str_app_assoc. reflexivity.
Qed.

Lemma repeat_char_snoc c n : repeat_char c n ++ String c "" = String c (repeat_char c n).
Proof. induction n as [|n IH]; [reflexivity|]. cbn. rewrite IH. reflexivity. Qed.

Lemma hexstr_zero d : hexstr d 0 = repeat_char "0" d.
Proof.
  induction d as [|d IH]; [reflexivity|].
  cbn [hexstr]. change (0 / 16)%N with 0%N. rewrite IH.
  change (digit_char (0 mod 16)) with "0"%char. apply repeat_char_snoc.
Qed.

Lemma hexstr_pad j : forall d n,
  (n < 16 ^ N.of_nat j)%N -> hexstr (d + j) n = repeat_char "0" d ++ hexstr j n.
Proof.
  induction j as [|j IH]; intros d n Hn.
  - cbn in Hn. assert (n = 0%N) by lia. subst n.
    rewrite Nat.add_0_r, hexstr_zero. cbn [hexstr]. rewrite str_app_nil_r. reflexivity.
  - replace (d + S j)%nat with (S (d + j)) by lia. cbn [hexstr].
    rewrite IH, str_app_assoc; [reflexivity|].
    apply N.Div0.div_lt_upper_bound.
    replace (N.of_nat (S j)) with (N.succ (N.of_nat j)) in Hn by lia.
    rewrite N.pow_succ_r' in Hn. exact Hn.
Qed.

Lemma hexstr_length j n : String.length (hexstr j n) = j.
Proof.
  revert n. induction j as [|j IH]; intros n; [reflexivity|].
  cbn [hexstr]. rewrite str_length_app, IH. cbn. lia.
Qed.

Lemma log2_fuel n : (n < 16 ^ N.of_nat (S (N.to_nat (N.log2 n))))%N.
Proof.
  destruct (N.eq_dec n 0) as [->|Hn]; [reflexivity|].
  pose proof (N.log2_spec n ltac:(lia)) as [_ Hu].
  eapply N.lt_le_trans; [exact Hu|].
  replace (N.of_nat (S (N.to_nat (N.log2 n)))) with (N.succ (N.log2 n)) by lia.
  apply N.pow_le_mono_l. lia.
Qed.

Lemma padStart_toString_16 k n :
  (n < 16 ^ N.of_nat k)%N -> (1 <= k)%nat ->
  padStart k "0"%char (toString_radix 16 n) = hexstr k n.
Proof.
  intros Hn Hk. unfold toString_radix.
  destruct (toString_aux_hexstr _ n EmptyString (log2_fuel n)) as (j & Hj & Hlt & Hmin & Heq).
  rewrite Heq, str_app_nil_r. unfold padStart. rewrite hexstr_length.
  assert (Hjk : (j <= k)%nat).
  { destruct Hmin as [Hmin|Hj1]; [|lia].
    destruct (le_lt_dec j k) as [|Hgt]; [assumption|exfalso].
    assert (16 ^ N.of_nat k <= 16 ^ N.of_nat (j - 1))%N by (apply N.pow_le_mono_r; lia).
    lia. }
  replace k with ((k - j) + j)%nat at 2 by lia.
  rewrite hexstr_pad by exact Hlt. reflexivity.
Qed.

Lemma lt16_cases (x : N) : (x < 16)%N ->
  (x = 0 \/ x = 1 \/ x = 2 \/ x = 3 \/ x = 4 \/ x = 5 \/ x = 6 \/ x = 7 \/
   x = 8 \/ x = 9 \/ x = 10 \/ x = 11 \/ x = 12 \/ x = 13 \/ x = 14 \/ x = 15)%N.
Proof. lia. Qed.

Lemma parse_pair (x y : N) : (x < 16)%N -> (y < 16)%N ->
  ToUint8 (parseInt 16 (String (digit_char x) (String (digit_char y) EmptyString)))
  = Sha1.byte_of_N (x * 16 + y).
Proof.
  intros Hx Hy.
  destruct (lt16_cases x Hx) as [->|[->|[->|[->|[->|[->|[->|[->|[->|[->|[->|[->|[->|[->|[->| ->]]]]]]]]]]]]]]];
  destruct (lt16_cases y Hy) as [->|[->|[->|[->|[->|[->|[->|[->|[->|[->|[->|[->|[->|[->|[->| ->]]]]]]]]]]]]]]];
  reflexivity.
Qed.

Lemma byte_of_N_mod (x y : N) : (x mod 256 = y mod 256)%N -> Sha1.byte_of_N x = Sha1.byte_of_N y.
Proof. intros H. unfold Sha1.byte_of_N. rewrite H. reflexivity. Qed.

Lemma byte_pair (x : N) :
  Sha1.byte_of_N ((x / 16) mod 16 * 16 + x mod 16) = Sha1.byte_of_N x.
Proof.
  apply byte_of_N_mod.
  pose proof (N.mod_lt x 16 ltac:(lia)) as Hb.
  pose proof (N.mod_lt (x / 16) 16 ltac:(lia)) as Ha.
  assert (E : (x mod 256 = x mod 16 + 16 * ((x / 16) mod 16))%N)
    by (change 256%N with (16 * 16)%N; apply N.Div0.mod_mul_r).
  rewrite E.
  generalize dependent (x mod 16)%N. generalize dependent ((x / 16) mod 16)%N.
  intros a Ha b Hb _.
  rewrite N.mod_small by lia. lia.
Qed.

(** The message [Hex.parse] hands to the MAC: the counter on eight bytes. *)
Lemma intToHex_big_endian (c : N) :
  (c < 2 ^ 64)%N -> Hex_parse (intToHex c) = whole (big_endian_8 c).
Proof.
  intros Hc. unfold intToHex, Hex_parse, whole.
  rewrite padStart_toString_16 by first [exact Hc | lia].
  cbn [hexstr append fold_left seq substring Nat.mul Nat.add Hex_parse_bytes String.length].
  rewrite !parse_pair by (apply N.mod_lt; lia).
  rewrite !byte_pair.
  unfold big_endian_8. cbn [map seq Nat.sub N.of_nat Pos.of_succ_nat Pos.succ].
  change (256 ^ 0)%N with 1%N. rewrite N.div_1_r.
  rewrite !N.Div0.div_div.
  repeat (f_equal; try reflexivity).
Qed.

End CounterFacts.

Section TruncationFacts.
Import Str JS Hex TOTPModule.


Lemma hi_lt b : (high_nibble b < 16)%N.
Proof. destruct b; vm_compute; reflexivity. Qed.

Lemma lo_lt b : (low_nibble b < 16)%N.
Proof. apply N.mod_lt. lia. Qed.

Lemma hi_lo b : (high_nibble b * 16 + low_nibble b = Byte.to_N b)%N.
Proof. unfold high_nibble, low_nibble. pose proof (N.div_mod (Byte.to_N b) 16 ltac:(lia)). lia. Qed.

Lemma byte_hex_digits b :
  byte_hex b = String (digit_char (high_nibble b)) (String (digit_char (low_nibble b)) EmptyString).
Proof. destruct b; reflexivity. Qed.

Lemma parseInt_digit x : (x < 16)%N ->
  parseInt 16 (String (digit_char x) EmptyString) = Some (Z.of_N x).
Proof.
  intros Hx.
  destruct (lt16_cases x Hx) as [->|[->|[->|[->|[->|[->|[->|[->|[->|[->|[->|[->|[->|[->|[->| ->]]]]]]]]]]]]]]];
    reflexivity.
Qed.

Lemma digit_val_digit_char x : (x < 16)%N -> digit_val (digit_char x) = Some x.
Proof.
  intros Hx.
  destruct (lt16_cases x Hx) as [->|[->|[->|[->|[->|[->|[->|[->|[->|[->|[->|[->|[->|[->|[->| ->]]]]]]]]]]]]]]];
    reflexivity.
Qed.

Lemma read_digit x s acc : (x < 16)%N ->
  read_digits 16 (String (digit_char x) s) acc
  = read_digits 16 s (Some (match acc with Some a => a * 16 + x | None => x end)%N).
Proof.
  intros Hx. cbn [read_digits]. rewrite (digit_val_digit_char x Hx).
  apply N.ltb_lt in Hx. rewrite Hx. reflexivity.
Qed.

(** [parseInt] of a string that starts with two hexadecimal digits goes
    straight to reading digits. *)
Lemma parseInt_hex_start x y s : (x < 16)%N -> (y < 16)%N ->
  parseInt 16 (String (digit_char x) (String (digit_char y) s))
  = match read_digits 16 s (Some (x * 16 + y)%N) with
    | Some n => Some (Z.of_N n)
    | None => None
    end.
Proof.
  intros Hx Hy.
  rewrite <- (read_digit y s (Some x) Hy), <- (read_digit x _ None Hx).
  destruct (lt16_cases x Hx) as [->|[->|[->|[->|[->|[->|[->|[->|[->|[->|[->|[->|[->|[->|[->| ->]]]]]]]]]]]]]]];
  destruct (lt16_cases y Hy) as [->|[->|[->|[->|[->|[->|[->|[->|[->|[->|[->|[->|[->|[->|[->| ->]]]]]]]]]]]]]]];
    reflexivity.
Qed.

Lemma parseInt_four_bytes a b c d :
  parseInt 16
    (String (digit_char (high_nibble a)) (String (digit_char (low_nibble a))
    (String (digit_char (high_nibble b)) (String (digit_char (low_nibble b))
    (String (digit_char (high_nibble c)) (String (digit_char (low_nibble c))
    (String (digit_char (high_nibble d)) (String (digit_char (low_nibble d)) EmptyString))))))))
  = Some (Z.of_N (Sha1.word_of_bytes a b c d)).
Proof.
  rewrite parseInt_hex_start by (apply hi_lt || apply lo_lt).
  rewrite !read_digit by (apply hi_lt || apply lo_lt).
  cbn [read_digits]. f_equal. f_equal. unfold Sha1.word_of_bytes.
  rewrite <- (hi_lo a), <- (hi_lo b), <- (hi_lo c), <- (hi_lo d). lia.
Qed.

Lemma land_shiftl_small hi0 lo0 k :
  (0 <= k)%Z -> (0 <= lo0 < 2 ^ k)%Z -> Z.land (hi0 * 2 ^ k) lo0 = 0%Z.
Proof.
  intros Hk Hlo. rewrite <- Z.shiftl_mul_pow2 by exact Hk.
  apply Z.bits_inj'. intros n Hn. rewrite Z.land_spec, Z.bits_0.
  destruct (Z.lt_ge_cases n k) as [Hlt|Hge].
  - rewrite Z.shiftl_spec_low by exact Hlt. reflexivity.
  - replace (Z.testbit lo0 n) with false; [apply andb_false_r|].
    symmetry. apply Z.testbit_false; [exact Hn|].
    rewrite Z.div_small; [reflexivity|].
    split; [lia|]. eapply Z.lt_le_trans; [apply Hlo|].
    apply Z.pow_le_mono_r; lia.
Qed.

Lemma lor_low hi0 lo0 k :
  (0 <= k)%Z -> (0 <= lo0 < 2 ^ k)%Z -> Z.lor (hi0 * 2 ^ k) lo0 = (hi0 * 2 ^ k + lo0)%Z.
Proof.
  intros Hk Hlo. pose proof (Z.add_lor_land (hi0 * 2 ^ k) lo0) as H.
  rewrite (land_shiftl_small hi0 lo0 k Hk Hlo) in H. lia.
Qed.

Ltac eval_pow2 :=
  repeat match goal with
         | |- context [(2 ^ ?k)%Z] =>
             let v := eval vm_compute in (2 ^ k)%Z in change (2 ^ k)%Z with v
         | H : context [(2 ^ ?k)%Z] |- _ =>
             let v := eval vm_compute in (2 ^ k)%Z in change (2 ^ k)%Z with v in H
         end.

(** The 31-bit mask of the code against the bit operations of the RFC. *)
Lemma truncate_word (a b c d : byte) :
  Z.land (Z.of_N (Sha1.word_of_bytes a b c d)) 2147483647
  = Z.lor (Z.lor (Z.lor (Z.shiftl (Z.land (Z.of_N (Byte.to_N a)) 127) 24)
                        (Z.shiftl (Z.of_N (Byte.to_N b)) 16))
                 (Z.shiftl (Z.of_N (Byte.to_N c)) 8))
          (Z.of_N (Byte.to_N d)).
Proof.
  assert (Hb : forall x : byte, (0 <= Z.of_N (Byte.to_N x) < 256)%Z).
  { intros x. pose proof (Byte.to_N_bounded x). lia. }
  pose proof (Hb a) as HA. pose proof (Hb b) as HB. pose proof (Hb c) as HC.
  pose proof (Hb d) as HD.
  unfold Sha1.word_of_bytes.
  repeat (rewrite N2Z.inj_add || rewrite N2Z.inj_mul). change (Z.of_N 256) with 256%Z.
  set (A := Z.of_N (Byte.to_N a)) in *. set (B := Z.of_N (Byte.to_N b)) in *.
  set (C := Z.of_N (Byte.to_N c)) in *. set (D := Z.of_N (Byte.to_N d)) in *.
  clearbody A B C D. clear Hb.
  change 2147483647%Z with (Z.ones 31). rewrite Z.land_ones by lia.
  change 127%Z with (Z.ones 7). rewrite Z.land_ones by lia.
  rewrite !Z.shiftl_mul_pow2 by lia.
  pose proof (Z.mod_pos_bound A (2 ^ 7) ltac:(lia)) as HAm.
  pose proof (Z.div_mod A (2 ^ 7) ltac:(lia)) as HAd.
  change (2 ^ 7)%Z with 128%Z in *.
  set (Am := (A mod 128)%Z) in *. set (Aq := (A / 128)%Z) in *. clearbody Am Aq.
  rewrite (lor_low Am (B * 2 ^ 16) 24) by (eval_pow2; lia).
  replace (Am * 2 ^ 24 + B * 2 ^ 16)%Z with ((Am * 2 ^ 8 + B) * 2 ^ 16)%Z
    by (eval_pow2; lia).
  rewrite (lor_low _ (C * 2 ^ 8) 16) by (eval_pow2; lia).
  replace ((Am * 2 ^ 8 + B) * 2 ^ 16 + C * 2 ^ 8)%Z
    with (((Am * 2 ^ 8 + B) * 2 ^ 8 + C) * 2 ^ 8)%Z by (eval_pow2; lia).
  rewrite (lor_low _ D 8) by (eval_pow2; lia).
  symmetry. apply Z.mod_unique_pos with (q := Aq); eval_pow2; lia.
Qed.

Lemma land_15 (b : byte) : Z.land (Z.of_N (Byte.to_N b)) 15 = Z.of_N (low_nibble b).
Proof. destruct b; reflexivity. Qed.

Lemma list_of_length_20 (h : list byte) : List.length h = 20%nat ->
  exists b0 b1 b2 b3 b4 b5 b6 b7 b8 b9 b10 b11 b12 b13 b14 b15 b16 b17 b18 b19,
    h = [b0; b1; b2; b3; b4; b5; b6; b7; b8; b9; b10; b11; b12; b13; b14; b15; b16; b17; b18; b19].
Proof.
  intros H.
  do 20 (destruct h as [|? h]; [discriminate H|]).
  destruct h; [|discriminate H].
  repeat eexists.
Qed.

Lemma truncation (h : list byte) :
  List.length h = 20%nat ->
  let hmac := hex_of_bytes h in
  let offset := parseInt 16 (substring (String.length hmac - 1) 1 hmac) in
  let start := match offset with Some o => Z.to_nat (o * 2) | None => O end in
  Z.land (match parseInt 16 (substring start 8 hmac) with Some z => z | None => 0%Z end)
         2147483647
  = dynamic_truncation h.
Proof.
  intros Hlen.
  destruct (list_of_length_20 h Hlen)
    as (b0 & b1 & b2 & b3 & b4 & b5 & b6 & b7 & b8 & b9 & b10 & b11 & b12 & b13 & b14
        & b15 & b16 & b17 & b18 & b19 & ->).
  clear Hlen. cbv zeta.
  unfold hex_of_bytes, join. cbn [map concat].
  rewrite !byte_hex_digits. cbn [append String.length Nat.sub substring].
  rewrite (parseInt_digit (low_nibble b19) (lo_lt b19)).
  unfold dynamic_truncation, byte_at. cbn [List.length Nat.sub nth].
  rewrite land_15.
  destruct (lt16_cases (low_nibble b19) (lo_lt b19))
    as [E|[E|[E|[E|[E|[E|[E|[E|[E|[E|[E|[E|[E|[E|[E|E]]]]]]]]]]]]]]];
    rewrite E;
    repeat match goal with
           | |- context [Z.to_nat ?e] =>
               let v := eval vm_compute in (Z.to_nat e) in change (Z.to_nat e) with v
           end;
    cbn [Nat.add substring nth];
    rewrite parseInt_four_bytes; apply truncate_word.
Qed.

Lemma bytes_of_word_length w : List.length (Sha1.bytes_of_word w) = 4%nat.
Proof. reflexivity. Qed.

Lemma sha1_length msg : List.length (Sha1.sha1 msg) = 20%nat.
Proof.
  unfold Sha1.sha1.
  destruct (Sha1.blocks _ _ _) as [[[[h0 h1] h2] h3] h4]. reflexivity.
Qed.

Lemma hmac_sha1_length key msg : List.length (Sha1.hmac_sha1 key msg) = 20%nat.
Proof. unfold Sha1.hmac_sha1. apply sha1_length. Qed.

Lemma pow10_pos (digits : nat) : (0 < 10 ^ Z.of_nat digits)%Z.
Proof. apply Z.pow_pos_nonneg; lia. Qed.

Lemma dynamic_truncation_nonneg (h : list byte) : (0 <= dynamic_truncation h)%Z.
Proof.
  unfold dynamic_truncation, byte_at.
  repeat (apply Z.lor_nonneg; split); try apply Z.shiftl_nonneg; try apply N2Z.is_nonneg.
  apply Z.land_nonneg. left. apply N2Z.is_nonneg.
Qed.

Lemma reference_HmacSHA1_ok : HmacSHA1_OK reference_HmacSHA1.
Proof.
  assert (W : forall l, significant (whole l) = l).
  { intros l. unfold significant, whole. cbn [wa_digits wa_bytes].
    rewrite Nat.mul_comm, Nat.div_mul by lia. apply firstn_all. }
  split.
  - intros message key. unfold reference_HmacSHA1. rewrite !W. reflexivity.
  - intros message key d _ _. unfold reference_HmacSHA1. rewrite W. f_equal.
    unfold significant, with_half. cbn [wa_digits wa_bytes].
    replace ((2 * List.length key + 1) / 2)%nat with (List.length key + 0)%nat.
    + rewrite firstn_app_2. cbn [firstn]. apply app_nil_r.
    + rewrite Nat.add_0_r, (Nat.mul_comm 2), Nat.div_add_l by lia. cbn. lia.
Qed.

(** The MAC the module computes, under what is relied on from the library. *)
Lemma getHMAC_hmac_sha1 HmacSHA1 (s : string) (key : list byte) (c : N) :
  HmacSHA1_OK HmacSHA1 ->
  rfc_base32_decode s = Some key ->
  ((5 * String.length (strip_padding s)) mod 8 < 4 \/ List.length key < 64)%nat ->
  (c < 2 ^ 64)%N ->
  getHMAC HmacSHA1 (intToHex c) (base32ToHex s)
  = hex_of_bytes (Sha1.hmac_sha1 key (big_endian_8 c)).
Proof.
  intros [Hwhole Hhalf] Hkey Hfit Hc. unfold getHMAC.
  rewrite (intToHex_big_endian c Hc).
  destruct (Hex_parse_base32ToHex s key Hkey) as [[_ E]|[Hodd (x & Hx & E)]]; rewrite E.
  - rewrite Hwhole. reflexivity.
  - rewrite Hhalf; [reflexivity| |exact Hx]. lia.
Qed.

Lemma half_digits_even (n : nat) : ((2 * n) / 2 = n)%nat.
Proof. rewrite Nat.mul_comm. apply Nat.div_mul. discriminate. Qed.

Lemma half_digits_odd (n : nat) : ((2 * n + 1) / 2 = n)%nat.
Proof. symmetry. apply (Nat.div_unique (2 * n + 1) 2 n 1); lia. Qed.

Lemma even_double (n : nat) : Nat.even (2 * n) = true.
Proof. apply Nat.even_spec. exists n. reflexivity. Qed.

Lemma even_double_one (n : nat) : Nat.even (2 * n + 1) = false.
Proof.
  rewrite <- Nat.negb_odd. apply negb_false_iff. apply Nat.odd_spec. exists n. reflexivity.
Qed.

Lemma low_half_clamped (d : byte) :
  (Byte.to_N d < 16)%N -> Sha1.byte_of_N (N.land (Byte.to_N d) 240) = x00.
Proof.
  intros H. destruct d; try reflexivity; vm_compute in H; discriminate H.
Qed.

Lemma SHA1_finalize_whole (processed l : list byte) :
  SHA1_finalize processed (whole l) = Sha1.sha1 (processed ++ l).
Proof.
  unfold SHA1_finalize, finalized, whole, Sha1.sha1. cbn [wa_digits wa_bytes]. cbv zeta.
  rewrite even_double, half_digits_even, firstn_all. reflexivity.
Qed.

Lemma clamp_whole (l : list byte) : clamp (whole l) = l.
Proof.
  unfold clamp, whole. cbn [wa_digits wa_bytes]. cbv zeta.
  rewrite even_double, half_digits_even, firstn_all. apply app_nil_r.
Qed.

Lemma clamp_with_half (l : list byte) (d : byte) :
  (Byte.to_N d < 16)%N -> clamp (with_half l d) = (l ++ [x00])%list.
Proof.
  intros Hd. unfold clamp, with_half. cbn [wa_digits wa_bytes]. cbv zeta.
  rewrite even_double_one, half_digits_odd, nth_middle, (low_half_clamped d Hd).
  rewrite firstn_app, firstn_all, Nat.sub_diag. cbn [firstn]. rewrite app_nil_r. reflexivity.
Qed.

Lemma CryptoJS_HmacSHA1_ok : HmacSHA1_OK CryptoJS_HmacSHA1.
Proof.
  split.
  - intros message key. unfold CryptoJS_HmacSHA1, Sha1.hmac_sha1. cbv zeta.
    rewrite !SHA1_finalize_whole, clamp_whole. cbn [whole wa_digits app].
    replace (128 <? 2 * List.length key)%nat with (64 <? List.length key)%nat; [reflexivity|].
    destruct (Nat.ltb_spec 64 (List.length key)); symmetry;
      [apply Nat.ltb_lt | apply Nat.ltb_ge]; lia.
  - intros message key d Hlen Hd. unfold CryptoJS_HmacSHA1, Sha1.hmac_sha1. cbv zeta.
    rewrite SHA1_finalize_whole, (clamp_with_half key d Hd). cbn [with_half wa_digits].
    replace (128 <? 2 * List.length key + 1)%nat with false
      by (symmetry; apply Nat.ltb_ge; lia).
    replace (64 <? List.length key)%nat with false
      by (symmetry; apply Nat.ltb_ge; lia).
    assert (E : ((key ++ [x00]) ++ repeat x00 (64 - List.length (key ++ [x00]))
                 = key ++ repeat x00 (64 - List.length key))%list).
    { rewrite length_app. cbn [List.length].
      replace (64 - List.length key)%nat with (S (64 - (List.length key + 1))) by lia.
      rewrite <- app_assoc. reflexivity. }
    rewrite E. reflexivity.
Qed.

End TruncationFacts.

(** C3: with [CryptoJS.HmacSHA1] computing HMAC-SHA1, for every secret whose
    symbols (once white space is removed and letters are capitalised, with or
    without padding) are Base32 symbols decoding to the key [key], every period and every number
    of digits, [generateTOTP] returns the code of RFC 6238 and RFC 4226 (the
    counter is the Unix time in seconds divided by the period, the MAC is
    taken over the counter on eight bytes, most significant first, under
    [key], four bytes are taken at the offset the low half of the last byte
    gives, masked to 31 bits, reduced modulo ten to the number of digits and
    padded with zeros on the left) as long as the symbols fill whole bytes up
    to fewer than four bits, or the key is shorter than the block of the
    hash, and the counter fits its eight bytes.  The secret JBSWY3DPEHPK3PXP
    at Unix time 59 gives 996554, the code of the RFCs for counter 1 under the
    ten bytes it decodes to, and the secret of the RFC 6238 test vectors
    gives the code 94287082 listed there for that time.  Outside that range
    the code is not the one of the RFCs: the library's MAC meets what is
    assumed of it, and with it a secret of 105 symbols that [validateSecret]
    accepts (a key of 65 bytes) gives 828415 at Unix time 59 where the RFCs
    give 938962, and the Base32 encoding of a key of 77 bytes gives 483587
    where the RFCs give 147013. *)
Theorem C3_generateTOTP_follows_rfc_except_long_keys :
  (forall HmacSHA1 : TOTPModule.WordArray -> TOTPModule.WordArray -> list byte,
    TOTPModule.HmacSHA1_OK HmacSHA1 ->
    (forall (now_ms : N) (secret : string) (period : positive) (digits : nat)
            (key : list byte),
        let symbols := TOTPModule.toUpperCase (TOTPModule.remove_whitespace secret) in
        TOTPModule.rfc_base32_decode symbols = Some key ->
        ((5 * String.length (TOTPModule.strip_padding symbols)) mod 8 < 4
         \/ List.length key < 64)%nat ->
        (now_ms / 1000 / Npos period < 2 ^ 64)%N ->
        TOTPModule.generateTOTP HmacSHA1 now_ms secret period digits
        = TOTPModule.rfc_totp Sha1.hmac_sha1 key (now_ms / 1000) period digits) /\
    TOTPModule.generateTOTP HmacSHA1 59000 "JBSWY3DPEHPK3PXP" 30 6 = "996554" /\
    TOTPModule.rfc_base32_decode "JBSWY3DPEHPK3PXP" = Some TOTPModule.example_key /\
    TOTPModule.rfc_hotp Sha1.hmac_sha1 TOTPModule.example_key 1 6 = "996554" /\
    TOTPModule.generateTOTP HmacSHA1 59000 "GEZDGNBVGY3TQOJQGEZDGNBVGY3TQOJQ" 30 8
    = "94287082") /\
  TOTPModule.HmacSHA1_OK TOTPModule.CryptoJS_HmacSHA1 /\
  (TOTPModule.validateSecret TOTPModule.CryptoJS_HmacSHA1 59000 TOTPModule.long_secret = true /\
   (exists key, TOTPModule.rfc_base32_decode TOTPModule.long_secret = Some key /\
                List.length key = 65%nat /\
                TOTPModule.rfc_totp Sha1.hmac_sha1 key 59 30 6 = "938962") /\
   TOTPModule.generateTOTP TOTPModule.CryptoJS_HmacSHA1 59000 TOTPModule.long_secret 30 6
   = "828415") /\
  (TOTPModule.validateSecret TOTPModule.CryptoJS_HmacSHA1 59000 TOTPModule.long_key_secret
   = true /\
   TOTPModule.rfc_base32_decode TOTPModule.long_key_secret = Some TOTPModule.long_key /\
   List.length TOTPModule.long_key = 77%nat /\
   TOTPModule.rfc_totp Sha1.hmac_sha1 TOTPModule.long_key 59 30 6 = "147013" /\
   TOTPModule.generateTOTP TOTPModule.CryptoJS_HmacSHA1 59000 TOTPModule.long_key_secret 30 6
   = "483587").
Proof.
  split; [|split; [exact CryptoJS_HmacSHA1_ok|split]].
  2:{ split; [vm_compute; reflexivity|]. split; [|vm_compute; reflexivity].
      eexists. split; [vm_compute; reflexivity|]. split; vm_compute; reflexivity. }
  2:{ repeat split; vm_compute; reflexivity. }
  intros HmacSHA1 HOK.
  assert (General : forall now_ms secret period digits key,
             TOTPModule.rfc_base32_decode
               (TOTPModule.toUpperCase (TOTPModule.remove_whitespace secret)) = Some key ->
             ((5 * String.length
                     (TOTPModule.strip_padding
                        (TOTPModule.toUpperCase (TOTPModule.remove_whitespace secret))))
                mod 8 < 4
              \/ List.length key < 64)%nat ->
             (now_ms / 1000 / Npos period < 2 ^ 64)%N ->
             TOTPModule.generateTOTP HmacSHA1 now_ms secret period digits
             = TOTPModule.rfc_totp Sha1.hmac_sha1 key (now_ms / 1000) period digits).
  { intros now_ms secret period digits key Hkey Hfit Hc.
    unfold TOTPModule.generateTOTP, TOTPModule.rfc_totp, TOTPModule.rfc_hotp. cbv zeta.
    rewrite (getHMAC_hmac_sha1 HmacSHA1 _ key _ HOK Hkey Hfit Hc).
    rewrite (truncation _ (hmac_sha1_length key _)).
    rewrite Z.rem_mod_nonneg;
      [reflexivity | apply dynamic_truncation_nonneg | apply pow10_pos]. }
  split; [exact General|].
  split; [|split; [|split]].
  - rewrite (General 59000%N "JBSWY3DPEHPK3PXP" 30%positive 6%nat TOTPModule.example_key);
      [vm_compute; reflexivity | vm_compute; reflexivity | right; cbn; lia
      | vm_compute; reflexivity].
  - vm_compute. reflexivity.
  - vm_compute. reflexivity.
  - rewrite (General 59000%N "GEZDGNBVGY3TQOJQGEZDGNBVGY3TQOJQ" 30%positive 8%nat
               [x31; x32; x33; x34; x35; x36; x37; x38; x39; x30;
                x31; x32; x33; x34; x35; x36; x37; x38; x39; x30]);
      [vm_compute; reflexivity | vm_compute; reflexivity | right; cbn; lia
      | vm_compute; reflexivity].
Qed.

Lemma C3_generateTOTP_follows_rfc_except_long_keys_witness :
  TOTPModule.generateTOTP TOTPModule.CryptoJS_HmacSHA1 1111111109000
    "jbsw y3dp ehpk 3pxp" 30 6
  = TOTPModule.rfc_totp Sha1.hmac_sha1 TOTPModule.example_key 1111111109 30 6.
Proof.
  refine (proj1 (proj1 C3_generateTOTP_follows_rfc_except_long_keys
                   TOTPModule.CryptoJS_HmacSHA1 CryptoJS_HmacSHA1_ok)
                1111111109000%N "jbsw y3dp ehpk 3pxp" 30%positive 6%nat
                TOTPModule.example_key _ _ _).
  - vm_compute. reflexivity.
  - left. vm_compute. lia.
  - vm_compute. reflexivity.
Defined.

(** ** Decimal numerals *)

Section DecimalFacts.
Import Str JS Json Hex.

Lemma of_uint_acc_value (d : Decimal.uint) : forall acc : positive,
  Z.pos (Pos.of_uint_acc d acc) = uint_value d (Z.pos acc).
Proof.
  induction d; intros acc; cbn [Pos.of_uint_acc uint_value];
    try reflexivity; rewrite IHd; f_equal; lia.
Qed.

Lemma of_uint_value (d : Decimal.uint) : Z.of_N (Pos.of_uint d) = uint_value d 0.
Proof.
  induction d; cbn [Pos.of_uint uint_value]; try reflexivity;
    try (rewrite N2Z.inj_pos, of_uint_acc_value; reflexivity).
  exact IHd.
Qed.

Lemma uint_value_bounds (d : Decimal.uint) : forall acc,
  (0 <= acc ->
   acc * 10 ^ Z.of_nat (Decimal.nb_digits d) <= uint_value d acc
   < (acc + 1) * 10 ^ Z.of_nat (Decimal.nb_digits d))%Z.
Proof.
  induction d; intros acc Hacc; cbn [uint_value Decimal.nb_digits];
    try (cbn; lia);
    rewrite Nat2Z.inj_succ, Z.pow_succ_r by lia;
    match goal with
    | |- (_ <= uint_value _ ?a < _)%Z =>
        pose proof (IHd a ltac:(lia)) as IH
    end;
    set (p := (10 ^ Z.of_nat (Decimal.nb_digits d))%Z) in *;
    assert (0 < p)%Z by (apply Z.pow_pos_nonneg; lia);
    clearbody p; nia.
Qed.

Lemma to_uint_normal (p : positive) : Decimal.unorm (Pos.to_uint p) = Pos.to_uint p.
Proof.
  rewrite <- (DecimalPos.Unsigned.to_of (Pos.to_uint p)), DecimalPos.Unsigned.of_to.
  reflexivity.
Qed.

Lemma unorm_fixed_head (d : Decimal.uint) :
  Decimal.unorm d = d -> d <> Decimal.zero ->
  (10 ^ Z.of_nat (Decimal.nb_digits d - 1) <= uint_value d 0)%Z /\ d <> Decimal.Nil.
Proof.
  intros Hn Hz.
  destruct d as [|d|d|d|d|d|d|d|d|d|d];
    try (split; [|discriminate]; cbn [uint_value Decimal.nb_digits];
         rewrite Nat.sub_succ, Nat.sub_0_r;
         match goal with
         | |- (_ <= uint_value _ ?a)%Z => pose proof (uint_value_bounds d a ltac:(lia)); lia
         end).
  - discriminate Hn.
  - exfalso. rewrite DecimalFacts.unorm_D0 in Hn.
    destruct d as [|d|d|d|d|d|d|d|d|d|d]; [apply Hz; reflexivity| | | | | | | | | |];
      match type of Hn with
      | Decimal.unorm ?u = _ =>
          assert (Hu : u <> Decimal.Nil) by discriminate;
          pose proof (DecimalFacts.nb_digits_unorm u Hu) as Hle;
          rewrite Hn in Hle; cbn [Decimal.nb_digits] in Hle; lia
      end.
Qed.

Lemma string_of_uint_length (d : Decimal.uint) :
  String.length (NilEmpty.string_of_uint d) = Decimal.nb_digits d.
Proof. induction d; cbn; congruence. Qed.

Lemma string_of_uint_decimal (d : Decimal.uint) :
  TOTPModule.all_decimal (NilEmpty.string_of_uint d) = true.
Proof. induction d; cbn [NilEmpty.string_of_uint TOTPModule.all_decimal]; try reflexivity; exact IHd. Qed.

Lemma dec_pos (p : positive) : dec (Z.pos p) = NilEmpty.string_of_uint (Pos.to_uint p).
Proof.
  unfold dec. cbn [Z.to_int NilZero.string_of_int NilZero.string_of_uint].
  pose proof (DecimalPos.Unsigned.to_uint_nonnil p) as H.
  destruct (Pos.to_uint p); [contradiction H; reflexivity| | | | | | | | | |]; reflexivity.
Qed.

Lemma dec_pos_value (p : positive) : uint_value (Pos.to_uint p) 0 = Z.pos p.
Proof. rewrite <- of_uint_value, DecimalPos.Unsigned.of_to. reflexivity. Qed.

(** A natural number below ten to the [n] is written on at most [n] digits. *)
Lemma dec_length (z : Z) (n : nat) :
  (0 <= z < 10 ^ Z.of_nat n)%Z -> (1 <= n)%nat ->
  (String.length (dec z) <= n)%nat /\ TOTPModule.all_decimal (dec z) = true.
Proof.
  intros Hz Hn. destruct z as [|p|p]; [split; [cbn; lia|reflexivity]| |lia].
  rewrite dec_pos, string_of_uint_length. split; [|apply string_of_uint_decimal].
  destruct (unorm_fixed_head (Pos.to_uint p) (to_uint_normal p)
              (DecimalPos.Unsigned.to_uint_nonzero p)) as [Hlow _].
  rewrite dec_pos_value in Hlow.
  destruct (le_lt_dec (Decimal.nb_digits (Pos.to_uint p)) n) as [|Hgt]; [assumption|exfalso].
  assert (10 ^ Z.of_nat n <= 10 ^ Z.of_nat (Decimal.nb_digits (Pos.to_uint p) - 1))%Z
    by (apply Z.pow_le_mono_r; lia).
  lia.
Qed.

End DecimalFacts.

(** ** The TOTP module: codes, validation and the countdown *)

Section TotpFacts.
Import Str JS Hex TOTPModule.

Lemma repeat_char_length c n : String.length (repeat_char c n) = n.
Proof. induction n as [|n IH]; [reflexivity|]. cbn. rewrite IH. reflexivity. Qed.

Lemma all_decimal_app a b : all_decimal (a ++ b) = all_decimal a && all_decimal b.
Proof.
  induction a as [|c a IH]; [reflexivity|].
  cbn [append all_decimal]. rewrite IH. apply andb_assoc.
Qed.

Lemma all_decimal_zeros n : all_decimal (repeat_char "0" n) = true.
Proof. induction n as [|n IH]; [reflexivity|]. cbn [repeat_char all_decimal]. rewrite IH. reflexivity. Qed.

Lemma symbol_is_plain c :
  is_base32_symbol c = true ->
  (exists v, indexOf c base32Chars = Some v) /\ is_js_space c = false /\
  upper_char c = String c EmptyString /\ Ascii.eqb c "="%char = false.
Proof.
  destruct c as [[] [] [] [] [] [] [] []]; intros H; vm_compute in H; try discriminate H;
    (split; [eexists; vm_compute; reflexivity|]); repeat split.
Qed.

Lemma indexOf_symbol c v : indexOf c base32Chars = Some v -> is_base32_symbol c = true.
Proof.
  destruct c as [[] [] [] [] [] [] [] []]; intros H; vm_compute in H;
    try discriminate H; reflexivity.
Qed.

Lemma all_base32_decodes s :
  all_base32 s = true ->
  strip_padding s = s /\
  exists l, rfc_base32_bits s = Some l /\ List.length l = (5 * String.length s)%nat.
Proof.
  induction s as [|c s IH]; intros H.
  - split; [reflexivity|]. exists []. split; reflexivity.
  - cbn [all_base32] in H. apply andb_true_iff in H. destruct H as [Hc Hs].
    destruct (IH Hs) as (Hstrip & l & Hl & Hlen).
    destruct (symbol_is_plain c Hc) as ((v & Hv) & _ & _ & Heq).
    split.
    + cbn [strip_padding]. rewrite Hstrip, Heq. destruct s; reflexivity.
    + cbn [rfc_base32_bits]. rewrite Hv, Hl. eexists. split; [reflexivity|].
      cbn [bits5 app List.length String.length]. rewrite Hlen. lia.
Qed.

Lemma keep_symbols_clean s :
  toUpperCase (remove_whitespace (keep_symbols s)) = keep_symbols s.
Proof.
  induction s as [|c s IH]; [reflexivity|].
  cbn [keep_symbols]. destruct (indexOf c base32Chars) as [v|] eqn:Hv; [|exact IH].
  destruct (symbol_is_plain c (indexOf_symbol c v Hv)) as (_ & Hws & Hup & _).
  cbn [remove_whitespace]. rewrite Hws. cbn [toUpperCase]. rewrite Hup, IH. reflexivity.
Qed.

Lemma base32_bits_keep s : base32_bits (keep_symbols s) = base32_bits s.
Proof.
  induction s as [|c s IH]; [reflexivity|].
  cbn [keep_symbols base32_bits]. destruct (indexOf c base32Chars) as [v|] eqn:Hv; [|exact IH].
  cbn [base32_bits]. rewrite Hv, IH. reflexivity.
Qed.

Lemma counter_stable (now_ms d : N) (period : positive) :
  (now_ms mod 1000 + d < getRemainingTime now_ms period * 1000)%N ->
  ((now_ms + d) / 1000 / Npos period = now_ms / 1000 / Npos period)%N.
Proof.
  unfold getRemainingTime. intros H.
  pose proof (N.div_mod now_ms 1000 ltac:(lia)) as Hms.
  pose proof (N.mod_lt now_ms 1000 ltac:(lia)) as Hm.
  set (secs := (now_ms / 1000)%N) in *. set (m := (now_ms mod 1000)%N) in *.
  pose proof (N.div_mod secs (Npos period) ltac:(lia)) as Hs.
  pose proof (N.mod_lt secs (Npos period) ltac:(lia)) as Ht.
  set (q := (secs / Npos period)%N) in *. set (t := (secs mod Npos period)%N) in *.
  pose proof (N.div_mod (m + d) 1000 ltac:(lia)) as He.
  pose proof (N.mod_lt (m + d) 1000 ltac:(lia)) as He'.
  set (e := ((m + d) / 1000)%N) in *. set (e' := ((m + d) mod 1000)%N) in *.
  clearbody secs m q t e e'.
  assert (Hsecs : ((now_ms + d) / 1000 = secs + e)%N).
  { symmetry. apply (N.div_unique _ _ _ e'); lia. }
  rewrite Hsecs. symmetry. apply (N.div_unique _ _ _ (t + e)); nia.
Qed.

Lemma counter_next (now_ms : N) (period : positive) :
  let r := getRemainingTime now_ms period in
  counter_at (now_ms + (r * 1000 - now_ms mod 1000)) period = (counter_at now_ms period + 1)%N.
Proof.
  unfold getRemainingTime, counter_at. cbv zeta.
  pose proof (N.div_mod now_ms 1000 ltac:(lia)) as Hms.
  pose proof (N.mod_lt now_ms 1000 ltac:(lia)) as Hm.
  set (secs := (now_ms / 1000)%N) in *. set (m := (now_ms mod 1000)%N) in *.
  pose proof (N.div_mod secs (Npos period) ltac:(lia)) as Hs.
  pose proof (N.mod_lt secs (Npos period) ltac:(lia)) as Ht.
  set (q := (secs / Npos period)%N) in *. set (t := (secs mod Npos period)%N) in *.
  clearbody secs m q t.
  assert (Hsecs : ((now_ms + ((Npos period - t) * 1000 - m)) / 1000 = secs + (Npos period - t))%N).
  { symmetry. apply (N.div_unique _ _ _ 0%N); nia. }
  rewrite Hsecs. symmetry. apply (N.div_unique _ _ _ 0%N); nia.
Qed.

Lemma code_shape HmacSHA1 now_ms secret period digits :
  (1 <= digits)%nat ->
  String.length (generateTOTP HmacSHA1 now_ms secret period digits) = digits /\
  all_decimal (generateTOTP HmacSHA1 now_ms secret period digits) = true.
Proof.
  intros Hd.
  unfold generateTOTP. cbv zeta.
  match goal with
  | |- context [Z.rem (Z.land ?x 2147483647) _] => set (binary := Z.land x 2147483647)
  end.
  assert (Hb : (0 <= binary)%Z) by (apply Z.land_nonneg; right; lia).
  assert (Hp : (0 < 10 ^ Z.of_nat digits)%Z) by (apply Z.pow_pos_nonneg; lia).
  rewrite Z.rem_mod_nonneg by assumption.
  pose proof (Z.mod_pos_bound binary _ Hp) as Hotp.
  destruct (dec_length _ digits Hotp Hd) as [Hlen Hdec].
  unfold padStart. rewrite str_length_app, repeat_char_length, all_decimal_app,
    all_decimal_zeros, Hdec.
  split; [lia|reflexivity].
Qed.

End TotpFacts.

(** X1: whatever the secret, the time, the period and the MAC
    function, a code asked with at least one digit has exactly that many
    characters, all of them decimal digits. *)
Theorem generateTOTP_code_shape :
  forall (HmacSHA1 : TOTPModule.WordArray -> TOTPModule.WordArray -> list byte)
         (now_ms : N) (secret : string) (period : positive) (digits : nat),
    (1 <= digits)%nat ->
    String.length (TOTPModule.generateTOTP HmacSHA1 now_ms secret period digits) = digits /\
    TOTPModule.all_decimal (TOTPModule.generateTOTP HmacSHA1 now_ms secret period digits) = true.
Proof. intros. apply code_shape. assumption. Qed.

Lemma generateTOTP_code_shape_witness :
  String.length (TOTPModule.generateTOTP TOTPModule.reference_HmacSHA1 59000
                   "JBSWY3DPEHPK3PXP" 30 6) = 6%nat.
Proof.
  refine (proj1 (generateTOTP_code_shape TOTPModule.reference_HmacSHA1 59000%N
                   "JBSWY3DPEHPK3PXP" 30%positive 6%nat _)).
  lia.
Defined.

(** X2: the countdown [getRemainingTime] is between 1 and the period; the
    code stays the same for every later instant of the same period, and the
    counter moves on by one at the instant the countdown points to. *)
Theorem code_stable_for_remaining_time :
  forall (HmacSHA1 : TOTPModule.WordArray -> TOTPModule.WordArray -> list byte)
         (now_ms : N) (secret : string) (period : positive) (digits : nat),
    let r := TOTPModule.getRemainingTime now_ms period in
    (1 <= r <= Npos period)%N /\
    (forall d : N,
        (now_ms mod 1000 + d < r * 1000)%N ->
        TOTPModule.generateTOTP HmacSHA1 (now_ms + d) secret period digits
        = TOTPModule.generateTOTP HmacSHA1 now_ms secret period digits) /\
    TOTPModule.counter_at (now_ms + (r * 1000 - now_ms mod 1000)) period
    = (TOTPModule.counter_at now_ms period + 1)%N.
Proof.
  intros HmacSHA1 now_ms secret period digits r. split; [|split].
  - unfold r, TOTPModule.getRemainingTime.
    pose proof (N.mod_lt (now_ms / 1000) (Npos period) ltac:(lia)) as Ht.
    set (t := ((now_ms / 1000) mod Npos period)%N) in *. clearbody t. lia.
  - intros d Hd. unfold TOTPModule.generateTOTP. cbv zeta.
    rewrite (counter_stable now_ms d period Hd). reflexivity.
  - apply counter_next.
Qed.

Lemma code_stable_for_remaining_time_witness :
  TOTPModule.getRemainingTime 59400 30 = 1%N /\
  TOTPModule.generateTOTP TOTPModule.reference_HmacSHA1 (59400 + 599) "JBSWY3DPEHPK3PXP" 30 6
  = TOTPModule.generateTOTP TOTPModule.reference_HmacSHA1 59400 "JBSWY3DPEHPK3PXP" 30 6.
Proof.
  split; [reflexivity|].
  refine (proj1 (proj2 (code_stable_for_remaining_time TOTPModule.reference_HmacSHA1
                          59400%N "JBSWY3DPEHPK3PXP" 30%positive 6%nat)) 599%N _).
  vm_compute. reflexivity.
Defined.

(** X3: [validateSecret] accepts a secret exactly when, once white space is
    removed and letters are capitalised, it is made of the symbols A-Z and
    2-7 and has at least 16 of them: the trial code never decides.  An
    accepted secret decodes as Base32 to a key of at least ten bytes. *)
Theorem validateSecret_accepts_exactly :
  forall (HmacSHA1 : TOTPModule.WordArray -> TOTPModule.WordArray -> list byte)
         (now_ms : N) (secret : string),
    let cleaned := TOTPModule.toUpperCase (TOTPModule.remove_whitespace secret) in
    (TOTPModule.validateSecret HmacSHA1 now_ms secret = true <->
     TOTPModule.all_base32 cleaned = true /\ (16 <= String.length cleaned)%nat) /\
    (TOTPModule.validateSecret HmacSHA1 now_ms secret = true ->
     exists key, TOTPModule.rfc_base32_decode cleaned = Some key /\
                 List.length key = (5 * String.length cleaned / 8)%nat /\
                 (10 <= List.length key)%nat).
Proof.
  intros HmacSHA1 now_ms secret cleaned.
  assert (Hiff : TOTPModule.validateSecret HmacSHA1 now_ms secret = true <->
                 TOTPModule.all_base32 cleaned = true /\ (16 <= String.length cleaned)%nat).
  { unfold TOTPModule.validateSecret. fold cleaned. cbv zeta.
    unfold TOTPModule.base32Regex_test.
    destruct (TOTPModule.all_base32 cleaned) eqn:Hall.
    - rewrite andb_true_r.
      destruct (Nat.ltb_spec (String.length cleaned) 16) as [Hlt|Hge].
      + destruct cleaned; cbn [JS.is_empty negb]; split; intros H;
          try discriminate H; destruct H; lia.
      + assert (Hne : JS.is_empty cleaned = false)
          by (destruct cleaned; [cbn in Hge; lia|reflexivity]).
        rewrite Hne. cbn [negb].
        destruct (code_shape HmacSHA1 now_ms cleaned 30%positive 6%nat
                    ltac:(lia)) as [Hlen _].
        rewrite Hlen. split; intros _; [split; [reflexivity|exact Hge]|reflexivity].
    - rewrite andb_false_r. cbn [negb]. split; intros H; [discriminate H|].
      destruct H as [H _]. discriminate H. }
  split; [exact Hiff|].
  intros Hv. apply Hiff in Hv. destruct Hv as [Hall Hlen].
  destruct (all_base32_decodes cleaned Hall) as (Hstrip & l & Hl & Hll).
  exists (TOTPModule.bytes_of_bits l).
  unfold TOTPModule.rfc_base32_decode. rewrite Hstrip, Hl.
  destruct (Hex_parse_bits_bounded (List.length l) l (le_n _)) as (_ & Hbytes & _).
  rewrite Hbytes, Hll. split; [reflexivity|]. split; [reflexivity|].
  apply (Nat.div_le_lower_bound); lia.
Qed.

Lemma validateSecret_accepts_exactly_witness :
  exists key,
    TOTPModule.rfc_base32_decode "JBSWY3DPEHPK3PXP" = Some key /\
    List.length key = 10%nat /\ (10 <= List.length key)%nat.
Proof.
  refine (proj2 (validateSecret_accepts_exactly TOTPModule.reference_HmacSHA1 59000%N
                   "jbsw y3dp ehpk 3pxp") _).
  vm_compute. reflexivity.
Defined.

(** X4: characters that are not Base32 symbols (padding, dashes, the digits
    0, 1, 8 and 9, ...) are skipped without notice: the code of a secret is
    the code of its symbols alone. *)
Theorem generateTOTP_ignores_other_characters :
  forall (HmacSHA1 : TOTPModule.WordArray -> TOTPModule.WordArray -> list byte)
         (now_ms : N) (secret : string) (period : positive) (digits : nat),
    TOTPModule.generateTOTP HmacSHA1 now_ms secret period digits
    = TOTPModule.generateTOTP HmacSHA1 now_ms
        (TOTPModule.keep_symbols
           (TOTPModule.toUpperCase (TOTPModule.remove_whitespace secret)))
        period digits.
Proof.
  intros HmacSHA1 now_ms secret period digits.
  unfold TOTPModule.generateTOTP. cbv zeta.
  rewrite keep_symbols_clean. unfold TOTPModule.base32ToHex.
  rewrite base32_bits_keep. reflexivity.
Qed.

Lemma generateTOTP_ignores_other_characters_example :
  TOTPModule.generateTOTP TOTPModule.reference_HmacSHA1 59000 "jbsw-y3dp-ehpk-3pxp==" 30 6
  = "996554".
Proof. vm_compute. reflexivity. Qed.

(** ** Base64 and the share key *)

Section Base64Facts.
Import Str JS Json Hex PasswordSharingModule.

Lemma string_ind3 (P : string -> Prop) :
  P EmptyString ->
  (forall a, P (String a EmptyString)) ->
  (forall a b, P (String a (String b EmptyString))) ->
  (forall a b c r, P r -> P (String a (String b (String c r)))) ->
  forall s, P s.
Proof.
  intros H0 H1 H2 H3. fix IH 1.
  intros [|a [|b [|c r]]]; [exact H0|apply H1|apply H2|apply H3, IH].
Qed.

Lemma below_64 (v : N) : (v < 64)%N -> In v (map N.of_nat (seq 0 64)).
Proof.
  intros H. apply in_map_iff. exists (N.to_nat v). split; [lia|]. apply in_seq. lia.
Qed.

Lemma sextet_char (v : N) :
  (v < 64)%N ->
  b64_val (b64_char v) = Some v /\ Ascii.eqb (b64_char v) "="%char = false /\
  is_ascii_ws (b64_char v) = false /\ Ascii.eqb (b64_char v) "#"%char = false.
Proof.
  intros H.
  assert (A : forallb (fun v =>
                match b64_val (b64_char v) with Some w => (w =? v)%N | None => false end
                && negb (Ascii.eqb (b64_char v) "="%char)
                && negb (is_ascii_ws (b64_char v))
                && negb (Ascii.eqb (b64_char v) "#"%char))
              (map N.of_nat (seq 0 64)) = true) by (vm_compute; reflexivity).
  rewrite forallb_forall in A. specialize (A v (below_64 v H)).
  repeat (apply andb_true_iff in A; destruct A as [A ?]).
  destruct (b64_val (b64_char v)) as [w|]; [|discriminate A].
  apply N.eqb_eq in A. subst w.
  repeat split; apply negb_true_iff; assumption.
Qed.

Lemma code_lt (a : ascii) : (code a < 256)%N.
Proof. apply N_ascii_bounded. Qed.

Ltac divmod t k :=
  let q := fresh "q" in
  let r := fresh "r" in
  let Hq := fresh "Hq" in
  let Hr := fresh "Hr" in
  pose proof (N.div_mod t k ltac:(lia)) as Hq;
  pose proof (N.mod_lt t k ltac:(lia)) as Hr;
  set (q := (t / k)%N) in *; set (r := (t mod k)%N) in *;
  clearbody q r.

Lemma first_char (x u : N) :
  (u < 16)%N -> (x / 4 * 4 + (x mod 4 * 16 + u) / 16 = x)%N.
Proof.
  intros Hu. divmod x 4%N.
  assert (E : ((r * 16 + u) / 16 = r)%N) by (symmetry; apply (N.div_unique _ _ _ u); lia).
  rewrite E. lia.
Qed.

Lemma second_char (x y w : N) :
  (y < 256)%N -> (w < 4)%N ->
  (((x mod 4 * 16 + y / 16) mod 16) * 16 + (y mod 16 * 4 + w) / 4 = y)%N.
Proof.
  intros Hy Hw. divmod y 16%N. divmod x 4%N.
  assert (E1 : ((r0 * 16 + q) mod 16 = q)%N).
  { rewrite N.add_comm, N.Div0.mod_add. apply N.mod_small. lia. }
  assert (E2 : ((r * 4 + w) / 4 = r)%N) by (symmetry; apply (N.div_unique _ _ _ w); lia).
  rewrite E1, E2. lia.
Qed.

Lemma third_char (y z : N) :
  (z < 256)%N -> (((y mod 16 * 4 + z / 64) mod 4) * 64 + z mod 64 = z)%N.
Proof.
  intros Hz. divmod z 64%N. divmod y 16%N.
  assert (E : ((r0 * 4 + q) mod 4 = q)%N).
  { rewrite N.add_comm, N.Div0.mod_add. apply N.mod_small. lia. }
  rewrite E. lia.
Qed.

Lemma ascii_code (a : ascii) : ascii_of_N (code a) = a.
Proof. apply ascii_N_embedding. Qed.

(** The sextets of [btoa] decode to the data. *)
Lemma decode_encode_sextets (s : string) : decode_sextets (encode_sextets s) = s.
Proof.
  induction s as [|a|a b|a b c r IH] using string_ind3.
  - reflexivity.
  - cbn [encode_sextets decode_sextets].
    replace (code a / 4 * 4 + code a mod 4 * 16 / 16)%N with (code a);
      [rewrite ascii_code; reflexivity|].
    symmetry. rewrite <- (N.add_0_r (code a mod 4 * 16)). apply first_char. lia.
  - cbn [encode_sextets decode_sextets].
    rewrite (first_char (code a) (code b / 16)).
    + replace ((code a mod 4 * 16 + code b / 16) mod 16 * 16 + code b mod 16 * 4 / 4)%N
        with (code b); [rewrite !ascii_code; reflexivity|].
      symmetry. rewrite <- (N.add_0_r (code b mod 16 * 4)).
      apply second_char; [apply code_lt|lia].
    + apply N.Div0.div_lt_upper_bound. pose proof (code_lt b). lia.
  - cbn [encode_sextets decode_sextets].
    rewrite (first_char (code a) (code b / 16)),
            (second_char (code a) (code b) (code c / 64)),
            (third_char (code b) (code c)), !ascii_code, IH; try apply code_lt.
    + reflexivity.
    + apply N.Div0.div_lt_upper_bound. pose proof (code_lt c). lia.
    + apply N.Div0.div_lt_upper_bound. pose proof (code_lt b). lia.
Qed.

Lemma encode_sextets_bounded (s : string) : Forall (fun v => (v < 64)%N) (encode_sextets s).
Proof.
  assert (B : forall x y : N, (x < 256 -> y < 256 ->
               x / 4 < 64 /\ x mod 4 * 16 < 64 /\ x mod 4 * 16 + y / 16 < 64 /\
               y mod 16 * 4 < 64 /\ y mod 16 * 4 + x / 64 < 64 /\ x mod 64 < 64)%N).
  { intros x y Hx Hy. divmod x 4%N. divmod y 16%N. divmod x 64%N. lia. }
  induction s as [|a|a b|a b c r IH] using string_ind3; cbn [encode_sextets].
  - constructor.
  - pose proof (B (code a) (code a) (code_lt a) (code_lt a)). repeat constructor; lia.
  - pose proof (B (code a) (code b) (code_lt a) (code_lt b)).
    pose proof (B (code b) (code b) (code_lt b) (code_lt b)). repeat constructor; lia.
  - pose proof (B (code a) (code b) (code_lt a) (code_lt b)).
    pose proof (B (code c) (code b) (code_lt c) (code_lt b)).
    repeat (constructor; [lia|]). exact IH.
Qed.

Lemma btoa_shape (s : string) : btoa s = b64_string (encode_sextets s) ++ padding s.
Proof.
  induction s as [|a|a b|a b c r IH] using string_ind3; try reflexivity.
  cbn [btoa encode_sextets b64_string padding append]. rewrite IH. reflexivity.
Qed.

Lemma sextets_b64_string (l : list N) :
  Forall (fun v => (v < 64)%N) l -> sextets (b64_string l) = Some l.
Proof.
  induction 1 as [|v l Hv _ IH]; [reflexivity|].
  cbn [b64_string sextets]. destruct (sextet_char v Hv) as (E & _). rewrite E, IH. reflexivity.
Qed.

Lemma strip_one_pad_sextets (l : list N) :
  Forall (fun v => (v < 64)%N) l -> strip_one_pad (b64_string l) = b64_string l.
Proof.
  induction 1 as [|v l Hv Hl IH]; [reflexivity|].
  cbn [b64_string strip_one_pad]. destruct (sextet_char v Hv) as (_ & E & _).
  destruct l as [|w l]; cbn [b64_string] in *; [rewrite E; reflexivity|].
  rewrite IH. reflexivity.
Qed.

Lemma strip_one_pad_snoc (x : string) : strip_one_pad (x ++ "=") = x.
Proof.
  induction x as [|c x IH]; [reflexivity|].
  cbn [append strip_one_pad]. rewrite IH. destruct x; reflexivity.
Qed.

Lemma strip_padding_twice (l : list N) (s : string) :
  Forall (fun v => (v < 64)%N) l ->
  strip_one_pad (strip_one_pad (b64_string l ++ padding s)) = b64_string l.
Proof.
  intros Hl.
  assert (P : padding s = "" \/ padding s = "=" \/ padding s = "==").
  { induction s as [|a|a b|a b c r IH] using string_ind3; cbn [padding]; auto. }
  destruct P as [->|[->| ->]].
  - rewrite str_app_nil_r, !strip_one_pad_sextets by exact Hl. reflexivity.
  - rewrite strip_one_pad_snoc, strip_one_pad_sextets by exact Hl. reflexivity.
  - change "==" with ("=" ++ "="). rewrite <- str_app_assoc, !strip_one_pad_snoc. reflexivity.
Qed.

Lemma remove_ascii_ws_btoa (s : string) : remove_ascii_ws (btoa s) = btoa s.
Proof.
  rewrite btoa_shape.
  assert (A : forall l t, Forall (fun v => (v < 64)%N) l -> remove_ascii_ws t = t ->
              remove_ascii_ws (b64_string l ++ t) = b64_string l ++ t).
  { intros l t Hl Ht. induction Hl as [|v l Hv _ IH]; [exact Ht|].
    cbn [b64_string append remove_ascii_ws].
    destruct (sextet_char v Hv) as (_ & _ & E & _). rewrite E, IH. reflexivity. }
  apply A; [apply encode_sextets_bounded|].
  induction s as [|a|a b|a b c r IH] using string_ind3; cbn [padding]; auto.
Qed.

Lemma btoa_length (s : string) : (String.length (btoa s) mod 4 = 0)%nat.
Proof.
  induction s as [|a|a b|a b c r IH] using string_ind3; try reflexivity.
  cbn [btoa String.length].
  replace (S (S (S (S (String.length (btoa r)))))) with (String.length (btoa r) + 1 * 4)%nat
    by lia.
  rewrite Nat.Div0.mod_add. exact IH.
Qed.

Lemma sextets_length (s : string) :
  (String.length (b64_string (encode_sextets s)) mod 4 <> 1)%nat.
Proof.
  induction s as [|a|a b|a b c r IH] using string_ind3; try (cbn; lia).
  cbn [encode_sextets b64_string String.length].
  replace (S (S (S (S (String.length (b64_string (encode_sextets r)))))))
    with (String.length (b64_string (encode_sextets r)) + 1 * 4)%nat by lia.
  rewrite Nat.Div0.mod_add. exact IH.
Qed.

Lemma atob_btoa_eq (s : string) : atob (btoa s) = Ok s.
Proof.
  unfold atob. rewrite remove_ascii_ws_btoa, btoa_length. cbn [Nat.eqb].
  rewrite btoa_shape, strip_padding_twice by apply encode_sextets_bounded.
  destruct (Nat.eqb_spec (String.length (b64_string (encode_sextets s)) mod 4) 1) as [E|_];
    [exfalso; exact (sextets_length s E)|].
  rewrite sextets_b64_string by apply encode_sextets_bounded.
  rewrite decode_encode_sextets. reflexivity.
Qed.

(** X5: the key built by [generateRandomKey] has one character
    for each random byte drawn, and every character is a letter or a digit
    of [chars]. *)
Theorem generateRandomKey_length_and_alphabet (randomValues : list byte) :
  String.length (generateRandomKey randomValues) = List.length randomValues /\
  all_in chars (generateRandomKey randomValues) = true.
Proof.
  induction randomValues as [|v rest [IHl IHa]]; [split; reflexivity|].
  cbn [generateRandomKey].
  assert (A : forallb (fun n =>
                match get n chars with
                | Some c => contains_char c chars
                | None => false
                end) (seq 0 62) = true) by (vm_compute; reflexivity).
  rewrite forallb_forall in A.
  assert (Hn : (N.to_nat (Byte.to_N v mod 62) < 62)%nat).
  { pose proof (N.mod_lt (Byte.to_N v) 62 ltac:(lia)). lia. }
  specialize (A _ (proj2 (in_seq 62 0 _) (conj (Nat.le_0_l _) Hn))).
  destruct (get (N.to_nat (Byte.to_N v mod 62)) chars) as [c|]; [|discriminate A].
  cbn [String.length List.length all_in]. rewrite A, IHl, IHa. split; reflexivity.
Qed.

End Base64Facts.


(** ** JSON texts read back *)

Section JsonNumbers.
Import Str JS Json Hex.

Lemma delimited_char c r :
  delimited (String c r) = true -> c = ","%char \/ c = "]"%char \/ c = "}"%char.
Proof.
  cbn [delimited]. intros H.
  apply orb_true_iff in H. destruct H as [H|H]; [apply orb_true_iff in H; destruct H as [H|H]|];
    apply Ascii.eqb_eq in H; auto.
Qed.

Lemma take_digits_stop acc count rest :
  delimited rest = true -> take_digits rest acc count = (acc, count, rest).
Proof.
  destruct rest as [|c r]; [reflexivity|]. intros H.
  destruct (delimited_char c r H) as [->|[->| ->]]; reflexivity.
Qed.

Lemma take_digits_uint (u : Decimal.uint) : forall acc count rest,
  delimited rest = true ->
  take_digits (NilEmpty.string_of_uint u ++ rest) acc count
  = (uint_value u acc, (count + Decimal.nb_digits u)%nat, rest).
Proof.
  induction u; intros acc count rest Hd;
    cbn [NilEmpty.string_of_uint append take_digits uint_value Decimal.nb_digits];
    try (rewrite Nat.add_0_r; apply take_digits_stop; exact Hd);
    match goal with
    | |- context [digit_of ?c] =>
        let v := eval vm_compute in (digit_of c) in change (digit_of c) with v
    end;
    cbv iota beta; rewrite IHu by exact Hd;
    rewrite ?Z.add_0_r, Nat.add_succ_r; reflexivity.
Qed.

(** A numeral that starts with the digit [c] of value [d]: what
    [parse_number] reads. *)
Lemma parse_number_digits (c : ascii) (d : Z) (u : Decimal.uint) (rest : string) :
  digit_of c = Some d -> (d <> 0%Z \/ u = Decimal.Nil) -> delimited rest = true ->
  parse_number (String c (NilEmpty.string_of_uint u ++ rest))
  = Some (VNum (uint_value u d) 0, rest).
Proof.
  intros Hc Hu Hd. unfold parse_number.
  assert (Hm : Ascii.eqb c "-"%char = false).
  { destruct (Ascii.eqb_spec c "-"%char) as [->|]; [discriminate Hc|reflexivity]. }
  rewrite Hm, Hc.
  assert (E : (if (d =? 0)%Z
               then (0%Z, 1%nat, NilEmpty.string_of_uint u ++ rest)
               else take_digits (NilEmpty.string_of_uint u ++ rest) d 1)
              = (uint_value u d, (1 + Decimal.nb_digits u)%nat, rest)).
  { destruct (Z.eqb_spec d 0) as [->|Hne].
    - destruct Hu as [Hu| ->]; [contradiction|]. reflexivity.
    - apply take_digits_uint. exact Hd. }
  rewrite E. clear E.
  destruct rest as [|c2 r2].
  - cbn. rewrite Z.mul_1_r. reflexivity.
  - destruct (delimited_char c2 r2 Hd) as [->|[->| ->]]; cbn; rewrite Z.mul_1_r; reflexivity.
Qed.

Lemma parse_number_negative (c : ascii) (d : Z) (u : Decimal.uint) (rest : string) :
  digit_of c = Some d -> (d <> 0%Z \/ u = Decimal.Nil) -> delimited rest = true ->
  parse_number (String "-" (String c (NilEmpty.string_of_uint u ++ rest)))
  = Some (VNum (- uint_value u d) 0, rest).
Proof.
  intros Hc Hu Hd. unfold parse_number.
  change (Ascii.eqb "-" "-") with true. cbv iota. rewrite Hc.
  assert (E : (if (d =? 0)%Z
               then (0%Z, 1%nat, NilEmpty.string_of_uint u ++ rest)
               else take_digits (NilEmpty.string_of_uint u ++ rest) d 1)
              = (uint_value u d, (1 + Decimal.nb_digits u)%nat, rest)).
  { destruct (Z.eqb_spec d 0) as [->|Hne].
    - destruct Hu as [Hu| ->]; [contradiction|]. reflexivity.
    - apply take_digits_uint. exact Hd. }
  rewrite E. clear E.
  destruct rest as [|c2 r2].
  - cbn. rewrite Z.mul_1_r. reflexivity.
  - destruct (delimited_char c2 r2 Hd) as [->|[->| ->]]; cbn; rewrite Z.mul_1_r; reflexivity.
Qed.

(** The numeral of a positive number starts with a digit other than 0. *)
Lemma to_uint_head (p : positive) :
  exists c d u,
    NilEmpty.string_of_uint (Pos.to_uint p) = String c (NilEmpty.string_of_uint u) /\
    digit_of c = Some d /\ d <> 0%Z /\ uint_value u d = Z.pos p /\
    TOTPModule.is_decimal_digit c = true.
Proof.
  pose proof (to_uint_normal p) as Hn.
  pose proof (DecimalPos.Unsigned.to_uint_nonzero p) as Hz.
  pose proof (dec_pos_value p) as Hv.
  destruct (unorm_fixed_head _ Hn Hz) as [_ Hnil].
  destruct (Pos.to_uint p) as [|u|u|u|u|u|u|u|u|u|u]; [contradiction| |..];
    try (eexists _, _, u; cbn [NilEmpty.string_of_uint];
         split; [reflexivity|]; split; [vm_compute; reflexivity|];
         split; [discriminate|]; split; [exact Hv|reflexivity]).
  exfalso. rewrite DecimalFacts.unorm_D0 in Hn.
  destruct u as [|u|u|u|u|u|u|u|u|u|u]; [apply Hz; reflexivity| | | | | | | | | |];
    match type of Hn with
    | Decimal.unorm ?w = _ =>
        assert (Hw : w <> Decimal.Nil) by discriminate;
        pose proof (DecimalFacts.nb_digits_unorm w Hw) as Hle;
        rewrite Hn in Hle; cbn [Decimal.nb_digits] in Hle; lia
    end.
Qed.

Lemma dec_neg (p : positive) :
  dec (Z.neg p) = String "-" (NilEmpty.string_of_uint (Pos.to_uint p)).
Proof.
  unfold dec. cbn [Z.to_int NilZero.string_of_int NilZero.string_of_uint].
  pose proof (DecimalPos.Unsigned.to_uint_nonnil p) as H.
  destruct (Pos.to_uint p); [contradiction H; reflexivity| | | | | | | | | |]; reflexivity.
Qed.

(** [JSON.parse] reads the decimal writing of a whole number back. *)
Lemma parse_number_dec (z : Z) (rest : string) :
  delimited rest = true -> parse_number (dec z ++ rest) = Some (VNum z 0, rest).
Proof.
  intros Hd. destruct z as [|p|p].
  - change (dec 0 ++ rest) with (String "0" (NilEmpty.string_of_uint Decimal.Nil ++ rest)).
    rewrite (parse_number_digits "0" 0 Decimal.Nil rest eq_refl (or_intror eq_refl) Hd).
    reflexivity.
  - destruct (to_uint_head p) as (c & d & u & E & Hc & Hne & Hv & _).
    rewrite dec_pos, E. cbn [append].
    rewrite (parse_number_digits c d u rest Hc (or_introl Hne) Hd), Hv. reflexivity.
  - destruct (to_uint_head p) as (c & d & u & E & Hc & Hne & Hv & _).
    rewrite dec_neg, E. cbn [append].
    rewrite (parse_number_negative c d u rest Hc (or_introl Hne) Hd), Hv. reflexivity.
Qed.

Lemma dec_head (z : Z) :
  exists c t, dec z = String c t /\
              (TOTPModule.is_decimal_digit c = true \/ c = "-"%char).
Proof.
  destruct z as [|p|p].
  - exists "0"%char, EmptyString. split; [reflexivity|left; reflexivity].
  - destruct (to_uint_head p) as (c & d & u & E & _ & _ & _ & Hc).
    rewrite dec_pos, E. eexists _, _. split; [reflexivity|left; exact Hc].
  - rewrite dec_neg. eexists _, _. split; [reflexivity|right; reflexivity].
Qed.

Lemma parse_value_numeral (f : nat) (c : ascii) (r : string) :
  TOTPModule.is_decimal_digit c = true \/ c = "-"%char ->
  parse_value (S f) (String c r) = parse_number (String c r).
Proof.
  intros [H| ->]; [|reflexivity].
  destruct c as [[] [] [] [] [] [] [] []]; vm_compute in H; try discriminate H; reflexivity.
Qed.

End JsonNumbers.

Section JsonRoundTrip.
Import Str JS Json Hex.

Lemma join_cons2 sep (x y : string) (l : list string) :
  join sep (x :: y :: l) = x ++ sep ++ join sep (y :: l).
Proof. reflexivity. Qed.

Lemma join_length_in sep (x : string) (l : list string) :
  In x l -> (String.length x <= String.length (join sep l))%nat.
Proof.
  induction l as [|y l IH]; [contradiction|].
  intros [->|Hin].
  - destruct l; [apply Nat.le_refl|]. rewrite join_cons2, str_length_app. lia.
  - destruct l as [|z l]; [contradiction|].
    rewrite join_cons2, !str_length_app. specialize (IH Hin). lia.
Qed.

Lemma join_length_count sep (l : list string) :
  (forall x, In x l -> (1 <= String.length x)%nat) ->
  (List.length l <= String.length (join sep l))%nat.
Proof.
  induction l as [|y l IH]; intros H; [apply Nat.le_0_l|].
  pose proof (H y (or_introl eq_refl)) as Hy.
  destruct l as [|z l]; [exact Hy|].
  rewrite join_cons2, !str_length_app.
  assert (IH' := IH (fun x Hx => H x (or_intror Hx))). cbn [List.length] in *. lia.
Qed.

Lemma plain_stringify (v : value) : plain v = true -> stringify v = Some (text v).
Proof.
  intros H. unfold text. destruct v; try discriminate H; try reflexivity.
  destruct b; reflexivity.
Qed.

Lemma text_array (items : list value) :
  text (VArr items) = String "[" (join "," (map text items) ++ "]").
Proof. reflexivity. Qed.

Lemma text_object (props : list (string * value)) :
  forallb (fun kv => plain (snd kv)) props = true ->
  text (VObj props) = String "{" (join "," (map member_text props) ++ "}").
Proof.
  intros H. unfold text. cbn [stringify append]. do 3 f_equal.
  induction props as [|[k x] props IH]; [reflexivity|].
  cbn [forallb snd] in H. apply andb_true_iff in H. destruct H as [Hx Hp].
  rewrite (plain_stringify x Hx), (IH Hp). reflexivity.
Qed.

(** The first character of the text of a value. *)
Lemma text_head (v : value) :
  plain v = true ->
  exists c t, text v = String c t /\ is_ws c = false /\
              Ascii.eqb c "]"%char = false /\ Ascii.eqb c "}"%char = false.
Proof.
  intros H. destruct v; try discriminate H.
  - eexists _, _. repeat split.
  - destruct b; eexists _, _; repeat split.
  - destruct e; [|discriminate H].
    destruct (dec_head m) as (c & t & E & Hc). exists c, t.
    split; [exact E|].
    destruct Hc as [Hc| ->]; [|repeat split].
    destruct c as [[] [] [] [] [] [] [] []]; vm_compute in Hc; try discriminate Hc;
      repeat split.
  - eexists _, _. repeat split.
  - eexists _, _. rewrite text_array. repeat split.
  - cbn [plain] in H. apply andb_true_iff in H. destruct H as [_ H].
    eexists _, _. rewrite (text_object props H). repeat split.
Qed.

Lemma text_nonempty (v : value) : plain v = true -> (1 <= String.length (text v))%nat.
Proof.
  intros H. destruct (text_head v H) as (c & t & E & _). rewrite E. cbn. lia.
Qed.

Lemma skip_ws_head c t : is_ws c = false -> skip_ws (String c t) = String c t.
Proof. intros H. cbn [skip_ws]. rewrite H. reflexivity. Qed.

(** The elements of an array, each read by [pv]. *)
Lemma parse_elements_text (pv : string -> option (value * string)) :
  forall (items : list value) (fuel : nat) (rest : string),
    items <> [] -> (List.length items <= fuel)%nat ->
    (forall x, In x items -> forall r, delimited r = true -> pv (text x ++ r) = Some (x, r)) ->
    parse_elements pv fuel (join "," (map text items) ++ String "]" rest)
    = Some (items, rest).
Proof.
  induction items as [|x l IH]; intros fuel rest Hne Hf Hpv; [contradiction|].
  destruct fuel as [|fuel]; [cbn in Hf; lia|].
  destruct l as [|y l'].
  - cbn [map join concat parse_elements].
    rewrite (Hpv x (or_introl eq_refl) (String "]" rest) eq_refl). reflexivity.
  - cbn [map]. rewrite join_cons2, !str_app_assoc. cbn [append parse_elements].
    rewrite (Hpv x (or_introl eq_refl) (String "," _) eq_refl).
    cbn [skip_ws]. change (is_ws ",") with false. cbv iota.
    change (Ascii.eqb "," ",") with true. cbv iota.
    change (text y :: map text l') with (map text (y :: l')).
    rewrite IH; [reflexivity|discriminate|cbn [List.length] in *; lia|].
    intros z Hz. apply Hpv. right. exact Hz.
Qed.

Lemma lookup_absent k (ms : list (string * value)) :
  existsb (String.eqb k) (map fst ms) = false ->
  lookup k ms = None /\ filter (fun kv => negb (String.eqb k (fst kv))) ms = ms.
Proof.
  induction ms as [|[k' v] ms IH]; intros H; [split; reflexivity|].
  cbn [map fst existsb] in H. apply orb_false_iff in H. destruct H as [Hk Hms].
  destruct (IH Hms) as [IH1 IH2].
  cbn [lookup filter fst]. rewrite Hk. cbn [negb]. rewrite IH1, IH2. split; reflexivity.
Qed.

Lemma member_text_unfold (k : string) (v : value) (rest : string) :
  member_text (k, v) ++ rest
  = String dquote (quote_body k ++ String dquote (String ":" (text v ++ rest))).
Proof.
  unfold member_text, quote. cbn [fst snd append].
  rewrite !str_app_assoc. cbn [append]. reflexivity.
Qed.

(** The members of an object with names all different. *)
Lemma parse_members_text (pv : string -> option (value * string)) :
  forall (props : list (string * value)) (fuel : nat) (rest : string),
    props <> [] -> (List.length props <= fuel)%nat ->
    distinct (map fst props) = true ->
    (forall kv, In kv props ->
       forall r, delimited r = true -> pv (text (snd kv) ++ r) = Some (snd kv, r)) ->
    parse_members pv fuel (join "," (map member_text props) ++ String "}" rest)
    = Some (props, rest).
Proof.
  induction props as [|[k v] l IH]; intros fuel rest Hne Hf Hdist Hpv; [contradiction|].
  destruct fuel as [|fuel]; [cbn in Hf; lia|].
  cbn [map fst distinct] in Hdist. apply andb_true_iff in Hdist.
  destruct Hdist as [Hk Hl]. apply negb_true_iff in Hk.
  destruct l as [|kv' l'].
  - cbn [map join concat]. rewrite member_text_unfold.
    cbn [parse_members skip_ws]. change (is_ws dquote) with false. cbv iota.
    change (Ascii.eqb dquote dquote) with true. cbn [negb].
    rewrite parse_quote_body. cbn [skip_ws]. change (is_ws ":") with false. cbv iota.
    change (Ascii.eqb ":" ":") with true. cbn [negb].
    pose proof (Hpv (k, v) (or_introl eq_refl) (String "}" rest) eq_refl) as E.
    cbn [snd] in E. rewrite E. reflexivity.
  - cbn [map]. rewrite join_cons2, !str_app_assoc. cbn [append].
    rewrite member_text_unfold.
    cbn [parse_members skip_ws]. change (is_ws dquote) with false. cbv iota.
    change (Ascii.eqb dquote dquote) with true. cbn [negb].
    rewrite parse_quote_body. cbn [skip_ws]. change (is_ws ":") with false. cbv iota.
    change (Ascii.eqb ":" ":") with true. cbn [negb].
    match goal with
    | |- context [pv (text v ++ ?r)] =>
        pose proof (Hpv (k, v) (or_introl eq_refl) r eq_refl) as E
    end.
    cbn [snd] in E. rewrite E.
    cbn [skip_ws snd]. change (is_ws ",") with false. cbv iota.
    change (Ascii.eqb "," ",") with true. cbv iota.
    change (member_text kv' :: map member_text l') with (map member_text (kv' :: l')).
    rewrite IH; [|discriminate|cbn [List.length] in *; lia|exact Hl|].
    + destruct (lookup_absent k (kv' :: l') Hk) as [E1 E2]. rewrite E1, E2. reflexivity.
    + intros z Hz. apply Hpv. right. exact Hz.
Qed.

Lemma parse_value_array f r :
  parse_value (S f) (String "[" r)
  = match skip_ws r with
    | String c' r' =>
        if Ascii.eqb c' "]"%char then Some (VArr [], r')
        else match parse_elements (parse_value f) (S (String.length r)) r with
             | Some (vs, r'') => Some (VArr vs, r'')
             | None => None
             end
    | EmptyString => None
    end.
Proof. reflexivity. Qed.

Lemma parse_value_braces f r :
  parse_value (S f) (String "{" r)
  = match skip_ws r with
    | String c' r' =>
        if Ascii.eqb c' "}"%char then Some (VObj [], r')
        else match parse_members (parse_value f) (S (String.length r)) r with
             | Some (ms, r'') => Some (VObj ms, r'')
             | None => None
             end
    | EmptyString => None
    end.
Proof. reflexivity. Qed.

(** [JSON.parse] reads the text of a plain value back, given fuel beyond
    the length of the text. *)
Lemma parse_value_text : forall (f : nat) (v : value) (rest : string),
  plain v = true -> (String.length (text v) < f)%nat -> delimited rest = true ->
  parse_value f (text v ++ rest) = Some (v, rest).
Proof.
  induction f as [|f IH]; intros v rest Hp Hlen Hd; [lia|].
  destruct v as [| |b|m e|s|items|props]; try discriminate Hp.
  - reflexivity.
  - destruct b; reflexivity.
  - destruct e; [|discriminate Hp].
    change (text (VNum m 0)) with (dec m).
    destruct (dec_head m) as (c & t & E & Hc).
    rewrite E. cbn [append]. rewrite (parse_value_numeral f c _ Hc).
    change (String c (t ++ rest)) with (String c t ++ rest). rewrite <- E.
    apply parse_number_dec. exact Hd.
  - change (text (VStr s)) with (quote s). rewrite quote_unfold. apply pv_string.
  - rewrite text_array in *. cbn [append]. rewrite str_app_assoc. cbn [append].
    rewrite parse_value_array.
    destruct items as [|x l]; [reflexivity|].
    cbn [plain] in Hp.
    assert (Hx : plain x = true) by (cbn [forallb] in Hp; apply andb_true_iff in Hp; tauto).
    destruct (text_head x Hx) as (c & t & E & Hws & Hb & _).
    assert (Hstart : exists t', join "," (map text (x :: l)) ++ String "]" rest = String c t').
    { destruct l; cbn [map]; [cbn [join concat]|rewrite join_cons2, !str_app_assoc];
        rewrite E; eexists; reflexivity. }
    destruct Hstart as [t' Ht']. rewrite Ht' at 1. rewrite skip_ws_head by exact Hws.
    rewrite Hb.
    cbn [String.length] in Hlen. rewrite str_length_app in Hlen.
    rewrite parse_elements_text; [reflexivity|discriminate| |].
    + rewrite str_length_app.
      pose proof (join_length_count "," (map text (x :: l))) as Hc.
      rewrite length_map in Hc.
      assert (List.length (x :: l) <= String.length (join "," (map text (x :: l))))%nat; [|lia].
      apply Hc. intros y Hy. apply in_map_iff in Hy. destruct Hy as (z & <- & Hz).
      apply text_nonempty. rewrite forallb_forall in Hp. apply Hp. exact Hz.
    + intros y Hy r Hr. apply IH; [rewrite forallb_forall in Hp; apply Hp; exact Hy| |exact Hr].
      pose proof (join_length_in "," (text y) (map text (x :: l)) (in_map text _ _ Hy)). lia.
  - cbn [plain] in Hp. apply andb_true_iff in Hp. destruct Hp as [Hdist Hp].
    rewrite (text_object props Hp) in *. cbn [append]. rewrite str_app_assoc. cbn [append].
    rewrite parse_value_braces.
    destruct props as [|[k x] l]; [reflexivity|].
    assert (Hstart : exists t', join "," (map member_text ((k, x) :: l)) ++ String "}" rest
                                = String dquote t').
    { destruct l; cbn [map]; [cbn [join concat]|rewrite join_cons2, !str_app_assoc];
        rewrite member_text_unfold; eexists; reflexivity. }
    destruct Hstart as [t' Ht']. rewrite Ht' at 1.
    rewrite skip_ws_head by reflexivity.
    change (Ascii.eqb dquote "}") with false. cbv iota.
    cbn [String.length] in Hlen. rewrite str_length_app in Hlen.
    rewrite parse_members_text; [reflexivity|discriminate| |exact Hdist|].
    + rewrite str_length_app.
      pose proof (join_length_count "," (map member_text ((k, x) :: l))) as Hc.
      rewrite length_map in Hc.
      assert (List.length ((k, x) :: l)
              <= String.length (join "," (map member_text ((k, x) :: l))))%nat; [|lia].
      apply Hc. intros y Hy. apply in_map_iff in Hy. destruct Hy as ([k' z] & <- & Hz).
      unfold member_text, quote. cbn [String.length fst append]. lia.
    + intros [k' y] Hy r Hr. cbn [snd].
      apply IH; [rewrite forallb_forall in Hp; apply (Hp _ Hy)| |exact Hr].
      pose proof (join_length_in "," (member_text (k', y)) (map member_text ((k, x) :: l))
                    (in_map member_text _ _ Hy)) as Hm.
      unfold member_text at 1 in Hm. cbn [fst snd] in Hm.
      rewrite !str_length_app in Hm. lia.
Qed.

(** [JSON.parse(JSON.stringify(v))] is [v] for a plain value. *)
Lemma parse_text (v : value) : plain v = true -> parse (text v) = Some v.
Proof.
  intros H. unfold parse.
  pose proof (parse_value_text (S (String.length (text v))) v EmptyString H
                (Nat.lt_succ_diag_r _) eq_refl) as E.
  rewrite str_app_nil_r in E. rewrite E. reflexivity.
Qed.

End JsonRoundTrip.

(** ** Shares, from the link back to the password *)

Section ShareRoundTrip.
Import Str JS Json Hex PasswordSharingModule.

Lemma split_at_sep sep (p e : string) :
  contains_char sep p = false -> split sep (p ++ String sep e) = p :: split sep e.
Proof.
  induction p as [|c p IH]; intros H.
  - cbn [append split]. rewrite Ascii.eqb_refl. reflexivity.
  - cbn [contains_char] in H. apply orb_false_iff in H. destruct H as [Hc Hp].
    cbn [append split]. rewrite Hc, (IH Hp). reflexivity.
Qed.

Lemma no_hash_in_btoa (s : string) : contains_char "#" (btoa s) = false.
Proof.
  rewrite btoa_shape.
  assert (A : forall l t, Forall (fun v => (v < 64)%N) l -> contains_char "#" t = false ->
              contains_char "#" (b64_string l ++ t) = false).
  { intros l t Hl Ht. induction Hl as [|v l Hv _ IH]; [exact Ht|].
    cbn [b64_string append contains_char].
    destruct (sextet_char v Hv) as (_ & _ & _ & E). rewrite E, IH. reflexivity. }
  apply A; [apply encode_sextets_bounded|].
  induction s as [|a|a b|a b c r IH] using string_ind3; cbn [padding]; auto.
Qed.

Lemma btoa_nonempty (c : ascii) (r : string) :
  exists c' r', btoa (String c r) = String c' r'.
Proof. destruct r as [|b [|d r']]; cbn [btoa]; eexists _, _; reflexivity. Qed.

(** The link carries the package: reading it gives the package back. *)
Lemma read_package_generateShareURL (packageObj : value) (key : string) :
  plain packageObj = true ->
  read_package (generateShareURL packageObj key) = Ok packageObj.
Proof.
  intros Hp. unfold generateShareURL, read_package.
  rewrite (plain_stringify _ Hp).
  change ("https://aivault.app/share#" ++ btoa (text packageObj))
    with ("https://aivault.app/share" ++ String "#" (btoa (text packageObj))).
  rewrite split_at_sep by reflexivity.
  rewrite split_no_sep by apply no_hash_in_btoa.
  cbn [nth_error].
  destruct (text_head _ Hp) as (c & t & E & _).
  destruct (btoa_nonempty c t) as (c' & r' & E').
  rewrite E in *. rewrite E'. rewrite <- E', <- E.
  rewrite atob_btoa_eq. cbn [bind]. unfold JSON_parse. cbn [ToString bind].
  rewrite (parse_text _ Hp). reflexivity.
Qed.

Lemma less_than_int (t now : Z) : less_than (VInt t) now = Ok (t <? now)%Z.
Proof. unfold less_than, VInt. cbn [ToNumber bind]. rewrite Z.mul_1_r. reflexivity. Qed.

Lemma share_decodes (C : Cipher) (HC : CipherOK C)
    (passwordData recipientEmail : value) (w u p : string) (created now : Z)
    (randomValues saltBytes : list byte) (packageObj : value) (key : string) :
  get_prop passwordData "website" = Ok (VStr w) ->
  get_prop passwordData "username" = Ok (VStr u) ->
  get_prop passwordData "password" = Ok (VStr p) ->
  plain recipientEmail = true ->
  createShareablePassword C passwordData recipientEmail created now randomValues saltBytes
  = Ok (packageObj, key) ->
  key = generateRandomKey randomValues /\
  forall now' key',
    decodeShareURL C (generateShareURL packageObj key) key' now'
    = if (now + week <? now')%Z
      then ([], Throw (Error (failure_prefix ++ "This shared password has expired")))
      else
        match get_prop packageObj "encryptedPassword" with
        | Ok c =>
            ([(c, key')],
             try_catch
               (bind (AES_decrypt C c key') (fun decryptedPassword =>
                  if is_empty decryptedPassword then Throw (Error "Invalid decryption key")
                  else Ok (VObj [("website", VStr w); ("username", VStr u);
                                 ("password", VStr decryptedPassword)])))
               (fun error => Throw (Error (failure_prefix ++ message error))))
        | Throw e => ([], Throw e)
        end.
Proof.
  intros Hw Hu Hp Hr Hcreate.
  unfold createShareablePassword in Hcreate. rewrite Hw, Hu, Hp in Hcreate.
  cbn [bind] in Hcreate.
  destruct (AES_encrypt C (VStr p) (generateRandomKey randomValues) saltBytes) as [c|e] eqn:Henc;
    [|discriminate Hcreate].
  cbn [bind] in Hcreate. injection Hcreate as <- <-.
  split; [reflexivity|]. intros now' key'.
  unfold decodeShareURL.
  rewrite read_package_generateShareURL
    by (cbn [plain map fst distinct existsb forallb snd]; rewrite Hr; reflexivity).
  unfold open_package.
  change (get_prop (VObj _) "expires") with (@Ok value (VInt (now + week))). cbn [bind].
  rewrite less_than_int.
  destruct (now + week <? now')%Z; [reflexivity|].
  change (get_prop (VObj _) "encryptedPassword") with (@Ok value (VStr c)). cbv iota.
  destruct (AES_decrypt C (VStr c) key') as [d|e]; [|reflexivity].
  cbn [bind]. destruct (is_empty d); reflexivity.
Qed.

End ShareRoundTrip.

(** X6: a share made by [createShareablePassword] from a
    record with string fields and turned into a link by [generateShareURL]
    is read back by [decodeShareURL]: with the key of the share, until the
    expiry date, it returns the website, the user name and the password
    shared, when the cipher decrypts what it encrypted and the password is
    not empty.  An empty password cannot be shared: the same call fails with
    the invalid-key message.  After the expiry date every key is refused
    before the cipher is called. *)
Theorem share_link_round_trip :
  forall (C : PasswordSharingModule.Cipher) (passwordData recipientEmail : JS.value)
         (w u p : string) (created now : Z) (randomValues saltBytes : list byte)
         (packageObj : JS.value) (key : string),
    PasswordSharingModule.CipherOK C ->
    JS.get_prop passwordData "website" = JS.Ok (JS.VStr w) ->
    JS.get_prop passwordData "username" = JS.Ok (JS.VStr u) ->
    JS.get_prop passwordData "password" = JS.Ok (JS.VStr p) ->
    Json.plain recipientEmail = true ->
    PasswordSharingModule.createShareablePassword C passwordData recipientEmail created now
      randomValues saltBytes = JS.Ok (packageObj, key) ->
    let shareURL := PasswordSharingModule.generateShareURL packageObj key in
    (forall now', (now' <= now + PasswordSharingModule.week)%Z ->
       snd (PasswordSharingModule.decodeShareURL C shareURL key now')
       = match p with
         | EmptyString =>
             JS.Throw (JS.Error (PasswordSharingModule.failure_prefix
                                   ++ "Invalid decryption key"))
         | _ => JS.Ok (JS.VObj [("website", JS.VStr w); ("username", JS.VStr u);
                                ("password", JS.VStr p)])
         end) /\
    (forall now' key', (now + PasswordSharingModule.week < now')%Z ->
       PasswordSharingModule.decodeShareURL C shareURL key' now'
       = ([], JS.Throw (JS.Error (PasswordSharingModule.failure_prefix
                                    ++ "This shared password has expired")))).
Proof.
  intros C passwordData recipientEmail w u p created now randomValues saltBytes
         packageObj key HC Hw Hu Hp Hr Hcreate shareURL.
  destruct (share_decodes C HC passwordData recipientEmail w u p created now randomValues
              saltBytes packageObj key Hw Hu Hp Hr Hcreate) as [Hkey Hdecode].
  assert (Henc : exists c, JS.get_prop packageObj "encryptedPassword" = JS.Ok (JS.VStr c) /\
                           PasswordSharingModule.AES_decrypt C (JS.VStr c) key = JS.Ok p).
  { unfold PasswordSharingModule.createShareablePassword in Hcreate.
    rewrite Hw, Hu, Hp in Hcreate. cbn [JS.bind] in Hcreate.
    destruct (PasswordSharingModule.AES_encrypt C (JS.VStr p)
                (PasswordSharingModule.generateRandomKey randomValues) saltBytes)
      as [c|e] eqn:E; [|discriminate Hcreate].
    cbn [JS.bind] in Hcreate. injection Hcreate as <- <-.
    exists c. split; [reflexivity|]. exact (HC _ _ _ _ E). }
  destruct Henc as (c & Hc & Hdec).
  split.
  - intros now' Hnow. unfold shareURL. rewrite Hdecode.
    destruct (Z.ltb_spec (now + PasswordSharingModule.week) now') as [Hlt|_]; [lia|].
    rewrite Hc. cbn [snd]. rewrite Hdec. cbn [JS.bind].
    destruct p; reflexivity.
  - intros now' key' Hnow. unfold shareURL. rewrite Hdecode.
    destruct (Z.ltb_spec (now + PasswordSharingModule.week) now') as [_|Hge]; [reflexivity|lia].
Qed.

Lemma share_link_round_trip_witness :
  snd (PasswordSharingModule.decodeShareURL PasswordSharingModule.reference_cipher
         (PasswordSharingModule.example_url JS.VNull) "AABHQgwCSiyE" 2000)
  = JS.Ok (JS.VObj [("website", JS.VStr "example.com"); ("username", JS.VStr "alice");
                    ("password", JS.VStr "s3cret")]).
Proof.
  refine (proj1 (share_link_round_trip PasswordSharingModule.reference_cipher
                   (JS.VObj [("website", JS.VStr "example.com"); ("username", JS.VStr "alice");
                             ("password", JS.VStr "s3cret")])
                   JS.VNull "example.com" "alice" "s3cret" 1000 1000
                   [x00; x3e; x3f; xff; x10; x20; x30; x40; x50; x60; x70; x80] []
                   (fst (PasswordSharingModule.example_share JS.VNull))
                   (snd (PasswordSharingModule.example_share JS.VNull))
                   reference_cipher_ok eq_refl eq_refl eq_refl eq_refl _) 2000%Z _).
  - vm_compute. reflexivity.
  - vm_compute. discriminate.
Defined.

(** ** Tokens and stored collections *)

Section TokenFacts.
Import Str JS Json Hex EncryptionModule.

Lemma encrypt_cryptojs_envelope P text k iv token :
  encrypt_cryptojs P text k iv = Ok token ->
  exists data, token = envelope (hex_of_bytes iv) data.
Proof.
  unfold encrypt_cryptojs. destruct (CryptoJS_AES_encrypt P text k iv) as [c|e]; [|discriminate].
  cbn [bind]. intros H. injection H as <-. exists c. reflexivity.
Qed.

Lemma encrypt_envelope P data masterKey rnd token :
  encrypt P data masterKey rnd = Ok token ->
  exists iv d,
    token = envelope iv d /\
    In iv [hex_of_bytes (iv12 rnd); hex_of_bytes (iv16 rnd); hex_of_bytes (iv16_retry rnd)].
Proof.
  unfold encrypt. set (dataString := match data with VStr s => s | _ => _ end). clearbody dataString.
  destruct (useWebCrypto masterKey).
  - destruct (subtle_encrypt P (key masterKey) (iv12 rnd) (TextEncoder_encode P dataString))
      as [c|e]; cbn [bind try_catch]; intros H.
    + injection H as <-. eexists _, _. split; [reflexivity|]. left. reflexivity.
    + destruct (encrypt_cryptojs_envelope _ _ _ _ _ H) as [d ->].
      eexists _, _. split; [reflexivity|]. right. right. left. reflexivity.
  - destruct (encrypt_cryptojs P dataString (key masterKey) (iv16 rnd)) as [t|e] eqn:E;
      cbn [try_catch]; intros H.
    + injection H as <-. destruct (encrypt_cryptojs_envelope _ _ _ _ _ E) as [d ->].
      eexists _, _. split; [reflexivity|]. right. left. reflexivity.
    + destruct (encrypt_cryptojs_envelope _ _ _ _ _ H) as [d ->].
      eexists _, _. split; [reflexivity|]. right. right. left. reflexivity.
Qed.

End TokenFacts.

(** X7: every token [encrypt] returns, on either back end and
    after a fallback, is the JSON text of an object with exactly the fields
    iv, data and version 1, the iv being the hexadecimal writing of one of
    the IVs drawn for the call. *)
Theorem encrypt_returns_an_envelope :
  forall (P : EncryptionModule.Platform) (data : JS.value)
         (masterKey : EncryptionModule.MasterKey) (rnd : EncryptionModule.Entropy)
         (token : string),
    EncryptionModule.encrypt P data masterKey rnd = JS.Ok token ->
    exists iv d,
      Json.parse token
      = Some (JS.VObj [("iv", JS.VStr iv); ("data", JS.VStr d); ("version", JS.VInt 1)]) /\
      In iv [Hex.hex_of_bytes (EncryptionModule.iv12 rnd);
             Hex.hex_of_bytes (EncryptionModule.iv16 rnd);
             Hex.hex_of_bytes (EncryptionModule.iv16_retry rnd)].
Proof.
  intros P data masterKey rnd token H.
  destruct (encrypt_envelope P data masterKey rnd token H) as (iv & d & -> & Hin).
  exists iv, d. split; [apply parse_envelope|exact Hin].
Qed.

Lemma encrypt_returns_an_envelope_witness :
  exists iv d,
    Json.parse (match EncryptionModule.encrypt (Reference.platform true) (JS.VStr "[]")
                        (EncryptionModule.deriveMasterKey (Reference.platform true) "hunter2")
                        Reference.entropy with
                | JS.Ok t => t
                | JS.Throw _ => EmptyString
                end)
    = Some (JS.VObj [("iv", JS.VStr iv); ("data", JS.VStr d); ("version", JS.VInt 1)]) /\
    In iv [Hex.hex_of_bytes (EncryptionModule.iv12 Reference.entropy);
           Hex.hex_of_bytes (EncryptionModule.iv16 Reference.entropy);
           Hex.hex_of_bytes (EncryptionModule.iv16_retry Reference.entropy)].
Proof.
  refine (encrypt_returns_an_envelope (Reference.platform true) (JS.VStr "[]")
            (EncryptionModule.deriveMasterKey (Reference.platform true) "hunter2")
            Reference.entropy _ _).
  vm_compute. reflexivity.
Defined.

(** X8: a collection of plain records (no [undefined],
    whole numbers, names all different), written with [JSON.stringify] and
    encrypted as [saveVaultData] does, decrypts under the same master
    password to the collection itself, already decoded. *)
Theorem stored_collection_decrypts_to_its_records :
  forall (P : EncryptionModule.Platform) (masterPassword : string)
         (rnd : EncryptionModule.Entropy) (items : list JS.value),
    EncryptionModule.PlatformOK P ->
    List.length (EncryptionModule.iv12 rnd) = 12%nat ->
    List.length (EncryptionModule.iv16 rnd) = 16%nat ->
    forallb Json.plain items = true ->
    exists vaultData token,
      Json.stringify (JS.VArr items) = Some vaultData /\
      EncryptionModule.encrypt P (JS.VStr vaultData)
        (EncryptionModule.deriveMasterKey P masterPassword) rnd = JS.Ok token /\
      EncryptionModule.decrypt P (JS.VStr token)
        (EncryptionModule.deriveMasterKey P masterPassword) = JS.Ok (JS.VArr items).
Proof.
  intros P masterPassword rnd items HP H12 H16 Hplain.
  exists (Json.text (JS.VArr items)).
  destruct (decrypt_encrypt P HP (EncryptionModule.deriveMasterKey P masterPassword) rnd
              (Json.text (JS.VArr items)) (deriveMasterKey_well_formed P masterPassword)
              H12 H16) as (token & Henc & Hdec).
  exists token. split; [reflexivity|]. split; [exact Henc|].
  rewrite Hdec. unfold EncryptionModule.parse_or_text.
  rewrite (parse_text (JS.VArr items) Hplain). reflexivity.
Qed.

Lemma stored_collection_decrypts_to_its_records_witness :
  exists vaultData token,
    Json.stringify (JS.VArr [App.credential "example.com" "alice" "s3cret" 1700000000000 true])
    = Some vaultData /\
    EncryptionModule.encrypt (Reference.platform true) (JS.VStr vaultData)
      (EncryptionModule.deriveMasterKey (Reference.platform true) "hunter2")
      Reference.entropy = JS.Ok token /\
    EncryptionModule.decrypt (Reference.platform true) (JS.VStr token)
      (EncryptionModule.deriveMasterKey (Reference.platform true) "hunter2")
    = JS.Ok (JS.VArr [App.credential "example.com" "alice" "s3cret" 1700000000000 true]).
Proof.
  exact (stored_collection_decrypts_to_its_records (Reference.platform true) "hunter2"
           Reference.entropy
           [App.credential "example.com" "alice" "s3cret" 1700000000000 true]
           (reference_platform_ok true) eq_refl eq_refl eq_refl).
Defined.

(** ** The background script: domains and expiry *)

Section DomainFacts.
Import Str Background.

Lemma toLowerCase_app (a b : string) : toLowerCase (a ++ b) = toLowerCase a ++ toLowerCase b.
Proof. induction a as [|c a IH]; [reflexivity|]. cbn [append toLowerCase]. rewrite IH. reflexivity. Qed.

Lemma contains_dot_lower (s : string) :
  contains_char "." (toLowerCase s) = contains_char "." s.
Proof.
  induction s as [|c s IH]; [reflexivity|].
  cbn [toLowerCase contains_char]. rewrite IH. f_equal.
  destruct c as [[] [] [] [] [] [] [] []]; reflexivity.
Qed.

Lemma split_snoc sep (x y : string) :
  contains_char sep y = false ->
  split sep (x ++ String sep y) = (split sep x ++ [y])%list.
Proof.
  intros Hy. induction x as [|c x IH].
  - cbn [append split]. rewrite Ascii.eqb_refl, (split_no_sep sep y Hy). reflexivity.
  - cbn [append split]. destruct (Ascii.eqb c sep); [rewrite IH; reflexivity|].
    rewrite IH. destruct (split sep x) as [|h t] eqn:E.
    + destruct (split_nonempty sep x E).
    + reflexivity.
Qed.

Lemma last_two_snoc (l : list string) (a b : string) :
  last_two ((l ++ [a]) ++ [b])%list = a ++ "." ++ b.
Proof.
  unfold last_two. rewrite <- app_assoc. cbn [app].
  rewrite length_app. cbn [List.length].
  replace (List.length l + 2 - 2)%nat with (List.length l + 0)%nat by lia.
  rewrite skipn_app, Nat.add_0_r, skipn_all.
  replace (List.length l - List.length l)%nat with 0%nat by lia. reflexivity.
Qed.

Lemma site_parts (p a b : string) :
  contains_char "." a = false -> contains_char "." b = false ->
  exists l, split "." (toLowerCase (p ++ String "." (a ++ String "." b)))
            = ((l ++ [toLowerCase a]) ++ [toLowerCase b])%list.
Proof.
  intros Ha Hb.
  replace (p ++ String "." (a ++ String "." b)) with ((p ++ String "." a) ++ String "." b)
    by (rewrite str_app_assoc; reflexivity).
  rewrite toLowerCase_app. cbn [toLowerCase].
  change (lower_ascii ".") with "."%char.
  rewrite split_snoc by (rewrite contains_dot_lower; exact Hb).
  rewrite toLowerCase_app. cbn [toLowerCase]. change (lower_ascii ".") with "."%char.
  rewrite split_snoc by (rewrite contains_dot_lower; exact Ha).
  eexists. reflexivity.
Qed.

Lemma isDomainMatch_sym_eq (a b : option string) : isDomainMatch a b = isDomainMatch b a.
Proof.
  unfold isDomainMatch. rewrite (orb_comm (no_domain a)).
  destruct (no_domain b || no_domain a); [reflexivity|]. cbv zeta.
  rewrite (String.eqb_sym (toLowerCase (template a))).
  rewrite (orb_comm (includes (toLowerCase (template a)) _)).
  rewrite (andb_comm (2 <=? List.length (split "." (toLowerCase (template a))))%nat).
  rewrite (String.eqb_sym (last_two (split "." (toLowerCase (template a))))).
  reflexivity.
Qed.

End DomainFacts.

(** X9: [isDomainMatch] does not depend on the order of its two
    domains, and a domain that is not empty matches itself. *)
Theorem isDomainMatch_symmetric :
  forall a b : option string,
    Background.isDomainMatch a b = Background.isDomainMatch b a /\
    (Background.no_domain a = false -> Background.isDomainMatch a a = true).
Proof.
  intros a b. split; [apply isDomainMatch_sym_eq|].
  intros Ha. unfold Background.isDomainMatch. rewrite Ha. cbn [orb]. cbv zeta.
  rewrite String.eqb_refl. reflexivity.
Qed.

Lemma isDomainMatch_symmetric_witness :
  Background.isDomainMatch (Some "Example.com") (Some "Example.com") = true.
Proof.
  exact (proj2 (isDomainMatch_symmetric (Some "Example.com") None) eq_refl).
Defined.

(** X10: [isDomainMatch] accepts more than equal domains:
    a saved domain matches every host that contains it as a piece of text
    (and the other way round), whatever the case of the letters, and two
    hosts match as soon as their last two labels are the same, even when
    neither contains the other. *)
Theorem isDomainMatch_accepts_lookalikes :
  (forall saved current : string,
      saved <> EmptyString -> current <> EmptyString ->
      Str.Substring (Str.toLowerCase saved) (Str.toLowerCase current) ->
      Background.isDomainMatch (Some saved) (Some current) = true /\
      Background.isDomainMatch (Some current) (Some saved) = true) /\
  (forall p1 p2 a b : string,
      Str.contains_char "." a = false -> Str.contains_char "." b = false ->
      Background.isDomainMatch (Some (p1 ++ "." ++ a ++ "." ++ b))
                               (Some (p2 ++ "." ++ a ++ "." ++ b)) = true).
Proof.
  split.
  - intros saved current Hs Hc Hsub.
    assert (M : Background.isDomainMatch (Some current) (Some saved) = true).
    { unfold Background.isDomainMatch.
      destruct saved; [contradiction|]. destruct current; [contradiction|].
      cbn [Background.no_domain orb Background.template]. cbv zeta.
      apply includes_Substring in Hsub. rewrite Hsub.
      destruct (String.eqb _ _); reflexivity. }
    split; [rewrite isDomainMatch_sym_eq|]; exact M.
  - intros p1 p2 a b Ha Hb. unfold Background.isDomainMatch.
    assert (N : forall p, Background.no_domain (Some (p ++ "." ++ a ++ "." ++ b)) = false)
      by (intros p; destruct p; reflexivity).
    rewrite !N. cbn [orb Background.template]. cbv zeta.
    destruct (String.eqb _ _); [reflexivity|].
    destruct (_ || _); [reflexivity|].
    change (?p ++ "." ++ a ++ "." ++ b) with (p ++ String "." (a ++ String "." b)).
    destruct (site_parts p1 a b Ha Hb) as [l1 E1].
    destruct (site_parts p2 a b Ha Hb) as [l2 E2].
    change (p1 ++ "." ++ a ++ "." ++ b) with (p1 ++ String "." (a ++ String "." b)).
    change (p2 ++ "." ++ a ++ "." ++ b) with (p2 ++ String "." (a ++ String "." b)).
    rewrite E1, E2, !last_two_snoc, String.eqb_refl, !length_app. cbn [List.length].
    replace (2 <=? List.length l1 + 1 + 1)%nat with true by (symmetry; apply Nat.leb_le; lia).
    replace (2 <=? List.length l2 + 1 + 1)%nat with true by (symmetry; apply Nat.leb_le; lia).
    reflexivity.
Qed.

Lemma isDomainMatch_accepts_lookalikes_witness :
  Background.isDomainMatch (Some "example.com") (Some "notexample.com.evil.org") = true /\
  Background.isDomainMatch (Some "shop.co.uk") (Some "bank.co.uk") = true.
Proof.
  split.
  - refine (proj1 (proj1 isDomainMatch_accepts_lookalikes "example.com"
                     "notexample.com.evil.org" _ _ _)); try discriminate.
    exists "not", ".evil.org". reflexivity.
  - exact (proj2 isDomainMatch_accepts_lookalikes "shop" "bank" "co" "uk" eq_refl eq_refl).
Defined.

Section ExpiryFacts.
Import Background.

Lemma ceil_div_spec (a b : Z) :
  (0 < b)%Z -> (b * (ceil_div a b - 1) < a <= b * ceil_div a b)%Z.
Proof.
  intros Hb. unfold ceil_div.
  pose proof (Z.div_mod (- a) b ltac:(lia)) as Hq.
  pose proof (Z.mod_pos_bound (- a) b Hb) as Hr.
  set (q := (- a / b)%Z) in *. set (r := (- a mod b)%Z) in *. clearbody q r. nia.
Qed.

Lemma expiring_window (now passwordExpiryDays t : Z) :
  expiring now passwordExpiryDays (Some t) = true <->
  t <> 0%Z /\ (0 < passwordExpiryDays * day - (now - t) <= 30 * day)%Z.
Proof.
  unfold expiring, has_stamp. cbv zeta.
  pose proof (ceil_div_spec (passwordExpiryDays * day - (now - t)) day ltac:(reflexivity)) as Hc.
  set (c := ceil_div (passwordExpiryDays * day - (now - t)) day) in *. clearbody c.
  set (r := (passwordExpiryDays * day - (now - t))%Z) in *.
  assert (Hr : (passwordExpiryDays * day <=? now - t + 30 * day)%Z = (r <=? 30 * day)%Z).
  { unfold r. destruct (Z.leb_spec (passwordExpiryDays * day) (now - t + 30 * day));
      destruct (Z.leb_spec (passwordExpiryDays * day - (now - t)) (30 * day)); lia. }
  rewrite Hr. clearbody r. unfold day in *.
  destruct (Z.eqb_spec t 0) as [->|Hne]; cbn [negb].
  - split; [discriminate|]. intros [H _]. contradiction.
  - rewrite andb_true_iff, Z.leb_le, Z.ltb_lt. split.
    + intros [H1 H2]. split; [exact Hne|]. lia.
    + intros [_ H]. lia.
Qed.

Lemma popup_window (now expiryDays t : Z) :
  popup_expiring now expiryDays (Some t) = true <->
  t <> 0%Z /\ (0 < expiryDays * day - (now - t) < 14 * day)%Z.
Proof.
  unfold popup_expiring, has_stamp. cbv zeta.
  destruct (Z.eqb_spec t 0) as [->|Hne]; cbn [negb].
  - split; [discriminate|]. intros [H _]. contradiction.
  - rewrite andb_true_iff, !Z.ltb_lt. split.
    + intros [H1 H2]. split; [exact Hne|]. lia.
    + intros [_ H]. lia.
Qed.

End ExpiryFacts.

(** X11: the background script reports an entry as expiring
    exactly when it carries a time of last update and its password expires
    within the next 30 days and has not expired yet; the number of days it
    attaches is between 1 and 30, the time left rounded up to whole days.
    Entries without a time of last update, and passwords whose expiry date
    has passed, are never reported. *)
Theorem checkExpiringPasswords_window :
  forall (A : Type) (lastUpdated : A -> Background.stamp) (now passwordExpiryDays : Z)
         (passwords : list A) (entry : A) (daysUntilExpiry : Z),
    In (entry, daysUntilExpiry)
       (Background.checkExpiringPasswords lastUpdated now passwordExpiryDays passwords) <->
    In entry passwords /\
    exists t, lastUpdated entry = Some t /\ t <> 0%Z /\
      let left := (passwordExpiryDays * Background.day - (now - t))%Z in
      (0 < left <= 30 * Background.day)%Z /\
      ((daysUntilExpiry - 1) * Background.day < left <= daysUntilExpiry * Background.day)%Z /\
      (1 <= daysUntilExpiry <= 30)%Z.
Proof.
  intros A lastUpdated now passwordExpiryDays passwords entry daysUntilExpiry.
  unfold Background.checkExpiringPasswords. rewrite in_map_iff. split.
  - intros (e & Heq & Hin). injection Heq as -> <-.
    apply filter_In in Hin. destruct Hin as [Hin Hexp]. split; [exact Hin|].
    destruct (lastUpdated entry) as [t|] eqn:Ht; [|discriminate Hexp].
    apply expiring_window in Hexp. destruct Hexp as [Hne Hw].
    exists t. split; [reflexivity|]. split; [exact Hne|]. cbv zeta.
    pose proof (ceil_div_spec (passwordExpiryDays * Background.day - (now - t))
                  Background.day ltac:(reflexivity)) as Hc.
    set (c := Background.ceil_div _ _) in *. clearbody c.
    set (r := (passwordExpiryDays * Background.day - (now - t))%Z) in *. clearbody r.
    unfold Background.day in *. lia.
  - intros (Hin & t & Ht & Hne & Hw). cbv zeta in Hw. destruct Hw as (Hw & Hd & _).
    exists entry. split.
    + rewrite Ht. f_equal.
      pose proof (ceil_div_spec (passwordExpiryDays * Background.day - (now - t))
                    Background.day ltac:(reflexivity)) as Hc.
      set (c := Background.ceil_div _ _) in *. clearbody c.
      set (r := (passwordExpiryDays * Background.day - (now - t))%Z) in *. clearbody r.
      unfold Background.day in *. lia.
    + apply filter_In. split; [exact Hin|]. rewrite Ht. apply expiring_window.
      split; assumption.
Qed.

(** X12: with the same number of days before expiry, every
    entry the popup lists as expiring (less than 14 days left, not expired)
    is also reported by the background script. *)
Theorem popup_expiring_is_reported :
  forall (now expiryDays : Z) (lastUpdated : Background.stamp),
    Background.popup_expiring now expiryDays lastUpdated = true ->
    Background.expiring now expiryDays lastUpdated = true /\
    exists t, lastUpdated = Some t /\
              (0 < expiryDays * Background.day - (now - t) < 14 * Background.day)%Z.
Proof.
  intros now expiryDays [t|] H; [|discriminate H].
  apply popup_window in H. destruct H as [Hne Hw]. split.
  - apply expiring_window. split; [exact Hne|]. unfold Background.day in *. lia.
  - exists t. split; [reflexivity|exact Hw].
Qed.

Lemma popup_expiring_is_reported_witness :
  Background.expiring 1700000000000 90 (Some (1700000000000 - 80 * Background.day)%Z) = true /\
  exists t, Some (1700000000000 - 80 * Background.day)%Z = Some t /\
            (0 < 90 * Background.day - (1700000000000 - t) < 14 * Background.day)%Z.
Proof.
  exact (popup_expiring_is_reported 1700000000000 90
           (Some (1700000000000 - 80 * Background.day)%Z) eq_refl).
Defined.

Lemma checkExpiringPasswords_window_witness :
  In (Some 1693088000000%Z, 10%Z)
     (Background.checkExpiringPasswords (fun t : Background.stamp => t) 1700000000000 90
        [None; Some 1693088000000%Z]).
Proof.
  apply (proj2 (checkExpiringPasswords_window Background.stamp (fun t => t) 1700000000000 90
                  [None; Some 1693088000000%Z] (Some 1693088000000%Z) 10%Z)).
  split; [right; left; reflexivity|].
  exists 1693088000000%Z. split; [reflexivity|]. split; [discriminate|].
  cbv zeta. unfold Background.day. lia.
Defined.

(** ** The password generator *)

Section StrengthFacts.
Import Str JS PasswordGenerator.

Lemma class_partition (c : ascii) :
  ((if is_upper c then 1 else 0) + (if is_lower c then 1 else 0)
   + (if is_digit c then 1 else 0) + (if is_other c then 1 else 0) = 1)%nat.
Proof. destruct c as [[] [] [] [] [] [] [] []]; reflexivity. Qed.

Lemma class_disjoint (c : ascii) :
  ((if is_upper c then 1 else 0) + (if is_lower c then 1 else 0)
   + (if is_digit c then 1 else 0) + (if is_symbol c then 1 else 0) <= 1)%nat.
Proof. destruct c as [[] [] [] [] [] [] [] []]; vm_compute; lia. Qed.

Lemma count_partition (s : string) :
  (count is_upper s + count is_lower s + count is_digit s + count is_other s
   = String.length s)%nat.
Proof.
  induction s as [|c s IH]; [reflexivity|].
  cbn [count String.length]. pose proof (class_partition c). lia.
Qed.

Lemma count_disjoint (s : string) :
  (count is_upper s + count is_lower s + count is_digit s + count is_symbol s
   <= String.length s)%nat.
Proof.
  induction s as [|c s IH]; [apply Nat.le_refl|].
  cbn [count String.length]. pose proof (class_disjoint c). lia.
Qed.

Lemma has_count class (s : string) : has class s = true -> (1 <= count class s)%nat.
Proof.
  induction s as [|c s IH]; [discriminate|].
  cbn [has count]. destruct (class c); [lia|]. cbn [orb]. intros H. specialize (IH H). lia.
Qed.

Lemma reaches_count class (s : string) : reaches class s = true -> (1 <= count class s)%nat.
Proof.
  induction s as [|c s IH]; [discriminate|].
  cbn [reaches count]. destruct (class c); [lia|].
  destruct (is_line_terminator c); [discriminate|]. intros H. specialize (IH H). lia.
Qed.

Lemma has_two_count class (s : string) : has_two class s = true -> (2 <= count class s)%nat.
Proof.
  induction s as [|c s IH]; [discriminate|].
  cbn [has_two count]. intros H. apply orb_true_iff in H. destruct H as [H|H].
  - apply andb_true_iff in H. destruct H as [Hc Hr]. rewrite Hc.
    pose proof (reaches_count class s Hr). lia.
  - specialize (IH H). destruct (class c); lia.
Qed.

Lemma count_zero class (s : string) :
  count class s = 0%nat -> has class s = false /\ has_two class s = false.
Proof.
  intros H. split.
  - destruct (has class s) eqn:E; [|reflexivity]. apply has_count in E. lia.
  - destruct (has_two class s) eqn:E; [|reflexivity]. apply has_two_count in E. lia.
Qed.

Lemma all_of_count class (s : string) :
  all_of class s = true -> count class s = String.length s.
Proof.
  induction s as [|c s IH]; [reflexivity|].
  cbn [all_of count String.length]. intros H. apply andb_true_iff in H.
  destruct H as [Hc Hs]. rewrite Hc, (IH Hs). reflexivity.
Qed.

(** The raw score is at most what the length and the numbers of characters
    of each kind allow. *)
Lemma raw_score_bound (password : string) :
  exists u u2 l l2 d d2 o o2 : bool,
    (raw_score password
     <= Z.min (Z.of_nat (String.length password) / 4) 5
        + bonus u 1 + bonus l 1 + bonus d 1 + bonus o 2
        + bonus u2 1 + bonus l2 1 + bonus d2 1 + bonus o2 1)%Z /\
    (u = true -> 1 <= count is_upper password)%nat /\
    (u2 = true -> 2 <= count is_upper password)%nat /\
    (l = true -> 1 <= count is_lower password)%nat /\
    (l2 = true -> 2 <= count is_lower password)%nat /\
    (d = true -> 1 <= count is_digit password)%nat /\
    (d2 = true -> 2 <= count is_digit password)%nat /\
    (o = true -> 1 <= count is_other password)%nat /\
    (o2 = true -> 2 <= count is_other password)%nat.
Proof.
  exists (has is_upper password), (has_two is_upper password),
         (has is_lower password), (has_two is_lower password),
         (has is_digit password), (has_two is_digit password),
         (has is_other password), (has_two is_other password).
  split.
  - unfold raw_score.
    assert (B : forall b, (0 <= bonus b 1)%Z) by (intros []; cbn; lia).
    pose proof (B (has_triple password)).
    pose proof (B (existsb (includes (fold password)) letter_runs)).
    pose proof (B (existsb (includes password) digit_runs)). lia.
  - repeat split; first [apply has_count | apply has_two_count].
Qed.

Lemma quarter (n : nat) (k : Z) :
  (Z.of_nat n < 4 * (k + 1))%Z -> (Z.of_nat n / 4 <= k)%Z.
Proof. intros H. apply Z.lt_succ_r. apply Z.div_lt_upper_bound; lia. Qed.

Ltac score_cases password :=
  let Hraw := fresh "Hraw" in
  destruct (raw_score_bound password)
    as (u & u2 & l & l2 & d & d2 & o & o2 & Hraw & Hu & Hu2 & Hl & Hl2 & Hd & Hd2 & Ho & Ho2);
  pose proof (count_partition password);
  destruct u, u2, l, l2, d, d2, o, o2; unfold bonus in Hraw;
  repeat match goal with
         | H : true = true -> _ |- _ => specialize (H eq_refl)
         | H : false = true -> _ |- _ => clear H
         end.

Lemma short_scores (password : string) :
  ((String.length password < 6)%nat -> (raw_score password <= 7)%Z) /\
  ((String.length password < 4)%nat -> (raw_score password <= 4)%Z).
Proof.
  split; intros Hlen.
  - pose proof (quarter (String.length password) 1 ltac:(lia)) as Hq.
    score_cases password; lia.
  - pose proof (quarter (String.length password) 0 ltac:(lia)) as Hq.
    score_cases password; lia.
Qed.

Lemma one_kind_score (password : string) (class : ascii -> bool) :
  (class = is_upper \/ class = is_lower \/ class = is_digit) ->
  all_of class password = true -> (raw_score password <= 7)%Z.
Proof.
  intros Hclass Hall. apply all_of_count in Hall.
  assert (Hq : (Z.min (Z.of_nat (String.length password) / 4) 5 <= 5)%Z) by lia.
  set (q := Z.min (Z.of_nat (String.length password) / 4) 5) in *.
  destruct (raw_score_bound password)
    as (u & u2 & l & l2 & d & d2 & o & o2 & Hraw & Hu & Hu2 & Hl & Hl2 & Hd & Hd2 & Ho & Ho2).
  fold q in Hraw. clearbody q.
  pose proof (count_partition password).
  destruct Hclass as [->|[->| ->]];
    destruct u, u2, l, l2, d, d2, o, o2; unfold bonus in Hraw;
    repeat match goal with
           | H : true = true -> _ |- _ => specialize (H eq_refl)
           | H : false = true -> _ |- _ => clear H
           end; lia.
Qed.

Lemma label_of_score (password : string) (bound : Z) :
  password <> EmptyString -> (raw_score password <= bound)%Z -> (0 <= bound <= 10)%Z ->
  (score (evaluateStrength password) <= bound * 10)%Z /\
  (bound < 8 -> label (evaluateStrength password) <> "Strong")%Z.
Proof.
  intros Hne Hraw Hb. unfold evaluateStrength.
  destruct password as [|c r]; [contradiction|]. cbn [is_empty]. cbv zeta. cbn [score label].
  split; [lia|]. intros H8.
  destruct (Z.leb_spec 80 (Z.max 0 (Z.min 10 (raw_score (String c r))) * 10)) as [H|_]; [lia|].
  destruct (50 <=? _)%Z; discriminate.
Qed.

End StrengthFacts.

(** X13: [evaluateStrength] never calls a password of fewer
    than six characters Strong, whatever its characters, and gives a
    password of fewer than four characters a score of at most 40, below the
    50 that [createVault] asks of a master password.  Six characters can be
    Strong. *)
Theorem evaluateStrength_short_passwords :
  (forall password : string,
      (String.length password < 6)%nat ->
      PasswordGenerator.label (PasswordGenerator.evaluateStrength password) <> "Strong") /\
  (forall password : string,
      (String.length password < 4)%nat ->
      (PasswordGenerator.score (PasswordGenerator.evaluateStrength password) <= 40)%Z) /\
  PasswordGenerator.label (PasswordGenerator.evaluateStrength "AAbb!!") = "Strong".
Proof.
  split; [|split].
  - intros password Hlen. destruct password as [|c r]; [discriminate|].
    apply (label_of_score (String c r) 7); [discriminate| |lia|lia].
    apply short_scores. exact Hlen.
  - intros password Hlen. destruct password as [|c r]; [cbn; lia|].
    apply (label_of_score (String c r) 4); [discriminate| |lia].
    apply short_scores. exact Hlen.
  - vm_compute. reflexivity.
Qed.

Lemma evaluateStrength_short_passwords_witness :
  PasswordGenerator.label (PasswordGenerator.evaluateStrength "aB3$x") <> "Strong".
Proof.
  apply (proj1 evaluateStrength_short_passwords "aB3$x"). cbn. lia.
Defined.

(** X14: a password made only of capital letters, only of
    small letters or only of digits is never called Strong by
    [evaluateStrength], however long it is: its score is at most 70. *)
Theorem evaluateStrength_one_kind_of_character :
  forall password : string,
    password <> EmptyString ->
    PasswordGenerator.all_of PasswordGenerator.is_upper password = true \/
    PasswordGenerator.all_of PasswordGenerator.is_lower password = true \/
    PasswordGenerator.all_of PasswordGenerator.is_digit password = true ->
    (PasswordGenerator.score (PasswordGenerator.evaluateStrength password) <= 70)%Z /\
    PasswordGenerator.label (PasswordGenerator.evaluateStrength password) <> "Strong".
Proof.
  intros password Hne Hkind.
  assert (Hraw : (PasswordGenerator.raw_score password <= 7)%Z).
  { destruct Hkind as [H|[H|H]];
      [apply (one_kind_score password PasswordGenerator.is_upper)
      |apply (one_kind_score password PasswordGenerator.is_lower)
      |apply (one_kind_score password PasswordGenerator.is_digit)]; auto. }
  destruct (label_of_score password 7 Hne Hraw ltac:(lia)) as [Hs Hl].
  split; [exact Hs|apply Hl; lia].
Qed.

Lemma evaluateStrength_one_kind_of_character_witness :
  (PasswordGenerator.score
     (PasswordGenerator.evaluateStrength "correcthorsebatterystaplecorrecthorse") <= 70)%Z /\
  PasswordGenerator.label
    (PasswordGenerator.evaluateStrength "correcthorsebatterystaplecorrecthorse") <> "Strong".
Proof.
  apply (evaluateStrength_one_kind_of_character "correcthorsebatterystaplecorrecthorse").
  - discriminate.
  - right. left. vm_compute. reflexivity.
Defined.

Section GeneratorFacts.
Import Str JS PasswordGenerator.

Lemma floor_times_lt (r : fraction) (n : nat) : (0 < n)%nat -> (floor_times r n < n)%nat.
Proof.
  intros Hn. unfold floor_times.
  pose proof (below_one r) as Hb. apply N.ltb_lt in Hb.
  assert ((num r * N.of_nat n / N.pos (den r) < N.of_nat n)%N); [|lia].
  apply N.Div0.div_lt_upper_bound. nia.
Qed.

Lemma get_in_range (s : string) : forall i,
  (i < String.length s)%nat -> exists c, get i s = Some c /\ contains_char c s = true.
Proof.
  induction s as [|d s IH]; intros i Hi; [cbn in Hi; lia|].
  destruct i as [|i].
  - exists d. split; [reflexivity|]. cbn [contains_char]. rewrite Ascii.eqb_refl. reflexivity.
  - cbn [String.length] in Hi. destruct (IH i ltac:(lia)) as (c & Hg & Hc).
    exists c. split; [exact Hg|]. cbn [contains_char]. rewrite Hc. apply orb_true_r.
Qed.

Lemma charAt_in_range (s : string) (i : nat) :
  (i < String.length s)%nat ->
  exists c, charAt s i = String c EmptyString /\ contains_char c s = true.
Proof.
  intros Hi. destruct (get_in_range s i Hi) as (c & Hg & Hc).
  exists c. unfold charAt. rewrite Hg. split; [reflexivity|exact Hc].
Qed.

Lemma pick (random : nat -> fraction) (k : nat) (set : string) :
  (0 < String.length set)%nat ->
  exists c, charAt set (floor_times (random k) (String.length set)) = String c EmptyString /\
            contains_char c set = true.
Proof. intros H. apply charAt_in_range, floor_times_lt, H. Qed.

Lemma draw_shape (random : nat -> fraction) (charSet : string) (n : nat) :
  (0 < String.length charSet)%nat ->
  forall k, String.length (draw random k charSet n) = n /\
            PasswordSharingModule.all_in charSet (draw random k charSet n) = true.
Proof.
  intros H. induction n as [|n IH]; intros k; [split; reflexivity|].
  cbn [draw]. destruct (pick random k charSet H) as (c & -> & Hc).
  destruct (IH (S k)) as [IHl IHa].
  cbn [append String.length PasswordSharingModule.all_in]. rewrite IHl, IHa, Hc.
  split; reflexivity.
Qed.

Lemma config_of_idempotent (options : Options) : config_of (config_of options) = config_of options.
Proof.
  unfold config_of. cbn [length uppercase lowercase numbers symbols].
  destruct (length options) as [n|]; [destruct (Z.eqb_spec n 0) as [->|Hn]|];
    cbn [Z.eqb]; try (destruct (Z.eqb_spec n 0); [contradiction|]);
    destruct (uppercase options) as [[]|], (lowercase options) as [[]|],
             (numbers options) as [[]|], (symbols options) as [[]|]; reflexivity.
Qed.

Lemma charSet_of_config (options : Options) :
  (0 < String.length (charSet_of (config_of options)))%nat.
Proof.
  unfold config_of, charSet_of. cbn [uppercase lowercase numbers symbols flag].
  destruct (uppercase options) as [[]|], (lowercase options) as [[]|],
           (numbers options) as [[]|], (symbols options) as [[]|]; cbn; lia.
Qed.

Lemma symbol_is_other (c : ascii) : is_symbol c = true -> is_other c = true.
Proof. destruct c as [[] [] [] [] [] [] [] []]; vm_compute; congruence. Qed.

(** A password that passes has one character for each type asked for. *)
Lemma validatePassword_types (password : string) (config : Options) :
  validatePassword password config = true -> (types_of config <= String.length password)%nat.
Proof.
  unfold validatePassword, types_of. cbv zeta. intros H.
  repeat (apply andb_true_iff in H; destruct H as [H ?]).
  pose proof (count_disjoint password) as Hc.
  destruct (flag (uppercase config)), (flag (lowercase config)),
           (flag (numbers config)), (flag (symbols config));
    repeat match goal with
           | H : has _ _ = true |- _ => apply has_count in H
           end; cbn [Nat.add]; lia.
Qed.

Lemma generatePassword_shape (fuel : nat) (random : nat -> fraction) :
  forall (k : nat) (options : Options) (password : string),
    generatePassword fuel random k options = Some password ->
    String.length password = length_of (config_of options) /\
    validatePassword password (config_of options) = true /\
    PasswordSharingModule.all_in (charSet_of (config_of options)) password = true.
Proof.
  induction fuel as [|fuel IH]; intros k options password H; [discriminate H|].
  cbn [generatePassword] in H. cbv zeta in H.
  destruct (validatePassword _ (config_of options)) eqn:Hv.
  - injection H as <-.
    destruct (draw_shape random _ (length_of (config_of options)) (charSet_of_config options) k)
      as [Hl Ha].
    split; [exact Hl|]. split; [exact Hv|exact Ha].
  - apply IH in H. rewrite config_of_idempotent in H. exact H.
Qed.

(** X15: when the length asked for is smaller than the
    number of character types selected (a length of 3 with the four default
    types, or any negative length), no attempt of [generatePassword] can
    pass [validatePassword]: the function calls itself without end and
    returns no password, however many attempts it is allowed. *)
Theorem generatePassword_never_returns_when_too_short (fuel : nat) (random : nat -> fraction) :
  forall (k : nat) (options : Options),
    (length_of (config_of options) < types_of (config_of options))%nat ->
    generatePassword fuel random k options = None.
Proof.
  induction fuel as [|fuel IH]; intros k options Hlt; [reflexivity|].
  cbn [generatePassword]. cbv zeta.
  destruct (validatePassword _ (config_of options)) eqn:Hv.
  - apply validatePassword_types in Hv.
    destruct (draw_shape random _ (length_of (config_of options)) (charSet_of_config options) k)
      as [Hl _].
    rewrite Hl in Hv. lia.
  - apply IH. rewrite config_of_idempotent. exact Hlt.
Qed.

End GeneratorFacts.

(** X16: a password returned by [generatePassword] has the
    length of the configuration (16 when none or 0 is given), passes
    [validatePassword] (one character of each type asked for) and is made
    of characters of the set built from the options. *)
Theorem generatePassword_returns_a_valid_password :
  forall (fuel : nat) (random : nat -> PasswordGenerator.fraction) (k : nat)
         (options : PasswordGenerator.Options) (password : string),
    PasswordGenerator.generatePassword fuel random k options = Some password ->
    let config := PasswordGenerator.config_of options in
    String.length password = PasswordGenerator.length_of config /\
    PasswordGenerator.validatePassword password config = true /\
    PasswordSharingModule.all_in (PasswordGenerator.charSet_of config) password = true.
Proof. intros fuel random k options password H. exact (generatePassword_shape _ _ _ _ _ H). Qed.

Lemma generatePassword_returns_a_valid_password_witness :
  String.length
    (match PasswordGenerator.generatePassword 5 Generators.example_random 0
             (PasswordGenerator.mkOptions (Some 8%Z) None None None (Some false)) with
     | Some p => p
     | None => EmptyString
     end) = 8%nat.
Proof.
  refine (proj1 (generatePassword_returns_a_valid_password 5 Generators.example_random 0
                   (PasswordGenerator.mkOptions (Some 8%Z) None None None (Some false)) _ _)).
  vm_compute. reflexivity.
Defined.


Lemma generatePassword_never_returns_when_too_short_witness :
  PasswordGenerator.generatePassword 1000 Generators.example_random 0
    (PasswordGenerator.mkOptions (Some 3%Z) None None None None) = None.
Proof.
  apply generatePassword_never_returns_when_too_short. vm_compute. lia.
Defined.

Section ShuffledGenerators.
Import Str JS PasswordGenerator Generators.

Lemma length_list_ascii (s : string) : List.length (list_ascii_of_string s) = String.length s.
Proof. induction s as [|c s IH]; [reflexivity|]. cbn. rewrite IH. reflexivity. Qed.

Lemma count_list_string class (s : string) : count_list class (list_ascii_of_string s) = count class s.
Proof. induction s as [|c s IH]; [reflexivity|]. cbn. rewrite IH. reflexivity. Qed.

Lemma count_list_perm class (l l' : list ascii) :
  Permutation.Permutation l l' -> count_list class l = count_list class l'.
Proof. induction 1; cbn; try lia. Qed.

Lemma shuffle_keeps (shuffle : string -> string) (s : string) :
  rearranges shuffle ->
  String.length (shuffle s) = String.length s /\
  forall class, count class (shuffle s) = count class s.
Proof.
  intros H. split.
  - rewrite <- !length_list_ascii. apply Permutation.Permutation_length, H.
  - intros class. rewrite <- !count_list_string. apply count_list_perm, H.
Qed.

Lemma count_has class (s : string) : (1 <= count class s)%nat -> has class s = true.
Proof.
  induction s as [|c s IH]; [cbn; lia|].
  cbn [count has]. destruct (class c); [reflexivity|]. cbn [orb]. intros H. apply IH. lia.
Qed.

Lemma count_app class (a b : string) : count class (a ++ b) = (count class a + count class b)%nat.
Proof. induction a as [|c a IH]; [reflexivity|]. cbn [append count]. rewrite IH. lia. Qed.

Lemma all_count class (s : string) (alphabet : string) :
  (forall c, contains_char c alphabet = true -> class c = true) ->
  PasswordSharingModule.all_in alphabet s = true -> count class s = String.length s.
Proof.
  intros Hc. induction s as [|c s IH]; [reflexivity|].
  cbn [PasswordSharingModule.all_in count String.length]. intros H.
  apply andb_true_iff in H. destruct H as [H1 H2]. rewrite (Hc c H1), (IH H2). reflexivity.
Qed.

Lemma one_of_shape (selected : bool) random k (set : string) :
  (0 < String.length set)%nat ->
  String.length (one_of selected random k set) = (if selected then 1 else 0)%nat /\
  count (from set) (one_of selected random k set) = (if selected then 1 else 0)%nat.
Proof.
  intros H. unfold one_of. destruct selected; [|split; reflexivity].
  destruct (pick random k set H) as (c & -> & Hc). cbn [String.length count]. unfold from.
  rewrite Hc. split; reflexivity.
Qed.

Lemma count_weaken (p q : ascii -> bool) (s : string) :
  (forall c, p c = true -> q c = true) -> (count p s <= count q s)%nat.
Proof.
  intros H. induction s as [|c s IH]; [apply Nat.le_refl|].
  cbn [count]. destruct (p c) eqn:E; [rewrite (H c E)|destruct (q c)]; lia.
Qed.

Lemma contains_char_app c (a b : string) :
  contains_char c (a ++ b) = contains_char c a || contains_char c b.
Proof.
  induction a as [|d a IH]; [reflexivity|].
  cbn [append contains_char]. rewrite IH. apply orb_assoc.
Qed.

Lemma set_characters (c : ascii) :
  (from UPPERCASE c = true -> is_upper c = true) /\
  (from LOWERCASE c = true -> is_lower c = true) /\
  (from NUMBERS c = true -> is_digit c = true) /\
  (from symbols_set c = true -> is_other c = true) /\
  (from SYMBOLS c = true -> is_symbol c = true) /\
  (from UPPERCASE c || from LOWERCASE c || from NUMBERS c || from symbols_set c
   || from SYMBOLS c = true -> is_line_terminator c = false).
Proof.
  destruct c as [[] [] [] [] [] [] [] []]; vm_compute; repeat split; congruence.
Qed.

Lemma has_weaken (p q : ascii -> bool) (s : string) :
  (forall c, p c = true -> q c = true) -> has p s = true -> has q s = true.
Proof.
  intros H Hp. apply count_has. apply has_count in Hp.
  pose proof (count_weaken p q s H). lia.
Qed.

Lemma all_in_one_line (alphabet s : string) :
  (forall c, contains_char c alphabet = true -> is_line_terminator c = false) ->
  PasswordSharingModule.all_in alphabet s = true -> has is_line_terminator s = false.
Proof.
  intros H. induction s as [|c s IH]; [reflexivity|].
  cbn [PasswordSharingModule.all_in has]. intros Ha. apply andb_true_iff in Ha.
  destruct Ha as [Hc Hs]. rewrite (H c Hc), (IH Hs). reflexivity.
Qed.

Lemma count_all (class : ascii -> bool) (s : string) :
  count class s = String.length s -> has (fun c => negb (class c)) s = false.
Proof.
  induction s as [|c s IH]; [reflexivity|].
  cbn [count String.length has]. intros H.
  assert (Hle : (count class s <= String.length s)%nat).
  { clear. induction s as [|d s IH]; [apply Nat.le_refl|]. cbn [count String.length].
    destruct (class d); lia. }
  destruct (class c); [|lia]. cbn [negb orb]. apply IH. lia.
Qed.

Lemma one_line_has (s : string) :
  count one_line s = String.length s -> has is_line_terminator s = false.
Proof.
  intros H. apply count_all in H. rewrite <- H. clear H.
  induction s as [|c s IH]; [reflexivity|]. cbn [has]. rewrite IH. unfold one_line.
  rewrite negb_involutive. reflexivity.
Qed.

Lemma draw_one_line random k (charSet : string) n :
  (0 < String.length charSet)%nat ->
  (forall c, contains_char c charSet = true -> is_line_terminator c = false) ->
  count one_line (draw random k charSet n) = n.
Proof.
  intros Hne Hset. destruct (draw_shape random charSet n Hne k) as [Hl Ha].
  rewrite <- Hl at 2. apply (all_count one_line _ charSet); [|exact Ha].
  intros c Hc. unfold one_line. rewrite (Hset c Hc). reflexivity.
Qed.

Lemma one_of_one_line (selected : bool) random k (set : string) :
  (0 < String.length set)%nat ->
  (forall c, contains_char c set = true -> is_line_terminator c = false) ->
  count one_line (one_of selected random k set) = String.length (one_of selected random k set).
Proof.
  intros Hne Hset. unfold one_of. destruct selected; [|reflexivity].
  destruct (pick random k set Hne) as (c & -> & Hc). cbn [count String.length].
  unfold one_line. rewrite (Hset c Hc). reflexivity.
Qed.

Lemma generateRandomPassword_shape (shuffle : string -> string) (random : nat -> fraction)
    (options : Options) :
  rearranges shuffle ->
  let password := generateRandomPassword shuffle random options in
  let config := config_of options in
  let selected (f : option bool) := unless_false f in
  String.length password
  = Nat.max (length_of config)
      ((if selected (uppercase options) then 1 else 0)
       + (if selected (lowercase options) then 1 else 0)
       + (if selected (numbers options) then 1 else 0)
       + (if selected (symbols options) then 1 else 0)) /\
  (selected (uppercase options) = true -> has (from UPPERCASE) password = true) /\
  (selected (lowercase options) = true -> has (from LOWERCASE) password = true) /\
  (selected (numbers options) = true -> has (from NUMBERS) password = true) /\
  (selected (symbols options) = true -> has (from symbols_set) password = true) /\
  has is_line_terminator password = false.
Proof.
  intros Hs. cbv zeta. unfold generateRandomPassword. cbv zeta.
  set (u := unless_false (uppercase options)). set (l := unless_false (lowercase options)).
  set (n := unless_false (numbers options)). set (s := unless_false (symbols options)).
  set (len := match length options with
              | Some n0 => if (n0 =? 0)%Z then 16%Z else n0
              | None => 16%Z
              end).
  assert (Hlen : length_of (config_of options) = Z.to_nat len) by reflexivity.
  rewrite Hlen. clearbody len.
  destruct (one_of_shape u random 0 UPPERCASE ltac:(cbn; lia)) as [Lu Cu].
  destruct (one_of_shape l random (next u 0) LOWERCASE ltac:(cbn; lia)) as [Ll Cl].
  destruct (one_of_shape n random (next l (next u 0)) NUMBERS ltac:(cbn; lia)) as [Ln Cn].
  destruct (one_of_shape s random (next n (next l (next u 0))) symbols_set ltac:(cbn; lia))
    as [Ls Cs].
  set (pu := one_of u random 0 UPPERCASE) in *.
  set (pl := one_of l random (next u 0) LOWERCASE) in *.
  set (pn := one_of n random (next l (next u 0)) NUMBERS) in *.
  set (ps := one_of s random (next n (next l (next u 0))) symbols_set) in *.
  set (charSet := if is_empty _ then LOWERCASE else _).
  assert (Hcs : (0 < String.length charSet)%nat).
  { unfold charSet. destruct u, l, n, s; cbn; lia. }
  set (prefix := pu ++ pl ++ pn ++ ps).
  assert (Lp : String.length prefix
               = ((if u then 1 else 0) + (if l then 1 else 0) + (if n then 1 else 0)
                  + (if s then 1 else 0))%nat).
  { unfold prefix. rewrite !str_length_app, Lu, Ll, Ln, Ls. lia. }
  destruct (draw_shape random charSet (Z.to_nat len - String.length prefix) Hcs
              (next s (next n (next l (next u 0))))) as [Ld _].
  set (fill := draw random _ charSet _) in *.
  destruct (shuffle_keeps shuffle (prefix ++ fill) Hs) as [Hl Hc].
  split; [rewrite Hl, str_length_app, Ld, Lp; lia|].
  assert (P : forall class, (count class prefix <= count class (shuffle (prefix ++ fill)))%nat)
    by (intros class; rewrite Hc, count_app; lia).
  assert (S1 : forall set, In set [UPPERCASE; LOWERCASE; NUMBERS; symbols_set] ->
               forall c, contains_char c set = true -> is_line_terminator c = false).
  { intros set Hin c Hcs'. apply (proj2 (proj2 (proj2 (proj2 (proj2 (set_characters c)))))).
    unfold from. cbn [In] in Hin.
    destruct Hin as [<-|[<-|[<-|[<-|[]]]]]; rewrite Hcs'; rewrite ?orb_true_r; reflexivity. }
  assert (S2 : forall c, contains_char c charSet = true -> is_line_terminator c = false).
  { intros c Hcc. apply (proj2 (proj2 (proj2 (proj2 (proj2 (set_characters c)))))).
    unfold from. unfold charSet in Hcc.
    destruct u, l, n, s;
      match type of Hcc with context [is_empty ?x] =>
        let v := eval vm_compute in (is_empty x) in change (is_empty x) with v in Hcc
      end; cbv iota in Hcc; cbn [append] in Hcc;
      repeat (rewrite contains_char_app in Hcc); cbn [contains_char] in Hcc;
      rewrite ?orb_false_r in Hcc;
      destruct (contains_char c UPPERCASE), (contains_char c LOWERCASE),
               (contains_char c NUMBERS), (contains_char c symbols_set);
      try reflexivity; discriminate Hcc. }
  split; [|split; [|split; [|split]]].
  1-4: intros Hsel; apply count_has;
    (eapply Nat.le_trans; [|apply P]); unfold prefix; rewrite !count_app;
    [> rewrite Cu | rewrite Cl | rewrite Cn | rewrite Cs]; rewrite Hsel; lia.
  assert (Ou : count one_line pu = String.length pu)
    by (apply one_of_one_line; [cbn; lia|apply S1; cbn [In]; tauto]).
  assert (Ol : count one_line pl = String.length pl)
    by (apply one_of_one_line; [cbn; lia|apply S1; cbn [In]; tauto]).
  assert (On : count one_line pn = String.length pn)
    by (apply one_of_one_line; [cbn; lia|apply S1; cbn [In]; tauto]).
  assert (Os : count one_line ps = String.length ps)
    by (apply one_of_one_line; [cbn; lia|apply S1; cbn [In]; tauto]).
  assert (Of : count one_line fill = String.length fill)
    by (rewrite Ld; apply draw_one_line; assumption).
  apply one_line_has. rewrite Hl, Hc, count_app, str_length_app, Of. unfold prefix.
  rewrite !count_app, !str_length_app, Ou, Ol, On, Os. reflexivity.
Qed.

Lemma strong_is_default (shuffle : string -> string) (random : nat -> fraction) :
  generateStrongPassword shuffle random
  = generateRandomPassword shuffle random (mkOptions None None None None None).
Proof.
  unfold generateStrongPassword, generateRandomPassword.
  cbn [length uppercase lowercase numbers symbols unless_false next one_of]. cbv zeta.
  destruct (pick random 0 UPPERCASE ltac:(cbn; lia)) as (a & Ea & _).
  destruct (pick random 1 LOWERCASE ltac:(cbn; lia)) as (b & Eb & _).
  destruct (pick random 2 NUMBERS ltac:(cbn; lia)) as (c & Ec & _).
  destruct (pick random 3 symbols_set ltac:(cbn; lia)) as (d & Ed & _).
  rewrite Ea, Eb, Ec, Ed. reflexivity.
Qed.

End ShuffledGenerators.

Section StrongFacts.
Import Str JS PasswordGenerator Generators.

Lemma reaches_has class (s : string) :
  has is_line_terminator s = false -> reaches class s = has class s.
Proof.
  induction s as [|c s IH]; [reflexivity|].
  cbn [has reaches]. intros H. apply orb_false_iff in H. destruct H as [Hc Hs].
  rewrite Hc, (IH Hs). destruct (class c); reflexivity.
Qed.

Lemma count_two class (s : string) :
  has is_line_terminator s = false -> (2 <= count class s)%nat -> has_two class s = true.
Proof.
  induction s as [|c s IH]; [cbn; lia|].
  cbn [has count has_two]. intros H. apply orb_false_iff in H. destruct H as [_ Hs].
  rewrite (reaches_has class s Hs).
  destruct (class c); cbn [andb orb Nat.add]; intros Hc.
  - rewrite (count_has class s) by lia. reflexivity.
  - apply IH; assumption.
Qed.

Lemma has_two_leb class (s : string) :
  has is_line_terminator s = false -> has_two class s = (2 <=? count class s)%nat.
Proof.
  intros H. destruct (Nat.leb_spec 2 (count class s)) as [Hc|Hc].
  - apply count_two; assumption.
  - destruct (has_two class s) eqn:E; [|reflexivity]. apply has_two_count in E. lia.
Qed.

Lemma count_letters (s : string) : count is_letter s = (count is_upper s + count is_lower s)%nat.
Proof.
  induction s as [|c s IH]; [reflexivity|]. cbn [count]. rewrite IH.
  assert ((if is_letter c then 1 else 0)
          = (if is_upper c then 1 else 0) + (if is_lower c then 1 else 0))%nat
    by (destruct c as [[] [] [] [] [] [] [] []]; reflexivity).
  lia.
Qed.

Lemma count_fold (s : string) : count is_letter (fold s) = count is_letter s.
Proof.
  induction s as [|c s IH]; [reflexivity|]. cbn [fold count]. rewrite IH. f_equal.
  destruct c as [[] [] [] [] [] [] [] []]; reflexivity.
Qed.

Lemma count_substring class (sub s : string) :
  includes s sub = true -> (count class sub <= count class s)%nat.
Proof.
  intros H. apply includes_Substring in H. destruct H as (before & after & ->).
  rewrite !count_app. lia.
Qed.

Lemma run_count (class : ascii -> bool) (runs : list string) (s : string) :
  forallb (fun r => (3 <=? count class r)%nat) runs = true ->
  existsb (includes s) runs = true -> (3 <= count class s)%nat.
Proof.
  intros Hall Hex. apply existsb_exists in Hex. destruct Hex as (r & Hin & Hr).
  rewrite forallb_forall in Hall. specialize (Hall r Hin). apply Nat.leb_le in Hall.
  pose proof (count_substring class r s Hr). lia.
Qed.

Lemma triple_count (s : string) :
  has_triple s = true ->
  (3 <= count is_upper s \/ 3 <= count is_lower s \/ 3 <= count is_digit s
   \/ 3 <= count is_other s)%nat.
Proof.
  induction s as [|a s IH]; [discriminate|].
  destruct s as [|b [|c r]]; try discriminate.
  cbn [has_triple]. intros H. apply orb_true_iff in H. destruct H as [H|H].
  - apply andb_true_iff in H. destruct H as [H Hbc]. apply andb_true_iff in H.
    destruct H as [_ Hab]. apply Ascii.eqb_eq in Hab, Hbc. subst b c.
    cbn [count]. pose proof (class_partition a).
    destruct (is_upper a), (is_lower a), (is_digit a), (is_other a); lia.
  - specialize (IH H). cbn [count] in *.
    destruct (is_upper a), (is_lower a), (is_digit a), (is_other a); lia.
Qed.

(** Sixteen characters of the four kinds, on one line, are always Strong. *)
Lemma long_mixed_is_strong (password : string) :
  (16 <= String.length password)%nat ->
  has is_upper password = true -> has is_lower password = true ->
  has is_digit password = true -> has is_other password = true ->
  has is_line_terminator password = false ->
  (80 <= score (evaluateStrength password))%Z /\
  label (evaluateStrength password) = "Strong".
Proof.
  intros Hlen Hu Hl Hd Ho Hlt.
  assert (Hraw : (8 <= raw_score password)%Z).
  { unfold raw_score. rewrite Hu, Hl, Hd, Ho. unfold bonus at 1 2 3 4.
    assert (Hq : (4 <= Z.of_nat (String.length password) / 4)%Z)
      by (apply Z.div_le_lower_bound; lia).
    pose proof (count_partition password) as Hsum.
    apply has_count in Hu, Hl, Hd, Ho.
    rewrite !(has_two_leb _ password Hlt).
    pose proof (triple_count password) as Ht.
    assert (Hr : existsb (includes (fold password)) letter_runs = true ->
                 (3 <= count is_upper password + count is_lower password)%nat).
    { intros H. rewrite <- count_letters, <- count_fold.
      apply (run_count is_letter letter_runs); [vm_compute; reflexivity|exact H]. }
    assert (Hn : existsb (includes password) digit_runs = true ->
                 (3 <= count is_digit password)%nat)
      by (apply (run_count is_digit digit_runs); vm_compute; reflexivity).
    set (cu := count is_upper password) in *. set (cl := count is_lower password) in *.
    set (cd := count is_digit password) in *. set (co := count is_other password) in *.
    clearbody cu cl cd co.
    destruct (Nat.leb_spec 2 cu), (Nat.leb_spec 2 cl), (Nat.leb_spec 2 cd),
             (Nat.leb_spec 2 co);
      destruct (has_triple password), (existsb (includes (fold password)) letter_runs),
               (existsb (includes password) digit_runs);
      unfold bonus;
      repeat match goal with
             | H : true = true -> _ |- _ => specialize (H eq_refl)
             | H : false = true -> _ |- _ => clear H
             end; lia. }
  unfold evaluateStrength.
  destruct password as [|c r]; [cbn in Hlen; lia|]. cbn [is_empty]. cbv zeta. cbn [score label].
  destruct (Z.leb_spec 80 (Z.max 0 (Z.min 10 (raw_score (String c r))) * 10)) as [H|H]; [|lia].
  split; [exact H|reflexivity].
Qed.

End StrongFacts.

Section GeneratedStrength.
Import Str JS PasswordGenerator Generators.

Lemma default_random_password (shuffle : string -> string) (random : nat -> fraction) :
  rearranges shuffle ->
  let password := generateRandomPassword shuffle random defaults in
  String.length password = 16%nat /\
  has is_upper password = true /\ has is_lower password = true /\
  has is_digit password = true /\ has is_other password = true /\
  has is_line_terminator password = false.
Proof.
  intros Hs. cbv zeta.
  destruct (generateRandomPassword_shape shuffle random defaults Hs)
    as (Hlen & Hu & Hl & Hd & Ho & Hline).
  split; [exact Hlen|].
  split; [apply (has_weaken (from UPPERCASE)); [intros c; apply set_characters|apply Hu; reflexivity]|].
  split; [apply (has_weaken (from LOWERCASE)); [intros c; apply set_characters|apply Hl; reflexivity]|].
  split; [apply (has_weaken (from NUMBERS)); [intros c; apply set_characters|apply Hd; reflexivity]|].
  split; [apply (has_weaken (from symbols_set)); [intros c; apply set_characters|apply Ho; reflexivity]|].
  exact Hline.
Qed.

Lemma default_generated_password fuel random k (password : string) :
  generatePassword fuel random k defaults = Some password ->
  String.length password = 16%nat /\
  has is_upper password = true /\ has is_lower password = true /\
  has is_digit password = true /\ has is_other password = true /\
  has is_line_terminator password = false.
Proof.
  intros H. destruct (generatePassword_shape fuel random k defaults password H)
    as (Hlen & Hv & Hall).
  split; [exact Hlen|].
  unfold validatePassword in Hv. cbn [config_of defaults uppercase lowercase numbers symbols
    length flag negb andb] in Hv. cbv zeta in Hv.
  repeat (apply andb_true_iff in Hv; destruct Hv as [Hv ?]).
  repeat (split; [assumption|]).
  split; [apply (has_weaken is_symbol); [apply symbol_is_other|assumption]|].
  apply (all_in_one_line (charSet_of (config_of defaults))); [|exact Hall].
  intros c Hc.
  apply (proj2 (proj2 (proj2 (proj2 (proj2 (set_characters c)))))).
  change (charSet_of (config_of defaults)) with (UPPERCASE ++ LOWERCASE ++ NUMBERS ++ SYMBOLS)
    in Hc.
  rewrite !contains_char_app in Hc. unfold from.
  destruct (contains_char c UPPERCASE), (contains_char c LOWERCASE),
           (contains_char c NUMBERS), (contains_char c SYMBOLS); try reflexivity;
    rewrite ?orb_true_r; try reflexivity.
  discriminate Hc.
Qed.

End GeneratedStrength.

Section ShuffleInstance.
Import Str JS PasswordGenerator Generators.

Lemma reverse_rearranges : rearranges reverse.
Proof.
  intros s. unfold reverse. rewrite list_ascii_of_string_of_list_ascii.
  apply Permutation.Permutation_sym, Permutation.Permutation_rev.
Qed.

End ShuffleInstance.

(** X17: whatever the draws and the order the final shuffle
    leaves, the password of [generateRandomPassword] has the length asked
    for (16 when none or 0 is given), or one character per selected type
    when that is more; it holds a character of each selected type, and no
    line break. *)
Theorem generateRandomPassword_length_and_types :
  forall (shuffle : string -> string) (random : nat -> PasswordGenerator.fraction)
         (options : PasswordGenerator.Options),
    Generators.rearranges shuffle ->
    let password := Generators.generateRandomPassword shuffle random options in
    let selected (f : option bool) := Generators.unless_false f in
    String.length password
    = Nat.max (PasswordGenerator.length_of (PasswordGenerator.config_of options))
        ((if selected (PasswordGenerator.uppercase options) then 1 else 0)
         + (if selected (PasswordGenerator.lowercase options) then 1 else 0)
         + (if selected (PasswordGenerator.numbers options) then 1 else 0)
         + (if selected (PasswordGenerator.symbols options) then 1 else 0)) /\
    (selected (PasswordGenerator.uppercase options) = true ->
     PasswordGenerator.has (PasswordGenerator.from PasswordGenerator.UPPERCASE) password = true) /\
    (selected (PasswordGenerator.lowercase options) = true ->
     PasswordGenerator.has (PasswordGenerator.from PasswordGenerator.LOWERCASE) password = true) /\
    (selected (PasswordGenerator.numbers options) = true ->
     PasswordGenerator.has (PasswordGenerator.from PasswordGenerator.NUMBERS) password = true) /\
    (selected (PasswordGenerator.symbols options) = true ->
     PasswordGenerator.has (PasswordGenerator.from Generators.symbols_set) password = true) /\
    PasswordGenerator.has PasswordGenerator.is_line_terminator password = false.
Proof.
  intros shuffle random options Hs.
  exact (generateRandomPassword_shape shuffle random options Hs).
Qed.

Lemma generateRandomPassword_length_and_types_witness :
  let options := PasswordGenerator.mkOptions (Some 2%Z) None None (Some false) None in
  let password :=
    Generators.generateRandomPassword Generators.reverse Generators.example_random options in
  let selected (f : option bool) := Generators.unless_false f in
  String.length password
  = Nat.max (PasswordGenerator.length_of (PasswordGenerator.config_of options))
      ((if selected (PasswordGenerator.uppercase options) then 1 else 0)
       + (if selected (PasswordGenerator.lowercase options) then 1 else 0)
       + (if selected (PasswordGenerator.numbers options) then 1 else 0)
       + (if selected (PasswordGenerator.symbols options) then 1 else 0)) /\
  (selected (PasswordGenerator.uppercase options) = true ->
   PasswordGenerator.has (PasswordGenerator.from PasswordGenerator.UPPERCASE) password = true) /\
  (selected (PasswordGenerator.lowercase options) = true ->
   PasswordGenerator.has (PasswordGenerator.from PasswordGenerator.LOWERCASE) password = true) /\
  (selected (PasswordGenerator.numbers options) = true ->
   PasswordGenerator.has (PasswordGenerator.from PasswordGenerator.NUMBERS) password = true) /\
  (selected (PasswordGenerator.symbols options) = true ->
   PasswordGenerator.has (PasswordGenerator.from Generators.symbols_set) password = true) /\
  PasswordGenerator.has PasswordGenerator.is_line_terminator password = false.
Proof.
  exact (generateRandomPassword_length_and_types Generators.reverse Generators.example_random
           (PasswordGenerator.mkOptions (Some 2%Z) None None (Some false) None)
           reverse_rearranges).
Defined.

(** X18: [evaluateStrength] calls Strong, with a score of at
    least 80, every password of 16 characters or more, without a line break,
    that holds a capital letter, a small letter, a digit and another
    character: the deductions for repeated characters and for runs of
    letters or digits cannot bring it lower. *)
Theorem evaluateStrength_long_mixed_passwords :
  forall password : string,
    (16 <= String.length password)%nat ->
    PasswordGenerator.has PasswordGenerator.is_upper password = true ->
    PasswordGenerator.has PasswordGenerator.is_lower password = true ->
    PasswordGenerator.has PasswordGenerator.is_digit password = true ->
    PasswordGenerator.has PasswordGenerator.is_other password = true ->
    PasswordGenerator.has PasswordGenerator.is_line_terminator password = false ->
    (80 <= PasswordGenerator.score (PasswordGenerator.evaluateStrength password))%Z /\
    PasswordGenerator.label (PasswordGenerator.evaluateStrength password) = "Strong".
Proof. exact long_mixed_is_strong. Qed.

Lemma evaluateStrength_long_mixed_passwords_witness :
  (80 <= PasswordGenerator.score (PasswordGenerator.evaluateStrength "aaabcd0123AAA!ef"))%Z /\
  PasswordGenerator.label (PasswordGenerator.evaluateStrength "aaabcd0123AAA!ef") = "Strong".
Proof.
  apply (evaluateStrength_long_mixed_passwords "aaabcd0123AAA!ef");
    solve [vm_compute; lia | reflexivity].
Defined.

(** X19: with no option given, whatever the draws and
    for every shuffle that rearranges the characters, the three generators
    ([generateRandomPassword] of the encryption module, [generateStrongPassword]
    of the content script, which draws and shuffles as the former does, and
    [generatePassword] of the password generator whenever it returns) give
    passwords of 16 characters that [evaluateStrength] calls Strong. *)
Theorem default_generated_passwords_are_strong :
  forall (shuffle : string -> string) (random : nat -> PasswordGenerator.fraction),
    Generators.rearranges shuffle ->
    Generators.generateStrongPassword shuffle random
    = Generators.generateRandomPassword shuffle random PasswordGenerator.defaults /\
    String.length (Generators.generateRandomPassword shuffle random PasswordGenerator.defaults)
    = 16%nat /\
    PasswordGenerator.label
      (PasswordGenerator.evaluateStrength
         (Generators.generateRandomPassword shuffle random PasswordGenerator.defaults))
    = "Strong" /\
    forall (fuel k : nat) (password : string),
      PasswordGenerator.generatePassword fuel random k PasswordGenerator.defaults
      = Some password ->
      String.length password = 16%nat /\
      PasswordGenerator.label (PasswordGenerator.evaluateStrength password) = "Strong".
Proof.
  intros shuffle random Hs.
  split; [apply strong_is_default|].
  destruct (default_random_password shuffle random Hs) as (Hlen & Hu & Hl & Hd & Ho & Hline).
  split; [exact Hlen|]. split.
  - apply long_mixed_is_strong; try assumption. rewrite Hlen. apply Nat.le_refl.
  - intros fuel k password H.
    destruct (default_generated_password fuel random k password H)
      as (Hlen' & Hu' & Hl' & Hd' & Ho' & Hline').
    split; [exact Hlen'|].
    apply long_mixed_is_strong; try assumption. rewrite Hlen'. apply Nat.le_refl.
Qed.

Lemma default_generated_passwords_are_strong_witness :
  PasswordGenerator.label
    (PasswordGenerator.evaluateStrength
       (Generators.generateRandomPassword Generators.reverse Generators.example_random
          PasswordGenerator.defaults))
  = "Strong".
Proof.
  exact (proj1 (proj2 (proj2 (default_generated_passwords_are_strong Generators.reverse
                                Generators.example_random reverse_rearranges)))).
Defined.

(** ** Creating the vault *)
Section SetupFacts.
Import Str JS Json Hex EncryptionModule PasswordGenerator Setup.

Lemma one_kind_bound (password : string) (class : ascii -> bool) :
  (class = is_upper \/ class = is_lower \/ class = is_digit) ->
  all_of class password = true ->
  (raw_score password <= Z.of_nat (String.length password) / 4 + 2)%Z.
Proof.
  intros Hclass Hall. apply all_of_count in Hall.
  destruct (raw_score_bound password)
    as (u & u2 & l & l2 & d & d2 & o & o2 & Hraw & Hu & Hu2 & Hl & Hl2 & Hd & Hd2 & Ho & Ho2).
  assert (Hq : (Z.min (Z.of_nat (String.length password) / 4) 5
                <= Z.of_nat (String.length password) / 4)%Z) by lia.
  set (q' := (Z.of_nat (String.length password) / 4)%Z) in *.
  set (q := Z.min q' 5) in *. clearbody q q'.
  pose proof (count_partition password).
  destruct Hclass as [->|[->| ->]];
    destruct u, u2, l, l2, d, d2, o, o2; unfold bonus in Hraw;
    repeat match goal with
           | H : true = true -> _ |- _ => specialize (H eq_refl)
           | H : false = true -> _ |- _ => clear H
           end; lia.
Qed.

Lemma low_score (password : string) :
  password <> EmptyString -> (raw_score password <= 4)%Z ->
  (score (evaluateStrength password) <? 50)%Z = true.
Proof.
  intros Hne Hraw. apply Z.ltb_lt.
  destruct (label_of_score password 4 Hne Hraw ltac:(lia)) as [H _]. lia.
Qed.

Lemma refused (P : Platform) (newPassword confirmPassword : string) (now : Z)
    (rnd1 rnd2 rnd3 rnd4 : Entropy) :
  (score (evaluateStrength newPassword) <? 50)%Z = true ->
  exists text,
    createVault P newPassword confirmPassword now rnd1 rnd2 rnd3 rnd4
    = [ShowMessage text "error"] /\
    In text ["Please enter a master password."; "Passwords do not match.";
             "Please use a stronger master password."].
Proof.
  intros H. unfold createVault.
  destruct (is_empty newPassword).
  - eexists. split; [reflexivity|]. cbn. tauto.
  - destruct (negb (newPassword =? confirmPassword)%string).
    + eexists. split; [reflexivity|]. cbn. tauto.
    + rewrite H. eexists. split; [reflexivity|]. cbn. tauto.
Qed.

Lemma is_empty_false (s : string) : s <> EmptyString -> is_empty s = false.
Proof. destruct s; [contradiction|reflexivity]. Qed.

Lemma empty_list_text :
  stringify (VArr []) = Some "[]" /\ parse_or_text "[]" = VArr [].
Proof. split; reflexivity. Qed.

(** X20: with a password that is confirmed and scores 50 or
    more, on a platform whose ciphers work, [createVault] asks the storage
    module to save four tokens, in the order verification string, vault,
    TOTP secrets, shared passwords, and announces success.  The verification
    string it saves is accepted by [verifyMasterPassword] under the same
    password, and each of the three other tokens decrypts to the empty
    list. *)
Theorem createVault_stores_a_vault_that_opens (P : Platform) (HP : PlatformOK P) (newPassword : string) (now : Z)
    (rnd1 rnd2 rnd3 rnd4 : Entropy) :
  (50 <= score (evaluateStrength newPassword))%Z ->
  Forall (fun rnd => List.length (iv12 rnd) = 12%nat /\ List.length (iv16 rnd) = 16%nat)
    [rnd1; rnd2; rnd3; rnd4] ->
  exists verificationString encryptedVault encryptedTOTP encryptedShared,
    createVault P newPassword newPassword now rnd1 rnd2 rnd3 rnd4
    = [SaveVerificationString verificationString; SaveVaultData encryptedVault;
       SaveTOTPSecrets encryptedTOTP; SaveSharedPasswords encryptedShared;
       ShowMessage "Vault created successfully!" "success"; ShowLoginScreenLater 1500] /\
    verifyMasterPassword P newPassword (VStr verificationString) = Ok (VBool true) /\
    Forall (fun token => decrypt P (VStr token) (deriveMasterKey P newPassword) = Ok (VArr []))
      [encryptedVault; encryptedTOTP; encryptedShared].
Proof.
  intros Hscore Hrnd.
  repeat match goal with
         | H : Forall _ (_ :: _) |- _ => inversion H; subst; clear H
         end.
  repeat match goal with H : _ /\ _ |- _ => destruct H end.
  pose proof (deriveMasterKey_well_formed P newPassword) as Hwf.
  destruct (decrypt_encrypt P HP (deriveMasterKey P newPassword) rnd1 (marker ++ dec now) Hwf)
    as (v & Ev & Dv); try assumption.
  destruct (decrypt_encrypt P HP (deriveMasterKey P newPassword) rnd2 "[]" Hwf)
    as (a & Ea & Da); try assumption.
  destruct (decrypt_encrypt P HP (deriveMasterKey P newPassword) rnd3 "[]" Hwf)
    as (b & Eb & Db); try assumption.
  destruct (decrypt_encrypt P HP (deriveMasterKey P newPassword) rnd4 "[]" Hwf)
    as (c & Ec & Dc); try assumption.
  exists v, a, b, c. split; [|split].
  - unfold createVault.
    assert (Hne : is_empty newPassword = false).
    { destruct newPassword; [|reflexivity].
      change (score (evaluateStrength "")) with 0%Z in Hscore. lia. }
    rewrite Hne, String.eqb_refl. cbn [negb].
    destruct (Z.ltb_spec (score (evaluateStrength newPassword)) 50) as [Hlt|_]; [lia|].
    unfold createVerificationString. rewrite Ev.
    change (stringify (VArr [])) with (Some "[]"). cbv iota.
    rewrite Ea, Eb, Ec. reflexivity.
  - rewrite verifyMasterPassword_cases, Dv, parse_or_text_marker.
    change (truthy (VStr (marker ++ dec now))) with true. cbv iota.
    rewrite prefix_app. reflexivity.
  - repeat constructor; assumption.
Qed.

End SetupFacts.

(** X21: [createVault] stores nothing, and only shows one of
    its three error messages, when the master password is empty, differs
    from its confirmation, has fewer than four characters, or is made of one
    kind of character only (capital letters, small letters or digits) and
    has fewer than twelve characters. *)
Theorem createVault_refuses_weak_passwords :
  forall (P : EncryptionModule.Platform) (newPassword confirmPassword : string) (now : Z)
         (rnd1 rnd2 rnd3 rnd4 : EncryptionModule.Entropy),
    newPassword = EmptyString \/
    newPassword <> confirmPassword \/
    (String.length newPassword < 4)%nat \/
    ((String.length newPassword < 12)%nat /\
     (PasswordGenerator.all_of PasswordGenerator.is_upper newPassword = true \/
      PasswordGenerator.all_of PasswordGenerator.is_lower newPassword = true \/
      PasswordGenerator.all_of PasswordGenerator.is_digit newPassword = true)) ->
    exists text,
      Setup.createVault P newPassword confirmPassword now rnd1 rnd2 rnd3 rnd4
      = [Setup.ShowMessage text "error"] /\
      In text ["Please enter a master password."; "Passwords do not match.";
               "Please use a stronger master password."].
Proof.
  intros P newPassword confirmPassword now rnd1 rnd2 rnd3 rnd4 H.
  destruct newPassword as [|c r].
  { eexists. split; [reflexivity|]. cbn. tauto. }
  destruct H as [H|[H|[H|[Hlen H]]]].
  - discriminate H.
  - unfold Setup.createVault. cbn [JS.is_empty].
    destruct (String.eqb_spec (String c r) confirmPassword) as [E|_]; [contradiction|].
    eexists. split; [reflexivity|]. cbn. tauto.
  - apply refused. apply low_score; [discriminate|]. apply short_scores. exact H.
  - apply refused. apply low_score; [discriminate|].
    assert (Hq : (Z.of_nat (String.length (String c r)) / 4 <= 2)%Z)
      by (apply quarter; lia).
    assert (Hb : (PasswordGenerator.raw_score (String c r)
                  <= Z.of_nat (String.length (String c r)) / 4 + 2)%Z).
    { destruct H as [H|[H|H]];
        [apply (one_kind_bound _ PasswordGenerator.is_upper)
        |apply (one_kind_bound _ PasswordGenerator.is_lower)
        |apply (one_kind_bound _ PasswordGenerator.is_digit)]; tauto. }
    lia.
Qed.

Lemma createVault_refuses_weak_passwords_witness :
  exists text,
    Setup.createVault (Reference.platform true) "masterpass" "masterpass" 1700000000000
      Reference.entropy Reference.entropy Reference.entropy Reference.entropy
    = [Setup.ShowMessage text "error"] /\
    In text ["Please enter a master password."; "Passwords do not match.";
             "Please use a stronger master password."].
Proof.
  apply (createVault_refuses_weak_passwords (Reference.platform true) "masterpass" "masterpass").
  right. right. right. split; [vm_compute; lia|]. right. left. reflexivity.
Defined.


Lemma createVault_stores_a_vault_that_opens_witness :
  exists verificationString encryptedVault encryptedTOTP encryptedShared,
    Setup.createVault (Reference.platform true) "Tr0ub4dor&3" "Tr0ub4dor&3" 1700000000000
      Reference.entropy Reference.entropy Reference.entropy Reference.entropy
    = [Setup.SaveVerificationString verificationString;
       Setup.SaveVaultData encryptedVault;
       Setup.SaveTOTPSecrets encryptedTOTP;
       Setup.SaveSharedPasswords encryptedShared;
       Setup.ShowMessage "Vault created successfully!" "success";
       Setup.ShowLoginScreenLater 1500] /\
    EncryptionModule.verifyMasterPassword (Reference.platform true) "Tr0ub4dor&3"
      (JS.VStr verificationString) = JS.Ok (JS.VBool true) /\
    Forall (fun token =>
              EncryptionModule.decrypt (Reference.platform true) (JS.VStr token)
                (EncryptionModule.deriveMasterKey (Reference.platform true) "Tr0ub4dor&3")
              = JS.Ok (JS.VArr []))
      [encryptedVault; encryptedTOTP; encryptedShared].
Proof.
  apply (createVault_stores_a_vault_that_opens (Reference.platform true)
           (reference_platform_ok true) "Tr0ub4dor&3").
  - vm_compute. discriminate.
  - repeat constructor.
Defined.

(** ** The storage module *)
Section StoreFacts.
Import Str JS Json Hex StorageModule.

Lemma getItem_put_same (store : Store) (k v : string) : getItem (put k v store) k = Some v.
Proof.
  induction store as [|[k' v'] rest IH]; cbn [put getItem].
  - rewrite String.eqb_refl. reflexivity.
  - destruct (String.eqb k k') eqn:E; cbn [getItem]; rewrite ?String.eqb_refl, ?E; auto.
Qed.

Lemma getItem_put_other (store : Store) (k k' v : string) :
  k <> k' -> getItem (put k' v store) k = getItem store k.
Proof.
  intros Hne. apply String.eqb_neq in Hne.
  induction store as [|[k2 v2] rest IH]; cbn [put getItem].
  - rewrite Hne. reflexivity.
  - destruct (String.eqb k' k2) eqn:E; cbn [getItem].
    + apply String.eqb_eq in E. subst k2. rewrite Hne. reflexivity.
    + rewrite IH. reflexivity.
Qed.

Lemma getItem_remove_same (store : Store) (k : string) : getItem (removeItem k store) k = None.
Proof.
  induction store as [|[k' v'] rest IH]; cbn [removeItem getItem]; [reflexivity|].
  destruct (String.eqb k k') eqn:E; [exact IH|]. cbn [getItem]. rewrite E. exact IH.
Qed.

Lemma getItem_remove_other (store : Store) (k k' : string) :
  k <> k' -> getItem (removeItem k' store) k = getItem store k.
Proof.
  intros Hne. apply String.eqb_neq in Hne.
  induction store as [|[k2 v2] rest IH]; cbn [removeItem getItem]; [reflexivity|].
  destruct (String.eqb k' k2) eqn:E; cbn [getItem].
  - apply String.eqb_eq in E. subst k2. rewrite Hne. exact IH.
  - rewrite IH. reflexivity.
Qed.

Lemma getItem_removed (store : Store) (k k' : string) :
  getItem store k = None -> getItem (removeItem k' store) k = None.
Proof.
  intros H. destruct (string_dec k k') as [->|Hne].
  - apply getItem_remove_same.
  - rewrite getItem_remove_other by exact Hne. exact H.
Qed.

Lemma str_app_inv_head (a b c : string) : a ++ b = a ++ c -> b = c.
Proof.
  induction a as [|x a IH]; cbn [append]; intros H; [exact H|].
  injection H as H. exact (IH H).
Qed.

Lemma dec_injective (a b : Z) : dec a = dec b -> a = b.
Proof.
  intros H.
  pose proof (parse_number_dec a EmptyString eq_refl) as Ha.
  pose proof (parse_number_dec b EmptyString eq_refl) as Hb.
  rewrite H, Hb in Ha. injection Ha as Ha. symmetry. exact Ha.
Qed.

Lemma chunk_key_injective (i j : nat) : chunk_key i = chunk_key j -> i = j.
Proof.
  unfold chunk_key. intros H. apply str_app_inv_head in H. injection H as H.
  apply dec_injective in H. lia.
Qed.

Lemma chunk_key_not_index (i : nat) : chunk_key i <> chunks_key.
Proof.
  unfold chunk_key, chunks_key. intros H.
  change (VAULT_DATA_KEY ++ "_chunks") with (VAULT_DATA_KEY ++ "_" ++ "chunks") in H.
  apply str_app_inv_head in H. injection H as H.
  destruct (dec_head (Z.of_nat i)) as (c & t & E & Hc). rewrite E in H.
  injection H as -> _. destruct Hc as [Hc|Hc]; discriminate Hc.
Qed.

Lemma chunk_key_not_plain (i : nat) (k : string) :
  In k [VERIFICATION_KEY; VAULT_DATA_KEY; SETTINGS_KEY; TOTP_SECRETS_KEY;
        SHARED_PASSWORDS_KEY] -> chunk_key i <> k.
Proof.
  unfold chunk_key. cbn [In]. intros [<-|[<-|[<-|[<-|[<-|[]]]]]] H;
    vm_compute in H; discriminate H.
Qed.

(** *** Writing a chunk count and reading it *)

Lemma read_digits_uint (u : Decimal.uint) : forall a : N,
  read_digits 10 (NilEmpty.string_of_uint u) (Some a)
  = Some (Z.to_N (uint_value u (Z.of_N a))).
Proof.
  induction u; intros a; cbn [NilEmpty.string_of_uint read_digits uint_value];
    try (rewrite N2Z.id; reflexivity);
    match goal with
    | |- context [digit_val ?c] =>
        let v := eval vm_compute in (digit_val c) in change (digit_val c) with v
    end;
    cbv iota beta;
    match goal with
    | |- context [(?d <? 10)%N] => change (d <? 10)%N with true
    end;
    cbv iota; rewrite IHu; do 3 f_equal; lia.
Qed.

Lemma read_digits_start (u : Decimal.uint) :
  u <> Decimal.Nil ->
  read_digits 10 (NilEmpty.string_of_uint u) None = Some (Z.to_N (uint_value u 0)).
Proof.
  intros Hne. destruct u; [contradiction| | | | | | | | | |];
    cbn [NilEmpty.string_of_uint read_digits uint_value];
    match goal with
    | |- context [digit_val ?c] =>
        let v := eval vm_compute in (digit_val c) in change (digit_val c) with v
    end;
    cbv iota beta;
    match goal with
    | |- context [(?d <? 10)%N] => change (d <? 10)%N with true
    end;
    cbv iota; rewrite read_digits_uint; reflexivity.
Qed.

Lemma parseInt_digit_first (c : ascii) (r : string) :
  TOTPModule.is_decimal_digit c = true ->
  parseInt 10 (String c r)
  = match read_digits 10 (String c r) None with
    | Some n => Some (Z.of_N n)
    | None => None
    end.
Proof.
  destruct c as [[] [] [] [] [] [] [] []]; intros H; try discriminate H; reflexivity.
Qed.

Lemma parseInt_dec (n : nat) : parseInt 10 (dec (Z.of_nat n)) = Some (Z.of_nat n).
Proof.
  destruct (Z.of_nat n) as [|p|p] eqn:E; [reflexivity| |lia].
  destruct (to_uint_head p) as (c & d & u & Eu & _ & _ & _ & Hc).
  rewrite dec_pos. rewrite Eu at 1. rewrite (parseInt_digit_first c _ Hc), <- Eu.
  rewrite read_digits_start by apply DecimalPos.Unsigned.to_uint_nonnil.
  rewrite dec_pos_value. reflexivity.
Qed.

Lemma dec_nonempty (z : Z) : is_empty (dec z) = false.
Proof. destruct (dec_head z) as (c & t & -> & _). reflexivity. Qed.

(** *** Cutting a string into chunks *)

Lemma substring_split (s : string) : forall a m k,
  substring a (m + k) s = substring a m s ++ substring (a + m) k s.
Proof.
  induction s as [|c s IH]; intros a m k.
  - destruct a, m, k; reflexivity.
  - destruct a as [|a].
    + destruct m as [|m]; [reflexivity|]. cbn [Nat.add substring append].
      rewrite (IH 0%nat m k). reflexivity.
    + cbn [Nat.add substring]. apply IH.
Qed.

Lemma substring_all (s : string) : forall m,
  (String.length s <= m)%nat -> substring 0 m s = s.
Proof.
  induction s as [|c s IH]; intros m Hm; [destruct m; reflexivity|].
  cbn [String.length] in Hm. destruct m as [|m]; [lia|].
  cbn [substring]. rewrite IH by lia. reflexivity.
Qed.

Lemma substring_nonempty (s : string) : forall a m,
  (a < String.length s)%nat -> (0 < m)%nat -> is_empty (substring a m s) = false.
Proof.
  induction s as [|c s IH]; intros a m Ha Hm; cbn [String.length] in Ha; [lia|].
  destruct a as [|a].
  - destruct m; [lia|reflexivity].
  - cbn [substring]. apply IH; lia.
Qed.

Lemma substring_length_le (s : string) : forall a m,
  (String.length (substring a m s) <= m)%nat.
Proof.
  induction s as [|c s IH]; intros a m; [destruct a, m; cbn; lia|].
  destruct a as [|a].
  - destruct m as [|m]; [cbn; lia|]. cbn [substring String.length].
    specialize (IH 0%nat m). lia.
  - cbn [substring]. apply IH.
Qed.

Lemma substring_none (s : string) : forall a, substring a 0 s = EmptyString.
Proof. induction s as [|c s IH]; intros [|a]; cbn [substring]; auto. Qed.

Lemma pieces (size : nat) (s : string) : forall n a,
  fold_right append EmptyString
    (map (fun j => substring (a + j * size) size s) (seq 0 n))
  = substring a (n * size) s.
Proof.
  induction n as [|n IH]; intros a.
  - cbn [seq map fold_right Nat.mul]. symmetry. apply substring_none.
  - change (seq 0 (S n)) with (0%nat :: seq 1 n). rewrite <- seq_shift.
    cbn [map fold_right]. rewrite map_map, Nat.mul_0_l, Nat.add_0_r.
    rewrite (map_ext _ (fun j => substring ((a + size) + j * size) size s))
      by (intros j; f_equal; lia).
    rewrite IH. change (S n * size)%nat with (size + n * size)%nat.
    symmetry. apply substring_split.
Qed.

Lemma chunk_count (size len : nat) :
  (0 < size)%nat ->
  let n := ((len + size - 1) / size)%nat in
  (len <= n * size)%nat /\ (forall j, (j < n)%nat -> (j * size < len)%nat) /\
  ((0 < len)%nat -> (0 < n)%nat).
Proof.
  intros Hs n.
  pose proof (Nat.div_mod_eq (len + size - 1) size) as E.
  pose proof (Nat.mod_upper_bound (len + size - 1) size ltac:(lia)) as Hr.
  fold n in E. set (r := ((len + size - 1) mod size)%nat) in *. clearbody n r.
  split; [nia|]. split; [intros j Hj; nia|]. intros Hl.
  destruct n; [|lia]. nia.
Qed.

Lemma chunks_of_spec (size : nat) (data : string) :
  (0 < size)%nat ->
  fold_right append EmptyString (chunks_of size data) = data /\
  Forall (fun chunk => is_empty chunk = false /\ (String.length chunk <= size)%nat)
    (chunks_of size data) /\
  (is_empty data = false -> (0 < List.length (chunks_of size data))%nat).
Proof.
  intros Hs. unfold chunks_of.
  destruct (chunk_count size (String.length data) Hs) as (Hall & Hlt & Hpos).
  set (n := ((String.length data + size - 1) / size)%nat) in *. clearbody n.
  split; [|split].
  - pose proof (pieces size data n 0) as E. cbn [Nat.add] in E. rewrite E.
    apply substring_all. exact Hall.
  - apply Forall_forall. intros chunk Hin. apply in_map_iff in Hin.
    destruct Hin as (j & <- & Hj). apply in_seq in Hj. split.
    + apply substring_nonempty; [apply Hlt; lia|exact Hs].
    + apply substring_length_le.
  - intros Hne. rewrite length_map, length_seq. apply Hpos.
    destruct data; [discriminate|cbn; lia].
Qed.

End StoreFacts.

Section VaultDataFacts.
Import Str JS Json Hex StorageModule.

Lemma store_chunks_spec (B : Browser) : forall (chunks : list string) (store : Store) (i : nat)
    (store' : Store),
  store_chunks B store i chunks = (store', true) ->
  (forall j, (j < List.length chunks)%nat ->
             getItem store' (chunk_key (i + j)) = Some (nth j chunks EmptyString)) /\
  (forall k, (forall j, (j < List.length chunks)%nat -> k <> chunk_key (i + j)) ->
             getItem store' k = getItem store k).
Proof.
  induction chunks as [|chunk rest IH]; intros store i store' H; cbn [store_chunks] in H.
  - injection H as <-. split; [cbn; lia|reflexivity].
  - unfold setItem in H. destruct (B store (chunk_key i) chunk); [discriminate H|].
    destruct (IH _ _ _ H) as [Hin Hout]. split.
    + intros [|j] Hj.
      * rewrite Nat.add_0_r, Hout, getItem_put_same; [reflexivity|].
        intros j _ E. apply chunk_key_injective in E. lia.
      * rewrite Nat.add_succ_r. cbn [List.length] in Hj. apply (Hin j). lia.
    + intros k Hk. rewrite Hout.
      * apply getItem_put_other. specialize (Hk 0%nat). rewrite Nat.add_0_r in Hk.
        apply Hk. cbn. lia.
      * intros j Hj. specialize (Hk (S j)). rewrite Nat.add_succ_r in Hk.
        apply Hk. cbn. lia.
Qed.

Lemma read_chunks_spec (store : Store) : forall (chunks : list string) (i : nat) (acc : string),
  (forall j, (j < List.length chunks)%nat ->
             getItem store (chunk_key (i + j)) = Some (nth j chunks EmptyString)) ->
  Forall (fun chunk => is_empty chunk = false) chunks ->
  read_chunks store i (List.length chunks) acc
  = Some (acc ++ fold_right append EmptyString chunks).
Proof.
  induction chunks as [|chunk rest IH]; intros i acc Hget Hne;
    cbn [List.length read_chunks fold_right].
  - rewrite str_app_nil_r. reflexivity.
  - pose proof (Hget 0%nat ltac:(cbn; lia)) as H0. rewrite Nat.add_0_r in H0.
    cbn [nth] in H0. rewrite H0. inversion Hne as [|? ? Hc Hrest]; subst. rewrite Hc.
    rewrite IH; [rewrite str_app_assoc; reflexivity| |exact Hrest].
    intros j Hj. specialize (Hget (S j)). rewrite Nat.add_succ_r in Hget.
    apply Hget. cbn. lia.
Qed.

Lemma read_chunks_put (store : Store) (k v : string) :
  (forall i, k <> chunk_key i) ->
  forall count i acc,
    read_chunks (put k v store) i count acc = read_chunks store i count acc.
Proof.
  intros Hk. induction count as [|count IH]; intros i acc; cbn [read_chunks]; [reflexivity|].
  rewrite getItem_put_other by (intros E; exact (Hk i (eq_sym E))).
  destruct (getItem store (chunk_key i)) as [chunk|]; [|reflexivity].
  destruct (is_empty chunk); [reflexivity|apply IH].
Qed.

Lemma max_chunk_positive : (0 < N.to_nat maxChunkSize)%nat.
Proof. unfold maxChunkSize. lia. Qed.

Lemma plain_key_not_index : chunks_key <> VAULT_DATA_KEY.
Proof. discriminate. Qed.

(** What [getVaultData] returns when there is no chunk count. *)
Lemma getVaultData_plain (store : Store) :
  or_null (getItem store chunks_key) = None ->
  getVaultData store = or_null (getItem store VAULT_DATA_KEY).
Proof. intros H. unfold getVaultData. rewrite H. reflexivity. Qed.

(** What [getVaultData] returns after the count and the chunks were written. *)
Lemma getVaultData_chunked (store : Store) (chunks : list string) :
  getItem store chunks_key = Some (dec (Z.of_nat (List.length chunks))) ->
  (forall j, (j < List.length chunks)%nat ->
             getItem store (chunk_key j) = Some (nth j chunks EmptyString)) ->
  Forall (fun chunk => is_empty chunk = false) chunks ->
  (0 < List.length chunks)%nat ->
  getVaultData store = or_null (Some (fold_right append EmptyString chunks)).
Proof.
  intros Hcount Hget Hne Hpos. unfold getVaultData. rewrite Hcount.
  cbn [or_null]. rewrite dec_nonempty, parseInt_dec.
  destruct (Z.leb_spec (Z.of_nat (List.length chunks)) 0) as [Hle|_]; [lia|].
  rewrite Nat2Z.id, (read_chunks_spec store chunks 0 EmptyString Hget Hne). reflexivity.
Qed.

(** X22: when [saveVaultData] reports success, directly or
    after cutting the text into chunks of 2 MB, [getVaultData] gives the
    saved text back, provided the text is not empty and, for a direct save,
    no chunk count was left in the store. *)
Theorem saveVaultData_then_getVaultData (B : Browser) (store store' : Store) (data : string) :
  saveVaultData B store data = (store', true) ->
  is_empty data = false ->
  or_null (getItem store chunks_key) = None \/ B store VAULT_DATA_KEY data <> None ->
  getVaultData store' = Some data.
Proof.
  intros Hsave Hne Hold. unfold saveVaultData, setItem in Hsave.
  destruct (B store VAULT_DATA_KEY data) as [[|]|] eqn:EB.
  - destruct (maxChunkSize <? N.of_nat (String.length data))%N; [|discriminate Hsave].
    cbv zeta in Hsave.
    destruct (chunks_of_spec (N.to_nat maxChunkSize) data max_chunk_positive)
      as (Hall & Hchunks & Hpos).
    set (chunks := chunks_of (N.to_nat maxChunkSize) data) in *.
    destruct (B store chunks_key (dec (Z.of_nat (List.length chunks))));
      [discriminate Hsave|].
    destruct (store_chunks_spec B chunks _ 0 store' Hsave) as [Hin Hout].
    rewrite (getVaultData_chunked store' chunks).
    + rewrite Hall. cbn [or_null]. rewrite Hne. reflexivity.
    + rewrite Hout by (intros j _ E; exact (chunk_key_not_index _ (eq_sym E))).
      apply getItem_put_same.
    + exact Hin.
    + eapply Forall_impl; [|exact Hchunks]. intros chunk [H _]. exact H.
    + apply Hpos. exact Hne.
  - discriminate Hsave.
  - injection Hsave as <-. destruct Hold as [Hold|Hold]; [|contradiction Hold; reflexivity].
    rewrite getVaultData_plain.
    + rewrite getItem_put_same. cbn [or_null]. rewrite Hne. reflexivity.
    + rewrite getItem_put_other by exact plain_key_not_index. exact Hold.
Qed.

(** X23: once a chunk count is in the store, a later save that
    the browser accepts directly succeeds but is not what [getVaultData]
    reads: it keeps returning what the chunks give, because nothing removes
    the count. *)
Theorem chunk_count_shadows_later_saves (B : Browser) (store : Store) (data index : string) :
  or_null (getItem store chunks_key) = Some index ->
  B store VAULT_DATA_KEY data = None ->
  saveVaultData B store data = (put VAULT_DATA_KEY data store, true) /\
  getVaultData (put VAULT_DATA_KEY data store) = getVaultData store.
Proof.
  intros Hindex HB. unfold saveVaultData, setItem. rewrite HB. split; [reflexivity|].
  unfold getVaultData.
  rewrite getItem_put_other by exact plain_key_not_index. rewrite Hindex.
  destruct (parseInt 10 index) as [numChunks|]; [|reflexivity].
  destruct (numChunks <=? 0)%Z; [reflexivity|].
  rewrite read_chunks_put; [reflexivity|].
  intros i E. apply (chunk_key_not_plain i VAULT_DATA_KEY); [cbn; tauto|]. symmetry. exact E.
Qed.

(** X24: when the browser has no room for a text of more than
    2 MB, takes the chunk count but refuses the first chunk, and no first
    chunk is in the store, [saveVaultData] reports failure and leaves the
    count behind: [getVaultData] then returns null, although the item saved
    before is still in the store. *)
Theorem refused_chunk_makes_the_vault_unreadable (B : Browser) (store : Store) (data : string) :
  B store VAULT_DATA_KEY data = Some QuotaExceededError ->
  (maxChunkSize < N.of_nat (String.length data))%N ->
  (forall index, B store chunks_key index = None) ->
  (forall st chunk, B st (chunk_key 0) chunk <> None) ->
  getItem store (chunk_key 0) = None ->
  exists index,
    saveVaultData B store data = (put chunks_key index store, false) /\
    getVaultData (put chunks_key index store) = None /\
    getItem (put chunks_key index store) VAULT_DATA_KEY = getItem store VAULT_DATA_KEY.
Proof.
  intros HB Hlen Hindex Hchunk Hfree.
  exists (dec (Z.of_nat (List.length (chunks_of (N.to_nat maxChunkSize) data)))).
  destruct (chunks_of_spec (N.to_nat maxChunkSize) data max_chunk_positive)
    as (_ & _ & Hpos).
  assert (Hne : is_empty data = false).
  { destruct data; [|reflexivity]. cbn in Hlen. lia. }
  specialize (Hpos Hne).
  set (chunks := chunks_of (N.to_nat maxChunkSize) data) in *. split; [|split].
  3: apply getItem_put_other; intros E; exact (plain_key_not_index (eq_sym E)).
  - unfold saveVaultData, setItem. rewrite HB.
    apply N.ltb_lt in Hlen. rewrite Hlen. cbv zeta. fold chunks. rewrite Hindex.
    destruct chunks as [|chunk rest]; [cbn in Hpos; lia|].
    cbn [store_chunks]. unfold setItem.
    destruct (B (put chunks_key (dec (Z.of_nat (List.length (chunk :: rest)))) store)
                (chunk_key 0) chunk) eqn:E; [reflexivity|].
    contradiction (Hchunk _ _ E).
  - unfold getVaultData. rewrite getItem_put_same. cbn [or_null].
    rewrite dec_nonempty, parseInt_dec.
    destruct (Z.leb_spec (Z.of_nat (List.length chunks)) 0) as [Hle|_]; [lia|].
    rewrite Nat2Z.id. destruct (List.length chunks) as [|count]; [lia|].
    cbn [read_chunks].
    rewrite getItem_put_other by apply chunk_key_not_index. rewrite Hfree. reflexivity.
Qed.

Lemma cleared_remove_chunks : forall count store i,
  cleared store -> cleared (remove_chunks store i count).
Proof.
  induction count as [|count IH]; intros store i [Hk Hc]; cbn [remove_chunks]; [split; assumption|].
  apply IH. split.
  - intros k Hin. apply getItem_removed. exact (Hk k Hin).
  - rewrite getItem_remove_other by (intros E; exact (chunk_key_not_index i (eq_sym E))).
    exact Hc.
Qed.

Lemma keys_removed : forall count store i k,
  getItem store k = None -> getItem (remove_chunks store i count) k = None.
Proof.
  induction count as [|count IH]; intros store i k H; cbn [remove_chunks]; [exact H|].
  apply IH. apply getItem_removed. exact H.
Qed.

Lemma cleared_settings (B : Browser) (store : Store) (settings : value) :
  cleared store -> cleared (fst (saveSettings B store settings)).
Proof.
  intros [Hk Hc]. unfold saveSettings, save, setItem.
  destruct (B store SETTINGS_KEY _); [split; assumption|]. cbn [fst]. split.
  - intros k Hin. rewrite getItem_put_other; [exact (Hk k Hin)|].
    cbn [In] in Hin. destruct Hin as [<-|[<-|[<-|[<-|[]]]]]; discriminate.
  - rewrite getItem_put_other by discriminate. exact Hc.
Qed.

Lemma clearAllData_cleared (B : Browser) (store : Store) : cleared (clearAllData B store).
Proof.
  unfold clearAllData. cbv zeta.
  set (s4 := removeItem SHARED_PASSWORDS_KEY _).
  assert (H4 : forall k, In k [VERIFICATION_KEY; VAULT_DATA_KEY; TOTP_SECRETS_KEY;
                               SHARED_PASSWORDS_KEY] -> getItem s4 k = None).
  { intros k Hin. unfold s4. cbn [In] in Hin.
    destruct Hin as [<-|[<-|[<-|[<-|[]]]]];
      repeat first [apply getItem_remove_same | apply getItem_removed]. }
  clearbody s4.
  set (s5 := match or_null (getItem s4 chunks_key) with Some _ => _ | None => _ end).
  assert (H5 : cleared s5).
  { unfold s5. destruct (or_null (getItem s4 chunks_key)) as [chunksStr|] eqn:E.
    - split.
      + intros k Hin. apply getItem_removed.
        destruct (parseInt 10 chunksStr); [apply keys_removed|]; exact (H4 k Hin).
      + rewrite getItem_remove_same. reflexivity.
    - split; assumption. }
  clearbody s5.
  destruct (truthy (getSettings s5)); [|exact H5].
  apply cleared_settings. exact H5.
Qed.

Lemma cleared_reads (store : Store) :
  cleared store ->
  vaultExists store = false /\ getVaultData store = None /\
  getTOTPSecrets store = None /\ getSharedPasswords store = None.
Proof.
  intros [Hk Hc]. unfold vaultExists, getVerificationString, getTOTPSecrets, getSharedPasswords.
  rewrite (Hk VERIFICATION_KEY), (Hk TOTP_SECRETS_KEY), (Hk SHARED_PASSWORDS_KEY)
    by (cbn; tauto).
  rewrite getVaultData_plain by exact Hc. rewrite (Hk VAULT_DATA_KEY) by (cbn; tauto).
  repeat split.
Qed.

(** X25: whatever the store holds and whatever the browser
    answers, after [clearAllData] no vault is left in [localStorage]:
    [vaultExists] is false and [getVaultData], [getTOTPSecrets] and
    [getSharedPasswords] return null. *)
Theorem clearAllData_leaves_no_vault (B : Browser) (store : Store) :
  let store' := clearAllData B store in
  vaultExists store' = false /\ getVaultData store' = None /\
  getTOTPSecrets store' = None /\ getSharedPasswords store' = None.
Proof. apply cleared_reads, clearAllData_cleared. Qed.

End VaultDataFacts.


Lemma saveVaultData_then_getVaultData_witness :
  StorageModule.getVaultData
    (fst (StorageModule.saveVaultData (StorageModule.item_limit StorageModule.maxChunkSize)
            [] StorageModule.long_text))
  = Some StorageModule.long_text.
Proof.
  assert (E : snd (StorageModule.saveVaultData
                     (StorageModule.item_limit StorageModule.maxChunkSize)
                     [] StorageModule.long_text) = true) by (vm_compute; reflexivity).
  destruct (StorageModule.saveVaultData (StorageModule.item_limit StorageModule.maxChunkSize)
              [] StorageModule.long_text) as [store' saved] eqn:Esave.
  cbn [fst snd] in *. subst saved.
  apply (saveVaultData_then_getVaultData (StorageModule.item_limit StorageModule.maxChunkSize)
           [] store' StorageModule.long_text Esave).
  - vm_compute. reflexivity.
  - left. reflexivity.
Defined.


Lemma chunk_count_shadows_later_saves_witness :
  let store := [("aivault_vault_data_chunks", "2"); ("aivault_vault_data_0", "old ");
                ("aivault_vault_data_1", "vault")] in
  StorageModule.getVaultData store = Some "old vault" /\
  StorageModule.saveVaultData (StorageModule.item_limit StorageModule.maxChunkSize) store "new"
  = (StorageModule.put StorageModule.VAULT_DATA_KEY "new" store, true) /\
  StorageModule.getVaultData (StorageModule.put StorageModule.VAULT_DATA_KEY "new" store)
  = StorageModule.getVaultData store.
Proof.
  cbv zeta. split; [reflexivity|].
  apply (chunk_count_shadows_later_saves (StorageModule.item_limit StorageModule.maxChunkSize)
           _ "new" "2"); reflexivity.
Defined.


Lemma refused_chunk_makes_the_vault_unreadable_witness :
  let store := [("aivault_vault_data", "old vault")] in
  StorageModule.getVaultData store = Some "old vault" /\
  exists index,
    StorageModule.saveVaultData StorageModule.refuses_first_chunk store StorageModule.long_text
    = (StorageModule.put StorageModule.chunks_key index store, false) /\
    StorageModule.getVaultData (StorageModule.put StorageModule.chunks_key index store)
    = None /\
    StorageModule.getItem (StorageModule.put StorageModule.chunks_key index store)
      StorageModule.VAULT_DATA_KEY
    = StorageModule.getItem store StorageModule.VAULT_DATA_KEY.
Proof.
  cbv zeta. split; [reflexivity|].
  apply (refused_chunk_makes_the_vault_unreadable StorageModule.refuses_first_chunk).
  - reflexivity.
  - vm_compute. reflexivity.
  - intros index. reflexivity.
  - intros st chunk. discriminate.
  - reflexivity.
Defined.


(** ** The TOTP dialog *)
Section TotpDialogFacts.
Import Str JS Json Hex App TotpDialog.

Lemma trial_code_nonempty HmacSHA1 now_ms secret :
  is_empty (TOTPModule.generateTOTP HmacSHA1 now_ms secret 30 6) = false.
Proof.
  destruct (code_shape HmacSHA1 now_ms secret 30 6 ltac:(lia)) as [Hlen _].
  destruct (TOTPModule.generateTOTP HmacSHA1 now_ms secret 30 6); [discriminate Hlen|reflexivity].
Qed.

(** X26: the trial code by which [saveTOTP] checks a secret
    is never empty, so the check refuses nothing: with the vault unlocked
    and no password selected, every account and secret that are not empty
    (the secret after removal of white space, whatever its characters) are
    stored as a new entry, and no alert is shown. *)
Theorem saveTOTP_accepts_any_secret HmacSHA1 (form : TOTPForm) (now_ms : N) (now : Z) (s : state) :
  isVaultUnlocked s = true ->
  selectedPassword s = None ->
  let account := trim (totpAccount form) in
  let secret := TOTPModule.remove_whitespace (trim (totpSecret form)) in
  is_empty account = false ->
  is_empty secret = false ->
  exists events,
    saveTOTP HmacSHA1 form now_ms now s
    = (mkState (passwords s) (masterPassword s) true
         (totpSecrets s ++
          [VObj [("account", VStr account); ("secret", VStr secret);
                 ("issuer", VStr (hd EmptyString (split " " account)));
                 ("timestamp", VInt now)]])
         (sharedPasswords s) None, events, Ok tt) /\
    forall text, ~ In (Alert text) events.
Proof.
  intros Hu Hsel account secret Ha Hs.
  pose proof (trial_code_nonempty HmacSHA1 now_ms secret) as Hc.
  unfold saveTOTP. cbv zeta. fold account. fold secret.
  set (code := TOTPModule.generateTOTP _ _ _ _ _) in *.
  clearbody code account secret.
  destruct s as [pw mp un ts sh sel]. cbn [isVaultUnlocked selectedPassword] in Hu, Hsel.
  subst un sel.
  unfold bindM at 1. cbn [get isVaultUnlocked negb]. rewrite Ha, Hs, Hc. cbn [orb].
  destruct (master_password_cases mp) as [->|[->|(c & r & ->)]];
    destruct (totpTab_hidden form); cbn;
    (eexists; split; [reflexivity|]);
    intros text Hin; cbn [In] in Hin;
    repeat match goal with H : _ \/ _ |- _ => destruct H end;
    try discriminate; contradiction.
Qed.

Lemma saveTOTP_linked HmacSHA1 (form : TOTPForm) (now_ms : N) (now : Z)
    (pb pa : list value) (props : list (string * value)) mp ts sh (selected w u : value) :
  let account := trim (totpAccount form) in
  let secret := TOTPModule.remove_whitespace (trim (totpSecret form)) in
  is_empty account = false ->
  is_empty secret = false ->
  is_object selected = true ->
  get_prop selected "website" = Ok w ->
  get_prop selected "username" = Ok u ->
  accounts_equal (VObj props) selected = true ->
  Forall (fun e => is_object e = true /\ accounts_equal e selected = false) pb ->
  exists events,
    saveTOTP HmacSHA1 form now_ms now
      (mkState (pb ++ VObj props :: pa) mp true ts sh (Some selected))
    = (mkState (pb ++ VObj (update "hasTOTP" (VBool true) props) :: pa) mp true
         (ts ++
          [VObj [("account", VStr account); ("secret", VStr secret);
                 ("issuer", VStr (hd EmptyString (split " " account)));
                 ("timestamp", VInt now); ("website", w); ("username", u)]])
         sh None, events, Ok tt).
Proof.
  intros account secret Ha Hs Hsel Hw Hu Heq Hpb.
  pose proof (trial_code_nonempty HmacSHA1 now_ms secret) as Hc.
  unfold saveTOTP. cbv zeta. fold account. fold secret.
  set (code := TOTPModule.generateTOTP _ _ _ _ _) in *.
  clearbody code account secret.
  unfold bindM at 1. cbn [get isVaultUnlocked negb selectedPassword passwords].
  rewrite Ha, Hs, Hc. cbn [orb].
  assert (Ht : truthy selected = true) by (destruct selected; try discriminate Hsel; reflexivity).
  rewrite Ht, Hw, Hu.
  rewrite (findIndex_objects (VObj props) selected pb pa Hsel eq_refl Heq Hpb).
  destruct (master_password_cases mp) as [->|[->|(c & r & ->)]];
    destruct (totpTab_hidden form);
    unfold bindM, lift, ret, get, emit, set_selectedPassword, set_passwords, set_totpSecrets,
      saveVaultData;
    cbn -[replace_at nth]; rewrite nth_middle; cbn -[replace_at];
    rewrite replace_at_middle; eexists; reflexivity.
Qed.

End TotpDialogFacts.

Section TotpLinkFacts.
Import Str JS Json Hex App TotpDialog.

Lemma savePassword_with_totp (form : PasswordForm) (now : Z) pw mp ts sh sel :
  dataset_editing form <> Some "true" ->
  setupTOTP form = true ->
  let website := trim (websiteInput form) in
  let username := trim (usernameInput form) in
  is_empty website = false -> is_empty username = false ->
  is_empty (passwordInput form) = false ->
  let rec := credential website username (passwordInput form) now true in
  exists events,
    savePassword form now (mkState pw mp true ts sh sel)
    = (mkState (pw ++ [rec]) mp true ts sh (Some rec), events, Ok tt).
Proof.
  intros Hed Hsetup website username Hw Hu Hp rec.
  unfold savePassword. cbv zeta. fold website. fold username.
  unfold rec, credential. clearbody website username.
  unfold bindM at 1. cbn [get isVaultUnlocked negb passwords].
  rewrite Hw, Hu, Hp, Hsetup. cbn [orb].
  assert (E : match dataset_editing form with
              | Some t => String.eqb t "true"
              | None => false
              end = false).
  { destruct (dataset_editing form) as [t|]; [|reflexivity].
    apply String.eqb_neq. intros ->. apply Hed. reflexivity. }
  rewrite E.
  destruct (master_password_cases mp) as [->|[->|(c & r & ->)]];
    unfold bindM, lift, ret, get, emit, set_selectedPassword, set_passwords, saveVaultData,
      showTOTPModal; cbn; eexists; reflexivity.
Qed.

Lemma same_strings (a b : string) (rest1 rest2 : list (string * value)) :
  accounts_equal (VObj (("website", VStr a) :: ("username", VStr b) :: rest1))
                 (VObj (("website", VStr a) :: ("username", VStr b) :: rest2)) = true.
Proof.
  unfold accounts_equal, same_account. cbn [get_prop lookup String.eqb Ascii.eqb Bool.eqb bind].
  cbn. rewrite !String.eqb_refl. reflexivity.
Qed.

(** X27: a credential added with the TOTP box ticked, then the
    secret saved in the TOTP dialog that opens, are linked: the entry
    carries the website and username of the record, and deleting the record
    removes the entry too, which leaves both collections as they were.  No
    other record or entry of the vault has both the same website and the
    same username; records and entries of the same website under another
    username, or of the same username on another website, may be there and
    are left alone. *)
Theorem added_totp_is_deleted_with_its_password HmacSHA1 (form : PasswordForm) (dialog : TOTPForm)
    (now : Z) (now_ms : N) (now' : Z) (s : state) :
  isVaultUnlocked s = true ->
  dataset_editing form <> Some "true" ->
  setupTOTP form = true ->
  let website := trim (websiteInput form) in
  let username := trim (usernameInput form) in
  let account := trim (totpAccount dialog) in
  let secret := TOTPModule.remove_whitespace (trim (totpSecret dialog)) in
  is_empty website = false -> is_empty username = false ->
  is_empty (passwordInput form) = false ->
  is_empty account = false -> is_empty secret = false ->
  let rec := credential website username (passwordInput form) now true in
  let entry :=
    totp_entry account secret (hd EmptyString (split " " account)) now' website username in
  Forall (fun e => is_object e = true /\
                   ~ (get_prop e "website" = Ok (VStr website) /\
                      get_prop e "username" = Ok (VStr username))) (passwords s) ->
  Forall (fun e => is_object e = true /\
                   ~ (get_prop e "website" = Ok (VStr website) /\
                      get_prop e "username" = Ok (VStr username))) (totpSecrets s) ->
  exists s1 events1 s2 events2 s3 events3,
    savePassword form now s = (s1, events1, Ok tt) /\
    saveTOTP HmacSHA1 dialog now_ms now' s1 = (s2, events2, Ok tt) /\
    deletePassword (Z.of_nat (List.length (passwords s))) s2 = (s3, events3, Ok tt) /\
    passwords s2 = (passwords s ++ [rec])%list /\
    totpSecrets s2 = (totpSecrets s ++ [entry])%list /\
    passwords s3 = passwords s /\ totpSecrets s3 = totpSecrets s.
Proof.
  intros Hun Hed Hsetup website username account secret Hw Hu Hp Ha Hs rec entry Hpw Hts.
  destruct s as [pw mp un ts sh sel]. cbn [isVaultUnlocked passwords totpSecrets] in *.
  subst un.
  apply (other_accounts pw rec website username eq_refl eq_refl) in Hpw.
  apply (other_accounts ts rec website username eq_refl eq_refl) in Hts.
  destruct (savePassword_with_totp form now pw mp ts sh sel Hed Hsetup Hw Hu Hp)
    as [events1 E1].
  fold website username rec in E1.
  destruct (saveTOTP_linked HmacSHA1 dialog now_ms now' pw []
              [("website", VStr website); ("username", VStr username);
               ("password", VStr (passwordInput form)); ("lastUpdated", VInt now);
               ("hasTOTP", VBool true)] mp ts sh rec (VStr website) (VStr username)
              Ha Hs eq_refl eq_refl eq_refl (same_strings _ _ _ _) Hpw)
    as [events2 E2].
  fold account secret in E2.
  change (update "hasTOTP" (VBool true) _) with
    [("website", VStr website); ("username", VStr username);
     ("password", VStr (passwordInput form)); ("lastUpdated", VInt now);
     ("hasTOTP", VBool true)] in E2.
  fold (credential website username (passwordInput form) now true) in E2. fold rec in E2.
  fold (totp_entry account secret (hd EmptyString (split " " account)) now' website username)
    in E2.
  fold entry in E2.
  destruct (deletePassword_linked pw rec [] mp ts entry [] sh None (VBool true)
              eq_refl eq_refl eq_refl Hts eq_refl)
    as [events3 E3].
  { unfold entry, totp_entry, rec, credential, accounts_equal, same_account.
    cbn. rewrite !String.eqb_refl. reflexivity. }
  rewrite !app_nil_r in E3.
  eexists _, _, _, _, _, _.
  split; [exact E1|]. split; [exact E2|]. split; [exact E3|].
  cbn [passwords totpSecrets]. repeat split.
Qed.

End TotpLinkFacts.


Lemma saveTOTP_accepts_any_secret_witness :
  exists events,
    TotpDialog.saveTOTP TOTPModule.reference_HmacSHA1
      (TotpDialog.mkTOTPForm "Example (alice)" " 0189 !? " true) 59000 59001
      (App.mkState [] (Some "hunter2") true [] [] None)
    = (App.mkState [] (Some "hunter2") true
         [JS.VObj [("account", JS.VStr "Example (alice)"); ("secret", JS.VStr "0189!?");
                   ("issuer", JS.VStr "Example"); ("timestamp", JS.VInt 59001)]]
         [] None, events, JS.Ok tt) /\
    forall text, ~ In (App.Alert text) events.
Proof.
  exact (saveTOTP_accepts_any_secret TOTPModule.reference_HmacSHA1
           (TotpDialog.mkTOTPForm "Example (alice)" " 0189 !? " true) 59000 59001
           (App.mkState [] (Some "hunter2") true [] [] None)
           eq_refl eq_refl eq_refl eq_refl).
Defined.


Lemma added_totp_is_deleted_with_its_password_witness :
  let form := App.mkPasswordForm " example.com " "alice" "s3cret" true None None in
  let dialog := TotpDialog.mkTOTPForm "example.com (alice)" "jbsw y3dp ehpk 3pxp" true in
  let s := App.mkState [App.credential "example.com" "bob" "pw" 1 true;
                        App.credential "example.org" "alice" "pw" 1 true]
             (Some "hunter2") true
             [App.totp_entry "example.com (bob)" "JBSWY3DPEHPK3PXP" "example.com" 2
                "example.com" "bob";
              App.totp_entry "example.org (alice)" "JBSWY3DPEHPK3PXP" "example.org" 3
                "example.org" "alice"]
             [] None in
  let rec := App.credential "example.com" "alice" "s3cret" 1700000000000 true in
  let entry :=
    App.totp_entry "example.com (alice)" "jbswy3dpehpk3pxp" "example.com" 1700000000001
      "example.com" "alice" in
  exists s1 events1 s2 events2 s3 events3,
    App.savePassword form 1700000000000 s = (s1, events1, JS.Ok tt) /\
    TotpDialog.saveTOTP TOTPModule.reference_HmacSHA1 dialog 1700000000000 1700000000001 s1
    = (s2, events2, JS.Ok tt) /\
    App.deletePassword (Z.of_nat (List.length (App.passwords s))) s2
    = (s3, events3, JS.Ok tt) /\
    App.passwords s2 = (App.passwords s ++ [rec])%list /\
    App.totpSecrets s2 = (App.totpSecrets s ++ [entry])%list /\
    App.passwords s3 = App.passwords s /\ App.totpSecrets s3 = App.totpSecrets s.
Proof.
  cbv zeta.
  apply (added_totp_is_deleted_with_its_password TOTPModule.reference_HmacSHA1
           (App.mkPasswordForm " example.com " "alice" "s3cret" true None None)
           (TotpDialog.mkTOTPForm "example.com (alice)" "jbsw y3dp ehpk 3pxp" true)
           1700000000000 1700000000000 1700000000001
           (App.mkState [App.credential "example.com" "bob" "pw" 1 true;
                         App.credential "example.org" "alice" "pw" 1 true]
              (Some "hunter2") true
              [App.totp_entry "example.com (bob)" "JBSWY3DPEHPK3PXP" "example.com" 2
                 "example.com" "bob";
               App.totp_entry "example.org (alice)" "JBSWY3DPEHPK3PXP" "example.org" 3
                 "example.org" "alice"]
              [] None));
    try reflexivity; try discriminate;
    repeat constructor; intros [E1 E2]; first [discriminate E1 | discriminate E2].
Defined.

(** ** Editing a credential *)
Section EditFacts.
Import Str JS Json Hex App.

Lemma digit_is_plain (c : ascii) :
  TOTPModule.is_decimal_digit c = true ->
  is_js_space c = false /\ Ascii.eqb c "-" = false /\ Ascii.eqb c "+" = false /\
  Ascii.eqb c "x" = false /\ Ascii.eqb c "X" = false.
Proof.
  destruct c as [[] [] [] [] [] [] [] []]; intros H; try discriminate H; repeat split.
Qed.

Lemma parseInt_default_decimal (s : string) :
  TOTPModule.all_decimal s = true -> parseInt_default s = parseInt 10 s.
Proof.
  intros H. unfold parseInt_default. cbv zeta.
  destruct s as [|z r]; [reflexivity|].
  cbn [TOTPModule.all_decimal] in H. apply andb_true_iff in H. destruct H as [Hz Hr].
  destruct (digit_is_plain z Hz) as (Hs & Hm & Hp & _).
  cbn [trim_start]. rewrite Hs, Hm, Hp. cbn [orb].
  destruct r as [|x r]; [reflexivity|].
  cbn [TOTPModule.all_decimal] in Hr. apply andb_true_iff in Hr. destruct Hr as [Hx _].
  destruct (digit_is_plain x Hx) as (_ & _ & _ & Hx1 & Hx2).
  rewrite Hx1, Hx2. cbn [orb]. rewrite andb_false_r. reflexivity.
Qed.

Lemma dec_all_decimal (n : nat) : TOTPModule.all_decimal (dec (Z.of_nat n)) = true.
Proof.
  destruct (Z.of_nat n) as [|p|p] eqn:E; [reflexivity| |lia].
  rewrite dec_pos. apply string_of_uint_decimal.
Qed.

Lemma parseInt_default_dec (n : nat) : parseInt_default (dec (Z.of_nat n)) = Some (Z.of_nat n).
Proof. rewrite parseInt_default_decimal by apply dec_all_decimal. apply parseInt_dec. Qed.

Lemma savePassword_edit (form : PasswordForm) (now : Z) pb old pa mp ts sh sel :
  dataset_editing form = Some "true" ->
  dataset_editIndex form = Some (dec (Z.of_nat (List.length pb))) ->
  setupTOTP form = false ->
  let website := trim (websiteInput form) in
  let username := trim (usernameInput form) in
  is_empty website = false -> is_empty username = false ->
  is_empty (passwordInput form) = false ->
  exists events,
    savePassword form now (mkState (pb ++ old :: pa) mp true ts sh sel)
    = (mkState (pb ++ credential website username (passwordInput form) now false :: pa)
         mp true ts sh sel, events, Ok tt).
Proof.
  intros Hed Hix Hsetup website username Hw Hu Hp.
  unfold savePassword. cbv zeta. fold website. fold username.
  unfold credential. clearbody website username.
  unfold bindM at 1. cbn [get isVaultUnlocked negb passwords].
  rewrite Hw, Hu, Hp, Hsetup, Hed, Hix, parseInt_default_dec. cbn [orb].
  change (String.eqb "true" "true") with true. cbv iota.
  unfold array_set. destruct (index_in_range pb pa old) as [-> _].
  rewrite Nat2Z.id.
  assert (Hlt : (List.length pb <? List.length (pb ++ old :: pa))%nat = true)
    by (apply Nat.ltb_lt; rewrite length_app; cbn; lia).
  rewrite Hlt, replace_at_middle.
  destruct (master_password_cases mp) as [->|[->|(c & r & ->)]];
    unfold bindM, lift, ret, get, emit, set_selectedPassword, set_passwords, saveVaultData;
    cbn; eexists; reflexivity.
Qed.

Lemma deletePassword_unlinked pb rec pa mp ts sh sel h :
  get_prop rec "hasTOTP" = Ok h -> truthy h = false ->
  exists events,
    deletePassword (Z.of_nat (List.length pb)) (mkState (pb ++ rec :: pa) mp true ts sh sel)
    = (mkState (pb ++ pa) mp true ts sh sel, events, Ok tt).
Proof.
  intros Hh Ht. unfold deletePassword.
  unfold bindM at 1. cbn [get isVaultUnlocked passwords negb orb].
  destruct (index_in_range pb pa rec) as [-> ->].
  cbn [orb totpSecrets]. rewrite Nat2Z.id, nth_middle, remove_at_middle, Hh.
  destruct (master_password_cases mp) as [->|[->|(c & r & ->)]];
    unfold bindM, lift, ret, get, emit, set_passwords, saveVaultData;
    cbn; rewrite Ht; cbn; eexists; reflexivity.
Qed.

(** X28: editing a credential with the TOTP box not ticked
    replaces the record by one whose hasTOTP flag is false, whatever the
    flag was; deleting the credential afterwards removes no TOTP entry, so
    an entry that was linked to it stays in the vault. *)
Theorem edited_password_loses_its_totp_link (form : PasswordForm) (now : Z) pb old pa mp ts sh sel :
  dataset_editing form = Some "true" ->
  dataset_editIndex form = Some (dec (Z.of_nat (List.length pb))) ->
  setupTOTP form = false ->
  let website := trim (websiteInput form) in
  let username := trim (usernameInput form) in
  is_empty website = false -> is_empty username = false ->
  is_empty (passwordInput form) = false ->
  exists events1 events2,
    savePassword form now (mkState (pb ++ old :: pa) mp true ts sh sel)
    = (mkState (pb ++ credential website username (passwordInput form) now false :: pa)
         mp true ts sh sel, events1, Ok tt) /\
    deletePassword (Z.of_nat (List.length pb))
      (mkState (pb ++ credential website username (passwordInput form) now false :: pa)
         mp true ts sh sel)
    = (mkState (pb ++ pa) mp true ts sh sel, events2, Ok tt).
Proof.
  intros Hed Hix Hsetup website username Hw Hu Hp.
  destruct (savePassword_edit form now pb old pa mp ts sh sel Hed Hix Hsetup Hw Hu Hp)
    as [events1 E1].
  destruct (deletePassword_unlinked pb
              (credential website username (passwordInput form) now false) pa mp ts sh sel
              (VBool false) eq_refl eq_refl) as [events2 E2].
  exists events1, events2. split; assumption.
Qed.

End EditFacts.


Lemma edited_password_loses_its_totp_link_witness :
  let entry :=
    App.totp_entry "example.com (alice)" "JBSWY3DPEHPK3PXP" "example.com" 1 "example.com"
      "alice" in
  exists events1 events2,
    App.savePassword (App.mkPasswordForm "example.com" "alice" "changed" false (Some "true")
                        (Some "1")) 2
      (App.mkState [App.credential "example.org" "bob" "pw" 1 false;
                    App.credential "example.com" "alice" "s3cret" 1 true]
         (Some "hunter2") true [entry] [] None)
    = (App.mkState [App.credential "example.org" "bob" "pw" 1 false;
                    App.credential "example.com" "alice" "changed" 2 false]
         (Some "hunter2") true [entry] [] None, events1, JS.Ok tt) /\
    App.deletePassword 1
      (App.mkState [App.credential "example.org" "bob" "pw" 1 false;
                    App.credential "example.com" "alice" "changed" 2 false]
         (Some "hunter2") true [entry] [] None)
    = (App.mkState [App.credential "example.org" "bob" "pw" 1 false]
         (Some "hunter2") true [entry] [] None, events2, JS.Ok tt).
Proof.
  cbv zeta.
  exact (edited_password_loses_its_totp_link
           (App.mkPasswordForm "example.com" "alice" "changed" false (Some "true") (Some "1")) 2
           [App.credential "example.org" "bob" "pw" 1 false]
           (App.credential "example.com" "alice" "s3cret" 1 true) [] (Some "hunter2")
           [App.totp_entry "example.com (alice)" "JBSWY3DPEHPK3PXP" "example.com" 1
              "example.com" "alice"] [] None
           eq_refl eq_refl eq_refl eq_refl eq_refl eq_refl).
Defined.
